(* ===== verification/_CoqProject ===== *)
-Q . S2P
Prelude.v
Memory.v
CString.v
DList.v
Blocks.v
Mem5.v
Mem5Inv.v
Mem5Proofs.v
Mem5Free.v
Mem5Init.v
Mem5Spec.v
Mem5Thms.v
SyncUtils.v
Ring.v
Linear.v
Queue.v
QueueThreads.v
PageCache.v
PageCacheSpec.v
CryptoCache.v
Suvm.v
SuvmInv.v
SuvmProofs.v
SuvmThms.v
SuvmEvict.v
Aptr.v
AptrThms.v
LibC.v
LibCThms.v
AptrClient.v
LibCPairs.v
LibCBlocks.v
Microbench.v
MicrobenchThms.v
Rpc.v
RpcThms.v
Tests.v
TestsThms.v
Launch.v
LaunchThms.v
Probe.v
FaceHash.v
FaceHashThms.v
FaceHashDb.v
Lbp.v
LbpThms.v
FaceServer.v
FaceServerThms.v
FaceWorker.v
FaceSuvm.v
FaceProcess.v
SafeMem.v
GenHash.v
GenHashThms.v
FaceApp.v
FaceAppThms.v
FaceAnswers.v
GenRequests.v
ClientThms.v
ParamServer.v
ParamDirect.v
ParamLoop.v
ParamThms.v
ParamSuvm.v
ParamSuvmThms.v
ParamSuvmServer.v
Agree.v
WinSync.v
WinPageCache.v
WinCacheThms.v
WinCryptoCache.v
WinRing.v
WinLib.v
WinSuvm.v
WinSuvmThms.v
WinLibC.v
WinFace.v
WinFaceThms.v
WinLaunch.v
