(* ===== verification/Prelude.v ===== *)
(** * Eleos: exit-less services for SGX enclaves

    Eleos lets code in an SGX enclave do without two things that make it leave
    the enclave: system calls, which a worker thread outside makes for it, and
    page faults, which it takes in software, on memory kept encrypted outside.
    The repository is the library ([src/eleos_core]) and programs built on it: a
    face verification server with its workload generator and client, two
    parameter servers with theirs, and a benchmark.  Here the library and these programs are
    functions of the kernel, and theorems say what they compute.

    ** How the parts fit together

    [untrusted/init_services.cpp] allocates a pool of 2 GB outside the enclave,
    starts the worker and calls into the enclave, where [initialize_aptr] hands
    the pool to the buddy allocator [memsys5] and makes 16384 pages of the
    enclave's memory the cache of the pool's pages.  A pointer [Aptr<T>] into a
    block of the pool is dereferenced in the enclave: its page is looked for in
    the page cache, or brought in: a slot is freed by encrypting the oldest page
    nobody refers to back into the pool, with a fresh nonce that the crypto
    cache keeps with the tag, and the wanted page is decrypted and checked.  The
    address of the slot carries the dirty bit in its low bit; the page cache
    counts the pointers linked to each page in a byte.  A call out of the enclave
    is a request in a block of the same pool, put in a queue the worker polls,
    and a word the caller spins on.  The face server keeps its histograms in
    blocks of the pool and takes requests from, and gives answers to, the
    application through two such queues; the parameter server keeps its table of
    counters in one block.

    ** The files, and what of the source they model

    A routine of the source is a function of the state and outcome monad [M]
    below; it has the source's name, and its state is a record with the source's
    fields.  An outcome is a value, [EAbort] (an [abort] or a failed assertion),
    [ESpin] (a lock nobody will release), [EUndef] (undefined behaviour: an access
    out of an array, a loop of the C library past its buffer) or [EFuel].
    Integers are [Z], wrapped by [u8], [i32], [u64], ... where the source's type
    does.  Memory outside the enclave and the slots are maps from addresses to
    bytes ([Memory]).  [CString] has the C library's strings and the bytes of an
    array of integers.  Files named below without a directory are in [eleos_core].

    - The allocator.  [Mem5]: every routine of [mem.cpp]; the free lists run
      through the free blocks themselves, and the control bytes follow the
      blocks, all in the pool's memory.  [DList] and [Blocks] are the two abstract
      structures, linked lists in an array and partitions into power-of-two
      blocks; [Mem5Inv] ties the heap to them; [Mem5Proofs], [Mem5Free] and
      [Mem5Init] prove the routines; [Mem5Spec] is the contract, by the map of
      the outstanding blocks only, with a client of it as a step relation;
      [Mem5Thms] has the theorems.
    - Locks and queues.  [SyncUtils]: [SyncUtils.cpp] as steps of any number of
      threads and as a routine of one.  [Queue]: [Queue.cpp], over [Ring], which
      is also the interface ([Fifo]) the clients of a queue are proved against.
      [Linear]: any object behind a spin lock, its methods as sequences of memory
      accesses that threads interleave, simulated by the object whose methods
      happen at once.  [QueueThreads]: the queue is such an object.
    - The page cache and the crypto cache.  [PageCache], [PageCacheSpec] and
      [CryptoCache]: [PageCache.h], [CryptoCache.h], [DataStructures.h].
    - Paging.  [Suvm]: [Aptr.cpp] and the [aptr_t] of [Aptr.h], over the size of
      the cache, which a build fixes ([Build]).  [SuvmInv]: the
      invariant, which ties the two caches, the slots and the pool to the
      contents of the pages [V], to where they are cached [C], and to the list [L]
      of the pages linked pointers hold.  [SuvmProofs], [SuvmThms], [SuvmEvict]:
      its preservation by every routine, and theorems; the end of [SuvmThms] puts
      the allocator and paging on one pool: pages with contents lie in
      outstanding blocks.
    - Pointers.  [Aptr], [AptrThms]: the class [Aptr<T>].  [AptrClient]: programs
      over pointers, and the same programs on an array of bytes.  [LibC] and
      [LibCThms], [LibCPairs], [LibCBlocks]: [memset], [memcpy], [memmove], [memcmp] and
      [strncmp] over pointers, at the end of [Aptr.cpp].
    - The benchmark ([src/suvm_read_write_sample]).  [Microbench],
      [MicrobenchThms]: arrays read and written in ordinary memory, behind the
      paging layer, and outside the enclave.
    - The library's tests ([src/suvm_samples]).  [Tests], [TestsThms]: the tests of
      the allocator and of pointers, and the call that runs them.
    - Calls out and initialisation.  [Rpc], [RpcThms]: [rpc_ocall.cpp],
      [rpc_worker.cpp], [lib_services.cpp], [init_services.cpp].
    - Starting an enclave.  [Launch], [LaunchThms]: the launch token and the error
      messages, in the [sample.cpp] of every program; the home directory, the
      current directory and the SDK's loader are parameters.  [WinLaunch]: on Windows.
    - The face verification server ([src/face_verification_server]).  [Probe] is
      linear probing.  [FaceHash] with [FaceHashThms], [FaceHashDb]: the database of
      [face_verification.cpp], over an interface for where values are kept
      ([ValueStore] with [ValueLaws]); ordinary memory and the pool implement it.
      [Lbp], [LbpThms]: histograms and their distance in IEEE single
      precision.  [FaceServer], [FaceServerThms], [FaceWorker]: filling the
      database and the worker.  [FaceSuvm]: the enclave's file and the pool as a
      store.  [FaceProcess]: the file of the ordinary process.
      [FaceApp], [FaceAppThms], [FaceAnswers]: [sample.cpp] and the callbacks of
      [echoserver_threaded.cpp].  [SafeMem]: [memset_s] and [consttime_memequal].
    - Its workload ([workload_generator]).  [GenHash], [GenHashThms],
      [GenRequests]: [generate_encrypted_dataset.c].  [ClientThms]:
      [face_detection_client.c].
    - The parameter servers ([src/parameter_server], [src/parameter_server_suvm],
      [src/client_parameter_server]).  [ParamServer], [ParamLoop]: the exchange
      with the untrusted side and the loop, over an interface of tables of
      counters ([CounterTable]).  [ParamDirect], [ParamThms]: the table in
      ordinary memory.  [ParamSuvm], [ParamSuvmThms], [ParamSuvmServer]: the
      table in the pool.  [ParamThms] also has the client.
    - The port to Windows ([src/win/SUVM]), where it differs.  [WinSync]: its
      locks.  [WinPageCache]: its page cache; [WinCacheThms] compares it, call by
      call, with [PageCache] ([Agree]: when two routines end the same way), and
      [WinRing] follows its ring past the wrap of the counter.  [WinCryptoCache]:
      its crypto cache.  [WinLib]: its allocator and comparisons.  [WinSuvm],
      [WinSuvmThms]: its paging layer and pointers, against [Suvm] and [Aptr] with
      the port's build.  [WinLibC]: its C-style routines.  [WinFace], [WinFaceThms]: its face server.

    Code that is not the repository's is a parameter: AES-GCM and random numbers
    ([Sgx] with [SgxLaws]: decryption undoes encryption under the same key and
    nonce, and with valid arguments and memory enough encryption succeeds; where it
    does not, the model aborts as the code does).  [DUMMY] is one byte that the
    code reads as eight: the other seven are a parameter too ([dummy_word]), and
    the theorems take them to be 0.  Parameters are also AES-CTR ([AesCtr], [AesCtrLaws]), status codes ([SgxStatus]), what
    [malloc], directories, files, sockets and timers return.

    ** What the theorems show

    - Allocator: [malloc] returns a block exactly when an aligned free run of the
      size exists, and blocks are disjoint; [free] merges as far as possible and
      leaves every other block's bytes alone; once a client has freed everything, in any order, the whole
      pool can be allocated again; [realloc] keeps contents; no client that stays
      in its blocks can break it.
    - Paging: a fault, an eviction, a load and a store do to the contents of the
      pages what they would on plain memory, whatever is cached; a page the
      untrusted side has changed aborts the enclave; the victim is the oldest
      page nobody holds; the caches refine maps.  [AptrClient] sums it up: a
      program over pointers prints what it prints on an array of bytes, where a
      pointer assigned to itself is null afterwards, as the code has it.
    - Threads: mutual exclusion; the queue is linearizable.
    - Calls: a call the worker serves is made once and returns; one that nobody
      serves never returns.
    - Face server: from the enclave's initialisation to the distances it answers
      with, through allocator, paging and database; a request from the client's
      bytes to the client's answer, given a buffer with room for the request, which
      the callback's is not by four bytes; each answer goes to its own connection; the
      tables of patterns, histograms and distances mean what they should.
    - Generator and client: a message of the dataset decrypts to its request where
      its encryption succeeded, repeats the text before it where not, and reaches
      the client it is for.  Parameter servers: from the initialisation to counters
      that are the numbers of occurrences of the keys; and, with the repository's
      own client, both sides wait for ever after one buffer, as the server writes
      its one byte only when its loops are over.
    - Benchmark: from the initialisation to the last item read, no sanity check
      fails, whatever is drawn and evicted.
    - Tests: from the initialisation on, every test passes.
    - Starting: the launch token one start saves is the one the next start gives
      to the loader, of any program that takes its token from the same file (a
      path without a home directory is relative to the program's own); no start gives it anything but a token it
      returned, the file's first content or zeros.
    - Port: every program over pointers and the C-style routines whose run is
      defined runs as with the original built with the port's cache, and the filling of the database is
      the original's, up to 2^32 insertions into the ring, padding bytes that are 0 and an
      application that answers with the names of the files.
    - Where the code fails its purpose, a theorem states what it does instead:
      the wrap of the byte of references, copies of pointers stepped back over a
      page, comparisons, the overflow of the queue's counters, names of 40
      characters, a full table, a message four bytes longer than its buffer, a pointer
      assigned to itself, an encryption that fails unnoticed, the wrap of the port's ring, padding taken for part of a lock.

    ** Bounds and fuel

    [LOOP_FUEL] is 32, more than the number of bits of a block size; every loop of
    [memsys5] is proved to end within it for requests up to 2^30 bytes.
    [EVICT_FUEL] is the number of slots, and the choice of a victim is proved to
    end within it when some page is free, and never to end otherwise.  A search
    of a hash table has the number of its slots; the [memmove]s one more than the
    length; the growth of the generator's buffer 64 doublings of a 64-bit size;
    writes and sends to a file or socket 16 rounds, each complete; the loops over
    a queue or a connection one more than what is in it.  No theorem of
    correctness has a run that ends in [EFuel]: they state that the routine
    returns.  [EFuel] appears as a conclusion where the loop never ends, for
    every fuel.

    [PoolBase] is a ghost parameter of the paging invariant: the pool as the
    allocator left it, which paging may change only on pages with contents.

    ** Not modelled

    - Paging is one thread's: the locks of the caches' buckets are taken and
      released, but two threads' faults do not interleave.  The lock order of
      [PageCache.h] and [APTR_RANDOM_ACCESS], which is off, are left out.
    - Every [main] (arguments, sockets, [pthread_create]), [libevent]'s set-up,
      timing, counters and printing: input and output only.
    - Of the library's tests ([suvm_samples]): those nothing calls
      ([rpc_tester.cpp], [test_set_to_null]), and running them in four threads at
      once.  The half of the benchmark under [TEST_SINGLE_APTR], which is off.
    - [cleanup_resources], which nothing calls.
    - Of [src/win]: the test programs ([Enclave_Test], [App_Test]).
    - The second copy of [echoserver_threaded.cpp], which nothing builds,
      [src/Edger] (a tool of the SDK, in OCaml), and generated bridge code ([*_t.c], [*_u.c], [ocalls.h]). *)

From Stdlib Require Export ZArith Lia Bool.
From stdpp Require Export base numbers gmap list.
Open Scope Z_scope.

(** ** Outcomes of a C++ routine

    A routine either returns or ends in one of the ways below. *)

Inductive error : Type :=
  | EAbort  (** [abort()], a failing [ASSERT] or a failing [assert] *)
  | ESpin   (** [spin_lock] on a lock nobody will release: never returns *)
  | EUndef  (** undefined behaviour, such as an access out of an array *)
  | EFuel.  (** the fuel given to a loop ran out: the loop did not finish *)

Inductive res (A : Type) : Type :=
  | Ok (a : A)
  | Err (e : error).
Arguments Ok {A} a.
Arguments Err {A} e.

(** ** The state and outcome monad of the modelled routines *)

Definition M (S A : Type) : Type := S → res (A * S).

#[export] Instance M_ret S : MRet (M S) := λ A a s, Ok (a, s).
#[export] Instance M_bind S : MBind (M S) := λ A B k m s,
  match m s with
  | Ok (a, s') => k a s'
  | Err e => Err e
  end.

Definition gets {S A} (f : S → A) : M S A := λ s, Ok (f s, s).
Definition modify {S} (f : S → S) : M S unit := λ s, Ok (tt, f s).
Definition fail {S A} (e : error) : M S A := λ _, Err e.
Definition massert {S} (b : bool) : M S unit :=
  λ s, if b then Ok (tt, s) else Err EAbort.
(** A routine of a component run on the component's part of a larger state. *)
Definition zoom {S T A} (get : S → T) (put : T → S → S) (m : M T A) : M S A :=
  λ s, match m (get s) with
       | Ok (a, t) => Ok (a, put t s)
       | Err e => Err e
       end.

(** An access that is undefined behaviour where there is nothing to access. *)
Definition defined {S A} (o : option A) : M S A :=
  match o with Some a => mret a | None => fail EUndef end.

Lemma bind_defined {S A B} (o : option A) (a : A) (k : A → M S B) s :
  o = Some a → (defined o ≫= k) s = k a s.
Proof. by intros ->. Qed.

Lemma bind_zoom {S T A B} (get : S → T) put (m : M T A) (k : A → M S B) s a t :
  m (get s) = Ok (a, t) → (zoom get put m ≫= k) s = k a (put t s).
Proof. unfold mbind, M_bind, zoom. by intros ->. Qed.

Lemma Ok_inj {S A} (a b : A) (s s' : S) : Ok (a, s) = Ok (b, s') → a = b ∧ s = s'.
Proof. by intros [= -> ->]. Qed.

Lemma bind_ret {S A B} (a : A) (k : A → M S B) s : (mret a ≫= k) s = k a s.
Proof. reflexivity. Qed.

Lemma bind_gets {S A B} (f : S → A) (k : A → M S B) s :
  (gets f ≫= k) s = k (f s) s.
Proof. reflexivity. Qed.

Lemma bind_modify {S B} (f : S → S) (k : unit → M S B) s :
  (modify f ≫= k) s = k tt (f s).
Proof. reflexivity. Qed.

Lemma bind_Ok {S A B} (m : M S A) (k : A → M S B) s a s' :
  m s = Ok (a, s') → (m ≫= k) s = k a s'.
Proof. unfold mbind, M_bind. by intros ->. Qed.

Lemma bind_Err {S A B} (m : M S A) (k : A → M S B) s e :
  m s = Err e → (m ≫= k) s = Err e.
Proof. unfold mbind, M_bind. by intros ->. Qed.

Lemma bind_assert {S B} b (k : unit → M S B) s :
  b = true → (massert b ≫= k) s = k tt s.
Proof. by intros ->. Qed.

Lemma bind_if {S A B} (b : bool) (m1 m2 : M S A) (k : A → M S B) :
  (if b then m1 else m2) ≫= k = if b then m1 ≫= k else m2 ≫= k.
Proof. by destruct b. Qed.

Lemma bind_assoc {S A B C} (m : M S A) (k : A → M S B) (h : B → M S C) s :
  ((m ≫= k) ≫= h) s = (m ≫= (λ a, k a ≫= h)) s.
Proof. unfold mbind, M_bind. by destruct (m s) as [[a s']|e]. Qed.

Lemma bind_ret_r {S A} (m : M S A) s : (m ≫= mret) s = m s.
Proof. unfold mbind, M_bind. by destruct (m s) as [[a s']|e]. Qed.

Lemma bind_Ok_inv {S A B} (m : M S A) (k : A → M S B) s b s'' :
  (m ≫= k) s = Ok (b, s'') → ∃ a s', m s = Ok (a, s') ∧ k a s' = Ok (b, s'').
Proof. unfold mbind, M_bind. destruct (m s) as [[a s']|e]; naive_solver. Qed.

(** ** Machine integers

    A w-bit integer is a [Z]; the conversions wrap around as the x86-64
    compilers do. *)

Definition u8 (z : Z) : Z := z mod 2 ^ 8.
Definition u32 (z : Z) : Z := z mod 2 ^ 32.
Definition u64 (z : Z) : Z := z mod 2 ^ 64.
Definition i8 (z : Z) : Z := (z + 2 ^ 7) mod 2 ^ 8 - 2 ^ 7.
Definition i32 (z : Z) : Z := (z + 2 ^ 31) mod 2 ^ 32 - 2 ^ 31.
Definition i64 (z : Z) : Z := (z + 2 ^ 63) mod 2 ^ 64 - 2 ^ 63.

Lemma u8_id z : 0 ≤ z < 256 → u8 z = z.
Proof. intros. unfold u8. apply Z.mod_small. lia. Qed.
Lemma u32_id z : 0 ≤ z < 2 ^ 32 → u32 z = z.
Proof. intros. unfold u32. by apply Z.mod_small. Qed.
Lemma u64_id z : 0 ≤ z < 2 ^ 64 → u64 z = z.
Proof. intros. unfold u64. by apply Z.mod_small. Qed.
Lemma i32_id z : - 2 ^ 31 ≤ z < 2 ^ 31 → i32 z = z.
Proof. intros. unfold i32. rewrite Z.mod_small; lia. Qed.
Lemma i64_id z : - 2 ^ 63 ≤ z < 2 ^ 63 → i64 z = z.
Proof. intros. unfold i64. rewrite Z.mod_small; lia. Qed.
Lemma u8_u8 z : u8 (u8 z) = u8 z.
Proof. unfold u8. by rewrite Zmod_mod. Qed.
Lemma u8_range z : 0 ≤ u8 z < 256.
Proof. unfold u8. by apply Z.mod_pos_bound. Qed.
Lemma u32_range z : 0 ≤ u32 z < 2 ^ 32.
Proof. unfold u32. by apply Z.mod_pos_bound. Qed.
Lemma u64_range z : 0 ≤ u64 z < 2 ^ 64.
Proof. unfold u64. by apply Z.mod_pos_bound. Qed.
Lemma i32_range z : - 2 ^ 31 ≤ i32 z < 2 ^ 31.
Proof. unfold i32. pose proof (Z.mod_pos_bound (z + 2 ^ 31) (2 ^ 32)). lia. Qed.
Lemma i32_i32 z : i32 (i32 z) = i32 z.
Proof. apply i32_id. pose proof (i32_range z). lia. Qed.
Lemma i32_u32 z : i32 (u32 z) = i32 z.
Proof.
  unfold i32, u32. f_equal.
  by rewrite <- Zplus_mod_idemp_l, Zmod_mod, Zplus_mod_idemp_l.
Qed.
Lemma u32_i32 z : u32 (i32 z) = u32 z.
Proof.
  unfold i32, u32. rewrite Zminus_mod_idemp_l. f_equal. lia.
Qed.

Lemma i32_add_l x y : i32 (i32 x + y) = i32 (x + y).
Proof.
  unfold i32. f_equal.
  replace ((x + 2 ^ 31) mod 2 ^ 32 - 2 ^ 31 + y + 2 ^ 31) with ((x + 2 ^ 31) mod 2 ^ 32 + y) by lia.
  rewrite Zplus_mod_idemp_l. f_equal. lia.
Qed.
Lemma i32_add_r x y : i32 (x + i32 y) = i32 (x + y).
Proof. by rewrite Z.add_comm, i32_add_l, Z.add_comm. Qed.

Create Rewrite HintDb cint.
#[export] Hint Rewrite i32_u32 u32_i32 : cint.
#[export] Hint Rewrite u8_id u32_id u64_id i32_id i64_id using lia : cint.

(** ** Powers of two and alignment *)

Lemma pow2_pos k : 0 ≤ k → 0 < 2 ^ k.
Proof. intros. by apply Z.pow_pos_nonneg. Qed.

Lemma pow2_S k : 0 ≤ k → 2 ^ (k + 1) = 2 * 2 ^ k.
Proof. intros. rewrite Z.pow_add_r; lia. Qed.

Lemma pow2_pred k : 0 < k → 2 ^ k = 2 * 2 ^ (k - 1).
Proof. intros. rewrite <- pow2_S by lia. f_equal. lia. Qed.

Lemma pow2_divide k k' : 0 ≤ k ≤ k' → (2 ^ k | 2 ^ k').
Proof.
  intros. exists (2 ^ (k' - k)). rewrite <- Z.pow_add_r by lia. f_equal. lia.
Qed.

Lemma pow2_le k k' : k ≤ k' → 2 ^ k ≤ 2 ^ k'.
Proof. intros. apply Z.pow_le_mono_r; lia. Qed.

(** Two multiples of [m] closer than [m] are equal. *)
Lemma divide_close m a b : 0 < m → (m | a) → (m | b) → a ≤ b < a + m → a = b.
Proof.
  intros Hm [x ->] [y ->] ?.
  assert (x ≤ y) by (apply (Z.mul_le_mono_pos_r _ _ m); lia).
  assert (y < x + 1) by (apply (Z.mul_lt_mono_pos_r m); lia).
  f_equal. lia.
Qed.

(** A multiple of [m] in an [m']-aligned block, where [m'] is a multiple of
    [m], leaves room for [m] more. *)
Lemma divide_room m a b : 0 < m → (m | a) → (m | b) → a < b → a + m ≤ b.
Proof.
  intros Hm [x ->] [y ->] ?.
  assert (x < y) by (apply (Z.mul_lt_mono_pos_r m); lia). nia.
Qed.

(** ** Lists *)

Lemma length_omap_le {A B} (f : A → option B) l : (length (omap f l) ≤ length l)%nat.
Proof.
  induction l as [|x l IH]; simpl; [done|]. change (list_omap A B f l) with (omap f l).
  destruct (f x); simpl; lia.
Qed.

Lemma omap_shorter {A B} (f : A → option B) l x :
  x ∈ l → f x = None → (length (omap f l) < length l)%nat.
Proof.
  intros Hx Hf. induction l as [|y l IH]; [by apply elem_of_nil in Hx|].
  simpl. change (list_omap A B f l) with (omap f l). apply elem_of_cons in Hx as [<-|Hx].
  - rewrite Hf. pose proof (length_omap_le f l). lia.
  - specialize (IH Hx). destruct (f y); simpl; lia.
Qed.

(** ** Function update *)

Definition fupd {A} (f : Z → A) (k : Z) (v : A) : Z → A :=
  λ j, if decide (j = k) then v else f j.

Lemma fupd_eq {A} (f : Z → A) k v : fupd f k v k = v.
Proof. unfold fupd. by rewrite decide_True. Qed.
Lemma fupd_ne {A} (f : Z → A) k v j : j ≠ k → fupd f k v j = f j.
Proof. intros. unfold fupd. by rewrite decide_False. Qed.

Create Rewrite HintDb mstep.
#[export] Hint Rewrite @bind_ret @bind_gets @bind_modify @bind_assoc : mstep.
#[export] Hint Rewrite @bind_assert using (by auto) : mstep.
#[export] Hint Rewrite @bind_if : mstep.

(** ** Tactics of the development *)

(** Runs the straight-line prefix of a monadic routine. *)
Ltac mrun := cbv beta iota zeta; autorewrite with mstep; cbv beta iota zeta.

(** Splits the boolean conjunctions of comparisons in the goal. *)
Ltac bool_lia :=
  repeat (rewrite andb_true_iff || rewrite orb_true_iff);
  repeat (rewrite Z.leb_le || rewrite Z.ltb_lt || rewrite Z.eqb_eq
          || rewrite Z.leb_gt || rewrite Z.ltb_ge || rewrite Z.eqb_neq);
  lia.

(** Case analysis on an integer comparison of the goal. *)
Ltac zcase :=
  match goal with
  | |- context [?a <? ?b] => destruct (Z.ltb_spec a b)
  | |- context [?a <=? ?b] => destruct (Z.leb_spec a b)
  | |- context [?a =? ?b] => destruct (Z.eqb_spec a b)
  end.
