(* ===== verification/Memory.v ===== *)
(** * Byte-addressed memory

    The untrusted backing store and the enclave's page buffers are byte
    arrays; the allocator keeps 32-bit integers in the first one.  A memory is
    a finite map from addresses to bytes, read modulo 256, as 0 where it has no
    entry. *)

From S2P Require Import Prelude.

Abbreviation memory := (gmap Z Z).

Definition rd8 (m : memory) (a : Z) : Z := u8 (default 0 (m !! a)).
Definition wr8 (m : memory) (a v : Z) : memory := <[a := u8 v]> m.

(** Little-endian 32-bit integers. *)
Definition load32 (m : memory) (a : Z) : Z :=
  i32 (rd8 m a + 2 ^ 8 * rd8 m (a + 1) + 2 ^ 16 * rd8 m (a + 2)
       + 2 ^ 24 * rd8 m (a + 3)).
Definition store32 (m : memory) (a v : Z) : memory :=
  wr8 (wr8 (wr8 (wr8 m a v) (a + 1) (v / 2 ^ 8)) (a + 2) (v / 2 ^ 16))
      (a + 3) (v / 2 ^ 24).

(** Byte ranges: what [memcpy] and the AES routines read and write. *)
Fixpoint load_bytes (m : memory) (a : Z) (n : nat) : list Z :=
  match n with
  | O => []
  | S n' => rd8 m a :: load_bytes m (a + 1) n'
  end.
Fixpoint store_bytes (m : memory) (a : Z) (l : list Z) : memory :=
  match l with
  | [] => m
  | v :: l' => store_bytes (wr8 m a v) (a + 1) l'
  end.

(** ** Lemmas *)

Lemma rd8_wr8_eq m a v : rd8 (wr8 m a v) a = u8 v.
Proof. unfold rd8, wr8. rewrite lookup_insert_eq. apply u8_u8. Qed.

Lemma rd8_wr8_ne m a b v : a ≠ b → rd8 (wr8 m a v) b = rd8 m b.
Proof. intros. unfold rd8, wr8. by rewrite lookup_insert_ne. Qed.

Lemma rd8_store32_ne m a v b : b < a ∨ a + 4 ≤ b → rd8 (store32 m a v) b = rd8 m b.
Proof. intros. unfold store32. rewrite !rd8_wr8_ne by lia. done. Qed.

Lemma load32_wr8_ne m a v b : a < b ∨ b + 4 ≤ a → load32 (wr8 m a v) b = load32 m b.
Proof. intros. unfold load32. rewrite !rd8_wr8_ne by lia. done. Qed.

Lemma load32_ext m m' a :
  (∀ b, a ≤ b < a + 4 → rd8 m b = rd8 m' b) → load32 m a = load32 m' a.
Proof. intros H. unfold load32. by rewrite !H by lia. Qed.

Lemma load32_store32_ne m a v b :
  b + 4 ≤ a ∨ a + 4 ≤ b → load32 (store32 m a v) b = load32 m b.
Proof. intros. apply load32_ext. intros. apply rd8_store32_ne. lia. Qed.

Lemma bytes_of_word v :
  u8 v + 2 ^ 8 * u8 (v / 2 ^ 8) + 2 ^ 16 * u8 (v / 2 ^ 16)
  + 2 ^ 24 * u8 (v / 2 ^ 24) = u32 v.
Proof. unfold u8, u32. Z.div_mod_to_equations. lia. Qed.

Lemma load32_store32_eq m a v : load32 (store32 m a v) a = i32 v.
Proof.
  unfold load32, store32.
  rewrite rd8_wr8_ne, rd8_wr8_ne, rd8_wr8_ne, rd8_wr8_eq by lia.
  rewrite rd8_wr8_ne, rd8_wr8_ne, rd8_wr8_eq by lia.
  rewrite rd8_wr8_ne, rd8_wr8_eq, rd8_wr8_eq by lia.
  by rewrite bytes_of_word, i32_u32.
Qed.

Lemma u8_rd8 m a : u8 (rd8 m a) = rd8 m a.
Proof. apply u8_u8. Qed.

Lemma u8_load_bytes m a n : u8 <$> load_bytes m a n = load_bytes m a n.
Proof. revert a. induction n; intros; simpl; [done|]. by rewrite u8_rd8, IHn. Qed.

Lemma length_load_bytes m a n : length (load_bytes m a n) = n.
Proof. revert a. induction n; intros; simpl; auto. Qed.

Lemma rd8_store_bytes_ne m a l b :
  b < a ∨ a + Z.of_nat (length l) ≤ b → rd8 (store_bytes m a l) b = rd8 m b.
Proof.
  revert m a. induction l as [|v l IH]; intros m a Hb; simpl in *; [done|].
  rewrite IH by lia. apply rd8_wr8_ne. lia.
Qed.

Lemma load_bytes_ext m m' a n :
  (∀ b, a ≤ b < a + Z.of_nat n → rd8 m b = rd8 m' b) →
  load_bytes m a n = load_bytes m' a n.
Proof.
  revert a. induction n as [|n IH]; intros a H; simpl; [done|].
  f_equal; [apply H; lia|]. apply IH. intros. apply H. lia.
Qed.

Lemma load_store_bytes_eq m a l :
  load_bytes (store_bytes m a l) a (length l) = u8 <$> l.
Proof.
  revert m a. induction l as [|v l IH]; intros m a; simpl; [done|].
  rewrite IH. f_equal. rewrite rd8_store_bytes_ne by lia. apply rd8_wr8_eq.
Qed.

Lemma load_store_bytes_ne m a l b n :
  b + Z.of_nat n ≤ a ∨ a + Z.of_nat (length l) ≤ b →
  load_bytes (store_bytes m a l) b n = load_bytes m b n.
Proof. intros. apply load_bytes_ext. intros. apply rd8_store_bytes_ne. lia. Qed.

Lemma lookup_load_bytes m a n k :
  (k < n)%nat → load_bytes m a n !! k = Some (rd8 m (a + Z.of_nat k)).
Proof.
  revert a k. induction n as [|n IH]; intros a k Hk; [lia|].
  destruct k as [|k]; simpl; [by rewrite Z.add_0_r|].
  rewrite IH by lia. do 2 f_equal. lia.
Qed.

Lemma load_bytes_wr8 m a n k v :
  (k < n)%nat →
  load_bytes (wr8 m (a + Z.of_nat k) v) a n = <[k := u8 v]> (load_bytes m a n).
Proof.
  intros Hk. apply list_eq. intros j. destruct (decide (j < n)%nat) as [Hj|Hj].
  - rewrite lookup_load_bytes by done. destruct (decide (j = k)) as [->|Hne].
    + by rewrite list_lookup_insert_eq, rd8_wr8_eq by (by rewrite length_load_bytes).
    + rewrite list_lookup_insert_ne, lookup_load_bytes by done.
      by rewrite rd8_wr8_ne by lia.
  - rewrite !lookup_ge_None_2; [done| |]; rewrite ?length_insert, length_load_bytes; lia.
Qed.

Create Rewrite HintDb mem.
#[export] Hint Rewrite load32_store32_eq rd8_wr8_eq : mem.
#[export] Hint Rewrite rd8_wr8_ne rd8_store32_ne load32_wr8_ne load32_store32_ne
  using lia : mem.
