(* ===== verification/CString.v ===== *)
(** * C strings and arrays of bytes

    The string routines of the C library the programs use, on the bytes a
    pointer points to: reading past the last of them is undefined, and comes
    out as [None].  Before them, the bytes of an array of integers. *)

From S2P Require Import Prelude.

(** ** Arrays of integers in memory

    The bytes of an [int] and of an array of them, least significant first, and
    the way back. *)

Definition bytes_of_int (v : Z) : list Z := [u8 v; u8 (v / 2 ^ 8); u8 (v / 2 ^ 16); u8 (v / 2 ^ 24)].
Definition int_of_bytes (b0 b1 b2 b3 : Z) : Z := i32 (b0 + 2 ^ 8 * b1 + 2 ^ 16 * b2 + 2 ^ 24 * b3).
Fixpoint bytes_of_ints (l : list Z) : list Z :=
  match l with
  | [] => []
  | v :: l' => bytes_of_int v ++ bytes_of_ints l'
  end.
Fixpoint ints_of_bytes (b : list Z) : list Z :=
  match b with
  | b0 :: b1 :: b2 :: b3 :: b' => int_of_bytes b0 b1 b2 b3 :: ints_of_bytes b'
  | _ => []
  end.

(** ** Arrays of integers as bytes *)

Lemma int_bytes v : int_of_bytes (u8 v) (u8 (v / 2 ^ 8)) (u8 (v / 2 ^ 16)) (u8 (v / 2 ^ 24)) = i32 v.
Proof.
  unfold int_of_bytes. rewrite <- (i32_u32 v). f_equal. unfold u8, u32. Z.div_mod_to_equations. lia.
Qed.

Lemma ints_bytes l : ints_of_bytes (bytes_of_ints l) = i32 <$> l.
Proof.
  induction l as [|v l IH]; [done|]. cbn [bytes_of_ints bytes_of_int app ints_of_bytes fmap list_fmap].
  rewrite int_bytes. f_equal. exact IH.
Qed.

Lemma bytes_int b0 b1 b2 b3 :
  0 ≤ b0 < 256 → 0 ≤ b1 < 256 → 0 ≤ b2 < 256 → 0 ≤ b3 < 256 →
  bytes_of_int (int_of_bytes b0 b1 b2 b3) = [b0; b1; b2; b3].
Proof.
  intros H0 H1 H2 H3. unfold bytes_of_int, int_of_bytes, i32, u8.
  f_equal; [|f_equal; [|f_equal; [|f_equal]]]; Z.div_mod_to_equations; lia.
Qed.

Lemma length_bytes_of_ints l : Z.of_nat (length (bytes_of_ints l)) = 4 * Z.of_nat (length l).
Proof. induction l as [|v l IH]; [done|]. cbn [bytes_of_ints]. rewrite length_app. simpl. lia. Qed.

Lemma u8_bytes_of_ints l : u8 <$> bytes_of_ints l = bytes_of_ints l.
Proof.
  induction l as [|v l IH]; [done|]. cbn [bytes_of_ints]. rewrite fmap_app, IH. f_equal.
  unfold bytes_of_int. cbn. by rewrite !u8_u8.
Qed.

Lemma ints_of_bytes_i32 b x : x ∈ ints_of_bytes b → i32 x = x.
Proof.
  revert x. induction b as [b IH] using (induction_ltof1 _ (@length Z)). unfold ltof in IH. intros x Hx.
  destruct b as [|b0 [|b1 [|b2 [|b3 b]]]]; try by apply elem_of_nil in Hx.
  cbn [ints_of_bytes] in Hx. apply elem_of_cons in Hx as [->|Hx]; [apply i32_i32|].
  apply (IH b); [simpl; lia|done].
Qed.

(** The characters before the terminator. *)
Fixpoint cstr (b : list Z) : option (list Z) :=
  match b with
  | [] => None
  | c :: b' => if c =? 0 then Some [] else (c ::.) <$> cstr b'
  end.

(** [strcmp(a, b) == 0]. *)
Fixpoint strcmp_eq (a b : list Z) : option bool :=
  match a, b with
  | x :: a', y :: b' =>
      if x =? y then if x =? 0 then Some true else strcmp_eq a' b' else Some false
  | _, _ => None
  end.

(** What [strncpy] with bound [n] writes: [n] bytes, unterminated where the
    string has [n] characters or more. *)
Fixpoint strncpy (n : nat) (src : list Z) : option (list Z) :=
  match n with
  | O => Some []
  | S n' =>
      match src with
      | [] => None
      | c :: src' => if c =? 0 then Some (replicate n 0) else (c ::.) <$> strncpy n' src'
      end
  end.

(** [strcpy] into a buffer of [n] bytes that held [old]. *)
Definition strcpy (n : nat) (old src : list Z) : option (list Z) :=
  s ← cstr src;
  if decide (length s < n)%nat then Some (s ++ 0 :: drop (S (length s)) old) else None.

(** [strtok(s, delim)] on a fresh string with one delimiter: the first token,
    terminated in place. *)
Fixpoint token (delim : Z) (s : list Z) : list Z :=
  match s with
  | [] => []
  | c :: s' => if c =? delim then [] else c :: token delim s'
  end.
Fixpoint skip (delim : Z) (s : list Z) : list Z :=
  match s with
  | [] => []
  | c :: s' => if c =? delim then skip delim s' else s
  end.
Definition strtok (delim : Z) (b : list Z) : option (list Z) :=
  s ← cstr b;
  match skip delim s with
  | [] => None
  | t => Some (token delim t ++ [0])
  end.

(** [atoi]: blanks, a sign, digits; a value outside [int] is undefined. *)
Definition is_digit (c : Z) : bool := (48 <=? c) && (c <=? 57).
Definition is_blank (c : Z) : bool := (c =? 32) || ((9 <=? c) && (c <=? 13)).
Fixpoint skip_blank (s : list Z) : list Z :=
  match s with
  | [] => []
  | c :: s' => if is_blank c then skip_blank s' else s
  end.
Fixpoint digits_value (acc : Z) (s : list Z) : Z :=
  match s with
  | [] => acc
  | c :: s' => if is_digit c then digits_value (10 * acc + (c - 48)) s' else acc
  end.
Definition atoi (b : list Z) : option Z :=
  s ← cstr b;
  let v := match skip_blank s with
           | 45 :: s' => - digits_value 0 s'
           | 43 :: s' => digits_value 0 s'
           | s' => digits_value 0 s'
           end in
  if decide (i32 v = v) then Some v else None.

(** [%d] of an [int]. *)
Fixpoint decimal_digits (fuel : nat) (v : Z) (acc : list Z) : list Z :=
  match fuel with
  | O => acc
  | S f =>
      let acc := (48 + v mod 10) :: acc in
      if v <? 10 then acc else decimal_digits f (v / 10) acc
  end.
Definition decimal (v : Z) : list Z :=
  if v <? 0 then 45 :: decimal_digits 10 (- v) [] else decimal_digits 10 v [].

(** [snprintf(dst, n, "%s%d", s, v)]: at most [n - 1] characters and the
    terminator. *)
Definition snprintf_sd (n : nat) (s : list Z) (v : Z) : option (list Z) :=
  k ← cstr s; Some (take (n - 1) (k ++ decimal v) ++ [0]).

(** ** Lemmas *)

Lemma cstr_terminated s rest : 0 ∉ s → cstr (s ++ 0 :: rest) = Some s.
Proof.
  induction s as [|c s IH]; intros H; simpl; [done|].
  apply not_elem_of_cons in H as [H1 H2]. rewrite (proj2 (Z.eqb_neq c 0)) by congruence.
  by rewrite IH.
Qed.

Lemma cstr_spec b s : cstr b = Some s ↔ 0 ∉ s ∧ ∃ rest, b = s ++ 0 :: rest.
Proof.
  split; [|intros [H [rest ->]]; by apply cstr_terminated].
  revert s. induction b as [|c b IH]; intros s H; simpl in H; [done|].
  destruct (Z.eqb_spec c 0) as [->|Hc].
  - injection H as <-. split; [by apply not_elem_of_nil|by exists b].
  - destruct (cstr b) as [s'|] eqn:E; [|done]. injection H as <-.
    destruct (IH s' eq_refl) as [H1 [rest ->]]. split; [|by exists rest].
    apply not_elem_of_cons. split; [congruence|done].
Qed.

Lemma strcmp_eq_spec a b s t :
  cstr a = Some s → cstr b = Some t → strcmp_eq a b = Some (bool_decide (s = t)).
Proof.
  revert b s t. induction a as [|x a IH]; intros [|y b] s t Ha Hb; simpl in *; try done.
  destruct (Z.eqb_spec x y) as [->|Hxy].
  - destruct (Z.eqb_spec y 0) as [->|Hy].
    + injection Ha as <-. injection Hb as <-. by rewrite bool_decide_true.
    + destruct (cstr a) as [s'|]; [|done]. destruct (cstr b) as [t'|] eqn:Eb; [|done].
      injection Ha as <-. injection Hb as <-. rewrite (IH _ _ _ eq_refl Eb). f_equal.
      apply bool_decide_ext. simpl. split; [by intros ->|by intros [=]].
  - f_equal. symmetry. apply bool_decide_false. intros ->. destruct (Z.eqb_spec x 0) as [->|Hx].
    + injection Ha as <-. rewrite (proj2 (Z.eqb_neq y 0)) in Hb by congruence.
      by destruct (cstr b).
    + destruct (cstr a) as [s'|]; [|done]. injection Ha as <-.
      destruct (Z.eqb_spec y 0); [by injection Hb|].
      destruct (cstr b); [|done]. simpl in Hb. congruence.
Qed.

(** A string that fits is copied with its terminator. *)
Lemma strncpy_cstr n b s :
  cstr b = Some s → (length s < n)%nat →
  ∃ d, strncpy n b = Some d ∧ length d = n ∧ cstr d = Some s.
Proof.
  revert b s. induction n as [|n IH]; intros b s Hb Hn; [lia|].
  destruct b as [|c b]; [done|]. simpl in *. destruct (Z.eqb_spec c 0) as [->|Hc].
  - injection Hb as <-. exists (0 :: replicate n 0). split_and!; [done| |done].
    simpl. by rewrite length_replicate.
  - destruct (cstr b) as [s'|] eqn:E; [|done]. injection Hb as <-. simpl in Hn.
    destruct (IH b s' E) as (d & -> & Hd & Hs); [lia|]. exists (c :: d).
    split_and!; [done|simpl; lia|]. simpl. rewrite (proj2 (Z.eqb_neq c 0)) by done. by rewrite Hs.
Qed.

(** A string too long for the bound is copied without its terminator. *)
Lemma strncpy_long n b s :
  cstr b = Some s → (n ≤ length s)%nat → strncpy n b = Some (take n s).
Proof.
  revert b s. induction n as [|n IH]; intros b s Hb Hn; [done|].
  destruct b as [|c b]; [done|]. simpl in *. destruct (Z.eqb_spec c 0) as [->|Hc].
  - injection Hb as <-. simpl in Hn. lia.
  - destruct (cstr b) as [s'|] eqn:E; [|done]. injection Hb as <-. simpl in Hn.
    by rewrite (IH b s' E) by lia.
Qed.

Lemma strcpy_cstr n old b s :
  cstr b = Some s → (length s < n)%nat → length old = n →
  ∃ d, strcpy n old b = Some d ∧ length d = n ∧ cstr d = Some s.
Proof.
  intros Hb Hn Hold. unfold strcpy. rewrite Hb. simpl. rewrite decide_True by done.
  eexists. split; [reflexivity|]. split.
  - rewrite length_app. simpl. rewrite length_drop. lia.
  - apply cstr_terminated. by apply cstr_spec in Hb as [? _].
Qed.

Example strtok_name :
  strtok 95 [49; 50; 95; 97; 0] = Some [49; 50; 0] ∧ atoi [49; 50; 0] = Some 12 ∧
  snprintf_sd 40 [49; 50; 0] 1 = Some [49; 50; 49; 0].
Proof. split_and!; reflexivity. Qed.
