(* ===== verification/DList.v ===== *)
(** * Doubly linked lists threaded through an array

    The free lists of the allocator: each cell holds the index of the next and
    of the previous one, -1 at both ends.  [dseg] walks a segment; the lemmas
    say what unlinking a cell and pushing a cell do to it. *)

From S2P Require Import Prelude.

(** From cell [c], whose predecessor is [p], the segment visits [l] and stops
    at cell [c'], whose predecessor is [p']. *)
Fixpoint dseg (nx pv : Z → Z) (p c : Z) (l : list Z) (p' c' : Z) : Prop :=
  match l with
  | [] => p' = p ∧ c' = c
  | x :: l' => c = x ∧ pv x = p ∧ dseg nx pv x (nx x) l' p' c'
  end.

(** A whole list with head cell [h]. *)
Definition dlist (nx pv : Z → Z) (h : Z) (l : list Z) : Prop :=
  ∃ q, dseg nx pv (-1) h l q (-1).

Lemma dseg_ext nx pv nx' pv' p c l p' c' :
  (∀ x, x ∈ l → nx' x = nx x ∧ pv' x = pv x) →
  dseg nx pv p c l p' c' → dseg nx' pv' p c l p' c'.
Proof.
  revert p c. induction l as [|x l IH]; intros p c Hext H; simpl in *; [done|].
  destruct H as (-> & <- & H). destruct (Hext x) as [Hn Hp]; [set_solver|].
  rewrite Hn, Hp. split_and!; auto. apply IH; [|done]. intros. apply Hext. set_solver.
Qed.

Lemma dlist_ext nx pv nx' pv' h l :
  (∀ x, x ∈ l → nx' x = nx x ∧ pv' x = pv x) →
  dlist nx pv h l → dlist nx' pv' h l.
Proof. intros Hext [q H]. exists q. by eapply dseg_ext. Qed.

Lemma dseg_app nx pv p c l1 l2 p' c' :
  dseg nx pv p c (l1 ++ l2) p' c' ↔
  ∃ pm cm, dseg nx pv p c l1 pm cm ∧ dseg nx pv pm cm l2 p' c'.
Proof.
  revert p c. induction l1 as [|x l1 IH]; intros p c; simpl.
  - naive_solver.
  - rewrite IH. naive_solver.
Qed.

(** Where a segment ends: at its last cell. *)
Lemma dseg_end nx pv p c l p' c' :
  dseg nx pv p c l p' c' → p' = default p (last l).
Proof.
  revert p c. induction l as [|x l IH]; intros p c H; simpl in *; [naive_solver|].
  destruct H as (-> & _ & H). apply IH in H. subst p'.
  rewrite last_cons. by destruct (last l).
Qed.

Lemma dseg_start nx pv p c l p' c' :
  dseg nx pv p c l p' c' → c = default c' (head l).
Proof. destruct l; simpl; naive_solver. Qed.

(** Redirecting the last cell of a segment. *)
Lemma dseg_set_end nx pv nx' p c l q x n :
  dseg nx pv p c (l ++ [q]) q x → q ∉ l →
  nx' q = n → (∀ y, y ≠ q → nx' y = nx y) →
  dseg nx' pv p c (l ++ [q]) q n.
Proof.
  rewrite !dseg_app. intros (pm & cm & H1 & H2) Hq Hn Hne. simpl in *.
  destruct H2 as (-> & H2 & _). exists pm, q. split.
  - eapply dseg_ext; [|exact H1]. intros y Hy. split; [|done].
    apply Hne. by intros ->.
  - by rewrite Hn.
Qed.

(** Redirecting the first cell of a segment. *)
Lemma dseg_set_start nx pv pv' p x l p' c' q :
  dseg nx pv p x (x :: l) p' c' → x ∉ l →
  pv' x = q → (∀ y, y ≠ x → pv' y = pv y) →
  dseg nx pv' q x (x :: l) p' c'.
Proof.
  simpl. intros (_ & _ & H) Hx Hq Hne. split_and!; [done|done|].
  eapply dseg_ext; [|exact H]. intros y Hy. split; [done|]. apply Hne. by intros ->.
Qed.

(** The neighbours of a cell in a list. *)
Lemma dlist_neighbours nx pv h l1 x l2 :
  dlist nx pv h (l1 ++ x :: l2) →
  pv x = default (-1) (last l1) ∧ nx x = default (-1) (head l2).
Proof.
  intros [q H]. apply dseg_app in H as (pm & cm & H1 & H2).
  simpl in H2. destruct H2 as (-> & Hp & H2). split.
  - rewrite Hp. by eapply dseg_end.
  - by eapply dseg_start.
Qed.

Lemma dlist_head nx pv h l : dlist nx pv h l → h = default (-1) (head l).
Proof. intros [q H]. by eapply dseg_start. Qed.

(** Unlinking [x]: its neighbours point past it. *)
Lemma dlist_unlink nx pv nx' pv' h h' l1 x l2 :
  dlist nx pv h (l1 ++ x :: l2) → NoDup (l1 ++ x :: l2) →
  h' = match l1 with [] => nx x | _ => h end →
  (∀ y, y ∈ l1 ++ l2 → nx' y = if decide (last l1 = Some y) then nx x else nx y) →
  (∀ y, y ∈ l1 ++ l2 → pv' y = if decide (head l2 = Some y) then pv x else pv y) →
  dlist nx' pv' h' (l1 ++ l2).
Proof.
  intros [q H] Hnd Hh Hnx Hpv.
  apply dseg_app in H as (pm & cm & H1 & H2). simpl in H2.
  destruct H2 as (-> & Hp & H2).
  apply NoDup_app in Hnd as (Hnd1 & Hd & Hnd2). apply NoDup_cons in Hnd2 as [Hx Hnd2].
  assert (∀ y, y ∈ l1 → y ∉ l2) as Hd' by (intros y Hy; specialize (Hd y Hy); set_solver).
  assert (∃ q', dseg nx' pv' pm (nx x) l2 q' (-1)) as [q' Hseg2].
  { destruct l2 as [|y l2]; simpl in H2 |- *; [exists pm; naive_solver|].
    destruct H2 as (-> & Hpy & H2). apply NoDup_cons in Hnd2 as [Hy Hnd2].
    exists q. split_and!; [done| |].
    - rewrite Hpv by set_solver. by rewrite decide_True.
    - assert (last l1 ≠ Some y) as Hl.
      { intros E. apply last_Some_elem_of in E. set_solver. }
      rewrite Hnx by set_solver. rewrite decide_False by done.
      eapply dseg_ext; [|exact H2]. intros z Hz. simpl.
      assert (last l1 ≠ Some z).
      { intros E. apply last_Some_elem_of in E. set_solver. }
      rewrite Hnx, Hpv by set_solver.
      rewrite !decide_False; [done| |done]. intros [= ->]. done. }
  exists q'. apply dseg_app. exists pm, (nx x). split; [|done].
  destruct l1 as [|a l1 _] using rev_ind; [simpl in *; naive_solver|].
  assert (pm = a) as -> by (apply dseg_end in H1; by rewrite last_snoc in H1).
  assert (h' = h) as -> by (subst h'; by destruct l1).
  rewrite last_snoc in Hnx. apply NoDup_app in Hnd1 as (Hnd1 & Hda & _).
  assert (a ∉ l1) by (intros E; specialize (Hda a E); set_solver).
  assert (∀ y, y ∈ l1 ++ [a] → pv' y = pv y) as Hpv1.
  { intros y Hy. rewrite Hpv by set_solver. rewrite decide_False; [done|].
    intros E. apply head_Some_elem_of in E. set_solver. }
  eapply (dseg_ext (fupd nx a (nx x)) pv).
  - intros y Hy. split; [|by apply Hpv1].
    rewrite Hnx by set_solver. unfold fupd.
    destruct (decide (y = a)) as [->|]; [by rewrite decide_True|].
    rewrite decide_False; [done|]. by intros [= ->].
  - eapply dseg_set_end; [exact H1|done|by apply fupd_eq|].
    intros. by apply fupd_ne.
Qed.

(** Pushing [x] in front. *)
Lemma dlist_push nx pv nx' pv' h x l :
  dlist nx pv h l → x ∉ l → NoDup l →
  nx' x = h → pv' x = -1 →
  (∀ y, y ∈ l → nx' y = nx y) →
  (∀ y, y ∈ l → pv' y = if decide (head l = Some y) then x else pv y) →
  dlist nx' pv' x (x :: l).
Proof.
  intros [q H] Hx Hnd Hn Hp Hnx Hpv.
  destruct l as [|y l]; simpl in H.
  - exists x. simpl. rewrite Hn, Hp. naive_solver.
  - destruct H as (-> & Hpy & H). apply NoDup_cons in Hnd as [Hy Hnd].
    exists q. simpl. rewrite Hn, Hp. split_and!; auto.
    + rewrite Hpv by set_solver. by rewrite decide_True.
    + rewrite Hnx by set_solver. eapply dseg_ext; [|exact H].
      intros z Hz. rewrite Hnx, Hpv by set_solver.
      rewrite decide_False; [done|]. intros [= ->]. done.
Qed.
