(* ===== verification/Blocks.v ===== *)
(** * Partitions of an arena into power-of-two blocks

    The abstract state of a buddy allocator: for each block its log-size and
    whether it is free.  Splitting a block and merging two buddies preserve
    the partition; a buddy that lies in the arena always starts a block. *)

From S2P Require Import Prelude.

Abbreviation blocks := (gmap Z (Z * bool)).

(** The largest log-size, [LOGMAX] of the allocator. *)
Local Abbreviation MAXLOG := 30 (only parsing).

(** The buddy of the block of log-size [k] at [i]. *)
Definition buddy (i k : Z) : Z := if Z.odd (i / 2 ^ k) then i - 2 ^ k else i + 2 ^ k.

Record partition (n : Z) (bl : blocks) : Prop := {
  part_wf : ∀ i k f, bl !! i = Some (k, f) →
    0 ≤ k ≤ MAXLOG ∧ 0 ≤ i ∧ (2 ^ k | i) ∧ i + 2 ^ k ≤ n;
  part_disj : ∀ i j k k' f f', bl !! i = Some (k, f) → bl !! j = Some (k', f') →
    i < j → i + 2 ^ k ≤ j;
  part_cover : ∀ x, 0 ≤ x < n → ∃ i k f, bl !! i = Some (k, f) ∧ i ≤ x < i + 2 ^ k
}.

(** No two free buddies: free space is merged as far as it goes. *)
Definition coalesced (bl : blocks) : Prop :=
  ∀ i k, bl !! i = Some (k, true) → k < MAXLOG → bl !! buddy i k ≠ Some (k, true).

Lemma buddy_lower i k :
  0 ≤ k → (2 ^ k | i) →
  (buddy i k = i + 2 ^ k ∧ (2 ^ (k + 1) | i)) ∨
  (buddy i k = i - 2 ^ k ∧ (2 ^ (k + 1) | i - 2 ^ k)).
Proof.
  intros Hk [q ->]. pose proof (pow2_pos k Hk). unfold buddy.
  rewrite Z.div_mul by lia. rewrite pow2_S by lia.
  destruct (Z.odd q) eqn:E.
  - right. split; [done|]. apply Z.odd_spec in E as [r ->]. exists r. lia.
  - left. split; [done|]. rewrite <- Z.negb_even in E.
    apply negb_false_iff, Z.even_spec in E as [r ->]. exists r. lia.
Qed.

Lemma buddy_aligned i k : 0 ≤ k → (2 ^ k | i) → (2 ^ k | buddy i k).
Proof.
  intros Hk Hi. destruct (buddy_lower i k Hk Hi) as [[-> _]|[-> _]].
  - apply Z.divide_add_r; [done|reflexivity].
  - apply Z.divide_sub_r; [done|reflexivity].
Qed.

(** Being buddies is symmetric. *)
Lemma buddy_involutive i k : 0 ≤ k → (2 ^ k | i) → buddy (buddy i k) k = i.
Proof.
  intros Hk [q ->]. pose proof (pow2_pos k Hk). unfold buddy.
  rewrite Z.div_mul by lia. destruct (Z.odd q) eqn:E.
  - replace (q * 2 ^ k - 2 ^ k) with ((q - 1) * 2 ^ k) by lia.
    rewrite Z.div_mul, Z.odd_sub, E by lia. simpl. lia.
  - replace (q * 2 ^ k + 2 ^ k) with ((q + 1) * 2 ^ k) by lia.
    rewrite Z.div_mul, Z.odd_add, E by lia. simpl. lia.
Qed.

(** The two halves of a block are buddies. *)
Lemma buddy_halves i k :
  0 ≤ k → (2 ^ (k + 1) | i) → buddy i k = i + 2 ^ k ∧ buddy (i + 2 ^ k) k = i.
Proof.
  intros Hk Hdiv. pose proof (pow2_pos k Hk). pose proof (pow2_S k Hk) as HS.
  assert ((2 ^ k | i)) as Hd by (etransitivity; [apply (pow2_divide k (k + 1)); lia|done]).
  assert (buddy i k = i + 2 ^ k) as Hb.
  { destruct (buddy_lower i k Hk Hd) as [[E _]|[_ E]]; [done|]. exfalso.
    assert ((2 ^ (k + 1) | 2 ^ k)) as [q Hq].
    { replace (2 ^ k) with (i - (i - 2 ^ k)) by lia. by apply Z.divide_sub_r. }
    rewrite HS in Hq. assert (2 * q = 1) by (apply (Z.mul_reg_r _ _ (2 ^ k)); lia). lia. }
  split; [done|]. rewrite <- Hb. by apply buddy_involutive.
Qed.

Section partition.
Context (n : Z) (bl : blocks) (Hp : partition n bl).

(** A block that meets another one is that one. *)
Lemma part_same i j k k' f f' x :
  bl !! i = Some (k, f) → bl !! j = Some (k', f') →
  i ≤ x < i + 2 ^ k → j ≤ x < j + 2 ^ k' → i = j ∧ k = k' ∧ f = f'.
Proof.
  intros Hi Hj Hxi Hxj. destruct (Z.lt_total i j) as [H|[->|H]].
  - pose proof (part_disj _ _ Hp _ _ _ _ _ _ Hi Hj H). lia.
  - naive_solver.
  - pose proof (part_disj _ _ Hp _ _ _ _ _ _ Hj Hi H). lia.
Qed.

Lemma part_inner i k f j :
  bl !! i = Some (k, f) → i < j < i + 2 ^ k → bl !! j = None.
Proof.
  intros Hi Hj. destruct (bl !! j) as [[k' f']|] eqn:E; [|done].
  pose proof (part_disj _ _ Hp _ _ _ _ _ _ Hi E). lia.
Qed.

(** Changing who holds a block. *)
Lemma part_flag i k f f' : bl !! i = Some (k, f) → partition n (<[i := (k, f')]> bl).
Proof.
  intros Hi. destruct Hp as [Hwf Hd Hc].
  assert (∀ j k1 f1, <[i := (k, f')]> bl !! j = Some (k1, f1) →
    ∃ f2, bl !! j = Some (k1, f2)) as Hback.
  { intros j k1 f1. rewrite lookup_insert. case_decide; naive_solver. }
  constructor.
  - intros j k1 f1 H. apply Hback in H as [f2 H]. by eapply Hwf.
  - intros j1 j2 k1 k2 f1 f2 H1 H2.
    apply Hback in H1 as [? H1]. apply Hback in H2 as [? H2]. by eapply Hd.
  - intros x Hx. destruct (Hc x Hx) as (j & k1 & f1 & Hj & Hr).
    destruct (decide (i = j)) as [->|Hne].
    + exists j, k, f'. rewrite lookup_insert_eq. split; [done|]. naive_solver.
    + exists j, k1, f1. by rewrite lookup_insert_ne.
Qed.

(** Splitting a block into its halves. *)
Lemma part_split i k f f1 f2 :
  bl !! i = Some (k + 1, f) → 0 ≤ k →
  partition n (<[i := (k, f1)]> (<[i + 2 ^ k := (k, f2)]> bl)).
Proof.
  intros Hi Hk. pose proof (pow2_pos k Hk) as Hm. pose proof (pow2_S k Hk) as HS.
  destruct (part_wf _ _ Hp _ _ _ Hi) as (Hk1 & Hi0 & Hdiv & Hin).
  assert ((2 ^ k | i)) as Hdk by (etransitivity; [apply (pow2_divide k (k + 1)); lia|done]).
  assert (bl !! (i + 2 ^ k) = None) as Hmid by (apply (part_inner i (k + 1) f); [done|lia]).
  assert (∀ j k' f', <[i := (k, f1)]> (<[i + 2 ^ k := (k, f2)]> bl) !! j = Some (k', f') →
    (j = i ∧ k' = k) ∨ (j = i + 2 ^ k ∧ k' = k) ∨ (j ≠ i ∧ bl !! j = Some (k', f'))) as Hinv.
  { intros j k' f'. rewrite !lookup_insert. repeat case_decide; naive_solver. }
  constructor.
  - intros j k' f' H. apply Hinv in H as [[-> ->]|[[-> ->]|[_ H]]].
    + split_and!; (done || lia).
    + split_and!; try lia. apply Z.divide_add_r; [done|reflexivity].
    + by eapply part_wf.
  - intros j1 j2 k1 k2 g1 g2 H1 H2 Hlt.
    apply Hinv in H1. apply Hinv in H2.
    destruct H1 as [[-> ->]|[[-> ->]|[Hn1 H1]]], H2 as [[-> ->]|[[-> ->]|[Hn2 H2]]]; try lia.
    + pose proof (part_disj _ _ Hp _ _ _ _ _ _ Hi H2). lia.
    + destruct (decide (i < j2)); [|lia].
      pose proof (part_disj _ _ Hp _ _ _ _ _ _ Hi H2). lia.
    + by apply (part_disj _ _ Hp _ _ _ _ _ _ H1 Hi).
    + destruct (decide (j1 < i)).
      * pose proof (part_disj _ _ Hp _ _ _ _ _ _ H1 Hi). lia.
      * pose proof (part_disj _ _ Hp _ _ _ _ _ _ Hi H1). lia.
    + by apply (part_disj _ _ Hp _ _ _ _ _ _ H1 H2).
  - intros x Hx. destruct (part_cover _ _ Hp x Hx) as (j & k' & f' & Hj & Hr).
    destruct (decide (j = i)) as [->|Hne].
    + assert (k' = k + 1) as -> by congruence.
      destruct (decide (x < i + 2 ^ k)).
      * exists i, k, f1. rewrite lookup_insert_eq. split; [done|lia].
      * exists (i + 2 ^ k), k, f2. rewrite lookup_insert_ne, lookup_insert_eq by lia.
        split; [done|lia].
    + exists j, k', f'. split; [|done]. rewrite !lookup_insert_ne; congruence.
Qed.

(** Merging two buddies. *)
Lemma part_merge i k f f1 f2 :
  bl !! i = Some (k, f1) → bl !! (i + 2 ^ k) = Some (k, f2) →
  (2 ^ (k + 1) | i) → k < MAXLOG →
  partition n (<[i := (k + 1, f)]> (delete (i + 2 ^ k) bl)).
Proof.
  intros Hi Hj Hdiv HkM.
  destruct (part_wf _ _ Hp _ _ _ Hi) as (Hk & Hi0 & _ & _).
  destruct (part_wf _ _ Hp _ _ _ Hj) as (_ & _ & _ & Hjn).
  pose proof (pow2_pos k ltac:(lia)) as Hm. pose proof (pow2_S k ltac:(lia)) as HS.
  assert (∀ j k' f', <[i := (k + 1, f)]> (delete (i + 2 ^ k) bl) !! j = Some (k', f') →
    (j = i ∧ k' = k + 1) ∨ (j ≠ i ∧ j ≠ i + 2 ^ k ∧ bl !! j = Some (k', f'))) as Hinv.
  { intros j k' f'. rewrite lookup_insert, lookup_delete. repeat case_decide; naive_solver. }
  constructor.
  - intros j k' f' H. apply Hinv in H as [[-> ->]|(_ & _ & H)].
    + split_and!; (done || lia).
    + by eapply part_wf.
  - intros j1 j2 k1 k2 g1 g2 H1 H2 Hlt.
    apply Hinv in H1. apply Hinv in H2.
    destruct H1 as [[-> ->]|(Hn1 & Hm1 & H1)], H2 as [[-> ->]|(Hn2 & Hm2 & H2)]; try lia.
    + pose proof (part_disj _ _ Hp _ _ _ _ _ _ Hi H2).
      destruct (decide (i + 2 ^ k < j2)).
      * pose proof (part_disj _ _ Hp _ _ _ _ _ _ Hj H2). lia.
      * lia.
    + by apply (part_disj _ _ Hp _ _ _ _ _ _ H1 Hi).
    + by apply (part_disj _ _ Hp _ _ _ _ _ _ H1 H2).
  - intros x Hx. destruct (part_cover _ _ Hp x Hx) as (j & k' & f' & Hjb & Hr).
    destruct (decide (j = i)) as [->|Hni]; [|destruct (decide (j = i + 2 ^ k)) as [->|Hnm]].
    + exists i, (k + 1), f. rewrite lookup_insert_eq. naive_solver lia.
    + exists i, (k + 1), f. rewrite lookup_insert_eq. naive_solver lia.
    + exists j, k', f'. rewrite lookup_insert_ne, lookup_delete_ne by congruence. done.
Qed.

(** A longer arena, with one more block at its end. *)
Lemma part_extend k f :
  0 ≤ n → 0 ≤ k ≤ MAXLOG → (2 ^ k | n) → partition (n + 2 ^ k) (<[n := (k, f)]> bl).
Proof.
  intros Hn Hk Hdiv. pose proof (pow2_pos k ltac:(lia)) as Hm.
  assert (∀ i k' f', bl !! i = Some (k', f') → i + 2 ^ k' ≤ n ∧ 0 < 2 ^ k') as Hin.
  { intros i k' f' H. destruct (part_wf _ _ Hp _ _ _ H) as (? & _ & _ & ?).
    split; [done|]. apply pow2_pos. lia. }
  constructor.
  - intros i k' f'. rewrite lookup_insert. case_decide; [|intros E].
    + intros [= <- <-]. subst. split_and!; (done || lia).
    + destruct (part_wf _ _ Hp _ _ _ E) as (?&?&?&?). split_and!; (done || lia).
  - intros i j k1 k2 f1 f2. rewrite !lookup_insert.
    case_decide; case_decide; [lia| | |apply (part_disj _ _ Hp)].
    + intros _ E Hlt. apply Hin in E. lia.
    + intros E _ _. apply Hin in E. lia.
  - intros x Hx. destruct (decide (x < n)).
    + destruct (part_cover _ _ Hp x) as (i & k' & f' & Hi & Hr); [lia|].
      exists i, k', f'. rewrite lookup_insert_ne; [done|]. apply Hin in Hi. lia.
    + exists n, k, f. rewrite lookup_insert_eq. split; [done|lia].
Qed.

(** Where free space is merged as far as it goes, a free aligned window lies
    in one free block. *)
Lemma coalesced_window k j :
  coalesced bl → 0 ≤ k ≤ MAXLOG → 0 ≤ j → (2 ^ k | j) → j + 2 ^ k ≤ n →
  (∀ i k', bl !! i = Some (k', false) → i + 2 ^ k' ≤ j ∨ j + 2 ^ k ≤ i) →
  ∃ i k', bl !! i = Some (k', true) ∧ k ≤ k' ∧ i ≤ j < i + 2 ^ k'.
Proof.
  intros Hco Hk. assert (∃ m, k = Z.of_nat m) as [m ->] by (exists (Z.to_nat k); lia).
  revert j. induction m as [|m IH]; intros j Hj Hdiv Hjn Hfree.
  - simpl in *. destruct (part_cover _ _ Hp j) as (i & k' & f & Hi & Hr); [lia|].
    destruct (part_wf _ _ Hp _ _ _ Hi) as (? & _). exists i, k'. destruct f; [split_and!; (done||lia)|].
    destruct (Hfree _ _ Hi); lia.
  - rewrite Nat2Z.inj_succ in *. unfold Z.succ in *. set (h := Z.of_nat m) in *.
    pose proof (pow2_pos h ltac:(lia)) as Hm. pose proof (pow2_S h ltac:(lia)) as HS.
    assert ((2 ^ h | 2 ^ (h + 1))) as Hd1 by (apply pow2_divide; lia).
    assert ((2 ^ h | j)) as Hd2 by (by etransitivity).
    destruct (IH ltac:(lia) j) as (i1 & k1 & H1 & Hk1 & Hr1); [done|done|lia| |].
    { intros i k' H. destruct (Hfree _ _ H); lia. }
    destruct (decide (h + 1 ≤ k1)) as [|Hs1]; [by exists i1, k1|].
    destruct (IH ltac:(lia) (j + 2 ^ h)) as (i2 & k2 & H2 & Hk2 & Hr2);
      [lia|by apply Z.divide_add_r|lia| |].
    { intros i k' H. destruct (Hfree _ _ H); lia. }
    destruct (part_wf _ _ Hp _ _ _ H1) as (_ & _ & Hi1 & _).
    destruct (part_wf _ _ Hp _ _ _ H2) as (Hk2' & _ & Hi2 & _).
    assert (k1 = h) as -> by lia.
    assert (i1 = j) as -> by (by apply (divide_close (2 ^ h))).
    destruct (decide (h + 1 ≤ k2)) as [Hs2|Hs2].
    + exists i2, k2. split_and!; [done|done| |lia].
      pose proof (part_disj _ _ Hp _ _ _ _ _ _ H1 H2).
      destruct (decide (i2 ≤ j)); [done|].
      assert ((2 ^ (h + 1) | i2)) as Hd3
        by (etransitivity; [apply (pow2_divide (h + 1) k2)|]; (done || lia)).
      pose proof (divide_room (2 ^ (h + 1)) j i2 ltac:(lia) Hdiv Hd3 ltac:(lia)). lia.
    + assert (k2 = h) as -> by lia.
      assert (i2 = j + 2 ^ h) as ->.
      { apply (divide_close (2 ^ h)); [done|done| |lia]. by apply Z.divide_add_r. }
      exfalso. apply (Hco j h H1 ltac:(lia)).
      by destruct (buddy_halves j h ltac:(lia) Hdiv) as [-> _].
Qed.

(** Inside the arena, the buddy of a block starts a block no larger. *)
Lemma part_buddy i k f :
  bl !! i = Some (k, f) → k < MAXLOG → 0 ≤ buddy i k < n →
  ∃ k' f', bl !! buddy i k = Some (k', f') ∧ k' ≤ k.
Proof.
  intros Hi HkM Hb.
  destruct (part_wf _ _ Hp _ _ _ Hi) as (Hk & Hi0 & Hdiv & _).
  pose proof (pow2_pos k ltac:(lia)) as Hm. pose proof (pow2_S k ltac:(lia)) as HS.
  pose proof (buddy_aligned i k ltac:(lia) Hdiv) as Hbdiv.
  destruct (part_cover _ _ Hp _ Hb) as (j & k' & f' & Hj & Hr).
  destruct (part_wf _ _ Hp _ _ _ Hj) as (Hk' & Hj0 & Hjdiv & _).
  pose proof (pow2_pos k' ltac:(lia)) as Hm'.
  destruct (decide (k' ≤ k)) as [Hle|Hgt].
  - exists k', f'. split; [|done].
    replace (buddy i k) with j; [done|].
    apply (divide_close (2 ^ k')); [lia|done| |lia].
    etransitivity; [apply (pow2_divide k' k); lia|done].
  - exfalso.
    assert ((2 ^ (k + 1) | j)) as Hj1.
    { etransitivity; [apply (pow2_divide (k + 1) k'); lia|done]. }
    assert ((2 ^ (k + 1) | j + 2 ^ k')) as Hj2.
    { apply Z.divide_add_r; [done|]. apply pow2_divide; lia. }
    assert (j ≤ i < j + 2 ^ k') as Hrange.
    { destruct (buddy_lower i k ltac:(lia) Hdiv) as [[E Hd]|[E Hd]]; rewrite E in *.
      - split; [|lia]. destruct (decide (j ≤ i)); [done|].
        pose proof (divide_room (2 ^ (k + 1)) i j ltac:(lia) Hd Hj1). lia.
      - split; [lia|]. pose proof (divide_room (2 ^ (k + 1)) (i - 2 ^ k) (j + 2 ^ k') ltac:(lia) Hd Hj2).
        lia. }
    destruct (part_same i j k k' f f' i Hi Hj) as (_ & -> & _); lia.
Qed.
End partition.
