(* ===== verification/Mem5.v ===== *)
(** * memsys5: the buddy allocator of the untrusted backing store

    Models [static_trusted/mem.cpp]: the state [mem5], the free lists threaded
    through the free blocks themselves, one control byte per atom behind the
    pool, and every routine of the file.  The state of the allocator is the
    enclave's static structure; the pool it manages is untrusted memory, so the
    link cells and the control bytes live in [ram]. *)

From S2P Require Import Prelude Memory.

Definition LOGMAX : Z := 30.
Definition CTRL_LOGSIZE : Z := 0x1f.
Definition CTRL_FREE : Z := 0x20.
(** [sizeof(Mem5Link)]: two 32-bit integers. *)
Definition sizeof_Mem5Link : Z := 8.

Record Mem5Global := mkMem5 {
  szAtom : Z;
  nBlock : Z;
  zPool : Z;
  mem_lock : Z;
  aiFreelist : gmap Z Z;
  aCtrl : Z
}.

Record heap := mkHeap { mem5 : Mem5Global; ram : memory }.

Definition mem5_zero : Mem5Global := mkMem5 0 0 0 0 ∅ 0.

Definition set_ram (f : memory → memory) (s : heap) : heap :=
  mkHeap (mem5 s) (f (ram s)).
Definition set_mem5 (f : Mem5Global → Mem5Global) (s : heap) : heap :=
  mkHeap (f (mem5 s)) (ram s).
Definition with_lock (v : Z) (g : Mem5Global) : Mem5Global :=
  mkMem5 (szAtom g) (nBlock g) (zPool g) v (aiFreelist g) (aCtrl g).
Definition with_freelist (k v : Z) (g : Mem5Global) : Mem5Global :=
  mkMem5 (szAtom g) (nBlock g) (zPool g) (mem_lock g)
    (<[k := v]> (aiFreelist g)) (aCtrl g).
Definition with_geometry (sz n p c : Z) (g : Mem5Global) : Mem5Global :=
  mkMem5 sz n p (mem_lock g) (aiFreelist g) c.

(** ** The cells of the pool *)

(** [MEM5LINK(idx)]: address of the link stored in block [idx]. *)
Definition MEM5LINK (g : Mem5Global) (idx : Z) : Z := zPool g + i32 (idx * szAtom g).

Definition nxt (s : heap) (i : Z) : Z := load32 (ram s) (MEM5LINK (mem5 s) i).
Definition prv (s : heap) (i : Z) : Z := load32 (ram s) (MEM5LINK (mem5 s) i + 4).
Definition ctrl (s : heap) (i : Z) : Z := rd8 (ram s) (aCtrl (mem5 s) + i).
Definition flist (s : heap) (k : Z) : Z := default 0 (aiFreelist (mem5 s) !! k).

Definition set_nxt (i v : Z) (s : heap) : heap :=
  set_ram (λ m, store32 m (MEM5LINK (mem5 s) i) v) s.
Definition set_prv (i v : Z) (s : heap) : heap :=
  set_ram (λ m, store32 m (MEM5LINK (mem5 s) i + 4) v) s.
Definition set_ctrl (i v : Z) (s : heap) : heap :=
  set_ram (λ m, wr8 m (aCtrl (mem5 s) + i) v) s.
Definition set_flist (k v : Z) (s : heap) : heap := set_mem5 (with_freelist k v) s.

(** ** Free lists *)

Definition link_asserts (i iLogsize : Z) (s : heap) : bool :=
  (0 <=? i) && (i <? nBlock (mem5 s)) && (0 <=? iLogsize) && (iLogsize <=? LOGMAX)
  && (Z.land (ctrl s i) CTRL_LOGSIZE =? iLogsize).

Definition memsys5Unlink (i iLogsize : Z) : M heap unit :=
  ok ← gets (link_asserts i iLogsize);
  massert ok;;
  next ← gets (λ s, nxt s i);
  prev ← gets (λ s, prv s i);
  (if prev <? 0 then modify (set_flist iLogsize next)
   else modify (set_nxt prev next));;
  (if 0 <=? next then modify (set_prv next prev) else mret tt).

Definition memsys5Link (i iLogsize : Z) : M heap unit :=
  ok ← gets (link_asserts i iLogsize);
  massert ok;;
  x ← gets (λ s, flist s iLogsize);
  modify (set_nxt i x);;
  modify (set_prv i (-1));;
  n ← gets (nBlock ∘ mem5);
  (if 0 <=? x then massert (x <? n);; modify (set_prv x i) else mret tt);;
  modify (set_flist iLogsize i).

(** ** The lock *)

(** One thread on its own: a lock found taken is never released. *)
Definition memsys5Enter : M heap unit :=
  l ← gets (mem_lock ∘ mem5);
  if l =? 0 then modify (set_mem5 (with_lock 1)) else fail ESpin.
Definition memsys5Leave : M heap unit := modify (set_mem5 (with_lock 0)).

(** ** Sizes *)

(** Every loop of the file that follows runs at most 31 times. *)
Definition LOOP_FUEL : nat := 32.
Arguments LOOP_FUEL : simpl never.

(** [(u8 * )p - mem5.zPool) / mem5.szAtom] as an [int]. *)
Definition block_of (g : Mem5Global) (p : Z) : Z := i32 (Z.quot (p - zPool g) (szAtom g)).

Definition memsys5Size (p : Z) : M heap Z :=
  massert (negb (p =? 0));;
  g ← gets mem5;
  let i := block_of g p in
  massert ((0 <=? i) && (i <? nBlock g));;
  c ← gets (λ s, ctrl s i);
  mret (i32 (szAtom g * Z.shiftl 1 (Z.land c CTRL_LOGSIZE))).

(** [for(iFullSz=szAtom,iLogsize=0; iFullSz<nByte; iFullSz*=2,iLogsize++)] *)
Fixpoint round_loop (fuel : nat) (nByte iFullSz iLogsize : Z) : M heap (Z * Z) :=
  match fuel with
  | O => fail EFuel
  | S fuel' =>
      if iFullSz <? nByte
      then round_loop fuel' nByte (i32 (iFullSz * 2)) (iLogsize + 1)
      else mret (iFullSz, iLogsize)
  end.

Definition memsys5Roundup (n : Z) : M heap Z :=
  if 0x40000000 <? n then mret 0
  else
    g ← gets mem5;
    r ← round_loop LOOP_FUEL n (szAtom g) 0;
    mret r.1.

Fixpoint log_loop (fuel : nat) (iValue iLog : Z) : M heap Z :=
  match fuel with
  | O => fail EFuel
  | S fuel' =>
      if (iLog <? 31) && (Z.shiftl 1 iLog <? iValue)
      then log_loop fuel' iValue (iLog + 1)
      else mret iLog
  end.
Definition memsys5Log (iValue : Z) : M heap Z := log_loop LOOP_FUEL iValue 0.

(** ** Allocation *)

(** [for(iBin=iLogsize; iBin<=LOGMAX && aiFreelist[iBin]<0; iBin++){}] *)
Fixpoint bin_loop (fuel : nat) (iBin : Z) : M heap Z :=
  match fuel with
  | O => fail EFuel
  | S fuel' =>
      if iBin <=? LOGMAX then
        h ← gets (λ s, flist s iBin);
        if h <? 0 then bin_loop fuel' (iBin + 1) else mret iBin
      else mret iBin
  end.

(** [while( iBin>iLogsize )]: gives the upper halves back. *)
Fixpoint split_loop (fuel : nat) (i iBin iLogsize : Z) : M heap unit :=
  match fuel with
  | O => fail EFuel
  | S fuel' =>
      if iLogsize <? iBin then
        let iBin := iBin - 1 in
        let newSize := Z.shiftl 1 iBin in
        modify (set_ctrl (i + newSize) (Z.lor CTRL_FREE iBin));;
        memsys5Link (i + newSize) iBin;;
        split_loop fuel' i iBin iLogsize
      else mret tt
  end.

Definition memsys5MallocUnsafe (nByte : Z) : M heap Z :=
  massert (0 <? nByte);;
  if 0x40000000 <? nByte then mret 0
  else
    g ← gets mem5;
    r ← round_loop LOOP_FUEL nByte (szAtom g) 0;
    let iLogsize := r.2 in
    iBin ← bin_loop LOOP_FUEL iLogsize;
    if LOGMAX <? iBin then mret 0
    else
      i ← gets (λ s, flist s iBin);
      memsys5Unlink i iBin;;
      split_loop LOOP_FUEL i iBin iLogsize;;
      modify (set_ctrl i iLogsize);;
      mret (zPool g + i32 (i * szAtom g)).

Definition memsys5Malloc (nBytes : Z) : M heap Z :=
  if 0 <? nBytes then
    memsys5Enter;;
    p ← memsys5MallocUnsafe nBytes;
    memsys5Leave;;
    mret p
  else mret 0.

(** ** Release *)

(** The coalescing loop of [memsys5FreeUnsafe]; returns the block to link and
    its size.  [size] and [iLogsize] are [u32] in the source. *)
Fixpoint merge_loop (fuel : nat) (iBlock iLogsize size : Z) : M heap (Z * Z) :=
  match fuel with
  | O => fail EFuel
  | S fuel' =>
      if iLogsize <? LOGMAX then
        g ← gets mem5;
        let upper := negb (Z.land (Z.shiftr iBlock iLogsize) 1 =? 0) in
        let iBuddy :=
          if upper then i32 (u32 (iBlock - size)) else i32 (u32 (iBlock + size)) in
        massert (if upper then 0 <=? iBuddy else true);;
        if negb upper && (nBlock g <=? iBuddy) then mret (iBlock, iLogsize)
        else
          c ← gets (λ s, ctrl s iBuddy);
          if negb (c =? Z.lor CTRL_FREE iLogsize) then mret (iBlock, iLogsize)
          else
            memsys5Unlink iBuddy iLogsize;;
            let iLogsize := iLogsize + 1 in
            if iBuddy <? iBlock then
              modify (set_ctrl iBuddy (Z.lor CTRL_FREE iLogsize));;
              modify (set_ctrl iBlock 0);;
              merge_loop fuel' iBuddy iLogsize (u32 (size * 2))
            else
              modify (set_ctrl iBlock (Z.lor CTRL_FREE iLogsize));;
              modify (set_ctrl iBuddy 0);;
              merge_loop fuel' iBlock iLogsize (u32 (size * 2))
      else mret (iBlock, iLogsize)
  end.

Definition memsys5FreeUnsafe (pOld : Z) : M heap unit :=
  g ← gets mem5;
  let iBlock := block_of g pOld in
  massert ((0 <=? iBlock) && (iBlock <? nBlock g));;
  massert (Z.rem (pOld - zPool g) (szAtom g) =? 0);;
  c ← gets (λ s, ctrl s iBlock);
  massert (Z.land c CTRL_FREE =? 0);;
  let iLogsize := Z.land c CTRL_LOGSIZE in
  let size := u32 (Z.shiftl 1 iLogsize) in
  massert (u32 (iBlock + size - 1) <? u32 (nBlock g));;
  modify (set_ctrl iBlock (Z.lor c CTRL_FREE));;
  c' ← gets (λ s, ctrl s (u32 (iBlock + size - 1)));
  modify (set_ctrl (u32 (iBlock + size - 1)) (Z.lor c' CTRL_FREE));;
  modify (set_ctrl iBlock (Z.lor CTRL_FREE iLogsize));;
  r ← merge_loop LOOP_FUEL iBlock iLogsize size;
  memsys5Link r.1 r.2.

Definition memsys5Free (pPrior : Z) : M heap unit :=
  massert (negb (pPrior =? 0));;
  memsys5Enter;;
  memsys5FreeUnsafe pPrior;;
  memsys5Leave.

Definition memsys5Realloc (pPrior nBytes : Z) : M heap Z :=
  massert (negb (pPrior =? 0));;
  massert (Z.land nBytes (nBytes - 1) =? 0);;
  massert (0 <=? nBytes);;
  if nBytes =? 0 then mret 0
  else
    nOld ← memsys5Size pPrior;
    if nBytes <=? nOld then mret pPrior
    else
      p ← memsys5Malloc nBytes;
      (if negb (p =? 0) then
         modify (set_ram (λ m, store_bytes m p (load_bytes m pPrior (Z.to_nat nOld))));;
         memsys5Free pPrior
       else mret tt);;
      mret p.

(** ** Initialisation *)

(** [while( (int)sizeof(Mem5Link)>mem5.szAtom )] *)
Fixpoint atom_loop (fuel : nat) (sz : Z) : M heap Z :=
  match fuel with
  | O => fail EFuel
  | S fuel' =>
      if sz <? sizeof_Mem5Link then atom_loop fuel' (i32 (Z.shiftl sz 1)) else mret sz
  end.

(** [for(ii=0; ii<=LOGMAX; ii++) mem5.aiFreelist[ii] = -1;] *)
Definition clear_freelists (s : heap) : heap :=
  fold_left (λ s k, set_flist k (-1) s) (seqZ 0 (LOGMAX + 1)) s.

(** [for(ii=LOGMAX; ii>=0; ii--)], with [n = ii + 1] iterations to go. *)
Fixpoint carve_loop (n : nat) (iOffset : Z) : M heap unit :=
  match n with
  | O => mret tt
  | S n' =>
      let ii := Z.of_nat n' in
      let nAlloc := Z.shiftl 1 ii in
      nb ← gets (nBlock ∘ mem5);
      off ← (if iOffset + nAlloc <=? nb then
               modify (set_ctrl iOffset (Z.lor ii CTRL_FREE));;
               memsys5Link iOffset ii;;
               mret (iOffset + nAlloc)
             else mret iOffset);
      massert (nb <? off + nAlloc);;
      carve_loop n' off
  end.

Definition memsys5Init (ptr p_size mnReq : Z) : M heap Z :=
  let nByte := i32 p_size in
  if ptr =? 0 then mret (-1)
  else
    nMinLog ← memsys5Log mnReq;
    modify (set_mem5 (with_lock 0));;
    sz ← atom_loop LOOP_FUEL (i32 (Z.shiftl 1 nMinLog));
    let nb := i32 (u64 nByte `div` u64 (sz + 1)) in
    modify (set_mem5 (with_geometry sz nb ptr (ptr + i32 (nb * sz))));;
    modify clear_freelists;;
    carve_loop 31 0;;
    mret 0.

Definition memsys5Shutdown : M heap unit := mret tt.
