(* ===== verification/Mem5Inv.v ===== *)
(** * The invariant of the buddy allocator

    Geometry of the pool, frame lemmas for its cells, the partition of the pool
    into aligned blocks, and the effect of [memsys5Link] and [memsys5Unlink] on
    the free lists. *)

From S2P Require Import Prelude Memory DList Mem5.

(** ** Geometry *)

Record geom (g : Mem5Global) : Prop := {
  geom_atom : ∃ a, 3 ≤ a ≤ 30 ∧ szAtom g = 2 ^ a;
  geom_nblock : 0 ≤ nBlock g;
  geom_fit : nBlock g * szAtom g < 2 ^ 31;
  geom_pool : 0 < zPool g;
  geom_ctrl : aCtrl g = zPool g + nBlock g * szAtom g
}.

Lemma geom_atom_pos g : geom g → 8 ≤ szAtom g ≤ 2 ^ 30.
Proof.
  intros [(a & Ha & ->) _ _ _ _]. change 8 with (2 ^ 3).
  split; apply pow2_le; lia.
Qed.

Lemma geom_nblock_bound g : geom g → 0 ≤ nBlock g < 2 ^ 28.
Proof.
  intros Hg. pose proof (geom_atom_pos g Hg). destruct Hg as [_ H1 H2 _ _].
  split; [done|]. nia.
Qed.

Lemma geom_link g i :
  geom g → 0 ≤ i < nBlock g →
  MEM5LINK g i = zPool g + i * szAtom g ∧
  zPool g ≤ MEM5LINK g i ∧ MEM5LINK g i + 8 ≤ aCtrl g.
Proof.
  intros Hg Hi. pose proof (geom_atom_pos g Hg). destruct Hg as [_ _ H1 _ ->].
  unfold MEM5LINK. rewrite i32_id by nia. nia.
Qed.

(** Distinct blocks have disjoint links. *)
Lemma geom_link_ne g i j :
  geom g → 0 ≤ i < nBlock g → 0 ≤ j < nBlock g → i ≠ j →
  MEM5LINK g i + 8 ≤ MEM5LINK g j ∨ MEM5LINK g j + 8 ≤ MEM5LINK g i.
Proof.
  intros Hg Hi Hj Hne. pose proof (geom_atom_pos g Hg).
  destruct (geom_link g i) as [-> _]; [done..|].
  destruct (geom_link g j) as [-> _]; [done..|].
  destruct (Z.lt_total i j) as [?|[?|?]]; [left|done|right]; nia.
Qed.

(** ** Frame lemmas for the cells *)

Section cells.
Context (s : heap) (Hg : geom (mem5 s)).

Local Tactic Notation "cell" :=
  unfold nxt, prv, ctrl, set_nxt, set_prv, set_ctrl, set_ram; simpl;
  autorewrite with mem; try done.

Lemma nxt_set_nxt i j v :
  0 ≤ i < nBlock (mem5 s) → 0 ≤ j < nBlock (mem5 s) →
  nxt (set_nxt i v s) j = if decide (j = i) then i32 v else nxt s j.
Proof.
  intros Hi Hj. destruct (decide (j = i)) as [->|Hne]; [cell|].
  pose proof (geom_link_ne _ _ _ Hg Hi Hj ltac:(done)). cell.
Qed.
Lemma prv_set_prv i j v :
  0 ≤ i < nBlock (mem5 s) → 0 ≤ j < nBlock (mem5 s) →
  prv (set_prv i v s) j = if decide (j = i) then i32 v else prv s j.
Proof.
  intros Hi Hj. destruct (decide (j = i)) as [->|Hne]; [cell|].
  pose proof (geom_link_ne _ _ _ Hg Hi Hj ltac:(done)). cell.
Qed.
Lemma prv_set_nxt i j v :
  0 ≤ i < nBlock (mem5 s) → 0 ≤ j < nBlock (mem5 s) → prv (set_nxt i v s) j = prv s j.
Proof.
  intros Hi Hj. destruct (decide (j = i)) as [->|Hne]; [cell|].
  pose proof (geom_link_ne _ _ _ Hg Hi Hj ltac:(done)). cell.
Qed.
Lemma nxt_set_prv i j v :
  0 ≤ i < nBlock (mem5 s) → 0 ≤ j < nBlock (mem5 s) → nxt (set_prv i v s) j = nxt s j.
Proof.
  intros Hi Hj. destruct (decide (j = i)) as [->|Hne]; [cell|].
  pose proof (geom_link_ne _ _ _ Hg Hi Hj ltac:(done)). cell.
Qed.
Lemma ctrl_set_nxt i j v :
  0 ≤ i < nBlock (mem5 s) → 0 ≤ j → ctrl (set_nxt i v s) j = ctrl s j.
Proof. intros Hi Hj. pose proof (geom_link _ _ Hg Hi). cell. Qed.
Lemma ctrl_set_prv i j v :
  0 ≤ i < nBlock (mem5 s) → 0 ≤ j → ctrl (set_prv i v s) j = ctrl s j.
Proof. intros Hi Hj. pose proof (geom_link _ _ Hg Hi). cell. Qed.
Lemma nxt_set_ctrl i j v :
  0 ≤ i → 0 ≤ j < nBlock (mem5 s) → nxt (set_ctrl i v s) j = nxt s j.
Proof. intros Hi Hj. pose proof (geom_link _ _ Hg Hj). cell. Qed.
Lemma prv_set_ctrl i j v :
  0 ≤ i → 0 ≤ j < nBlock (mem5 s) → prv (set_ctrl i v s) j = prv s j.
Proof. intros Hi Hj. pose proof (geom_link _ _ Hg Hj). cell. Qed.
Lemma ctrl_set_ctrl i j v :
  ctrl (set_ctrl i v s) j = if decide (j = i) then u8 v else ctrl s j.
Proof. destruct (decide (j = i)) as [->|Hne]; cell. Qed.
End cells.

Lemma flist_set_flist s k v j :
  flist (set_flist k v s) j = if decide (j = k) then v else flist s j.
Proof.
  unfold flist, set_flist, set_mem5, with_freelist. simpl.
  destruct (decide (j = k)) as [->|]; [by rewrite lookup_insert_eq|].
  by rewrite lookup_insert_ne.
Qed.

(** The geometry does not depend on the free lists and the lock. *)
Definition same_geo (g g' : Mem5Global) : Prop :=
  szAtom g' = szAtom g ∧ nBlock g' = nBlock g ∧ zPool g' = zPool g ∧ aCtrl g' = aCtrl g.

Lemma same_geo_geom g g' : same_geo g g' → geom g → geom g'.
Proof.
  intros (H1 & H2 & H3 & H4) []. constructor; by rewrite ?H1, ?H2, ?H3, ?H4.
Qed.

(** ** Frames

    [keeps T s s']: from [s] to [s'] the geometry and the lock stay, and so
    does every byte that is neither a control byte nor in an atom of [T]. *)

Definition atom_of (g : Mem5Global) (a : Z) : Z := (a - zPool g) / szAtom g.

Record keeps (T : Z → Prop) (s s' : heap) : Prop := {
  keeps_geo : same_geo (mem5 s) (mem5 s');
  keeps_lock : mem_lock (mem5 s') = mem_lock (mem5 s);
  keeps_byte : ∀ a,
    ¬ (aCtrl (mem5 s) ≤ a < aCtrl (mem5 s) + nBlock (mem5 s)) →
    ¬ T (atom_of (mem5 s) a) → rd8 (ram s') a = rd8 (ram s) a
}.

Lemma keeps_refl T s : keeps T s s.
Proof. by constructor. Qed.

Lemma keeps_weaken (T T' : Z → Prop) s s' :
  (∀ x, T x → T' x) → keeps T s s' → keeps T' s s'.
Proof. intros HT [H1 H2 H3]. constructor; [done..|]. intros a Ha HTa. apply H3; auto. Qed.

Lemma keeps_trans T s1 s2 s3 : keeps T s1 s2 → keeps T s2 s3 → keeps T s1 s3.
Proof.
  intros [(A1 & A2 & A3 & A4) L1 B1] [(C1 & C2 & C3 & C4) L2 B2].
  constructor; [unfold same_geo; split_and!; congruence|congruence|].
  intros a Ha HT. rewrite B2; [by apply B1| |].
  - by rewrite A2, A4.
  - unfold atom_of in *. by rewrite A1, A3.
Qed.

Lemma keeps_modify_mem5 T s f :
  same_geo (mem5 s) (f (mem5 s)) → mem_lock (f (mem5 s)) = mem_lock (mem5 s) →
  keeps T s (set_mem5 f s).
Proof. intros. by constructor. Qed.

Lemma keeps_set_flist T s k v : keeps T s (set_flist k v s).
Proof. by apply keeps_modify_mem5. Qed.

Lemma keeps_set_ctrl T s i v : 0 ≤ i < nBlock (mem5 s) → keeps T s (set_ctrl i v s).
Proof.
  intros. constructor; [done..|]. intros a Ha _. unfold set_ctrl, set_ram. simpl.
  apply rd8_wr8_ne. lia.
Qed.

Lemma atom_of_link g i a :
  geom g → 0 ≤ i < nBlock g → MEM5LINK g i ≤ a < MEM5LINK g i + 8 → atom_of g a = i.
Proof.
  intros Hg Hi Ha. destruct (geom_link g i Hg Hi) as [E _].
  pose proof (geom_atom_pos g Hg). rewrite E in Ha. unfold atom_of.
  symmetry. apply Z.div_unique with (r := a - zPool g - i * szAtom g); lia.
Qed.

Lemma keeps_set_nxt (T : Z → Prop) s i v :
  geom (mem5 s) → 0 ≤ i < nBlock (mem5 s) → T i → keeps T s (set_nxt i v s).
Proof.
  intros Hg Hi HT. constructor; [done..|]. intros a _ Ha. simpl.
  apply rd8_store32_ne.
  destruct (decide (MEM5LINK (mem5 s) i ≤ a < MEM5LINK (mem5 s) i + 8)) as [H|]; [|lia].
  rewrite (atom_of_link _ i) in Ha by done. done.
Qed.

Lemma keeps_set_prv (T : Z → Prop) s i v :
  geom (mem5 s) → 0 ≤ i < nBlock (mem5 s) → T i → keeps T s (set_prv i v s).
Proof.
  intros Hg Hi HT. constructor; [done..|]. intros a _ Ha. simpl.
  apply rd8_store32_ne.
  destruct (decide (MEM5LINK (mem5 s) i ≤ a < MEM5LINK (mem5 s) i + 8)) as [H|]; [|lia].
  rewrite (atom_of_link _ i) in Ha by done. done.
Qed.

(** ** The free lists *)

Record lists_ok (s : heap) (fl : Z → list Z) : Prop := {
  lists_dlist : ∀ k, 0 ≤ k ≤ LOGMAX → dlist (nxt s) (prv s) (flist s k) (fl k);
  lists_nodup : ∀ k, NoDup (fl k);
  lists_range : ∀ k i, i ∈ fl k → 0 ≤ k ≤ LOGMAX ∧ 0 ≤ i < nBlock (mem5 s);
  lists_disj : ∀ k k' i, i ∈ fl k → i ∈ fl k' → k = k'
}.

Lemma link_asserts_ok s i k :
  0 ≤ i < nBlock (mem5 s) → 0 ≤ k ≤ LOGMAX → Z.land (ctrl s i) CTRL_LOGSIZE = k →
  link_asserts i k s = true.
Proof. intros. unfold link_asserts. bool_lia. Qed.

(** An index is a 32-bit integer. *)
Lemma i32_index g i : geom g → -1 ≤ i < nBlock g → i32 i = i.
Proof. intros Hg Hi. pose proof (geom_nblock_bound g Hg). apply i32_id. lia. Qed.

(** The index read at the end of a list: -1 or one of its cells. *)
Lemma default_elem (o : option Z) (l : list Z) n :
  (∀ x, o = Some x → x ∈ l) → (∀ y, y ∈ l → 0 ≤ y < n) → 0 ≤ n →
  -1 ≤ default (-1) o < n ∧ (0 ≤ default (-1) o → default (-1) o ∈ l).
Proof.
  intros Ho Hl Hn. destruct o as [x|]; simpl; [|lia].
  specialize (Ho x eq_refl). pose proof (Hl x Ho). split; [lia|done].
Qed.

Lemma head_elem (l : list Z) x : head l = Some x → x ∈ l.
Proof. apply head_Some_elem_of. Qed.
Lemma last_elem (l : list Z) x : last l = Some x → x ∈ l.
Proof. apply last_Some_elem_of. Qed.

(** Side conditions of the frame lemmas. *)
Ltac hside := simpl in *; solve [done | lia | auto].

(** The cells of the heap that linking block [i] in front of cell [x] leaves. *)
Definition link_cells (i x : Z) (s : heap) : heap :=
  let s1 := set_prv i (-1) (set_nxt i x s) in
  if 0 <=? x then set_prv x i s1 else s1.

Lemma link_cells_mem5 i x s : mem5 (link_cells i x s) = mem5 s.
Proof. unfold link_cells. by destruct (0 <=? x). Qed.

Section link_cells.
Context (s : heap) (i x : Z) (Hg : geom (mem5 s)).
Context (Hi : 0 ≤ i < nBlock (mem5 s)) (Hx : -1 ≤ x < nBlock (mem5 s)) (Hxi : x ≠ i).

Lemma link_cells_nxt j :
  0 ≤ j < nBlock (mem5 s) →
  nxt (link_cells i x s) j = if decide (j = i) then x else nxt s j.
Proof.
  intros Hj. unfold link_cells. destruct (Z.leb_spec 0 x);
    rewrite ?nxt_set_prv, ?nxt_set_nxt by hside;
    by rewrite (i32_index (mem5 s)).
Qed.

Lemma link_cells_prv j :
  0 ≤ j < nBlock (mem5 s) →
  prv (link_cells i x s) j =
    if decide (j = i) then -1 else if decide (j = x) then i else prv s j.
Proof.
  intros Hj. unfold link_cells. destruct (Z.leb_spec 0 x).
  - rewrite prv_set_prv, prv_set_prv, prv_set_nxt by hside.
    rewrite (i32_index (mem5 s) i), (i32_id (-1)) by hside.
    by repeat case_decide; subst.
  - rewrite prv_set_prv, prv_set_nxt by hside. rewrite (i32_id (-1)) by done.
    repeat case_decide; subst; (done || lia).
Qed.

Lemma link_cells_ctrl j : 0 ≤ j → ctrl (link_cells i x s) j = ctrl s j.
Proof.
  intros Hj. unfold link_cells. destruct (Z.leb_spec 0 x);
    rewrite ?ctrl_set_prv, ctrl_set_nxt by hside; done.
Qed.

Lemma link_cells_keeps (T : Z → Prop) :
  T i → (0 ≤ x → T x) → keeps T s (link_cells i x s).
Proof.
  intros Ti Tx. unfold link_cells.
  assert (keeps T s (set_prv i (-1) (set_nxt i x s))) as K.
  { eapply keeps_trans; [by apply (keeps_set_nxt _ _ i x)|]. by apply keeps_set_prv. }
  destruct (Z.leb_spec 0 x); [|done].
  eapply keeps_trans; [exact K|]. apply keeps_set_prv; [done|simpl; lia|auto].
Qed.
End link_cells.

Lemma memsys5Link_run s i k :
  link_asserts i k s = true → flist s k < nBlock (mem5 s) →
  memsys5Link i k s = Ok (tt, set_flist k i (link_cells i (flist s k) s)).
Proof.
  intros Ha Hx. unfold memsys5Link, link_cells. mrun.
  destruct (Z.leb_spec 0 (flist s k)); mrun; [|done].
  rewrite bind_assert by (by apply Z.ltb_lt). by mrun.
Qed.

(** A list that neither contains [i] nor starts at [x] is left alone. *)
Lemma link_cells_dlist s i x h l :
  geom (mem5 s) → 0 ≤ i < nBlock (mem5 s) → -1 ≤ x < nBlock (mem5 s) → x ≠ i →
  (∀ y, y ∈ l → 0 ≤ y < nBlock (mem5 s)) → i ∉ l → x ∉ l →
  dlist (nxt s) (prv s) h l →
  dlist (nxt (link_cells i x s)) (prv (link_cells i x s)) h l.
Proof.
  intros Hg Hi Hx Hxi Hr Hil Hxl. apply dlist_ext. intros y Hy.
  rewrite link_cells_nxt, link_cells_prv by auto.
  by rewrite !decide_False by (by intros ->).
Qed.

(** A head pointer is -1 or the first cell. *)
Lemma lists_head s fl k :
  geom (mem5 s) → lists_ok s fl → 0 ≤ k ≤ LOGMAX →
  flist s k = default (-1) (head (fl k)) ∧ -1 ≤ flist s k < nBlock (mem5 s) ∧
  (0 ≤ flist s k → flist s k ∈ fl k).
Proof.
  intros Hg [Hd _ Hr _] Hk. pose proof (geom_nblock_bound _ Hg).
  pose proof (dlist_head _ _ _ _ (Hd k Hk)) as ->. split; [done|].
  apply default_elem; [apply head_elem|intros; by eapply Hr|lia].
Qed.

(** [memsys5Link] pushes a block in front of its list. *)
Lemma memsys5Link_ok s fl i k :
  geom (mem5 s) → lists_ok s fl → 0 ≤ i < nBlock (mem5 s) → 0 ≤ k ≤ LOGMAX →
  (∀ k', i ∉ fl k') → Z.land (ctrl s i) CTRL_LOGSIZE = k →
  ∃ s', memsys5Link i k s = Ok (tt, s') ∧
    lists_ok s' (fupd fl k (i :: fl k)) ∧
    (∀ j, 0 ≤ j → ctrl s' j = ctrl s j) ∧
    keeps (λ x, x = i ∨ x ∈ fl k) s s'.
Proof.
  intros Hg Hl Hi Hk Hnotin Hc.
  destruct (lists_head s fl k Hg Hl Hk) as (Hhd & Hx & Hxin).
  destruct Hl as [Hd Hnd Hr Hdj]. set (x := flist s k) in *.
  assert (x ≠ i) as Hxi by (intros E; apply (Hnotin k); rewrite <- E; apply Hxin; lia).
  eexists. split; [apply memsys5Link_run; [by apply link_asserts_ok|lia]|]. fold x.
  split_and!; [constructor|..].
  - intros k' Hk'. rewrite flist_set_flist. destruct (decide (k' = k)) as [->|Hne].
    + rewrite fupd_eq.
      apply (dlist_push (nxt (link_cells i x s)) (prv s) _ _ x); auto.
      * destruct (Hd k Hk) as [q Hq]. exists q. eapply dseg_ext; [|exact Hq].
        intros y Hy. split; [|done]. rewrite link_cells_nxt by (try done; by eapply Hr).
        rewrite decide_False; [done|]. by intros ->; edestruct Hnotin.
      * change (nxt (link_cells i x s) i = x). rewrite link_cells_nxt by done.
        by rewrite decide_True.
      * change (prv (link_cells i x s) i = -1). rewrite link_cells_prv by done.
        by rewrite decide_True.
      * intros y Hy. change (prv (link_cells i x s) y =
          if decide (head (fl k) = Some y) then i else prv s y).
        pose proof (Hr _ _ Hy) as [_ Hyr]. rewrite link_cells_prv by done.
        rewrite decide_False by (intros ->; by edestruct Hnotin).
        destruct (head (fl k)) as [z|] eqn:E; simpl in Hhd;
          repeat case_decide; (done || congruence || lia).
    + rewrite fupd_ne by done.
      replace (flist (link_cells i x s) k') with (flist s k')
        by (unfold flist; by rewrite link_cells_mem5).
      apply link_cells_dlist; auto; [intros; by eapply Hr|].
      intros Hxl. apply Hne. pose proof (Hr _ _ Hxl). apply (Hdj _ _ x); auto.
      apply Hxin. lia.
  - intros k'. unfold fupd. case_decide; [|done]. apply NoDup_cons; auto.
  - intros k' j. simpl. rewrite link_cells_mem5. unfold fupd. case_decide; [|apply Hr].
    subst. intros [->|?]%elem_of_cons; eauto.
  - intros k1 k2 j. unfold fupd.
    destruct (decide (k1 = k)) as [->|], (decide (k2 = k)) as [->|];
      rewrite ?elem_of_cons; intros H1 H2; [done|destruct H1|destruct H2|];
      subst; eauto; by edestruct Hnotin.
  - intros j Hj. change (ctrl (link_cells i x s) j = ctrl s j).
    by apply link_cells_ctrl.
  - eapply keeps_trans; [|apply keeps_set_flist]. apply link_cells_keeps; auto.
Qed.

(** The heap that unlinking block [i] from list [k] leaves. *)
Definition unlink_cells (i k : Z) (s : heap) : heap :=
  let next := nxt s i in
  let prev := prv s i in
  let s1 := if prev <? 0 then set_flist k next s else set_nxt prev next s in
  if 0 <=? next then set_prv next prev s1 else s1.

Lemma memsys5Unlink_run s i k :
  link_asserts i k s = true → memsys5Unlink i k s = Ok (tt, unlink_cells i k s).
Proof.
  intros Ha. unfold memsys5Unlink, unlink_cells. mrun.
  destruct (prv s i <? 0), (0 <=? nxt s i); by mrun.
Qed.

Section unlink_cells.
Context (s : heap) (i k : Z) (Hg : geom (mem5 s)).
Context (Hp : -1 ≤ prv s i < nBlock (mem5 s)) (Hn : -1 ≤ nxt s i < nBlock (mem5 s)).

Let s1 := if prv s i <? 0 then set_flist k (nxt s i) s else set_nxt (prv s i) (nxt s i) s.

Local Lemma s1_geo : same_geo (mem5 s) (mem5 s1).
Proof. unfold s1. by destruct (prv s i <? 0). Qed.
Local Lemma s1_geom : geom (mem5 s1).
Proof. eapply same_geo_geom; [apply s1_geo|done]. Qed.
Local Lemma s1_nBlock : nBlock (mem5 s1) = nBlock (mem5 s).
Proof. apply s1_geo. Qed.
Local Hint Resolve s1_geom : core.
Local Ltac side := rewrite ?s1_nBlock; first [done | lia | auto].

Lemma unlink_cells_geo : same_geo (mem5 s) (mem5 (unlink_cells i k s)).
Proof. unfold unlink_cells. by destruct (prv s i <? 0), (0 <=? nxt s i). Qed.

Lemma unlink_cells_nxt j :
  0 ≤ j < nBlock (mem5 s) →
  nxt (unlink_cells i k s) j = if decide (j = prv s i) then nxt s i else nxt s j.
Proof.
  intros Hj.
  assert (nxt s1 j = if decide (j = prv s i) then nxt s i else nxt s j) as E.
  { unfold s1. destruct (Z.ltb_spec (prv s i) 0).
    - rewrite decide_False by lia. done.
    - rewrite nxt_set_nxt by hside. by rewrite (i32_index (mem5 s)). }
  unfold unlink_cells. destruct (Z.leb_spec 0 (nxt s i)); [|done].
  fold s1. by rewrite nxt_set_prv by side.
Qed.

Lemma unlink_cells_prv j :
  0 ≤ j < nBlock (mem5 s) →
  prv (unlink_cells i k s) j = if decide (j = nxt s i) then prv s i else prv s j.
Proof.
  intros Hj.
  assert (prv s1 j = prv s j) as E.
  { unfold s1. destruct (Z.ltb_spec (prv s i) 0); [done|]. by rewrite prv_set_nxt by hside. }
  unfold unlink_cells. destruct (Z.leb_spec 0 (nxt s i)).
  - fold s1. by rewrite prv_set_prv, (i32_index (mem5 s)), E by side.
  - fold s1. rewrite E, decide_False by lia. done.
Qed.

Lemma unlink_cells_flist j :
  flist (unlink_cells i k s) j =
    if decide (j = k ∧ prv s i < 0) then nxt s i else flist s j.
Proof.
  transitivity (flist s1 j).
  { unfold unlink_cells. by destruct (0 <=? nxt s i). }
  unfold s1. destruct (Z.ltb_spec (prv s i) 0).
  - rewrite flist_set_flist. repeat case_decide; (done || naive_solver).
  - rewrite decide_False; [done|lia].
Qed.

Lemma unlink_cells_ctrl j : 0 ≤ j → ctrl (unlink_cells i k s) j = ctrl s j.
Proof.
  intros Hj. assert (ctrl s1 j = ctrl s j) as E.
  { unfold s1. destruct (Z.ltb_spec (prv s i) 0); [done|]. by rewrite ctrl_set_nxt by hside. }
  unfold unlink_cells. destruct (Z.leb_spec 0 (nxt s i)); [|done].
  fold s1. by rewrite ctrl_set_prv by side.
Qed.

Lemma unlink_cells_keeps (T : Z → Prop) :
  (0 ≤ prv s i → T (prv s i)) → (0 ≤ nxt s i → T (nxt s i)) →
  keeps T s (unlink_cells i k s).
Proof.
  intros Tp Tn. assert (keeps T s s1) as K.
  { unfold s1. destruct (Z.ltb_spec (prv s i) 0); [apply keeps_set_flist|].
    apply keeps_set_nxt; [done|lia|auto]. }
  unfold unlink_cells. destruct (Z.leb_spec 0 (nxt s i)); [|done].
  fold s1. eapply keeps_trans; [exact K|]. apply keeps_set_prv; side.
Qed.
End unlink_cells.

(** A list without the neighbours of [i] is left alone. *)
Lemma unlink_cells_dlist s i k h l :
  geom (mem5 s) → -1 ≤ prv s i < nBlock (mem5 s) → -1 ≤ nxt s i < nBlock (mem5 s) →
  (∀ y, y ∈ l → 0 ≤ y < nBlock (mem5 s)) → prv s i ∉ l → nxt s i ∉ l →
  dlist (nxt s) (prv s) h l →
  dlist (nxt (unlink_cells i k s)) (prv (unlink_cells i k s)) h l.
Proof.
  intros Hg Hp Hn Hr Hpl Hnl. apply dlist_ext. intros y Hy.
  rewrite unlink_cells_nxt, unlink_cells_prv by auto.
  by rewrite !decide_False by (by intros ->).
Qed.

(** The neighbours of a cell are -1 or in its list. *)
Lemma lists_neighbours s fl k l1 i l2 :
  geom (mem5 s) → lists_ok s fl → 0 ≤ k ≤ LOGMAX → fl k = l1 ++ i :: l2 →
  prv s i = default (-1) (last l1) ∧ nxt s i = default (-1) (head l2) ∧
  -1 ≤ prv s i < nBlock (mem5 s) ∧ -1 ≤ nxt s i < nBlock (mem5 s) ∧
  (0 ≤ prv s i → prv s i ∈ l1) ∧ (0 ≤ nxt s i → nxt s i ∈ l2).
Proof.
  intros Hg [Hd _ Hr _] Hk E. specialize (Hd k Hk). rewrite E in Hd.
  pose proof (geom_nblock_bound _ Hg).
  assert (∀ y, y ∈ l1 ++ l2 → 0 ≤ y < nBlock (mem5 s)) as Hrk.
  { intros y Hy. eapply (Hr k). rewrite E. set_solver. }
  apply dlist_neighbours in Hd as [-> ->].
  destruct (default_elem (last l1) l1 (nBlock (mem5 s))) as [? ?];
    [apply last_elem|intros; apply Hrk; set_solver|lia|].
  destruct (default_elem (head l2) l2 (nBlock (mem5 s))) as [? ?];
    [apply head_elem|intros; apply Hrk; set_solver|lia|].
  tauto.
Qed.

(** [memsys5Unlink] removes a block from its list, wherever it is. *)
Lemma memsys5Unlink_ok s fl i k l1 l2 :
  geom (mem5 s) → lists_ok s fl → fl k = l1 ++ i :: l2 →
  Z.land (ctrl s i) CTRL_LOGSIZE = k →
  ∃ s', memsys5Unlink i k s = Ok (tt, s') ∧
    lists_ok s' (fupd fl k (l1 ++ l2)) ∧
    (∀ j, 0 ≤ j → ctrl s' j = ctrl s j) ∧
    keeps (λ x, x ∈ fl k) s s'.
Proof.
  intros Hg Hl E Hc.
  assert (0 ≤ k ≤ LOGMAX ∧ 0 ≤ i < nBlock (mem5 s)) as [Hk Hi].
  { apply (lists_range _ _ Hl). rewrite E. set_solver. }
  destruct (lists_neighbours s fl k l1 i l2) as (Hp & Hn & Hpr & Hnr & Hpin & Hnin); [done..|].
  destruct Hl as [Hd Hnd Hr Hdj].
  assert (∀ y, y ∈ l1 ++ l2 → y ∈ fl k) as Hsub by (rewrite E; set_solver).
  eexists. split; [by apply memsys5Unlink_run, link_asserts_ok|].
  split_and!; [constructor|..].
  - intros k' Hk'. rewrite unlink_cells_flist by done.
    destruct (decide (k' = k)) as [->|Hne].
    + rewrite fupd_eq. pose proof (Hd k Hk) as Hdk. pose proof (Hnd k) as Hndk.
      rewrite E in Hdk, Hndk.
      eapply dlist_unlink; [exact Hdk|exact Hndk|..].
      * destruct l1 as [|a l1]; [rewrite decide_True; [done|]|rewrite decide_False; [done|]].
        { split; [done|]. rewrite Hp. done. }
        { intros [_ Hlt]. rewrite Hp in Hlt.
          destruct (last (a :: l1)) as [z|] eqn:El; [|by apply last_None in El].
          apply last_elem in El. simpl in Hlt.
          assert (z ∈ fl k) as Hz by (apply Hsub; set_solver). apply Hr in Hz. lia. }
      * intros y Hy. pose proof (proj2 (Hr _ _ (Hsub _ Hy))) as Hyr.
        rewrite unlink_cells_nxt, Hp by done.
        destruct (last l1); simpl; repeat case_decide; (done || congruence || lia).
      * intros y Hy. pose proof (proj2 (Hr _ _ (Hsub _ Hy))) as Hyr.
        rewrite unlink_cells_prv, Hn by done.
        destruct (head l2); simpl; repeat case_decide; (done || congruence || lia).
    + rewrite fupd_ne, decide_False by naive_solver.
      apply unlink_cells_dlist; auto; [intros; by eapply Hr|intros Hin..];
        destruct (Hr _ _ Hin) as [_ [Hge _]]; apply Hne, (Hdj _ _ _ Hin), Hsub, elem_of_app;
        auto.
  - intros k'. unfold fupd. case_decide; [|done]. pose proof (Hnd k) as Hndk.
    rewrite E in Hndk. eapply sublist_NoDup; [exact Hndk|].
    apply sublist_app; [done|]. by apply sublist_cons.
  - intros k' j. destruct (unlink_cells_geo s i k) as (_ & -> & _).
    unfold fupd. case_decide; [subst|]; eauto.
  - intros k1 k2 j. unfold fupd. repeat case_decide; subst; eauto.
  - intros j Hj. by apply unlink_cells_ctrl.
  - apply unlink_cells_keeps; auto; intros; apply Hsub; set_solver.
Qed.
