(* ===== verification/Mem5Proofs.v ===== *)
(** * Correctness of the buddy allocator

    The invariant [inv] ties the concrete heap to a partition of the arena into
    blocks; allocation and release are shown against the abstract map of
    outstanding blocks. *)

From S2P Require Import Prelude Memory DList Blocks Mem5 Mem5Inv.

(** The fuel is never to be counted down by a tactic. *)
Lemma fuel_32 : LOOP_FUEL = 32%nat.
Proof. reflexivity. Qed.
#[local] Opaque LOOP_FUEL.

(** ** Control bytes *)

(** The control byte of a block of log-size [k]. *)
Definition enc (k : Z) (f : bool) : Z := if f then Z.lor CTRL_FREE k else k.

Definition enc_facts (k : Z) : bool :=
  forallb (λ f : bool,
    (Z.land (enc k f) CTRL_LOGSIZE =? k)
    && (Z.land (enc k f) CTRL_FREE =? if f then CTRL_FREE else 0)
    && (0 <=? enc k f) && (enc k f <? 64)) [true; false].

Lemma enc_facts_ok k : 0 ≤ k ≤ LOGMAX → enc_facts k = true.
Proof.
  intros Hk. assert (forallb enc_facts (seqZ 0 31) = true) as H by reflexivity.
  rewrite forallb_forall in H. apply H, list_elem_of_In, elem_of_seqZ.
  unfold LOGMAX in Hk. lia.
Qed.

Lemma enc_ok k f :
  0 ≤ k ≤ LOGMAX →
  Z.land (enc k f) CTRL_LOGSIZE = k ∧
  Z.land (enc k f) CTRL_FREE = (if f then CTRL_FREE else 0) ∧
  u8 (enc k f) = enc k f.
Proof.
  intros Hk. apply enc_facts_ok in Hk. unfold enc_facts in Hk.
  rewrite forallb_forall in Hk. specialize (Hk f).
  rewrite !andb_true_iff, !Z.eqb_eq, Z.leb_le, Z.ltb_lt in Hk.
  destruct Hk as [[[H1 H2] H3] H4]; [by destruct f; simpl; auto|].
  split_and!; [done|done|apply u8_id; lia].
Qed.

Lemma enc_inj k k' f f' :
  0 ≤ k ≤ LOGMAX → 0 ≤ k' ≤ LOGMAX → enc k f = enc k' f' → k = k' ∧ f = f'.
Proof.
  intros Hk Hk' E. destruct (enc_ok k f Hk) as (H1 & H2 & _).
  destruct (enc_ok k' f' Hk') as (H1' & H2' & _). rewrite E in H1, H2.
  split; [congruence|]. rewrite H2 in H2'. by destruct f, f'.
Qed.

(** ** The invariant *)

(** The outstanding blocks: start index and log-size. *)
Definition outstanding (bl : blocks) : gmap Z Z :=
  omap (λ kf : Z * bool, if kf.2 then None else Some kf.1) bl.

(** [ex] lists the blocks a routine has in hand, whose control byte is not up
    to date. *)
Record inv (s : heap) (fl : Z → list Z) (bl : blocks) (ex : list Z) : Prop := {
  inv_geom : geom (mem5 s);
  inv_lists : lists_ok s fl;
  inv_fl : ∀ k i, i ∈ fl k ↔ bl !! i = Some (k, true);
  inv_part : partition (nBlock (mem5 s)) bl;
  inv_coal : coalesced bl;
  inv_ctrl : ∀ i k f, bl !! i = Some (k, f) → i ∉ ex → ctrl s i = enc k f
}.

Lemma inv_wf s fl bl ex i k f :
  inv s fl bl ex → bl !! i = Some (k, f) →
  0 ≤ k ≤ LOGMAX ∧ 0 ≤ i ∧ (2 ^ k | i) ∧ i + 2 ^ k ≤ nBlock (mem5 s) ∧
  0 ≤ i < nBlock (mem5 s).
Proof.
  intros Hinv Hi. destruct (part_wf _ _ (inv_part _ _ _ _ Hinv) _ _ _ Hi) as (H1&H2&H3&H4).
  pose proof (pow2_pos k ltac:(lia)). unfold LOGMAX. split_and!; (done || lia).
Qed.

Lemma outstanding_lookup bl i k :
  outstanding bl !! i = Some k ↔ bl !! i = Some (k, false).
Proof.
  unfold outstanding. rewrite lookup_omap. destruct (bl !! i) as [[k' []]|]; simpl; naive_solver.
Qed.

Lemma outstanding_insert_false bl i k :
  outstanding (<[i := (k, false)]> bl) = <[i := k]> (outstanding bl).
Proof. unfold outstanding. by erewrite omap_insert_Some. Qed.

Lemma outstanding_insert_true bl i k :
  outstanding (<[i := (k, true)]> bl) = delete i (outstanding bl).
Proof. unfold outstanding. by rewrite omap_insert_None. Qed.

Lemma outstanding_delete bl i : outstanding (delete i bl) = delete i (outstanding bl).
Proof. unfold outstanding. apply omap_delete. Qed.

(** ** What the steps of the routines do to the invariant *)

(** Fewer free blocks stay coalesced. *)
Lemma coalesced_hold bl i k k' :
  bl !! i = Some (k, true) → coalesced bl → coalesced (<[i := (k', false)]> bl).
Proof.
  intros Hi Hc j kj. rewrite !lookup_insert. repeat case_decide; [naive_solver..|].
  apply Hc.
Qed.

Lemma inv_set_ctrl s fl bl ex j v :
  inv s fl bl ex → 0 ≤ j < nBlock (mem5 s) → (j ∈ ex ∨ bl !! j = None) →
  inv (set_ctrl j v s) fl bl ex.
Proof.
  intros [Hg [Hd Hnd Hr Hdj] Hfl Hp Hco Hc] Hj Hex. constructor; [done| |done..|].
  - constructor; [|done..]. intros k Hk. eapply dlist_ext; [|by apply Hd].
    intros y Hy. pose proof (Hr _ _ Hy). by rewrite nxt_set_ctrl, prv_set_ctrl by hside.
  - intros i k f Hi Hni. rewrite ctrl_set_ctrl. case_decide; [|by apply Hc].
    subst. destruct Hex; [done|congruence].
Qed.

Lemma inv_ctrl_done s fl bl ex i k f :
  inv s fl bl (i :: ex) → bl !! i = Some (k, f) → ctrl s i = enc k f → inv s fl bl ex.
Proof.
  intros [] Hi Hc. constructor; auto. intros j k' f' Hj Hex.
  destruct (decide (j = i)) as [->|]; [congruence|]. apply inv_ctrl0; set_solver.
Qed.

Lemma inv_unlink s fl bl ex i k :
  inv s fl bl ex → bl !! i = Some (k, true) → i ∉ ex →
  ∃ s', memsys5Unlink i k s = Ok (tt, s') ∧
    (∃ fl', inv s' fl' (<[i := (k, false)]> bl) (i :: ex) ∧
      (∀ k' x, x ∈ fl' k' → x ∈ fl k')) ∧
    (∀ j, 0 ≤ j → ctrl s' j = ctrl s j) ∧
    keeps (λ x, x ∈ fl k) s s'.
Proof.
  intros Hinv Hi Hex. destruct (inv_wf _ _ _ _ _ _ _ Hinv Hi) as (Hk & Hi0 & _ & _ & Hir).
  destruct Hinv as [Hg Hl Hfl Hp Hco Hc].
  apply Hfl in Hi as Hin. apply list_elem_of_split in Hin as (l1 & l2 & E).
  destruct (memsys5Unlink_ok s fl i k l1 l2) as (s' & Hrun & Hl' & Hc' & Hkeep); auto.
  { rewrite (Hc i k true) by done. by apply enc_ok. }
  exists s'. split_and!; auto. exists (fupd fl k (l1 ++ l2)).
  pose proof (lists_nodup _ _ Hl k) as Hnd. rewrite E in Hnd.
  apply NoDup_app in Hnd as (_ & Hnd1 & Hnd2). apply NoDup_cons in Hnd2 as [Hnd2 _].
  destruct Hkeep as [(G1 & G2 & G3 & G4) _ _].
  split; [constructor|]; auto.
  - by eapply same_geo_geom.
  - intros k' j. rewrite lookup_insert. destruct (decide (i = j)) as [<-|Hij].
    + split; [|naive_solver]. unfold fupd. case_decide; [subst; set_solver|].
      intros Hin. exfalso. rewrite Hfl in Hin. naive_solver.
    + rewrite <- Hfl. unfold fupd. case_decide; [|done]. subst. rewrite E. set_solver.
  - rewrite G2. by eapply part_flag.
  - by eapply coalesced_hold.
  - intros j k' f. rewrite lookup_insert. case_decide; [set_solver|].
    intros Hj Hjex. destruct (part_wf _ _ Hp _ _ _ Hj) as (_ & ? & _).
    rewrite Hc' by done. apply Hc; set_solver.
  - intros k' x. unfold fupd. case_decide; [|done]. subst. rewrite E. set_solver.
Qed.

Lemma inv_link s fl bl ex i k :
  inv s fl bl (i :: ex) → bl !! i = Some (k, false) → ctrl s i = enc k true →
  (k < LOGMAX → bl !! buddy i k ≠ Some (k, true)) →
  ∃ s', memsys5Link i k s = Ok (tt, s') ∧
    inv s' (fupd fl k (i :: fl k)) (<[i := (k, true)]> bl) ex ∧
    (∀ j, 0 ≤ j → ctrl s' j = ctrl s j) ∧
    keeps (λ x, x = i ∨ x ∈ fl k) s s'.
Proof.
  intros Hinv Hi Hci Hbud.
  destruct (inv_wf _ _ _ _ _ _ _ Hinv Hi) as (Hk & Hi0 & Hdiv & _ & Hir).
  destruct Hinv as [Hg Hl Hfl Hp Hco Hc].
  destruct (memsys5Link_ok s fl i k) as (s' & Hrun & Hl' & Hc' & Hkeep); auto.
  { intros k' Hin. rewrite Hfl in Hin. naive_solver. }
  { rewrite Hci. by apply enc_ok. }
  exists s'. split_and!; auto. destruct Hkeep as [(G1 & G2 & G3 & G4) _ _].
  constructor; auto.
  - by eapply same_geo_geom.
  - intros k' j. rewrite lookup_insert. unfold fupd. destruct (decide (i = j)) as [<-|Hij].
    + case_decide; subst; [set_solver|]. rewrite Hfl. naive_solver.
    + case_decide; [subst|by rewrite Hfl]. rewrite <- Hfl. set_solver.
  - rewrite G2. by eapply part_flag.
  - intros j kj. rewrite !lookup_insert. intros Hj Hkj.
    case_decide as Hij; case_decide as Eb.
    + subst j. injection Hj as <-. pose proof (pow2_pos k ltac:(lia)).
      destruct (buddy_lower i k) as [[E _]|[E _]]; (done || lia).
    + subst j. injection Hj as <-. by apply Hbud.
    + intros [= <-]. apply Hbud; [done|].
      destruct (part_wf _ _ Hp _ _ _ Hj) as (_ & _ & Hjd & _).
      rewrite Eb, buddy_involutive by (done || lia). done.
    + by apply Hco.
  - intros j k' f. rewrite lookup_insert. case_decide as Hij.
    + intros [= <- <-] _. subst. by rewrite Hc'.
    + intros Hj Hjex. destruct (part_wf _ _ Hp _ _ _ Hj) as (_ & ? & _).
      rewrite Hc' by done. apply Hc; set_solver.
Qed.

(** ** Rounding *)

(** The log-size of the block that serves a request, in atoms. *)
Definition log_size (atom nByte : Z) : Z := Z.max 0 (Z.log2_up nByte - Z.log2 atom).

Lemma log_size_spec a n :
  3 ≤ a ≤ 30 → 0 < n ≤ 2 ^ 30 →
  let k := log_size (2 ^ a) n in
  0 ≤ k ∧ a + k ≤ 30 ∧ n ≤ 2 ^ (a + k) ∧ (∀ j, 0 ≤ j → n ≤ 2 ^ (a + j) → k ≤ j).
Proof.
  intros Ha Hn k. unfold k, log_size. rewrite Z.log2_pow2 by lia.
  assert (Z.log2_up n ≤ 30) by (apply Z.log2_up_le_pow2; lia).
  split_and!; try lia.
  - apply Z.log2_up_le_pow2; lia.
  - intros j Hj Hle. apply Z.log2_up_le_pow2 in Hle; lia.
Qed.

Lemma round_loop_ok fuel a n j (s : heap) :
  3 ≤ a ≤ 30 → 0 < n ≤ 2 ^ 30 → 0 ≤ j ≤ log_size (2 ^ a) n →
  (Z.to_nat (log_size (2 ^ a) n - j) < fuel)%nat →
  round_loop fuel n (2 ^ (a + j)) j s =
    Ok ((2 ^ (a + log_size (2 ^ a) n), log_size (2 ^ a) n), s).
Proof.
  intros Ha Hn. destruct (log_size_spec a n Ha Hn) as (Hk0 & Hk1 & Hk2 & Hk3).
  set (k := log_size (2 ^ a) n) in *. clearbody k.
  revert j. induction fuel as [|fuel IH]; intros j Hj Hfuel; [lia|]. simpl.
  pose proof (pow2_pos (a + j) ltac:(lia)).
  destruct (Z.ltb_spec (2 ^ (a + j)) n) as [Hlt|Hge].
  - assert (j ≠ k) by (intros ->; lia).
    assert (2 ^ (a + (j + 1)) = 2 ^ (a + j) * 2) as E.
    { rewrite Z.add_assoc, pow2_S by lia. lia. }
    rewrite i32_id, <- E; [apply IH; lia|].
    assert (2 ^ (a + (j + 1)) ≤ 2 ^ 30) by (apply pow2_le; lia). lia.
  - specialize (Hk3 j ltac:(lia) Hge). by replace j with k by lia.
Qed.

(** [for(iFullSz=szAtom,iLogsize=0; ...)] as the callers run it. *)
Lemma round_loop_run n (s : heap) :
  geom (mem5 s) → 0 < n ≤ 2 ^ 30 →
  let k := log_size (szAtom (mem5 s)) n in
  round_loop LOOP_FUEL n (szAtom (mem5 s)) 0 s = Ok ((szAtom (mem5 s) * 2 ^ k, k), s) ∧
  0 ≤ k ≤ LOGMAX ∧ n ≤ szAtom (mem5 s) * 2 ^ k ∧
  (∀ j, 0 ≤ j → n ≤ szAtom (mem5 s) * 2 ^ j → k ≤ j).
Proof.
  intros [(a & Ha & ->) _ _ _ _] Hn. cbv zeta.
  destruct (log_size_spec a n Ha Hn) as (Hk0 & Hk1 & Hk2 & Hk3).
  pose proof (round_loop_ok LOOP_FUEL a n 0 s Ha Hn) as H. rewrite Z.add_0_r in H.
  rewrite H; [|lia|rewrite fuel_32; lia]. clear H.
  rewrite Z.pow_add_r in * by lia. unfold LOGMAX.
  split; [reflexivity|]. split; [lia|]. split; [lia|]. intros j Hj Hle. apply Hk3; [done|]. by rewrite Z.pow_add_r by lia.
Qed.

(** ** The first non-empty free list *)

Lemma bin_loop_ok fuel k (s : heap) :
  0 ≤ k ≤ LOGMAX + 1 → (Z.to_nat (LOGMAX + 1 - k) < fuel)%nat →
  ∃ kb, bin_loop fuel k s = Ok (kb, s) ∧ k ≤ kb ≤ LOGMAX + 1 ∧
    (∀ k', k ≤ k' < kb → flist s k' < 0) ∧ (kb ≤ LOGMAX → 0 ≤ flist s kb).
Proof.
  revert k. induction fuel as [|fuel IH]; intros k Hk Hf; [lia|]. simpl.
  destruct (Z.leb_spec k LOGMAX) as [Hle|Hgt]; mrun.
  - destruct (Z.ltb_spec (flist s k) 0) as [Hneg|Hpos]; mrun.
    + destruct (IH (k + 1)) as (kb & Hrun & Hr & Hlow & Hhit); [lia..|].
      exists kb. split_and!; (done || lia || idtac). intros k' Hk'.
      destruct (decide (k' = k)) as [->|]; [done|apply Hlow; lia].
    + exists k. split_and!; (done || lia).
  - exists k. split_and!; (done || lia).
Qed.

(** A free list is empty exactly when its head is negative. *)
Lemma inv_flist_neg s fl bl ex k :
  inv s fl bl ex → 0 ≤ k ≤ LOGMAX →
  (flist s k < 0 → ∀ i, bl !! i ≠ Some (k, true)) ∧
  (0 ≤ flist s k → bl !! flist s k = Some (k, true)).
Proof.
  intros [Hg Hl Hfl _ _ _] Hk. destruct (lists_head s fl k Hg Hl Hk) as (Hhd & Hr & Hin).
  split.
  - intros Hneg i Hi. apply Hfl in Hi. destruct (fl k) as [|x l] eqn:E; [set_solver|].
    simpl in Hhd. destruct (lists_range _ _ Hl k x); [rewrite E; set_solver|lia].
  - intros Hpos. apply Hfl. auto.
Qed.

(** ** Splitting *)

(** The blocks that splitting the block at [i] down to log-size [k] leaves:
    one free upper half per level. *)
Definition split_step (i k : Z) (bl : blocks) : blocks :=
  <[i := (k, false)]> (<[i + 2 ^ k := (k, true)]> bl).

Lemma shiftl_1 k : 0 ≤ k → Z.shiftl 1 k = 2 ^ k.
Proof. intros. rewrite Z.shiftl_mul_pow2 by done. lia. Qed.

Lemma coalesced_split n bl i k f :
  partition n bl → coalesced bl → bl !! i = Some (k + 1, false) → 0 ≤ k →
  coalesced (<[i := (k, false)]> (<[i + 2 ^ k := (k, f)]> bl)).
Proof.
  intros Hp Hc Hi Hk j kj. pose proof (pow2_pos k Hk) as Hm.
  destruct (part_wf _ _ Hp _ _ _ Hi) as (_ & _ & Hdiv & _).
  destruct (buddy_halves i k Hk Hdiv) as [Hb Hb'].
  rewrite !lookup_insert. intros Hj HkM.
  destruct (decide (i = j)) as [|Hij]; [naive_solver|].
  destruct (decide (i = buddy j kj)) as [|Hib]; [naive_solver|].
  destruct (decide (i + 2 ^ k = j)) as [<-|Hmj]; [naive_solver|].
  destruct (decide (i + 2 ^ k = buddy j kj)) as [Emb|Hmb]; [|by apply Hc].
  intros [= <- ->]. destruct (part_wf _ _ Hp _ _ _ Hj) as (_ & _ & Hjd & _).
  assert (j = i) as ->; [|done]. rewrite <- Hb', Emb. by rewrite buddy_involutive.
Qed.

(** One turn of the splitting loop: the upper half is given back. *)
Lemma split_step_ok s fl bl i k :
  inv s fl bl [i] → bl !! i = Some (k + 1, false) → 0 ≤ k →
  ∃ s', (modify (set_ctrl (i + 2 ^ k) (Z.lor CTRL_FREE k));;
         memsys5Link (i + 2 ^ k) k) s = Ok (tt, s') ∧
    inv s' (fupd fl k (i + 2 ^ k :: fl k)) (split_step i k bl) [i] ∧
    keeps (λ x, x = i + 2 ^ k ∨ x ∈ fl k) s s'.
Proof.
  intros Hinv Hi Hk. pose proof (pow2_pos k Hk) as Hm. pose proof (pow2_S k Hk) as HS.
  destruct (inv_wf _ _ _ _ _ _ _ Hinv Hi) as (Hk1 & Hi0 & Hdiv & Hin & Hir).
  destruct Hinv as [Hg Hl Hfl Hp Hco Hc].
  assert (bl !! (i + 2 ^ k) = None) as Hmid by (eapply (part_inner _ _ Hp i (k + 1)); [done|lia]).
  set (bl1 := <[i := (k, false)]> (<[i + 2 ^ k := (k, false)]> bl)).
  set (s1 := set_ctrl (i + 2 ^ k) (Z.lor CTRL_FREE k) s).
  assert (ctrl s1 (i + 2 ^ k) = enc k true) as Hc1.
  { unfold s1. rewrite ctrl_set_ctrl, decide_True by done.
    apply (enc_ok k true). lia. }
  assert (inv s fl bl1 [i + 2 ^ k; i]) as Hinv1.
  { constructor; [done..| | | |].
    - intros k' j. rewrite Hfl. unfold bl1. rewrite !lookup_insert.
      repeat case_decide; naive_solver.
    - by eapply part_split.
    - by eapply coalesced_split.
    - intros j k' f. unfold bl1. rewrite !lookup_insert. intros Hj Hnj.
      rewrite !decide_False in Hj by set_solver. apply Hc; set_solver. }
  apply (inv_set_ctrl _ _ _ _ (i + 2 ^ k) (Z.lor CTRL_FREE k)) in Hinv1;
    [|lia|left; set_solver]. fold s1 in Hinv1.
  assert (bl1 !! (i + 2 ^ k) = Some (k, false)) as Hl1.
  { unfold bl1. by rewrite lookup_insert_ne, lookup_insert_eq by lia. }
  destruct (inv_link s1 fl bl1 [i] (i + 2 ^ k) k) as (s' & Hrun & Hinv' & _ & Hkeep); auto.
  { intros _. destruct (buddy_halves i k Hk Hdiv) as [_ ->].
    unfold bl1. by rewrite lookup_insert_eq. }
  exists s'. split_and!.
  - mrun. exact Hrun.
  - unfold split_step. replace (<[i := (k, false)]> (<[i + 2 ^ k := (k, true)]> bl))
      with (<[i + 2 ^ k := (k, true)]> bl1); [done|].
    unfold bl1. rewrite insert_insert_ne by lia. by rewrite insert_insert_eq.
  - eapply keeps_trans; [|exact Hkeep]. apply keeps_set_ctrl. lia.
Qed.

Lemma outstanding_split n bl i k :
  partition n bl → bl !! i = Some (k + 1, false) → 0 ≤ k →
  outstanding (split_step i k bl) = <[i := k]> (outstanding bl).
Proof.
  intros Hp Hi Hk. pose proof (pow2_pos k Hk). pose proof (pow2_S k Hk).
  unfold split_step. rewrite outstanding_insert_false, outstanding_insert_true.
  f_equal. apply delete_id. destruct (outstanding bl !! _) eqn:E; [|done].
  apply outstanding_lookup in E.
  rewrite (part_inner _ _ Hp i (k + 1) false (i + 2 ^ k)) in E by (done || lia). done.
Qed.

Lemma split_loop_S fuel i kb k s :
  0 ≤ k < kb →
  split_loop (S fuel) i kb k s =
    ((modify (set_ctrl (i + 2 ^ (kb - 1)) (Z.lor CTRL_FREE (kb - 1)));;
      memsys5Link (i + 2 ^ (kb - 1)) (kb - 1)) ≫= λ _, split_loop fuel i (kb - 1) k) s.
Proof.
  intros Hk. cbn [split_loop]. rewrite (proj2 (Z.ltb_lt k kb)) by lia. cbv zeta.
  rewrite shiftl_1 by lia. by rewrite bind_assoc.
Qed.

Lemma split_loop_ok (T : Z → Prop) fuel i kb k s fl bl :
  inv s fl bl [i] → bl !! i = Some (kb, false) → 0 ≤ k ≤ kb →
  (Z.to_nat (kb - k) < fuel)%nat →
  (∀ x, i ≤ x < i + 2 ^ kb → T x) → (∀ k' x, x ∈ fl k' → T x) →
  ∃ s' fl' bl', split_loop fuel i kb k s = Ok (tt, s') ∧ inv s' fl' bl' [i] ∧
    bl' !! i = Some (k, false) ∧
    outstanding bl' = <[i := k]> (outstanding bl) ∧ keeps T s s'.
Proof.
  revert kb s fl bl. induction fuel as [|fuel IH]; intros kb s fl bl Hinv Hi Hk Hf HT HTfl;
    [lia|].
  destruct (decide (k = kb)) as [->|Hne].
  { exists s, fl, bl. cbn [split_loop]. rewrite Z.ltb_irrefl. split_and!; auto using keeps_refl.
    symmetry. apply insert_id. by apply outstanding_lookup. }
  rewrite split_loop_S by lia. replace kb with (kb - 1 + 1) in Hi, HT by lia.
  pose proof (pow2_pos (kb - 1) ltac:(lia)). rewrite pow2_S in HT by lia.
  destruct (split_step_ok s fl bl i (kb - 1)) as (s1 & Hrun & Hinv1 & Hkeep); [done|done|lia|].
  rewrite (bind_Ok _ _ _ _ _ Hrun).
  edestruct (IH (kb - 1) s1) as (s' & fl' & bl' & Hrun' & Hinv' & Hi' & Ho' & Hkeep').
  { exact Hinv1. }
  { unfold split_step. by rewrite lookup_insert_eq. }
  { lia. }
  { lia. }
  { intros x Hx. apply HT. lia. }
  { intros k' x. unfold fupd. case_decide; [|apply HTfl].
    intros [->|?]%elem_of_cons; [apply HT; lia|by eapply HTfl]. }
  exists s', fl', bl'. split_and!; auto.
  - rewrite Ho'. rewrite (outstanding_split (nBlock (mem5 s))), insert_insert_eq;
      [done|apply (inv_part _ _ _ _ Hinv)|done|lia].
  - eapply keeps_trans; [|exact Hkeep']. eapply keeps_weaken; [|exact Hkeep].
    intros x [->|Hx]; [apply HT; lia|by eapply HTfl].
Qed.

(** ** Allocation *)

(** The atom [x] lies in a free block. *)
Definition in_free (bl : blocks) (x : Z) : Prop :=
  ∃ j k, bl !! j = Some (k, true) ∧ j ≤ x < j + 2 ^ k.

Definition addr_of (g : Mem5Global) (i : Z) : Z := zPool g + i * szAtom g.

Lemma fl_in_free s fl bl ex k x : inv s fl bl ex → x ∈ fl k → in_free bl x.
Proof.
  intros Hinv Hx. apply (inv_fl _ _ _ _ Hinv) in Hx. exists x, k. split; [done|].
  destruct (inv_wf _ _ _ _ _ _ _ Hinv Hx) as (? & _). pose proof (pow2_pos k ltac:(lia)). lia.
Qed.

(** Some free block is large enough: the least such level serves. *)
Lemma mallocUnsafe_found s fl bl n kb :
  let k := log_size (szAtom (mem5 s)) n in
  inv s fl bl [] → 0 < n ≤ 2 ^ 30 →
  bin_loop LOOP_FUEL k s = Ok (kb, s) → k ≤ kb ≤ LOGMAX → 0 ≤ flist s kb →
  ∃ s' fl' bl', let i := flist s kb in
    memsys5MallocUnsafe n s = Ok (addr_of (mem5 s) i, s') ∧ inv s' fl' bl' [] ∧
    outstanding bl' = <[i := k]> (outstanding bl) ∧ keeps (in_free bl) s s'.
Proof.
  intros k Hinv Hn Hbin Hkb Hpos. set (i := flist s kb) in *.
  pose proof (inv_geom _ _ _ _ Hinv) as Hg.
  destruct (round_loop_run n s Hg Hn) as (Hround & Hk & _). fold k in Hround, Hk.
  destruct (inv_flist_neg _ _ _ _ kb Hinv ltac:(lia)) as [_ Hi]. specialize (Hi Hpos). fold i in Hi.
  destruct (inv_wf _ _ _ _ _ _ _ Hinv Hi) as (_ & Hi0 & _ & _ & Hir).
  destruct (inv_unlink s fl bl [] i kb) as (s1 & Hrun1 & (fl1 & Hinv1 & Hsub) & _ & Hkeep1);
    [done|done|set_solver|].
  destruct (split_loop_ok (in_free bl) LOOP_FUEL i kb k s1 fl1 (<[i := (kb, false)]> bl))
    as (s2 & fl2 & bl2 & Hrun2 & Hinv2 & Hi2 & Ho2 & Hkeep2).
  { exact Hinv1. }
  { by rewrite lookup_insert_eq. }
  { lia. }
  { rewrite fuel_32; unfold LOGMAX in *; lia. }
  { intros x Hx. by exists i, kb. }
  { intros k' x Hx. eapply fl_in_free; eauto. }
  assert (keeps (in_free bl) s s2) as Hkeep.
  { eapply keeps_trans; [|exact Hkeep2]. eapply keeps_weaken; [|exact Hkeep1].
    intros x Hx. by apply (fl_in_free s fl bl [] kb). }
  pose proof (keeps_geo _ _ _ Hkeep) as (_ & Hnb & _ & _).
  exists (set_ctrl i k s2), fl2, bl2. split_and!.
  - unfold memsys5MallocUnsafe. rewrite bind_assert by (apply Z.ltb_lt; lia).
    rewrite (proj2 (Z.ltb_ge _ n)) by lia. mrun.
    rewrite (bind_Ok _ _ _ _ _ Hround). cbn [snd]. rewrite (bind_Ok _ _ _ _ _ Hbin).
    rewrite (proj2 (Z.ltb_ge _ kb)) by lia. mrun. fold i.
    rewrite (bind_Ok _ _ _ _ _ Hrun1), (bind_Ok _ _ _ _ _ Hrun2). mrun.
    destruct (geom_link (mem5 s) i Hg Hir) as [E _]. unfold MEM5LINK in E.
    unfold addr_of. unfold mret, M_ret. do 2 f_equal. done.
  - apply (inv_ctrl_done _ _ _ _ i k false); [|done|].
    + apply inv_set_ctrl; [done|lia|set_solver].
    + rewrite ctrl_set_ctrl, decide_True by done. by apply (enc_ok k false).
  - rewrite Ho2, outstanding_insert_false. apply insert_insert_eq.
  - eapply keeps_trans; [exact Hkeep|]. apply keeps_set_ctrl. lia.
Qed.

Lemma mallocUnsafe_ok s fl bl n :
  let k := log_size (szAtom (mem5 s)) n in
  inv s fl bl [] → 0 < n ≤ 2 ^ 30 →
  ((∀ k' j, k ≤ k' → bl !! j ≠ Some (k', true)) ∧ memsys5MallocUnsafe n s = Ok (0, s)) ∨
  ∃ s' fl' bl' i kb,
    memsys5MallocUnsafe n s = Ok (addr_of (mem5 s) i, s') ∧ inv s' fl' bl' [] ∧
    outstanding bl' = <[i := k]> (outstanding bl) ∧ keeps (in_free bl) s s' ∧
    bl !! i = Some (kb, true) ∧ k ≤ kb ∧ (∀ k' j, k ≤ k' < kb → bl !! j ≠ Some (k', true)).
Proof.
  intros k Hinv Hn. pose proof (inv_geom _ _ _ _ Hinv) as Hg.
  destruct (round_loop_run n s Hg Hn) as (Hround & Hk & _). fold k in Hround, Hk.
  destruct (bin_loop_ok LOOP_FUEL k s) as (kb & Hbin & Hkb & Hlow & Hhit).
  { lia. }
  { rewrite fuel_32; unfold LOGMAX in *; lia. }
  assert (∀ k' j, k ≤ k' < kb → bl !! j ≠ Some (k', true)) as Hnone.
  { intros k' j Hk'. apply (inv_flist_neg _ _ _ _ k' Hinv); [lia|]. by apply Hlow. }
  destruct (decide (kb ≤ LOGMAX)) as [Hle|Hgt].
  - right. specialize (Hhit Hle).
    destruct (mallocUnsafe_found s fl bl n kb Hinv Hn Hbin) as (s' & fl' & bl' & H1 & H2 & H3 & H4);
      [fold k; lia|done|].
    exists s', fl', bl', (flist s kb), kb. split_and!; (done || lia || idtac).
    apply (inv_flist_neg _ _ _ _ kb Hinv); [lia|done].
  - left. split.
    + intros k' j Hk' Hj. destruct (inv_wf _ _ _ _ _ _ _ Hinv Hj) as (? & _).
      eapply Hnone; [|exact Hj]. lia.
    + unfold memsys5MallocUnsafe. rewrite bind_assert by (apply Z.ltb_lt; lia).
      rewrite (proj2 (Z.ltb_ge _ n)) by lia. mrun.
      rewrite (bind_Ok _ _ _ _ _ Hround). cbn [snd]. rewrite (bind_Ok _ _ _ _ _ Hbin).
      rewrite (proj2 (Z.ltb_lt _ kb)) by lia. done.
Qed.
