(* ===== verification/Mem5Free.v ===== *)
(** * Release, reallocation and initialisation of the buddy allocator

    [memsys5FreeUnsafe] against the invariant: the block comes back, merged
    with its free buddies as far as they go, and nothing else changes hands. *)

From S2P Require Import Prelude Memory DList Blocks Mem5 Mem5Inv Mem5Proofs.
#[local] Opaque LOOP_FUEL.

(** ** Coalescing *)

Lemma code_upper i k :
  0 ≤ k → negb (Z.land (Z.shiftr i k) 1 =? 0) = Z.odd (i / 2 ^ k).
Proof.
  intros Hk. rewrite Z.shiftr_div_pow2 by done.
  change 1 with (Z.ones 1). rewrite Z.land_ones by done. change (2 ^ 1) with 2.
  rewrite Zmod_odd. by destruct (Z.odd _).
Qed.

(** A block that is not the buddy of a free one is on its own: the guard of
    the loop decides whether the buddy is free. *)
Lemma merge_guard s fl bl i k :
  inv s fl bl [i] → bl !! i = Some (k, false) → k < LOGMAX →
  let b := buddy i k in
  (Z.odd (i / 2 ^ k) = true → 0 ≤ b) ∧
  (0 ≤ b < nBlock (mem5 s) → ctrl s b = Z.lor CTRL_FREE k ↔ bl !! b = Some (k, true)) ∧
  (b < 0 ∨ nBlock (mem5 s) ≤ b → bl !! b ≠ Some (k, true)) ∧
  (Z.odd (i / 2 ^ k) = false → 0 ≤ b) ∧ (Z.odd (i / 2 ^ k) = true → b < nBlock (mem5 s)).
Proof.
  intros Hinv Hi HkM b. destruct (inv_wf _ _ _ _ _ _ _ Hinv Hi) as (Hk & Hi0 & Hdiv & Hin & Hir).
  pose proof (pow2_pos k ltac:(lia)) as Hm.
  assert (Z.odd (i / 2 ^ k) = true → 0 ≤ b ∧ b < i) as Hup.
  { intros Ho. unfold b, buddy. rewrite Ho. destruct Hdiv as [q ->].
    rewrite Z.div_mul in Ho by lia. assert (q ≠ 0) by (by intros ->).
    assert (0 ≤ q) by (apply (Z.mul_le_mono_pos_r _ _ (2 ^ k)); lia). nia. }
  assert (Z.odd (i / 2 ^ k) = false → 0 ≤ b) as Hlo.
  { intros Ho. unfold b, buddy. rewrite Ho. lia. }
  split_and!; [naive_solver| | |done|intros Ho; destruct (Hup Ho); lia].
  - intros Hb. destruct (part_buddy _ _ (inv_part _ _ _ _ Hinv) i k false Hi HkM Hb)
      as (k' & f' & Hbb & Hle). fold b in Hbb. rewrite Hbb.
    destruct (inv_wf _ _ _ _ _ _ _ Hinv Hbb) as (Hk' & _).
    rewrite (inv_ctrl _ _ _ _ Hinv b k' f' Hbb).
    + split; [|by intros [= -> ->]]. intros E.
      destruct (enc_inj k' k f' true) as [-> ->]; done.
    + assert (b ≠ i); [|set_solver]. unfold b, buddy. destruct (Z.odd _); lia.
  - intros Hb E. destruct (inv_wf _ _ _ _ _ _ _ Hinv E). lia.
Qed.

(** The body of the loop, once the buddy is known. *)
Definition merge_body (fuel : nat) (i k : Z) : M heap (Z * Z) :=
  let b := buddy i k in
  memsys5Unlink b k;;
  modify (set_ctrl (Z.min i b) (enc (k + 1) true));;
  modify (set_ctrl (Z.max i b) 0);;
  merge_loop fuel (Z.min i b) (k + 1) (2 ^ (k + 1)).

Lemma merge_loop_S fuel s fl bl i k :
  inv s fl bl [i] → bl !! i = Some (k, false) → k < LOGMAX →
  merge_loop (S fuel) i k (2 ^ k) s =
    if decide (bl !! buddy i k = Some (k, true)) then merge_body fuel i k s
    else Ok ((i, k), s).
Proof.
  intros Hinv Hi HkM. destruct (merge_guard _ _ _ _ _ Hinv Hi HkM) as (Hup & Hb & Hout & Hlo & Hhi).
  destruct (inv_wf _ _ _ _ _ _ _ Hinv Hi) as (Hk & Hi0 & Hdiv & Hin & Hir).
  pose proof (pow2_pos k ltac:(lia)) as Hm. pose proof (pow2_S k ltac:(lia)) as HS.
  pose proof (geom_nblock_bound _ (inv_geom _ _ _ _ Hinv)) as Hnb.
  assert (2 ^ (k + 1) ≤ 2 ^ 30) as HkB by (apply pow2_le; unfold LOGMAX in *; lia).
  cbn [merge_loop]. rewrite (proj2 (Z.ltb_lt k LOGMAX)) by done. rewrite bind_gets. cbv zeta.
  rewrite code_upper by lia. rewrite !i32_u32.
  replace (if Z.odd (i / 2 ^ k) then i32 (i - 2 ^ k) else i32 (i + 2 ^ k))
    with (buddy i k)
    by (unfold buddy; destruct (Z.odd (i / 2 ^ k)); rewrite i32_id; lia).
  set (b := buddy i k) in *.
  rewrite bind_assert
    by (destruct (Z.odd (i / 2 ^ k)) eqn:E; [apply Z.leb_le; auto|done]).
  destruct (Z.leb_spec (nBlock (mem5 s)) b) as [Hge|Hlt].
  { rewrite decide_False by auto. destruct (Z.odd (i / 2 ^ k)) eqn:E; [|done].
    specialize (Hhi eq_refl). lia. }
  rewrite andb_false_r, bind_gets.
  assert (0 ≤ b < nBlock (mem5 s)) as Hbr
    by (destruct (Z.odd (i / 2 ^ k)); split; auto; lia).
  specialize (Hb Hbr).
  destruct (Z.eqb_spec (ctrl s b) (Z.lor CTRL_FREE k)) as [E|E]; cbn [negb].
  - rewrite decide_True by (by apply Hb). unfold merge_body. fold b.
    replace (u32 (2 ^ k * 2)) with (2 ^ (k + 1)) by (rewrite u32_id; lia).
    destruct (Z.ltb_spec b i).
    + by rewrite Z.min_r, Z.max_l by lia.
    + by rewrite Z.min_l, Z.max_r by lia.
  - rewrite decide_False; [done|]. by rewrite <- Hb.
Qed.

(** Two held buddies become one held block. *)
Lemma inv_merge s fl bl ex i k :
  inv s fl bl ex → bl !! i = Some (k, false) → bl !! (i + 2 ^ k) = Some (k, false) →
  (2 ^ (k + 1) | i) → k < LOGMAX →
  inv s fl (<[i := (k + 1, false)]> (delete (i + 2 ^ k) bl)) (i :: ex).
Proof.
  intros Hinv Hi Hj Hdiv HkM.
  destruct (inv_wf _ _ _ _ _ _ _ Hinv Hi) as (Hk & _). pose proof (pow2_pos k ltac:(lia)).
  destruct Hinv as [Hg Hl Hfl Hp Hco Hc].
  assert (∀ j kj, <[i := (k + 1, false)]> (delete (i + 2 ^ k) bl) !! j = Some (kj, true) ↔
    bl !! j = Some (kj, true)) as Hfree.
  { intros j kj. rewrite lookup_insert, lookup_delete. repeat case_decide; naive_solver. }
  constructor; [done|done| | | |].
  - intros k' j. by rewrite Hfl, Hfree.
  - by eapply part_merge.
  - intros j kj. rewrite !Hfree. apply Hco.
  - intros j k' f. rewrite lookup_insert, lookup_delete. intros E Hjx.
    rewrite decide_False in E by set_solver.
    case_decide; [done|]. apply Hc; set_solver.
Qed.

(** The lower and the upper one of two buddies. *)
Lemma buddy_min_max i k :
  0 ≤ k → (2 ^ k | i) →
  (2 ^ (k + 1) | i `min` buddy i k) ∧ i `max` buddy i k = i `min` buddy i k + 2 ^ k ∧
  ((i `min` buddy i k = i ∧ i `max` buddy i k = buddy i k) ∨
   (i `min` buddy i k = buddy i k ∧ i `max` buddy i k = i)).
Proof.
  intros Hk Hdiv. pose proof (pow2_pos k Hk).
  destruct (buddy_lower i k Hk Hdiv) as [[-> Hd]|[-> Hd]].
  - rewrite Z.min_l, Z.max_r by lia. auto.
  - rewrite Z.min_r, Z.max_l by lia. split_and!; [done|lia|auto].
Qed.

(** One turn of the loop that merges. *)
Lemma merge_body_ok fuel s fl bl i k :
  inv s fl bl [i] → bl !! i = Some (k, false) → k < LOGMAX →
  bl !! buddy i k = Some (k, true) →
  let m := i `min` buddy i k in
  ∃ s' fl' bl', merge_body fuel i k s = merge_loop fuel m (k + 1) (2 ^ (k + 1)) s' ∧
    inv s' fl' bl' [m] ∧ bl' !! m = Some (k + 1, false) ∧ ctrl s' m = enc (k + 1) true ∧
    delete m (outstanding bl') = delete i (outstanding bl) ∧ keeps (in_free bl) s s' ∧
    (∀ x, in_free bl' x → in_free bl x) ∧
    (∀ x, m ≤ x < m + 2 ^ (k + 1) → i ≤ x < i + 2 ^ k ∨ in_free bl x).
Proof.
  intros Hinv Hi HkM Hb m. destruct (inv_wf _ _ _ _ _ _ _ Hinv Hi) as (Hk & Hi0 & Hdiv & _ & Hir).
  destruct (inv_wf _ _ _ _ _ _ _ Hinv Hb) as (_ & Hb0 & _ & _ & Hbr).
  destruct (buddy_min_max i k ltac:(lia) Hdiv) as (Hmd & Hmax & Hor). fold m in Hmd, Hmax, Hor.
  set (b := buddy i k) in *. set (u := i `max` b) in *.
  pose proof (pow2_pos k ltac:(lia)) as Hm. pose proof (pow2_S k ltac:(lia)) as HS.
  assert (b ≠ i) as Hbi by (intros E; rewrite E in Hb; congruence).
  destruct (inv_unlink s fl bl [i] b k) as (s1 & Hrun & (fl1 & Hinv1 & Hsub) & _ & Hkeep1);
    [done|done|set_solver|].
  set (bl1 := <[b := (k, false)]> bl) in *.
  set (bl' := <[m := (k + 1, false)]> (delete u bl1)).
  assert (∀ x, x = m ∨ x = u ↔ x = i ∨ x = b) as Hmu by (destruct Hor as [[-> ->]|[-> ->]]; tauto).
  assert (∀ x, x = m ∨ x = u → bl1 !! x = Some (k, false) ∧ 0 ≤ x < nBlock (mem5 s)) as Hbl1.
  { intros x. rewrite Hmu. unfold bl1. intros [->| ->]; split; try done.
    - by rewrite lookup_insert_ne.
    - by rewrite lookup_insert_eq. }
  assert (inv s1 fl1 bl' [m; b; i]) as Hinv2.
  { unfold bl'. rewrite Hmax. apply inv_merge; [done| | |done|done].
    - apply Hbl1. auto.
    - rewrite <- Hmax. apply Hbl1. auto. }
  pose proof (keeps_geo _ _ _ Hkeep1) as (_ & Hnb & _ & _).
  destruct (Hbl1 m) as [_ Hmr]; [auto|]. destruct (Hbl1 u) as [_ Hur]; [auto|].
  assert (u ≠ m) as Hum by lia.
  set (s2 := set_ctrl u 0 (set_ctrl m (enc (k + 1) true) s1)).
  assert (ctrl s2 m = enc (k + 1) true) as Hcm.
  { unfold s2. rewrite ctrl_set_ctrl, decide_False, ctrl_set_ctrl, decide_True by auto.
    apply enc_ok. lia. }
  assert (inv s2 fl1 bl' [m]) as Hinv3.
  { destruct Hinv2 as [G1 G2 G3 G4 G5 G6]. constructor; [done| |done..|].
    - constructor; [|apply G2..]. intros k' Hk'.
      eapply dlist_ext; [|by apply G2]. intros y Hy. pose proof (lists_range _ _ G2 _ _ Hy).
      unfold s2. rewrite !nxt_set_ctrl, !prv_set_ctrl by hside. done.
    - intros j k' f E Hj. unfold s2. assert (j ≠ u) as Hju.
      { intros ->. unfold bl' in E. by rewrite lookup_insert_ne, lookup_delete_eq in E. }
      rewrite !ctrl_set_ctrl, !decide_False by set_solver. apply (G6 _ _ _ E).
      specialize (Hmu j). set_solver. }
  exists s2, fl1, bl'. split_and!.
  - unfold merge_body. fold b m u. rewrite (bind_Ok _ _ _ _ _ Hrun). by mrun.
  - done.
  - unfold bl'. by rewrite lookup_insert_eq.
  - done.
  - unfold bl', bl1. rewrite !outstanding_insert_false, outstanding_delete, outstanding_insert_false.
    assert (outstanding bl !! b = None) as E.
    { apply eq_None_not_Some. intros [kb E]. apply outstanding_lookup in E. congruence. }
    apply map_eq. intros x. specialize (Hmu x).
    rewrite !lookup_delete, !lookup_insert, !lookup_delete, !lookup_insert.
    clearbody m u b. clear -Hmu E.
    assert (∀ y : Z, x = y ↔ y = x) as Hsym by (split; congruence). rewrite !Hsym in Hmu.
    repeat case_decide; first [done | congruence | exfalso; tauto
      | assert (b = x) by tauto; congruence].
  - eapply keeps_trans.
    { eapply keeps_weaken; [|exact Hkeep1]. intros x Hx. by apply (fl_in_free s fl bl [i] k). }
    eapply keeps_trans; apply keeps_set_ctrl; simpl; lia.
  - intros x (j & kj & E & Hx). exists j, kj. split; [|done]. unfold bl', bl1 in E.
    rewrite lookup_insert, lookup_delete, lookup_insert in E.
    repeat case_decide; naive_solver.
  - intros x Hx. destruct (decide (i ≤ x < i + 2 ^ k)); [by left|right].
    exists b, k. split; [done|]. destruct Hor as [[? ?]|[? ?]]; lia.
Qed.

Lemma merge_loop_ok (T : Z → Prop) fuel s fl bl i k :
  inv s fl bl [i] → bl !! i = Some (k, false) → ctrl s i = enc k true →
  (Z.to_nat (LOGMAX - k) < fuel)%nat →
  (∀ x, in_free bl x → T x) → (∀ x, i ≤ x < i + 2 ^ k → T x) →
  ∃ s' fl' bl' i' k', merge_loop fuel i k (2 ^ k) s = Ok ((i', k'), s') ∧
    inv s' fl' bl' [i'] ∧ bl' !! i' = Some (k', false) ∧ ctrl s' i' = enc k' true ∧
    (k' < LOGMAX → bl' !! buddy i' k' ≠ Some (k', true)) ∧
    delete i' (outstanding bl') = delete i (outstanding bl) ∧ keeps T s s' ∧
    (∀ x, in_free bl' x → T x) ∧ T i'.
Proof.
  revert s fl bl i k. induction fuel as [|fuel IH]; intros s fl bl i k Hinv Hi Hc Hf HT HTi; [lia|].
  destruct (inv_wf _ _ _ _ _ _ _ Hinv Hi) as (Hk & _). pose proof (pow2_pos k ltac:(lia)).
  destruct (decide (k < LOGMAX)) as [HkM|HkM].
  2: { exists s, fl, bl, i, k. cbn [merge_loop].
    rewrite (proj2 (Z.ltb_ge k LOGMAX)) by lia.
    split_and!; auto using keeps_refl; try lia. apply HTi; lia. }
  rewrite (merge_loop_S _ _ _ _ _ _ Hinv Hi HkM).
  destruct (decide (bl !! buddy i k = Some (k, true))) as [Hb|Hb].
  2: { exists s, fl, bl, i, k. split_and!; auto using keeps_refl. apply HTi; lia. }
  destruct (merge_body_ok fuel _ _ _ _ _ Hinv Hi HkM Hb)
    as (s1 & fl1 & bl1 & -> & Hinv1 & Hi1 & Hc1 & Ho1 & Hkeep1 & Hfr & Hx).
  edestruct (IH s1) as (s' & fl' & bl' & i' & k' & Hrun & Hinv' & Hi' & Hc' & Hb' & Ho' & Hkeep' & HT' & HTi');
    [exact Hinv1|exact Hi1|exact Hc1|lia|auto|intros x Hxr; destruct (Hx x Hxr); auto|].
  exists s', fl', bl', i', k'. split_and!; auto.
  - congruence.
  - eapply keeps_trans; [|exact Hkeep']. eapply keeps_weaken; [|exact Hkeep1]. auto.
Qed.

(** ** Release *)

Lemma block_of_addr g i : geom g → 0 ≤ i < nBlock g → block_of g (addr_of g i) = i.
Proof.
  intros Hg Hi. pose proof (geom_atom_pos g Hg). unfold block_of, addr_of.
  replace (zPool g + i * szAtom g - zPool g) with (i * szAtom g) by lia.
  rewrite Z.quot_mul by lia. apply (i32_index g); [done|lia].
Qed.

Lemma inv_hold s fl bl ex i : inv s fl bl ex → inv s fl bl (i :: ex).
Proof. intros [H1 H2 H3 H4 H5 H6]. constructor; auto. intros. apply H6; set_solver. Qed.

(** The guards of [memsys5FreeUnsafe] up to the coalescing loop. *)
Lemma free_guards s fl bl i k :
  inv s fl bl [] → bl !! i = Some (k, false) →
  ∃ s1, memsys5FreeUnsafe (addr_of (mem5 s) i) s =
      (r ← merge_loop LOOP_FUEL i k (2 ^ k); memsys5Link r.1 r.2) s1 ∧
    inv s1 fl bl [i] ∧ ctrl s1 i = enc k true ∧ keeps (λ _, False) s s1.
Proof.
  intros Hinv Hi. destruct (inv_wf _ _ _ _ _ _ _ Hinv Hi) as (Hk & Hi0 & _ & Hin & Hir).
  pose proof (inv_geom _ _ _ _ Hinv) as Hg. pose proof (geom_nblock_bound _ Hg) as Hnb.
  pose proof (pow2_pos k ltac:(lia)) as Hm. pose proof (geom_atom_pos _ Hg) as Hat.
  assert (2 ^ k ≤ 2 ^ 30) by (apply pow2_le; unfold LOGMAX in *; lia).
  assert (ctrl s i = k) as Hc by (apply (inv_ctrl _ _ _ _ Hinv i k false); [done|set_solver]).
  destruct (enc_ok k false) as (E1 & E2 & _); [done|]. cbn [enc] in E1, E2.
  set (l := i + 2 ^ k - 1). set (c := Z.lor k CTRL_FREE).
  set (s0 := set_ctrl i c s). set (c' := Z.lor (ctrl s0 l) CTRL_FREE).
  set (s1 := set_ctrl i (Z.lor CTRL_FREE k) (set_ctrl l c' s0)).
  assert (inv s1 fl bl [i]) as Hinv1.
  { apply inv_set_ctrl; [|done|set_solver]. apply inv_set_ctrl; [|simpl; lia|].
    - apply inv_set_ctrl; [by apply inv_hold|done|set_solver].
    - destruct (decide (l = i)) as [->|]; [set_solver|right].
      eapply (part_inner _ _ (inv_part _ _ _ _ Hinv) i k false); [done|lia]. }
  exists s1. split_and!.
  - unfold memsys5FreeUnsafe. rewrite bind_gets, block_of_addr by done. cbv zeta.
    rewrite bind_assert by bool_lia.
    rewrite bind_assert.
    2: { unfold addr_of. replace (zPool (mem5 s) + i * szAtom (mem5 s) - zPool (mem5 s))
           with (i * szAtom (mem5 s)) by lia. by rewrite Z.rem_mul by lia. }
    rewrite bind_gets, Hc, bind_assert by (by rewrite E2). rewrite E1, shiftl_1 by lia.
    rewrite (u32_id (2 ^ k)) by lia. fold l. rewrite (u32_id l), (u32_id (nBlock _)) by lia.
    rewrite bind_assert by (apply Z.ltb_lt; lia). by mrun.
  - done.
  - unfold s1. rewrite ctrl_set_ctrl, decide_True by done. by apply (enc_ok k true).
  - eapply keeps_trans; [eapply keeps_trans|]; apply keeps_set_ctrl; simpl; lia.
Qed.

Lemma freeUnsafe_ok s fl bl i k :
  inv s fl bl [] → bl !! i = Some (k, false) →
  ∃ s' fl' bl', memsys5FreeUnsafe (addr_of (mem5 s) i) s = Ok (tt, s') ∧
    inv s' fl' bl' [] ∧ outstanding bl' = delete i (outstanding bl) ∧
    keeps (λ x, in_free bl x ∨ i ≤ x < i + 2 ^ k) s s'.
Proof.
  intros Hinv Hi. destruct (inv_wf _ _ _ _ _ _ _ Hinv Hi) as (Hk & _).
  destruct (free_guards _ _ _ _ _ Hinv Hi) as (s1 & -> & Hinv1 & Hc1 & Hkeep1).
  destruct (merge_loop_ok (λ x, in_free bl x ∨ i ≤ x < i + 2 ^ k) LOOP_FUEL s1 fl bl i k)
    as (s2 & fl2 & bl2 & i' & k' & Hrun & Hinv2 & Hi2 & Hc2 & Hb2 & Ho2 & Hkeep2 & HT & HTi);
    [done|done|done|rewrite fuel_32; unfold LOGMAX in *; lia|auto|auto|].
  rewrite (bind_Ok _ _ _ _ _ Hrun). cbn [fst snd].
  destruct (inv_link s2 fl2 bl2 [] i' k') as (s3 & Hrun3 & Hinv3 & _ & Hkeep3); [done..|].
  exists s3. do 2 eexists. split_and!; [exact Hrun3|exact Hinv3| |].
  - by rewrite outstanding_insert_true.
  - eapply keeps_trans; [by eapply keeps_weaken, Hkeep1|].
    eapply keeps_trans; [exact Hkeep2|]. eapply keeps_weaken; [|exact Hkeep3].
    intros x [->|Hx]; [done|]. by apply HT, (fl_in_free s2 fl2 bl2 [i'] k').
Qed.
