(* ===== verification/Mem5Init.v ===== *)
(** * Initialisation of the buddy allocator

    [memsys5Init] carves the pool into free blocks, the largest first, and
    leaves an arena in which nothing is outstanding. *)

From S2P Require Import Prelude Memory DList Blocks Mem5 Mem5Inv Mem5Proofs.
#[local] Opaque LOOP_FUEL.

(** ** The logarithm and the atom size *)

Lemma log_loop_ok fuel v j (s : heap) :
  1 ≤ v ≤ 2 ^ 30 → 0 ≤ j ≤ Z.log2_up v → (Z.to_nat (Z.log2_up v - j) < fuel)%nat →
  log_loop fuel v j s = Ok (Z.log2_up v, s).
Proof.
  intros Hv. assert (0 ≤ Z.log2_up v ≤ 30) as Hb.
  { split; [apply Z.log2_up_nonneg|]. by apply Z.log2_up_le_pow2; lia. }
  revert j. induction fuel as [|fuel IH]; intros j Hj Hf; [lia|]. cbn [log_loop].
  rewrite shiftl_1 by lia. destruct (Z.ltb_spec j 31); [|lia].
  destruct (Z.ltb_spec (2 ^ j) v) as [Hlt|Hge]; cbn [andb].
  - assert (j ≠ Z.log2_up v).
    { intros ->. assert (v ≤ 2 ^ Z.log2_up v); [|lia]. apply Z.log2_up_le_pow2; lia. }
    apply IH; lia.
  - apply Z.log2_up_le_pow2 in Hge; [|lia]. by replace j with (Z.log2_up v) by lia.
Qed.

(** The atom: the least power of two that holds a link and the requested size. *)
Definition atom_size (mnReq : Z) : Z := 2 ^ Z.max 3 (Z.log2_up mnReq).

Lemma atom_loop_ok fuel a (s : heap) :
  0 ≤ a ≤ 30 → (Z.to_nat (3 - a) < fuel)%nat →
  atom_loop fuel (2 ^ a) s = Ok (2 ^ Z.max 3 a, s).
Proof.
  revert a. induction fuel as [|fuel IH]; intros a Ha Hf; [lia|]. cbn [atom_loop].
  destruct (Z.ltb_spec (2 ^ a) sizeof_Mem5Link) as [Hlt|Hge]; unfold sizeof_Mem5Link in *.
  - assert (a < 3) by (apply (Z.pow_lt_mono_r_iff 2); lia).
    assert (Z.shiftl (2 ^ a) 1 = 2 ^ (a + 1)) as ->
      by (rewrite Z.shiftl_mul_pow2, pow2_S by lia; lia).
    rewrite i32_id, IH by (lia || (rewrite pow2_S by lia; lia)).
    do 3 f_equal. lia.
  - assert (3 ≤ a) by (apply (Z.pow_le_mono_r_iff 2); lia).
    by rewrite Z.max_r by lia.
Qed.

(** ** Empty free lists *)

Lemma clear_freelists_fold (l : list Z) s :
  (ram (fold_left (λ s k, set_flist k (-1) s) l s) = ram s) ∧
  same_geo (mem5 s) (mem5 (fold_left (λ s k, set_flist k (-1) s) l s)) ∧
  mem_lock (mem5 (fold_left (λ s k, set_flist k (-1) s) l s)) = mem_lock (mem5 s) ∧
  ∀ j, flist (fold_left (λ s k, set_flist k (-1) s) l s) j =
    if decide (j ∈ l) then -1 else flist s j.
Proof.
  revert s. induction l as [|k l IH]; intros s; cbn [fold_left].
  - by split_and!.
  - destruct (IH (set_flist k (-1) s)) as (H1 & (G1 & G2 & G3 & G4) & H3 & H4).
    split_and!; [done|exact (conj G1 (conj G2 (conj G3 G4)))|done|].
    intros j. rewrite H4, flist_set_flist.
    destruct (decide (j ∈ k :: l)) as [Hin|Hin]; rewrite elem_of_cons in Hin;
      repeat case_decide; tauto.
Qed.

Lemma clear_freelists_ok s :
  ram (clear_freelists s) = ram s ∧ same_geo (mem5 s) (mem5 (clear_freelists s)) ∧
  mem_lock (mem5 (clear_freelists s)) = mem_lock (mem5 s) ∧
  ∀ k, 0 ≤ k ≤ LOGMAX → flist (clear_freelists s) k = -1.
Proof.
  destruct (clear_freelists_fold (seqZ 0 (LOGMAX + 1)) s) as (H1 & H2 & H3 & H4).
  unfold clear_freelists. split_and!; [done..|]. intros k Hk.
  rewrite H4, decide_True; [done|]. apply elem_of_seqZ. lia.
Qed.

(** ** Carving *)

(** With [n] levels to go: the first [off] atoms are in free blocks, at most
    one for each of the levels done, and less than a block of level [n] is
    left. *)
Record carved (s : heap) (fl : Z → list Z) (bl : blocks) (n off : Z) : Prop := {
  carved_geom : geom (mem5 s);
  carved_lists : lists_ok s fl;
  carved_fl : ∀ k i, i ∈ fl k ↔ bl !! i = Some (k, true);
  carved_part : partition off bl;
  carved_level : ∀ i k f, bl !! i = Some (k, f) → n ≤ k ∧ f = true;
  carved_once : ∀ i j k f f', bl !! i = Some (k, f) → bl !! j = Some (k, f') → i = j;
  carved_ctrl : ∀ i k f, bl !! i = Some (k, f) → ctrl s i = enc k f;
  carved_off : 0 ≤ off ≤ nBlock (mem5 s) ∧ nBlock (mem5 s) < off + 2 ^ n;
  carved_align : (2 ^ n | off)
}.

Lemma carved_done s fl bl off :
  carved s fl bl 0 off → inv s fl bl [] ∧ outstanding bl = ∅.
Proof.
  intros [Hg Hl Hfl Hp Hlv Ho Hc Hoff _]. split.
  - constructor; auto.
    + by replace (nBlock (mem5 s)) with off by lia.
    + intros i k Hi _ Hb. pose proof (Ho _ _ _ _ _ Hi Hb) as E.
      destruct (part_wf _ _ Hp _ _ _ Hi) as (Hk & _). pose proof (pow2_pos k ltac:(lia)).
      unfold buddy in E. destruct (Z.odd _); lia.
  - apply map_eq. intros i. rewrite lookup_empty, eq_None_not_Some.
    intros [k H]. apply outstanding_lookup in H. by apply Hlv in H as [_ H].
Qed.

(** A level at which no block fits. *)
Lemma carved_skip s fl bl n off :
  carved s fl bl (n + 1) off → 0 ≤ n → nBlock (mem5 s) < off + 2 ^ n → carved s fl bl n off.
Proof.
  intros [Hg Hl Hfl Hp Hlv Ho Hc Hoff Hd] Hn Hlt. constructor; auto; [|lia|].
  - intros i k f Hi. destruct (Hlv _ _ _ Hi). split; [lia|done].
  - etransitivity; [|exact Hd]. apply pow2_divide. lia.
Qed.

(** A level at which a block is carved. *)
Lemma carved_take s fl bl n off :
  carved s fl bl (n + 1) off → 0 ≤ n ≤ LOGMAX → off + 2 ^ n ≤ nBlock (mem5 s) →
  ∃ s' fl', (modify (set_ctrl off (Z.lor n CTRL_FREE));; memsys5Link off n) s = Ok (tt, s') ∧
    carved s' fl' (<[off := (n, true)]> bl) n (off + 2 ^ n) ∧
    keeps (λ x, 0 ≤ x < nBlock (mem5 s)) s s'.
Proof.
  intros [Hg Hl Hfl Hp Hlv Ho Hc Hoff Hd] Hn Hle.
  pose proof (pow2_pos n ltac:(lia)) as Hm. pose proof (pow2_S n ltac:(lia)) as HS.
  assert ((2 ^ n | off)) as Hdn by (etransitivity; [apply (pow2_divide n (n + 1)); lia|done]).
  assert (bl !! off = None) as Hnew.
  { apply eq_None_not_Some. intros [[k f] H].
    destruct (part_wf _ _ Hp _ _ _ H) as (? & _ & _ & ?). pose proof (pow2_pos k ltac:(lia)). lia. }
  assert (∀ i f, bl !! i ≠ Some (n, f)) as Hlev by (intros i f H; apply Hlv in H; lia).
  set (s1 := set_ctrl off (Z.lor n CTRL_FREE) s).
  assert (lists_ok s1 fl) as Hl1.
  { destruct Hl as [L1 L2 L3 L4]. constructor; auto. intros k Hk.
    eapply dlist_ext; [|by apply L1]. intros y Hy. pose proof (L3 _ _ Hy).
    unfold s1. by rewrite nxt_set_ctrl, prv_set_ctrl by hside. }
  assert (ctrl s1 off = enc n true) as Hco.
  { unfold s1. rewrite ctrl_set_ctrl, decide_True, Z.lor_comm by done. by apply (enc_ok n true). }
  destruct (memsys5Link_ok s1 fl off n) as (s' & Hrun & Hl' & Hc' & Hkeep); auto.
  { simpl. lia. }
  { intros k H. rewrite Hfl in H. congruence. }
  { rewrite Hco. by apply enc_ok. }
  pose proof (keeps_geo _ _ _ Hkeep) as Hgeo. pose proof (same_geo_geom _ _ Hgeo Hg) as Hg'.
  destruct Hgeo as (_ & Hnb & _ & _). simpl in Hnb.
  exists s', (fupd fl n (off :: fl n)). split_and!; [by mrun|constructor; auto|].
  - intros k i. rewrite lookup_insert. unfold fupd.
    destruct (decide (k = n)) as [->|], (decide (off = i)) as [<-|];
      rewrite ?elem_of_cons, ?Hfl; naive_solver.
  - apply part_extend; [done|lia|unfold LOGMAX in *; lia|done].
  - intros i k f. rewrite lookup_insert. case_decide; [naive_solver lia|].
    intros H'. destruct (Hlv _ _ _ H'). split; [lia|done].
  - intros i j k f f'. rewrite !lookup_insert. repeat case_decide; [congruence| | |apply Ho].
    + intros [= <- <-] H'. by destruct (Hlev _ _ H').
    + intros H' [= <- <-]. by destruct (Hlev _ _ H').
  - intros i k f. rewrite lookup_insert. case_decide.
    + intros [= <- <-]. subst. rewrite Hc' by lia. done.
    + intros H'. destruct (part_wf _ _ Hp _ _ _ H') as (_ & ? & _).
      rewrite Hc' by done. unfold s1. rewrite ctrl_set_ctrl, decide_False by congruence.
      by apply Hc.
  - lia.
  - by apply Z.divide_add_r.
  - eapply keeps_trans; [apply (keeps_set_ctrl _ _ off); lia|].
    eapply keeps_weaken; [|exact Hkeep]. intros x [->|Hx]; [lia|].
    by destruct (lists_range _ _ Hl _ _ Hx).
Qed.

Lemma carve_loop_ok n s fl bl off :
  carved s fl bl (Z.of_nat n) off → (n ≤ 31)%nat →
  ∃ s' fl' bl', carve_loop n off s = Ok (tt, s') ∧ inv s' fl' bl' [] ∧
    outstanding bl' = ∅ ∧ keeps (λ x, 0 ≤ x < nBlock (mem5 s)) s s'.
Proof.
  revert s fl bl off. induction n as [|n IH]; intros s fl bl off Hc Hn.
  { apply carved_done in Hc as [? ?]. exists s, fl, bl. split_and!; auto using keeps_refl. }
  rewrite Nat2Z.inj_succ in Hc. unfold Z.succ in Hc.
  pose proof (carved_off _ _ _ _ _ Hc) as Hoff. pose proof (pow2_S (Z.of_nat n) ltac:(lia)) as HS.
  cbn [carve_loop]. rewrite bind_gets, shiftl_1 by lia. cbn [compose].
  set (k := Z.of_nat n) in *. change ((nBlock ∘ mem5) s) with (nBlock (mem5 s)).
  destruct (Z.leb_spec (off + 2 ^ k) (nBlock (mem5 s))) as [Hle|Hgt].
  - destruct (carved_take s fl bl k off) as (s1 & fl1 & Hrun & Hc1 & Hkeep1);
      [done|unfold LOGMAX; lia|done|].
    pose proof (keeps_geo _ _ _ Hkeep1) as (_ & Hnb & _ & _).
    edestruct (IH s1) as (s' & fl' & bl' & Hrun' & ? & ? & Hkeep'); [exact Hc1|lia|].
    exists s', fl', bl'. split_and!; [|done|done|].
    + rewrite <- Hrun'. rewrite bind_assoc, bind_modify.
      rewrite bind_modify in Hrun. rewrite bind_assoc, (bind_Ok _ _ _ _ _ Hrun), bind_ret.
      rewrite bind_assert by (apply Z.ltb_lt; lia). done.
    + eapply keeps_trans; [exact Hkeep1|]. by rewrite Hnb in Hkeep'.
  - destruct (IH s fl bl off) as (s' & fl' & bl' & Hrun' & Hrest); [|lia|].
    { apply carved_skip; [done|lia|lia]. }
    exists s', fl', bl'. split; [|done]. rewrite bind_ret.
    rewrite bind_assert by (apply Z.ltb_lt; lia). done.
Qed.

(** ** The whole of [memsys5Init] *)

(** The number of atoms, as the routine computes it. *)
Definition pool_blocks (p_size mnReq : Z) : Z :=
  i32 (u64 (i32 p_size) `div` u64 (atom_size mnReq + 1)).

(** The state the carving starts from. *)
Definition init_state (ptr sz nb : Z) (s : heap) : heap :=
  clear_freelists
    (set_mem5 (with_geometry sz nb ptr (ptr + i32 (nb * sz))) (set_mem5 (with_lock 0) s)).

Lemma init_run s ptr p_size mnReq s' :
  0 < ptr → 1 ≤ mnReq ≤ 2 ^ 30 →
  carve_loop 31 0 (init_state ptr (atom_size mnReq) (pool_blocks p_size mnReq) s) = Ok (tt, s') →
  memsys5Init ptr p_size mnReq s = Ok (0, s').
Proof.
  intros Hptr Hreq Hrun.
  assert (0 ≤ Z.log2_up mnReq ≤ 30) as Hlog.
  { split; [apply Z.log2_up_nonneg|]. apply Z.log2_up_le_pow2; lia. }
  pose proof (pow2_pos (Z.log2_up mnReq)). pose proof (pow2_le (Z.log2_up mnReq) 30).
  unfold memsys5Init. rewrite (proj2 (Z.eqb_neq ptr 0)) by lia.
  unfold memsys5Log. rewrite (bind_Ok _ _ s (Z.log2_up mnReq) s).
  2: { apply log_loop_ok; [done|lia|rewrite fuel_32; lia]. }
  rewrite bind_modify, shiftl_1, (i32_id (2 ^ Z.log2_up mnReq)) by lia.
  rewrite (bind_Ok _ _ _ (atom_size mnReq) (set_mem5 (with_lock 0) s)).
  2: { apply atom_loop_ok; [lia|rewrite fuel_32; lia]. }
  rewrite !bind_modify. by rewrite (bind_Ok _ _ _ _ _ Hrun).
Qed.

Lemma init_state_ok ptr sz nb s :
  0 < ptr → (∃ a, 3 ≤ a ≤ 30 ∧ sz = 2 ^ a) → 0 ≤ nb → nb * sz < 2 ^ 31 →
  let s1 := init_state ptr sz nb s in
  szAtom (mem5 s1) = sz ∧ nBlock (mem5 s1) = nb ∧ zPool (mem5 s1) = ptr ∧
  aCtrl (mem5 s1) = ptr + nb * sz ∧ mem_lock (mem5 s1) = 0 ∧ ram s1 = ram s ∧
  carved s1 (λ _, []) ∅ 31 0.
Proof.
  intros Hptr Hsz Hnb Hfit. cbv zeta.
  set (s0 := set_mem5 (with_geometry sz nb ptr (ptr + i32 (nb * sz))) (set_mem5 (with_lock 0) s)).
  change (init_state ptr sz nb s) with (clear_freelists s0).
  destruct (clear_freelists_ok s0) as (Hram & (E1 & E2 & E3 & E4) & Hlock & Hfl).
  assert (0 < sz) as Hpos by (destruct Hsz as (a & ? & ->); apply pow2_pos; lia).
  assert (i32 (nb * sz) = nb * sz) as Hi32 by (apply i32_id; nia).
  change (szAtom (mem5 s0)) with sz in E1. change (nBlock (mem5 s0)) with nb in E2.
  change (zPool (mem5 s0)) with ptr in E3.
  change (aCtrl (mem5 s0)) with (ptr + i32 (nb * sz)) in E4. rewrite Hi32 in E4.
  generalize dependent (clear_freelists s0). intros s1 Hram E1 E2 E3 E4 Hlock Hfl.
  split_and!; [done..|]. constructor.
  - constructor; rewrite ?E1, ?E2, ?E3, ?E4; done.
  - constructor; [|by constructor|set_solver..]. intros k Hk. exists (-1). by rewrite Hfl.
  - set_solver.
  - constructor; [done..|lia].
  - done.
  - done.
  - done.
  - destruct Hsz as (a & Ha & ->). assert (2 ^ 3 ≤ 2 ^ a) by (apply pow2_le; lia).
    rewrite E2. nia.
  - apply Z.divide_0_r.
Qed.

Lemma init_ok s ptr p_size mnReq :
  0 < ptr → 1 ≤ mnReq ≤ 2 ^ 30 → 0 ≤ pool_blocks p_size mnReq →
  pool_blocks p_size mnReq * atom_size mnReq < 2 ^ 31 →
  ∃ s' fl bl, memsys5Init ptr p_size mnReq s = Ok (0, s') ∧
    inv s' fl bl [] ∧ outstanding bl = ∅ ∧ mem_lock (mem5 s') = 0 ∧
    szAtom (mem5 s') = atom_size mnReq ∧ nBlock (mem5 s') = pool_blocks p_size mnReq ∧
    zPool (mem5 s') = ptr ∧
    ∀ a, ¬ (ptr ≤ a < ptr + pool_blocks p_size mnReq * (atom_size mnReq + 1)) →
      rd8 (ram s') a = rd8 (ram s) a.
Proof.
  intros Hptr Hreq Hnb Hfit. pose proof (init_run s ptr p_size mnReq) as Hinit.
  set (nb := pool_blocks p_size mnReq) in *. clearbody nb.
  assert (∃ a, 3 ≤ a ≤ 30 ∧ atom_size mnReq = 2 ^ a) as Hsz.
  { exists (3 `max` Z.log2_up mnReq). split; [|done].
    assert (Z.log2_up mnReq ≤ 30) by (apply Z.log2_up_le_pow2; lia). lia. }
  set (sz := atom_size mnReq) in *. clearbody sz.
  destruct (init_state_ok ptr sz nb s) as (E1 & E2 & E3 & E4 & E5 & E6 & Hc); [done..|].
  generalize dependent (init_state ptr sz nb s). intros s1 Hinit E1 E2 E3 E4 E5 E6 Hc.
  destruct (carve_loop_ok 31 s1 (λ _, []) ∅ 0) as (s' & fl & bl & Hrun & ? & ? & Hkeep);
    [exact Hc|lia|].
  destruct Hkeep as [(K1 & K2 & K3 & K4) K5 K6].
  exists s', fl, bl. split_and!; [by apply Hinit|assumption|assumption|congruence..|].
  assert (0 < sz) by (destruct Hsz as (a & ? & ->); apply pow2_pos; lia).
  intros a Ha. rewrite K6, E6; [done|rewrite E2, E4; lia|].
  unfold atom_of. rewrite E1, E2, E3. intros Hx. apply Ha.
  pose proof (Z.div_mod (a - ptr) sz). pose proof (Z.mod_pos_bound (a - ptr) sz). nia.
Qed.
