(* ===== verification/Mem5Spec.v ===== *)
(** * The contract of the allocator

    What the callers of [memsys5Malloc], [memsys5Free] and [memsys5Realloc]
    rely on, in terms of the map of the outstanding blocks only; at the end a
    client that stays in its blocks, as a step relation. *)

From S2P Require Import Prelude Memory DList Blocks Mem5 Mem5Inv Mem5Proofs Mem5Free Mem5Init.
#[local] Opaque LOOP_FUEL.

(** ** The client's view *)

(** The allocator is at rest and [A] maps the start of every outstanding block
    to its log-size. *)
Definition owns (s : heap) (A : gmap Z Z) : Prop :=
  ∃ fl bl, inv s fl bl [] ∧ outstanding bl = A ∧ mem_lock (mem5 s) = 0.

(** The bytes of the block of log-size [k] at [i]. *)
Definition in_block (g : Mem5Global) (i k a : Z) : Prop :=
  addr_of g i ≤ a < addr_of g i + szAtom g * 2 ^ k.

(** An aligned run of [2^k] atoms no outstanding block meets. *)
Definition free_window (A : gmap Z Z) (n k j : Z) : Prop :=
  0 ≤ j ∧ (2 ^ k | j) ∧ j + 2 ^ k ≤ n ∧
  ∀ i k', A !! i = Some k' → i + 2 ^ k' ≤ j ∨ j + 2 ^ k ≤ i.

(** The bytes of every outstanding block are as they were. *)
Definition same_data (A : gmap Z Z) (s s' : heap) : Prop :=
  ∀ i k a, A !! i = Some k → in_block (mem5 s) i k a → rd8 (ram s') a = rd8 (ram s) a.

Lemma inv_with_lock v s fl bl ex : inv s fl bl ex → inv (set_mem5 (with_lock v) s) fl bl ex.
Proof.
  intros [[G1 G2 G3 G4 G5] [L1 L2 L3 L4] H3 H4 H5 H6].
  constructor; [by constructor|by constructor|done..].
Qed.

Lemma with_lock_id s : set_mem5 (with_lock (mem_lock (mem5 s))) s = s.
Proof. by destruct s as [[] ?]. Qed.

Lemma with_lock_twice v w s :
  set_mem5 (with_lock v) (set_mem5 (with_lock w) s) = set_mem5 (with_lock v) s.
Proof. done. Qed.

Lemma enter_run s :
  mem_lock (mem5 s) = 0 → memsys5Enter s = Ok (tt, set_mem5 (with_lock 1) s).
Proof. intros H. unfold memsys5Enter. mrun. cbn. by rewrite H. Qed.

(** An address of a block lies in an atom of the block. *)
Lemma atom_in_block g i k a :
  geom g → 0 ≤ i → i + 2 ^ k ≤ nBlock g → in_block g i k a →
  i ≤ atom_of g a < i + 2 ^ k ∧ ¬ (aCtrl g ≤ a < aCtrl g + nBlock g).
Proof.
  intros Hg Hi Hin Ha. pose proof (geom_atom_pos g Hg) as Hs.
  unfold in_block, addr_of, atom_of in *. destruct Hg as [_ _ _ _ ->].
  split; [|nia]. split.
  - apply Z.div_le_lower_bound; lia.
  - apply Z.div_lt_upper_bound; lia.
Qed.

Lemma keeps_same_data s s' fl bl (T : Z → Prop) :
  inv s fl bl [] → keeps T s s' →
  (∀ i k x, bl !! i = Some (k, false) → i ≤ x < i + 2 ^ k → T x → in_free bl x) →
  same_data (outstanding bl) s s'.
Proof.
  intros Hinv Hkeep HT i k a Hi Ha. apply outstanding_lookup in Hi.
  destruct (inv_wf _ _ _ _ _ _ _ Hinv Hi) as (Hk & Hi0 & _ & Hin & _).
  destruct (atom_in_block _ _ _ _ (inv_geom _ _ _ _ Hinv) Hi0 Hin Ha) as [Hx Hc].
  apply (keeps_byte _ _ _ Hkeep); [done|]. intros Hx'.
  destruct (HT i k _ Hi Hx Hx') as (j & kj & Hj & Hxj).
  destruct (part_same _ _ (inv_part _ _ _ _ Hinv) _ _ _ _ _ _ _ Hi Hj Hx Hxj) as (_ & _ & ?).
  done.
Qed.

Lemma free_window_blocks s fl bl k j :
  inv s fl bl [] → 0 ≤ k ≤ LOGMAX → free_window (outstanding bl) (nBlock (mem5 s)) k j →
  ∃ i k', bl !! i = Some (k', true) ∧ k ≤ k'.
Proof.
  intros Hinv Hk (Hj & Hd & Hn & Hfree).
  destruct (coalesced_window _ _ (inv_part _ _ _ _ Hinv) k j) as (i & k' & Hi & Hle & _);
    [apply (inv_coal _ _ _ _ Hinv)|done..| |by exists i, k'].
  intros i k' Hi. apply Hfree. by apply outstanding_lookup.
Qed.

Lemma blocks_free_window s fl bl k i k' :
  inv s fl bl [] → bl !! i = Some (k', true) → 0 ≤ k ≤ k' →
  free_window (outstanding bl) (nBlock (mem5 s)) k i.
Proof.
  intros Hinv Hi Hk. destruct (inv_wf _ _ _ _ _ _ _ Hinv Hi) as (_ & Hi0 & Hd & Hn & _).
  pose proof (pow2_le k k' ltac:(lia)). pose proof (pow2_pos k ltac:(lia)).
  split_and!; [done| |lia|].
  - etransitivity; [|exact Hd]. apply pow2_divide. lia.
  - intros j kj Hj. apply outstanding_lookup in Hj.
    pose proof (inv_part _ _ _ _ Hinv) as Hp. destruct (Z.lt_total i j) as [Hlt|[->|Hlt]].
    + pose proof (part_disj _ _ Hp _ _ _ _ _ _ Hi Hj Hlt). lia.
    + congruence.
    + pose proof (part_disj _ _ Hp _ _ _ _ _ _ Hj Hi Hlt). lia.
Qed.

(** A free window that is part of no larger one: a free block. *)
Definition whole_window (A : gmap Z Z) (n k j : Z) : Prop :=
  free_window A n k j ∧ ∀ j', j' ≤ j < j' + 2 ^ (k + 1) → ¬ free_window A n (k + 1) j'.

Lemma sub_window A n k k' i j :
  free_window A n k' i → 0 ≤ k → (2 ^ k | j) → i ≤ j → j + 2 ^ k ≤ i + 2 ^ k' → free_window A n k j.
Proof.
  intros (H0 & _ & Hn & Hd) Hk Hj H1 H2. split_and!; [lia|done|lia|].
  intros x l Hx. destruct (Hd x l Hx); [left|right]; lia.
Qed.

(** Multiples of [m] that start before the end of a run of them end in it. *)
Lemma aligned_end m i j len : 0 < m → (m | i) → (m | j) → (m | len) → j < i + len → j + m ≤ i + len.
Proof.
  intros Hm [a ->] [b ->] [c ->] H. rewrite <- Z.mul_add_distr_r in *. apply Z.mul_lt_mono_pos_r in H; [|done].
  replace (b * m + m) with ((b + 1) * m) by lia. apply Z.mul_le_mono_nonneg_r; lia.
Qed.

Lemma block_whole s fl bl k i :
  inv s fl bl [] → bl !! i = Some (k, true) → k < LOGMAX → whole_window (outstanding bl) (nBlock (mem5 s)) k i.
Proof.
  intros Hinv Hi Hk. destruct (inv_wf _ _ _ _ _ _ _ Hinv Hi) as (Hk0 & _). unfold LOGMAX in *.
  split; [by apply (blocks_free_window s fl bl k i k); [done|done|lia]|].
  intros j' Hj' (Hj0 & Hd & Hn & Hfree).
  destruct (coalesced_window _ _ (inv_part _ _ _ _ Hinv) (k + 1) j') as (i2 & k2 & Hi2 & Hle & Hr);
    [apply (inv_coal _ _ _ _ Hinv)|lia|done..|intros x l Hx; apply Hfree; by apply outstanding_lookup|].
  destruct (inv_wf _ _ _ _ _ _ _ Hinv Hi2) as (Hk2 & _ & Hd2 & _).
  assert (2 ^ (k + 1) | 2 ^ k2) as Hp by (apply pow2_divide; lia).
  assert (2 ^ (k + 1) | i2) as Hd' by (by etransitivity).
  assert (j' + 2 ^ (k + 1) ≤ i2 + 2 ^ k2) by (apply aligned_end; [apply pow2_pos; lia|done..|lia]).
  pose proof (pow2_pos k ltac:(lia)).
  destruct (part_same _ _ (inv_part _ _ _ _ Hinv) _ _ _ _ _ _ i Hi Hi2) as (_ & ? & _); lia.
Qed.

Lemma whole_block s fl bl k j :
  inv s fl bl [] → 0 ≤ k < LOGMAX → whole_window (outstanding bl) (nBlock (mem5 s)) k j → bl !! j = Some (k, true).
Proof.
  intros Hinv Hk [(Hj & Hd & Hn & Hfree) Hmax]. unfold LOGMAX in *.
  destruct (coalesced_window _ _ (inv_part _ _ _ _ Hinv) k j) as (i & k' & Hi & Hle & Hr);
    [apply (inv_coal _ _ _ _ Hinv)|lia|done..|intros x l Hx; apply Hfree; by apply outstanding_lookup|].
  destruct (inv_wf _ _ _ _ _ _ _ Hinv Hi) as (Hk' & _ & Hdi & _).
  destruct (decide (k' = k)) as [->|Hne].
  - assert (j + 2 ^ k ≤ i + 2 ^ k) by (apply aligned_end; [apply pow2_pos; lia|done|done|reflexivity|lia]).
    by replace j with i by lia.
  - exfalso. pose proof (pow2_pos (k + 1) ltac:(lia)) as Hp. set (m := 2 ^ (k + 1)) in *.
    pose proof (Z.div_mod j m ltac:(lia)) as Ej. pose proof (Z.mod_pos_bound j m Hp) as Hm.
    assert (m | i) as Hmi by (etransitivity; [apply (pow2_divide (k + 1) k'); lia|exact Hdi]).
    assert (m | m * (j / m)) as Hmj by (exists (j / m); lia).
    assert (i ≤ m * (j / m)) as Hij. { destruct Hmi as [q ->]. rewrite (Z.mul_comm q). apply Z.mul_le_mono_nonneg_l; [lia|].
      apply Z.div_le_lower_bound; lia. }
    apply (Hmax (m * (j / m))); [fold m; lia|].
    apply (sub_window _ _ _ k' i); [by apply (blocks_free_window s fl bl k' i k'); [done|done|lia]|lia|done|done|].
    apply aligned_end; [done|done|done|apply pow2_divide; lia|lia].
Qed.

(** ** Allocation *)

Section malloc.
Context (s : heap) (A : gmap Z Z) (n : Z) (Ho : owns s A) (Hn : 0 < n ≤ 2 ^ 30).
Let k := log_size (szAtom (mem5 s)) n.

(** The block is cut from the smallest free block that is large enough. *)
Lemma malloc_best_fit :
  (memsys5Malloc n s = Ok (0, s) ∧ ∀ j, ¬ free_window A (nBlock (mem5 s)) k j) ∨
  ∃ i s' kb, memsys5Malloc n s = Ok (addr_of (mem5 s) i, s') ∧ owns s' (<[i := k]> A) ∧
    free_window A (nBlock (mem5 s)) k i ∧ same_geo (mem5 s) (mem5 s') ∧ same_data A s s' ∧
    0 ≤ k ≤ kb ∧ kb ≤ LOGMAX ∧ (kb < LOGMAX → whole_window A (nBlock (mem5 s)) kb i) ∧
    ∀ k' j, k ≤ k' < kb → ¬ whole_window A (nBlock (mem5 s)) k' j.
Proof.
  destruct Ho as (fl & bl & Hinv & Hout & Hlock).
  set (s1 := set_mem5 (with_lock 1) s).
  assert (inv s1 fl bl []) as Hinv1 by (by apply inv_with_lock).
  destruct (round_loop_run n s (inv_geom _ _ _ _ Hinv) Hn) as (_ & Hk & _). fold k in Hk.
  unfold memsys5Malloc. rewrite (proj2 (Z.ltb_lt 0 n)) by lia.
  rewrite (bind_Ok _ _ _ _ _ (enter_run s Hlock)). fold s1.
  destruct (mallocUnsafe_ok s1 fl bl n Hinv1 Hn)
    as [[Hnone Hrun]|(s2 & fl2 & bl2 & i & kb & Hrun & Hinv2 & Hout2 & Hkeep & Hi & Hkb & Hlow)].
  - left. rewrite (bind_Ok _ _ _ _ _ Hrun). split.
    + unfold memsys5Leave. mrun. unfold s1. rewrite with_lock_twice.
      replace 0 with (mem_lock (mem5 s)). by rewrite with_lock_id.
    + intros j Hj. rewrite <- Hout in Hj.
      destruct (free_window_blocks s fl bl k j Hinv Hk Hj) as (j' & k' & Hj' & Hle).
      by apply (Hnone k' j').
  - right. rewrite (bind_Ok _ _ _ _ _ Hrun).
    destruct (inv_wf _ _ _ _ _ _ _ Hinv Hi) as (Hkb' & _).
    exists i, (set_mem5 (with_lock 0) s2), kb. split_and!; [done| | | | |apply Hk|exact Hkb|apply Hkb'| |].
    + exists fl2, bl2. split_and!; [by apply inv_with_lock|by rewrite Hout2, Hout|done].
    + rewrite <- Hout. by apply (blocks_free_window s fl bl k i kb); [done|done|split; [apply Hk|exact Hkb]].
    + apply (keeps_geo _ _ _ Hkeep).
    + rewrite <- Hout. apply (keeps_same_data s1 _ fl bl _ Hinv1 Hkeep). auto.
    + intros Hlt. rewrite <- Hout. by apply (block_whole s fl).
    + intros k' j Hk' Hw. rewrite <- Hout in Hw. apply (Hlow k' j Hk').
      apply (whole_block s fl bl k' j Hinv); [unfold LOGMAX in *; lia|done].
Qed.

Lemma malloc_cases :
  (memsys5Malloc n s = Ok (0, s) ∧ ∀ j, ¬ free_window A (nBlock (mem5 s)) k j) ∨
  ∃ i s', memsys5Malloc n s = Ok (addr_of (mem5 s) i, s') ∧ owns s' (<[i := k]> A) ∧
    free_window A (nBlock (mem5 s)) k i ∧ same_geo (mem5 s) (mem5 s') ∧ same_data A s s'.
Proof.
  destruct malloc_best_fit as [H|(i & s' & kb & H1 & H2 & H3 & H4 & H5 & _)]; [by left|right].
  by exists i, s'.
Qed.
End malloc.

(** ** Release *)

Lemma free_ok s A i k :
  owns s A → A !! i = Some k →
  ∃ s', memsys5Free (addr_of (mem5 s) i) s = Ok (tt, s') ∧ owns s' (delete i A) ∧
    same_geo (mem5 s) (mem5 s') ∧ same_data (delete i A) s s'.
Proof.
  intros (fl & bl & Hinv & <- & Hlock) Hi. apply outstanding_lookup in Hi as Hib.
  destruct (inv_wf _ _ _ _ _ _ _ Hinv Hib) as (Hk & Hi0 & _ & _ & Hir).
  pose proof (inv_geom _ _ _ _ Hinv) as Hg. pose proof (geom_atom_pos _ Hg).
  pose proof (geom_pool _ Hg). set (s1 := set_mem5 (with_lock 1) s).
  assert (inv s1 fl bl []) as Hinv1 by (by apply inv_with_lock).
  destruct (freeUnsafe_ok s1 fl bl i k Hinv1 Hib) as (s2 & fl2 & bl2 & Hrun & Hinv2 & Hout2 & Hkeep).
  exists (set_mem5 (with_lock 0) s2). split_and!.
  - unfold memsys5Free.
    rewrite bind_assert by (apply negb_true_iff, Z.eqb_neq; unfold addr_of; nia).
    rewrite (bind_Ok _ _ _ _ _ (enter_run s Hlock)). fold s1.
    by rewrite (bind_Ok _ _ _ _ _ Hrun).
  - exists fl2, bl2. split_and!; [by apply inv_with_lock|done|done].
  - apply (keeps_geo _ _ _ Hkeep).
  - intros j kj a Hj Ha. rewrite lookup_delete in Hj. case_decide; [done|].
    apply outstanding_lookup in Hj.
    assert (keeps (λ x, in_free bl x ∨ i ≤ x < i + 2 ^ k) s1 s2) as Hkeep' by done.
    destruct (inv_wf _ _ _ _ _ _ _ Hinv Hj) as (_ & Hj0 & _ & Hjn & _).
    destruct (atom_in_block _ _ _ _ Hg Hj0 Hjn Ha) as [Hx Hc].
    apply (keeps_byte _ _ _ Hkeep'); [done|]. pose proof (inv_part _ _ _ _ Hinv) as Hp.
    intros [(l & kl & Hl & Hxl)|Hxi].
    + by destruct (part_same _ _ Hp _ _ _ _ _ _ _ Hj Hl Hx Hxl) as (_ & _ & ?).
    + by destruct (part_same _ _ Hp _ _ _ _ _ _ _ Hj Hib Hx Hxi) as (? & _).
Qed.

(** ** What a client may do with its blocks *)

(** The allocator does not mind what is written in the blocks it gave out. *)
Lemma inv_frame s s' fl bl ex :
  inv s fl bl ex → mem5 s' = mem5 s →
  (∀ a, rd8 (ram s') a = rd8 (ram s) a ∨
     ∃ i k, bl !! i = Some (k, false) ∧ in_block (mem5 s) i k a) →
  inv s' fl bl ex.
Proof.
  intros Hinv Em Hram.
  assert (∀ a, (aCtrl (mem5 s) ≤ a < aCtrl (mem5 s) + nBlock (mem5 s) ∨
     ∃ y k, bl !! y = Some (k, true) ∧ atom_of (mem5 s) a = y) → rd8 (ram s') a = rd8 (ram s) a) as Hkeep.
  { intros a Ha. destruct (Hram a) as [H|(i & k & Hi & Hb)]; [exact H|]. exfalso.
    destruct (inv_wf _ _ _ _ _ _ _ Hinv Hi) as (_ & Hi0 & _ & Hin & _).
    destruct (atom_in_block _ _ _ _ (inv_geom _ _ _ _ Hinv) Hi0 Hin Hb) as [Hx Hc].
    destruct Ha as [Ha|(y & kk & Hy & Ey)]; [done|]. rewrite Ey in Hx.
    destruct (part_wf _ _ (inv_part _ _ _ _ Hinv) _ _ _ Hy) as (? & _). pose proof (pow2_pos kk ltac:(lia)).
    destruct (part_same _ _ (inv_part _ _ _ _ Hinv) _ _ _ _ _ _ y Hi Hy) as (_ & _ & ?); [done|lia|done]. }
  destruct Hinv as [Hg Hl Hfl Hp Hco Hct].
  constructor; rewrite ?Em; [done| |done|done|done|].
  - destruct Hl as [L1 L2 L3 L4]. constructor; rewrite ?Em; [|done..]. intros kk Hkk.
    assert (flist s' kk = flist s kk) as -> by (unfold flist; by rewrite Em).
    eapply dlist_ext; [|by apply L1]. intros y Hy.
    pose proof (proj2 (L3 _ _ Hy)) as Hyr. apply Hfl in Hy.
    assert (∀ b, MEM5LINK (mem5 s) y ≤ b < MEM5LINK (mem5 s) y + 8 → rd8 (ram s') b = rd8 (ram s) b) as Hlink.
    { intros b Hb. apply Hkeep. right. exists y, kk. split; [exact Hy|]. by apply atom_of_link. }
    unfold nxt, prv. rewrite Em. split; apply load32_ext; intros b Hb; apply Hlink; lia.
  - intros j kj f Hj Hjx. rewrite <- (Hct j kj f Hj Hjx).
    destruct (part_wf _ _ Hp _ _ _ Hj) as (? & ? & _ & ?). pose proof (pow2_pos kj ltac:(lia)).
    unfold ctrl. rewrite Em. apply Hkeep. left. lia.
Qed.

Lemma owns_frame s s' A :
  owns s A → mem5 s' = mem5 s →
  (∀ a, rd8 (ram s') a = rd8 (ram s) a ∨ ∃ i k, A !! i = Some k ∧ in_block (mem5 s) i k a) → owns s' A.
Proof.
  intros (fl & bl & Hinv & <- & Hlock) Em Hram. exists fl, bl. rewrite Em.
  split; [|done]. eapply inv_frame; [exact Hinv|exact Em|]. intros a.
  destruct (Hram a) as [H|(i & k & Hi & Hb)]; [by left|right]. apply outstanding_lookup in Hi. by exists i, k.
Qed.

Lemma owns_write s A i k a v :
  owns s A → A !! i = Some k → in_block (mem5 s) i k a →
  owns (set_ram (λ m, wr8 m a v) s) A.
Proof.
  intros Ho Hi Ha. apply (owns_frame s); [done..|]. intros b. destruct (decide (b = a)) as [->|Hne].
  - right. by exists i, k.
  - left. simpl. by rewrite rd8_wr8_ne.
Qed.

Lemma owns_store s A i k a l :
  owns s A → A !! i = Some k → addr_of (mem5 s) i ≤ a →
  a + Z.of_nat (length l) ≤ addr_of (mem5 s) i + szAtom (mem5 s) * 2 ^ k →
  owns (set_ram (λ m, store_bytes m a l) s) A.
Proof.
  revert s a. induction l as [|v l IH]; intros s a Ho Hi Ha Hl; simpl in Hl.
  { destruct s. done. }
  apply (IH (set_ram (λ m, wr8 m a v) s) (a + 1)); [|done|simpl; lia|simpl; lia].
  eapply owns_write; [done|done|]. unfold in_block. lia.
Qed.

(** Distinct blocks have no byte in common, and all lie in the pool. *)
Lemma owns_range s A i k :
  owns s A → A !! i = Some k →
  0 ≤ k ≤ LOGMAX ∧ 0 ≤ i ∧ zPool (mem5 s) ≤ addr_of (mem5 s) i ∧
  addr_of (mem5 s) i + szAtom (mem5 s) * 2 ^ k ≤ aCtrl (mem5 s) ∧
  0 < zPool (mem5 s) ∧ 8 ≤ szAtom (mem5 s) * 2 ^ k < 2 ^ 31.
Proof.
  intros (fl & bl & Hinv & <- & _) Hi. apply outstanding_lookup in Hi.
  destruct (inv_wf _ _ _ _ _ _ _ Hinv Hi) as (Hk & Hi0 & _ & Hn & _).
  pose proof (inv_geom _ _ _ _ Hinv) as Hg. pose proof (geom_atom_pos _ Hg).
  pose proof (pow2_pos k ltac:(lia)).
  destruct Hg as [_ _ Hfit Hpool ->]. unfold addr_of. split_and!; (done || nia).
Qed.

Lemma owns_disjoint s A i j k k' a :
  owns s A → A !! i = Some k → A !! j = Some k' →
  in_block (mem5 s) i k a → in_block (mem5 s) j k' a → i = j.
Proof.
  intros (fl & bl & Hinv & <- & _) Hi Hj Ha Ha'.
  apply outstanding_lookup in Hi. apply outstanding_lookup in Hj.
  destruct (inv_wf _ _ _ _ _ _ _ Hinv Hi) as (_ & Hi0 & _ & Hin & _).
  destruct (inv_wf _ _ _ _ _ _ _ Hinv Hj) as (_ & Hj0 & _ & Hjn & _).
  destruct (atom_in_block _ _ _ _ (inv_geom _ _ _ _ Hinv) Hi0 Hin Ha) as [Hx _].
  destruct (atom_in_block _ _ _ _ (inv_geom _ _ _ _ Hinv) Hj0 Hjn Ha') as [Hx' _].
  by destruct (part_same _ _ (inv_part _ _ _ _ Hinv) _ _ _ _ _ _ _ Hi Hj Hx Hx').
Qed.

(** ** Sizes *)

Lemma size_ok s A i k :
  owns s A → A !! i = Some k →
  memsys5Size (addr_of (mem5 s) i) s = Ok (szAtom (mem5 s) * 2 ^ k, s).
Proof.
  intros Ho Hi. destruct (owns_range s A i k Ho Hi) as (Hk & Hi0 & Hlo & Hhi & Hp & Hsz).
  destruct Ho as (fl & bl & Hinv & <- & Hlock). apply outstanding_lookup in Hi.
  destruct (inv_wf _ _ _ _ _ _ _ Hinv Hi) as (_ & _ & _ & _ & Hir).
  pose proof (inv_geom _ _ _ _ Hinv) as Hg.
  unfold memsys5Size. rewrite bind_assert by (apply negb_true_iff, Z.eqb_neq; lia).
  rewrite bind_gets, block_of_addr by done. cbv zeta. rewrite bind_assert by bool_lia.
  rewrite bind_gets. rewrite (inv_ctrl _ _ _ _ Hinv i k false) by (done || set_solver).
  destruct (enc_ok k false Hk) as (-> & _). rewrite shiftl_1 by lia.
  rewrite i32_id by lia. done.
Qed.

(** ** Reallocation *)

(** The new block is filled from the old one, which is then released. *)
Lemma realloc_move s A i k n i' k' s1 :
  owns s A → A !! i = Some k → owns s1 (<[i' := k']> A) → A !! i' = None →
  k ≤ k' → same_geo (mem5 s) (mem5 s1) → same_data A s s1 →
  memsys5Malloc n s = Ok (addr_of (mem5 s) i', s1) →
  let old := Z.to_nat (szAtom (mem5 s) * 2 ^ k) in
  ∃ s', (modify (set_ram (λ m, store_bytes m (addr_of (mem5 s) i')
            (load_bytes m (addr_of (mem5 s) i) old)));;
         memsys5Free (addr_of (mem5 s) i)) s1 = Ok (tt, s') ∧
    owns s' (<[i' := k']> (delete i A)) ∧ same_data (delete i A) s s' ∧
    load_bytes (ram s') (addr_of (mem5 s) i') old =
      load_bytes (ram s) (addr_of (mem5 s) i) old.
Proof.
  intros Ho Hi Ho1 Hi' Hkk (G1 & G2 & G3 & G4) Hdata Hrun old.
  assert (i' ≠ i) as Hne by congruence.
  assert (addr_of (mem5 s1) = addr_of (mem5 s)) as Eaddr by (unfold addr_of; by rewrite G1, G3).
  assert ((<[i' := k']> A) !! i' = Some k') as Hi1 by (by rewrite lookup_insert_eq).
  assert ((<[i' := k']> A) !! i = Some k) as Hi2 by (by rewrite lookup_insert_ne).
  destruct (owns_range s A i k Ho Hi) as (Hk & _ & _ & _ & _ & Hsz).
  pose proof (pow2_le k k' Hkk) as Hpow. assert (8 ≤ szAtom (mem5 s)) as Hat.
  { destruct Ho as (fl & bl & Hinv & _). pose proof (geom_atom_pos _ (inv_geom _ _ _ _ Hinv)). lia. }
  set (l := load_bytes (ram s1) (addr_of (mem5 s) i) old).
  assert (length l = old) as Hlen by apply length_load_bytes.
  set (s2 := set_ram (λ m, store_bytes m (addr_of (mem5 s) i') l) s1).
  assert (Z.of_nat old = szAtom (mem5 s) * 2 ^ k) as Hold by (unfold old; lia).
  assert (owns s2 (<[i' := k']> A)) as Ho2.
  { apply (owns_store _ _ i' k'); [done|done|by rewrite Eaddr|].
    rewrite Eaddr, G1, Hlen, Hold. nia. }
  destruct (free_ok s2 _ i k Ho2 Hi2) as (s' & Hfree & Ho' & (F1 & F2 & F3 & F4) & Hdata').
  change (mem5 s2) with (mem5 s1) in *. rewrite Eaddr in Hfree.
  exists s'. split_and!.
  - rewrite bind_modify. exact Hfree.
  - by rewrite delete_insert_ne in Ho' by done.
  - intros j kj a Hj Ha. rewrite Hdata' with (i := j) (k := kj).
    + assert (A !! j = Some kj) as HjA by (rewrite lookup_delete in Hj; by case_decide).
      unfold s2. simpl. rewrite rd8_store_bytes_ne; [by eapply Hdata|].
      rewrite Hlen, Hold. destruct (decide (j = i')) as [->|Hji]; [congruence|].
      assert (¬ in_block (mem5 s1) i' k' a); [|unfold in_block in *; rewrite Eaddr, G1 in *; nia].
      intros Ha'. apply Hji. apply (owns_disjoint s1 _ j i' kj k' a Ho1); [|done| |done].
      * rewrite lookup_insert_ne by done. done.
      * unfold in_block in *. by rewrite Eaddr, G1.
    + rewrite delete_insert_ne by done. rewrite lookup_insert_ne; [done|].
      intros ->. rewrite lookup_delete_ne in Hj by congruence. congruence.
    + change (mem5 s2) with (mem5 s1). unfold in_block in *. by rewrite Eaddr, G1.
  - rewrite (load_bytes_ext (ram s') (ram s2)).
    + transitivity (load_bytes (ram s2) (addr_of (mem5 s) i') (length l)); [by rewrite Hlen|].
      unfold s2. simpl. rewrite load_store_bytes_eq. unfold l. rewrite u8_load_bytes. apply load_bytes_ext.
      intros b Hb. apply (Hdata i k); [done|]. unfold in_block. lia.
    + intros b Hb. apply (Hdata' i' k'); [by rewrite lookup_delete_ne|].
      change (mem5 s2) with (mem5 s1). unfold in_block. rewrite Eaddr, G1. nia.
Qed.

Lemma malloc_too_big s n :
  mem_lock (mem5 s) = 0 → 2 ^ 30 < n → memsys5Malloc n s = Ok (0, s).
Proof.
  intros Hlock Hn. unfold memsys5Malloc. rewrite (proj2 (Z.ltb_lt 0 n)) by lia.
  rewrite (bind_Ok _ _ _ _ _ (enter_run s Hlock)).
  rewrite (bind_Ok _ _ _ 0 (set_mem5 (with_lock 1) s)).
  - unfold memsys5Leave. mrun. rewrite with_lock_twice.
    replace 0 with (mem_lock (mem5 s)). by rewrite with_lock_id.
  - unfold memsys5MallocUnsafe. rewrite bind_assert by (apply Z.ltb_lt; lia).
    by rewrite (proj2 (Z.ltb_lt _ n)) by lia.
Qed.

(** A bigger request is served from no smaller a block. *)
Lemma log_size_more s A i k n :
  owns s A → A !! i = Some k → szAtom (mem5 s) * 2 ^ k < n ≤ 2 ^ 30 →
  k ≤ log_size (szAtom (mem5 s)) n.
Proof.
  intros Ho Hi Hn. destruct (owns_range s A i k Ho Hi) as (Hk & _ & _ & _ & _ & Hsz).
  destruct Ho as (fl & bl & Hinv & _). pose proof (inv_geom _ _ _ _ Hinv) as Hg.
  destruct (round_loop_run n s Hg) as (_ & Hlk & Hle & _); [lia|].
  pose proof (geom_atom_pos _ Hg).
  set (k' := log_size (szAtom (mem5 s)) n) in *. destruct (decide (k ≤ k')); [done|].
  pose proof (pow2_le k' k ltac:(lia)). nia.
Qed.

Lemma free_window_fresh s A k i :
  owns s A → 0 ≤ k → free_window A (nBlock (mem5 s)) k i → A !! i = None.
Proof.
  intros Ho Hk (_ & _ & _ & Hw). apply eq_None_not_Some. intros [k' Hi].
  destruct (owns_range s A i k' Ho Hi) as (? & _).
  pose proof (pow2_pos k Hk). pose proof (pow2_pos k' ltac:(lia)).
  destruct (Hw i k' Hi); lia.
Qed.

Lemma realloc_cases s A i k n :
  owns s A → A !! i = Some k → 0 < n ≤ 2 ^ 30 → Z.land n (n - 1) = 0 →
  szAtom (mem5 s) * 2 ^ k < n →
  let k' := log_size (szAtom (mem5 s)) n in
  let p := addr_of (mem5 s) i in
  let old := Z.to_nat (szAtom (mem5 s) * 2 ^ k) in
  (memsys5Realloc p n s = Ok (0, s) ∧ ∀ j, ¬ free_window A (nBlock (mem5 s)) k' j) ∨
  ∃ i' s', memsys5Realloc p n s = Ok (addr_of (mem5 s) i', s') ∧
    owns s' (<[i' := k']> (delete i A)) ∧ same_data (delete i A) s s' ∧
    load_bytes (ram s') (addr_of (mem5 s) i') old = load_bytes (ram s) p old.
Proof.
  intros Ho Hi Hn Hpow Hgrow k' p old.
  destruct (owns_range s A i k Ho Hi) as (Hk & Hi0 & Hlo & Hhi & Hp & Hsz).
  assert (∀ r, (let '(q, s1) := r in memsys5Malloc n s = Ok (q, s1)) →
    memsys5Realloc p n s =
    ((if negb (r.1 =? 0) then
         modify (set_ram (λ m, store_bytes m r.1 (load_bytes m p old)));; memsys5Free p
       else mret tt);; mret r.1) r.2) as Hrun.
  { intros [q s1] Hm. unfold memsys5Realloc.
    rewrite bind_assert by (apply negb_true_iff, Z.eqb_neq; unfold p; lia).
    rewrite bind_assert by (by apply Z.eqb_eq). rewrite bind_assert by (apply Z.leb_le; lia).
    rewrite (proj2 (Z.eqb_neq n 0)) by lia.
    rewrite (bind_Ok _ _ _ _ _ (size_ok s A i k Ho Hi)).
    rewrite (proj2 (Z.leb_gt n _)) by lia. by rewrite (bind_Ok _ _ _ _ _ Hm). }
  destruct (malloc_cases s A n Ho Hn) as [[Hm Hnone]|(i' & s1 & Hm & Ho1 & Hw & Hgeo & Hdata)].
  - left. split; [|done]. by rewrite (Hrun (0, s) Hm).
  - right. fold k' in Ho1, Hw. pose proof (log_size_more s A i k n Ho Hi) as Hkk.
    pose proof (free_window_fresh s A k' i' Ho ltac:(lia) Hw) as Hfresh.
    destruct (realloc_move s A i k n i' k' s1) as (s' & Hmove & Ho' & Hdata' & Hload);
      [done|done|done|done|lia|done..|].
    exists i', s'. split_and!; [|done..]. rewrite (Hrun (_, s1) Hm). cbn [fst snd].
    assert (addr_of (mem5 s) i' ≠ 0) as Hne.
    { destruct Hw as (? & _). unfold addr_of.
      destruct Ho as (fl & bl & Hinv & _). pose proof (geom_atom_pos _ (inv_geom _ _ _ _ Hinv)). nia. }
    rewrite (proj2 (Z.eqb_neq _ 0)) by done. cbn [negb].
    by rewrite (bind_Ok _ _ _ _ _ Hmove).
Qed.

(** ** Room for one more block

    The windows of [2 ^ k] atoms that the outstanding blocks touch. *)
Definition covers (A : gmap Z Z) (k : Z) (W : gset Z) : Prop :=
  ∀ i l w, A !! i = Some l → i < (w + 1) * 2 ^ k → w * 2 ^ k < i + 2 ^ l → w ∈ W.

Lemma seqZ_set_size m n : size (list_to_set (seqZ m (Z.of_nat n)) : gset Z) = n.
Proof. rewrite size_list_to_set by apply NoDup_seqZ. rewrite length_seqZ. lia. Qed.

Lemma set_map_size (f : Z → Z) (X : gset Z) : (size (set_map f X : gset Z) ≤ size X)%nat.
Proof.
  assert (∀ l : list Z, (size (list_to_set l : gset Z) ≤ length l)%nat) as H.
  { induction l as [|x l IH]; cbn [list_to_set length]; [done|].
    rewrite size_union_alt, size_singleton.
    pose proof (subseteq_size (list_to_set l ∖ {[x]}) (list_to_set l : gset Z) ltac:(set_solver)). lia. }
  unfold set_map. etransitivity; [apply H|]. by rewrite length_fmap.
Qed.

(** Fewer windows touched than there are: one is free. *)
Lemma covers_window A n k W :
  0 ≤ k → covers A k W → Z.of_nat (size W) < n / 2 ^ k → ∃ j, free_window A n k j.
Proof.
  intros Hk HW Hlt. pose proof (pow2_pos k Hk) as Hp. set (N := Z.to_nat (n / 2 ^ k)).
  destruct (decide (Forall (λ w, w ∈ W) (seqZ 0 (Z.of_nat N)))) as [Hall|Hex].
  - exfalso. assert ((list_to_set (seqZ 0 (Z.of_nat N)) : gset Z) ⊆ W) as Hsub%subseteq_size.
    { intros w Hw%elem_of_list_to_set. rewrite Forall_forall in Hall. by apply Hall. }
    rewrite seqZ_set_size in Hsub. unfold N in Hsub. lia.
  - apply not_Forall_Exists in Hex; [|apply _]. apply Exists_exists in Hex as (w & Hw & Hno).
    apply elem_of_seqZ in Hw. exists (w * 2 ^ k). split; [lia|]. split; [by exists w|].
    assert ((w + 1) * 2 ^ k ≤ n) as Hfit.
    { etransitivity; [|apply (Z.mul_div_le n (2 ^ k) Hp)]. rewrite Z.mul_comm. apply Z.mul_le_mono_nonneg_l; lia. }
    split; [lia|]. intros i l Hi.
    destruct (decide (i + 2 ^ l ≤ w * 2 ^ k)); [by left|]. destruct (decide (w * 2 ^ k + 2 ^ k ≤ i)); [by right|].
    destruct Hno. apply (HW i l); [done|lia|lia].
Qed.

Lemma covers_insert A k W j :
  0 ≤ k → (2 ^ k | j) → covers A k W → covers (<[j := k]> A) k ({[j / 2 ^ k]} ∪ W).
Proof.
  intros Hk [q ->] HW i l w. pose proof (pow2_pos k Hk). rewrite Z.div_mul by lia.
  rewrite lookup_insert_Some. intros [[<- <-]|[_ Hi]] H1 H2; apply elem_of_union.
  - left. apply elem_of_singleton. nia.
  - right. by apply (HW i l).
Qed.

(** A block touches one window, or as many as it is long. *)
Lemma covers_block i l k :
  0 ≤ k → 0 ≤ l → (2 ^ l | i) →
  ∃ W, covers {[i := l]} k W ∧ Z.of_nat (size W) = Z.max 1 (2 ^ (l - k)).
Proof.
  intros Hk Hl [q ->]. pose proof (pow2_pos k Hk) as Hp. pose proof (pow2_pos l Hl) as Hpl.
  assert (0 < Z.max 1 (2 ^ (l - k))) as Hpos by lia.
  exists (list_to_set (seqZ ((q * 2 ^ l) / 2 ^ k) (Z.of_nat (Z.to_nat (Z.max 1 (2 ^ (l - k))))))).
  split; [|rewrite seqZ_set_size; lia].
  intros j l' w. rewrite lookup_singleton_Some. intros [<- <-] H1 H2. apply elem_of_list_to_set, elem_of_seqZ.
  rewrite Z2Nat.id by lia. destruct (Z.le_gt_cases k l) as [Hle|Hgt].
  - assert (2 ^ l = 2 ^ (l - k) * 2 ^ k) as E by (rewrite <- Z.pow_add_r by lia; f_equal; lia).
    assert (0 < 2 ^ (l - k)) by (apply pow2_pos; lia).
    rewrite E in *. rewrite Z.mul_assoc, Z.div_mul by lia. nia.
  - assert (2 ^ k = 2 ^ (k - l) * 2 ^ l) as E by (rewrite <- Z.pow_add_r by lia; f_equal; lia).
    rewrite Z.max_l by (rewrite Z.pow_neg_r by lia; lia).
    assert (0 < 2 ^ (k - l)) as Hd by (apply pow2_pos; lia).
    rewrite E in *. rewrite Z.div_mul_cancel_r by lia.
    assert (q < (w + 1) * 2 ^ (k - l)) as A1 by nia. assert (w * 2 ^ (k - l) ≤ q) as A2 by nia.
    assert (q / 2 ^ (k - l) = w) as -> by (symmetry; apply (Z.div_unique _ _ _ (q - w * 2 ^ (k - l))); lia). lia.
Qed.

(** ** A client of the allocator

    A client that allocates, releases and writes in its own blocks, as a step
    relation on the heap and the map of its pointers; what holds in every
    state it can reach. *)
#[local] Opaque LOOP_FUEL.

(** The client's pointers, with the number of bytes asked for. *)
Abbreviation pointers := (gmap Z Z).

Inductive client_step : heap * pointers → heap * pointers → Prop :=
  | client_malloc s s' P n p :
      0 < n → memsys5Malloc n s = Ok (p, s') → p ≠ 0 →
      client_step (s, P) (s', <[p := n]> P)
  | client_malloc_null s s' P n :
      memsys5Malloc n s = Ok (0, s') → client_step (s, P) (s', P)
  | client_free s s' P p n :
      P !! p = Some n → memsys5Free p s = Ok (tt, s') →
      client_step (s, P) (s', delete p P)
  | client_write s P p n a v :
      P !! p = Some n → p ≤ a < p + n →
      client_step (s, P) (set_ram (λ m, wr8 m a v) s, P).

Inductive client_run : heap * pointers → heap * pointers → Prop :=
  | client_start c : client_run c c
  | client_more c1 c2 c3 : client_run c1 c2 → client_step c2 c3 → client_run c1 c3.

(** Every pointer of the client is a block large enough, and conversely. *)
Definition tracks (s : heap) (P : pointers) (A : gmap Z Z) : Prop :=
  (∀ p n, P !! p = Some n →
    ∃ i k, A !! i = Some k ∧ p = addr_of (mem5 s) i ∧ 0 < n ≤ szAtom (mem5 s) * 2 ^ k) ∧
  (∀ i k, A !! i = Some k → is_Some (P !! addr_of (mem5 s) i)).

Definition client_inv (c : heap * pointers) : Prop :=
  ∃ A, owns c.1 A ∧ tracks c.1 c.2 A.

Lemma addr_of_inj s A i j :
  owns s A → addr_of (mem5 s) i = addr_of (mem5 s) j → i = j.
Proof.
  intros (fl & bl & Hinv & _) E. pose proof (geom_atom_pos _ (inv_geom _ _ _ _ Hinv)).
  unfold addr_of in E. nia.
Qed.

Lemma same_geo_addr s s' i :
  same_geo (mem5 s) (mem5 s') → addr_of (mem5 s') i = addr_of (mem5 s) i.
Proof. intros (E1 & _ & E3 & _). unfold addr_of. by rewrite E1, E3. Qed.

Lemma malloc_nonpos n s : n ≤ 0 → memsys5Malloc n s = Ok (0, s).
Proof. intros. unfold memsys5Malloc. by rewrite (proj2 (Z.ltb_ge 0 n)) by lia. Qed.

(** [memsys5Malloc] always returns; NULL leaves the heap alone. *)
Lemma malloc_returns s A n :
  owns s A →
  memsys5Malloc n s = Ok (0, s) ∨
  0 < n ≤ 2 ^ 30 ∧ ∃ i s', memsys5Malloc n s = Ok (addr_of (mem5 s) i, s') ∧
    owns s' (<[i := log_size (szAtom (mem5 s)) n]> A) ∧ A !! i = None ∧
    same_geo (mem5 s) (mem5 s') ∧ same_data A s s' ∧ addr_of (mem5 s) i ≠ 0 ∧
    n ≤ szAtom (mem5 s) * 2 ^ log_size (szAtom (mem5 s)) n.
Proof.
  intros Ho. destruct (decide (n ≤ 0)) as [|Hpos]; [left; by apply malloc_nonpos|].
  destruct (decide (2 ^ 30 < n)) as [|Hbig].
  { left. apply malloc_too_big; [|done]. by destruct Ho as (? & ? & _ & _ & ?). }
  destruct (malloc_cases s A n Ho) as [[Hm _]|(i & s' & Hm & Ho' & Hw & Hgeo & Hd)];
    [lia|by left|right]. split; [lia|].
  destruct Ho as (fl & bl & Hinv & Hout & Hlock) eqn:Eo. pose proof (inv_geom _ _ _ _ Hinv) as Hg.
  destruct (round_loop_run n s Hg) as (_ & Hk & Hle & _); [lia|].
  exists i, s'. split_and!; [done..| |done|done| |done].
  - by apply (free_window_fresh s A (log_size (szAtom (mem5 s)) n)); [|lia|].
  - destruct Hw as (? & _). pose proof (geom_pool _ Hg). pose proof (geom_atom_pos _ Hg).
    unfold addr_of. nia.
Qed.

Lemma client_step_inv c c' : client_inv c → client_step c c' → client_inv c'.
Proof.
  intros (A & Ho & Ht1 & Ht2) Hstep.
  destruct Hstep as [s s' P n p Hn Hm Hp|s s' P n Hm|s s' P p n HP Hf|s P p n a v HP Ha]; cbn [fst snd] in *.
  - destruct (malloc_returns s A n Ho) as [Hm'|(Hn' & i & s2 & Hm' & Ho' & Hfresh & Hgeo & _ & _ & Hle)];
      rewrite Hm in Hm'; injection Hm' as -> ->; [done|].
    exists (<[i := log_size (szAtom (mem5 s)) n]> A). split; [done|]. cbn [fst snd].
    pose proof Hgeo as (Esz & _). split.
    + intros q m. rewrite lookup_insert. case_decide as Eq.
      * intros [= <-]. exists i, (log_size (szAtom (mem5 s)) n).
        rewrite lookup_insert_eq, (same_geo_addr s s2) by done. split_and!; (done || lia).
      * intros Hq. destruct (Ht1 q m Hq) as (j & k & Hj & -> & Hm').
        exists j, k. rewrite (same_geo_addr s s2), Esz by done.
        rewrite lookup_insert_ne by congruence. done.
    + intros j k. rewrite (same_geo_addr s s2) by done. rewrite !lookup_insert.
      case_decide as Ej; [subst; by rewrite decide_True|].
      intros Hj. case_decide; [done|by eapply Ht2].
  - destruct (malloc_returns s A n Ho) as [Hm'|(_ & i & s2 & Hm' & _ & _ & _ & _ & Hne & _)];
      rewrite Hm in Hm'; injection Hm'; [intros ->|congruence]. by exists A.
  - destruct (Ht1 p n HP) as (i & k & Hi & -> & Hn).
    destruct (free_ok s A i k Ho Hi) as (s2 & Hf' & Ho' & Hgeo & _).
    rewrite Hf in Hf'. injection Hf' as ->. pose proof Hgeo as (Esz & _).
    exists (delete i A). split; [done|]. cbn [fst snd]. split.
    + intros q m. rewrite lookup_delete. case_decide as Eq; [done|]. intros Hq.
      destruct (Ht1 q m Hq) as (j & kj & Hj & -> & Hm').
      exists j, kj. rewrite (same_geo_addr s s2), Esz by done.
      rewrite lookup_delete_ne by congruence. done.
    + intros j kj. rewrite (same_geo_addr s s2), !lookup_delete by done.
      case_decide as Ej; [done|]. intros Hj. rewrite decide_False; [by eapply Ht2|].
      intros E. by apply Ej, (addr_of_inj s A).
  - destruct (Ht1 p n HP) as (i & k & Hi & -> & Hn).
    exists A. split; [|done]. apply (owns_write s A i k); [done|done|].
    unfold in_block. cbn [fst snd] in *. lia.
Qed.

Lemma client_run_inv c c' : client_inv c → client_run c c' → client_inv c'.
Proof. intros Hc. induction 1; eauto using client_step_inv. Qed.

(** The arena stays where it is. *)
Lemma client_step_geo c c' : client_inv c → client_step c c' → same_geo (mem5 c.1) (mem5 c'.1).
Proof.
  intros (A & Ho & Ht & _) Hstep.
  destruct Hstep as [s s' P n p Hn Hm Hp|s s' P n Hm|s s' P p n HP Hf|s P p n a v HP Ha]; cbn [fst snd] in *.
  - destruct (malloc_returns s A n Ho) as [Hm'|(_ & i & s2 & Hm' & _ & _ & Hgeo & _)];
      rewrite Hm in Hm'; injection Hm' as -> ->; [done|exact Hgeo].
  - destruct (malloc_returns s A n Ho) as [Hm'|(_ & i & s2 & Hm' & _ & _ & Hgeo & _)];
      rewrite Hm in Hm'; [injection Hm' as ->; by repeat split|injection Hm' as E ->; exact Hgeo].
  - destruct (Ht p n HP) as (i & k & Hi & -> & _).
    destruct (free_ok s A i k Ho Hi) as (s2 & Hf' & _ & Hgeo & _). rewrite Hf in Hf'. by injection Hf' as ->.
  - by repeat split.
Qed.

Lemma client_run_geo c c' : client_inv c → client_run c c' → same_geo (mem5 c.1) (mem5 c'.1).
Proof.
  intros Hc. induction 1 as [c|c1 c2 c3 Hrun IH Hstep]; [by repeat split|].
  destruct (IH Hc) as (E1 & E2 & E3 & E4).
  destruct (client_step_geo c2 c3 (client_run_inv _ _ Hc Hrun) Hstep) as (F1 & F2 & F3 & F4).
  repeat split; congruence.
Qed.

(** A client that holds nothing has left nothing outstanding, and then whatever
    fits in the arena is served. *)
Lemma client_inv_nothing s : client_inv (s, ∅) → owns s ∅.
Proof.
  intros (A & Ho & _ & Ht). assert (A = ∅) as <-; [|exact Ho]. apply map_empty. intros i.
  destruct (A !! i) as [k|] eqn:Hi; [|done]. destruct (Ht i k Hi) as [n Hn].
  cbn [snd] in Hn. by rewrite lookup_empty in Hn.
Qed.

Lemma empty_serves s n :
  owns s ∅ → 0 < n ≤ 2 ^ 30 → 2 ^ log_size (szAtom (mem5 s)) n ≤ nBlock (mem5 s) →
  ∃ p s', memsys5Malloc n s = Ok (p, s') ∧ p ≠ 0.
Proof.
  intros Ho Hn Hfit. destruct (malloc_cases s ∅ n Ho Hn) as [[_ Hw]|(i & s' & Hm & _ & (Hi & _) & _)].
  - exfalso. apply (Hw 0). split_and!; [done|apply Z.divide_0_r|lia|done].
  - exists (addr_of (mem5 s) i), s'. split; [done|]. destruct Ho as (fl & bl & Hinv & _).
    pose proof (inv_geom _ _ _ _ Hinv) as Hg. pose proof (geom_atom_pos _ Hg). pose proof (geom_pool _ Hg).
    unfold addr_of. nia.
Qed.

(** What the client may count on, read off the invariant. *)
Lemma client_inv_safe s P :
  client_inv (s, P) →
  (∀ p n, P !! p = Some n → 0 < p ∧ zPool (mem5 s) ≤ p ∧ p + n ≤ aCtrl (mem5 s)) ∧
  (∀ p q n m, P !! p = Some n → P !! q = Some m → p ≠ q → p + n ≤ q ∨ q + m ≤ p) ∧
  (∀ n, ∃ p s', memsys5Malloc n s = Ok (p, s') ∧
    ∀ q m a, P !! q = Some m → q ≤ a < q + m → rd8 (ram s') a = rd8 (ram s) a) ∧
  (∀ p n, P !! p = Some n → ∃ s', memsys5Free p s = Ok (tt, s') ∧
    ∀ q m a, P !! q = Some m → q ≠ p → q ≤ a < q + m → rd8 (ram s') a = rd8 (ram s) a).
Proof.
  intros (A & Ho & Ht & _). cbn [fst snd] in *. split_and!.
  - intros p n Hp. destruct (Ht p n Hp) as (i & k & Hi & -> & Hn).
    destruct (owns_range s A i k Ho Hi) as (_ & _ & ? & ? & ? & _). split_and!; lia.
  - intros p q n m Hp Hq Hne. destruct (Ht p n Hp) as (i & k & Hi & -> & Hn).
    destruct (Ht q m Hq) as (j & k' & Hj & -> & Hm).
    destruct (decide (addr_of (mem5 s) i + n ≤ addr_of (mem5 s) j)) as [|H1]; [by left|].
    destruct (decide (addr_of (mem5 s) j + m ≤ addr_of (mem5 s) i)) as [|H2]; [by right|].
    exfalso. apply Hne. f_equal.
    apply (owns_disjoint s A i j k k' (Z.max (addr_of (mem5 s) i) (addr_of (mem5 s) j)));
      [done..|unfold in_block; lia|unfold in_block; lia].
  - intros n. destruct (malloc_returns s A n Ho) as [Hm|(_ & i & s' & Hm & _ & _ & _ & Hd & _)].
    + by exists 0, s.
    + exists (addr_of (mem5 s) i), s'. split; [done|]. intros q m a Hq Ha.
      destruct (Ht q m Hq) as (j & k & Hj & -> & ?). apply (Hd j k); [done|].
      unfold in_block. lia.
  - intros p n Hp. destruct (Ht p n Hp) as (i & k & Hi & -> & Hn).
    destruct (free_ok s A i k Ho Hi) as (s' & Hf & _ & _ & Hd).
    exists s'. split; [done|]. intros q m a Hq Hne Ha.
    destruct (Ht q m Hq) as (j & k' & Hj & -> & ?). apply (Hd j k').
    + rewrite lookup_delete_ne; [done|]. congruence.
    + unfold in_block. lia.
Qed.
