(* ===== verification/Mem5Thms.v ===== *)
(** * The allocator is correct

    The theorems about [static_trusted/mem.cpp], each with an instance on a
    small pool. *)

From S2P Require Import Prelude Memory DList Blocks Mem5 Mem5Inv Mem5Proofs Mem5Free Mem5Init.
From S2P Require Import Mem5Spec.
#[local] Opaque LOOP_FUEL.

(** ** A concrete pool

    300 bytes at address 4096, atoms of 16 bytes: 17 blocks, carved as one of
    16 atoms and one of 1. *)

Definition heap0 : heap := mkHeap mem5_zero ∅.

Definition run_heap {A} (m : M heap A) (s : heap) : heap :=
  match m s with Ok (_, s') => s' | Err _ => s end.

Definition pool0 : heap := run_heap (memsys5Init 4096 300 16) heap0.
(** One block of 8 atoms taken. *)
Definition pool1 : heap := run_heap (memsys5Malloc 100) pool0.

Lemma pool0_owns : owns pool0 ∅ ∧ nBlock (mem5 pool0) = 17 ∧ szAtom (mem5 pool0) = 16.
Proof.
  destruct (init_ok heap0 4096 300 16) as (s' & fl & bl & Hrun & Hinv & Ho & Hl & E1 & E2 & _);
    [lia|lia|vm_compute; congruence|vm_compute; congruence|].
  unfold pool0, run_heap. rewrite Hrun. split; [exact (ex_intro _ fl (ex_intro _ bl (conj Hinv (conj Ho Hl))))|].
  rewrite E1, E2. vm_compute. split; reflexivity.
Qed.

Lemma pool1_owns : owns pool1 {[0 := 3]} ∧ szAtom (mem5 pool1) = 16 ∧ zPool (mem5 pool1) = 4096.
Proof.
  destruct pool0_owns as (Ho & Hn & Hs).
  destruct (malloc_cases pool0 ∅ 100 Ho ltac:(lia)) as [[H _]|(i & s' & Hm & Ho' & _ & Hgeo & _)].
  { vm_compute in H. discriminate. }
  destruct Hgeo as (G1 & _ & G3 & _). unfold pool1, run_heap. rewrite Hm.
  assert (addr_of (mem5 pool0) i = 4096) as Ei.
  { assert (fst <$> (match memsys5Malloc 100 pool0 with Ok r => Some r | Err _ => None end)
      = Some 4096) as E by (vm_compute; reflexivity).
    rewrite Hm in E. exact (f_equal (default 0) E). }
  assert (zPool (mem5 pool0) = 4096) as Ez by (vm_compute; reflexivity).
  assert (i = 0) as -> by (unfold addr_of in Ei; rewrite Ez, Hs in Ei; lia).
  split_and!; [|congruence|congruence].
  by replace 3 with (log_size (szAtom (mem5 pool0)) 100) by (by rewrite Hs).
Qed.

(** ** Allocation *)

(** C5. [memsys5Malloc], on a request of at most 1 GB: it always returns; the
    lock is free again; either it returns NULL, leaves the heap as it was, and
    no aligned run of the rounded-up size is free; or it returns the address
    of such a run, big enough for the request and no bigger than the least
    power of two that is, which becomes outstanding, and neither the other
    outstanding blocks nor their bytes change. *)
Theorem memsys5Malloc_correct s A n :
  owns s A → 0 < n ≤ 2 ^ 30 →
  let k := log_size (szAtom (mem5 s)) n in
  (n ≤ szAtom (mem5 s) * 2 ^ k ∧ (∀ j, 0 ≤ j → n ≤ szAtom (mem5 s) * 2 ^ j → k ≤ j)) ∧
  ((memsys5Malloc n s = Ok (0, s) ∧ ∀ j, ¬ free_window A (nBlock (mem5 s)) k j) ∨
   ∃ i s', memsys5Malloc n s = Ok (addr_of (mem5 s) i, s') ∧ owns s' (<[i := k]> A) ∧
     free_window A (nBlock (mem5 s)) k i ∧ same_geo (mem5 s) (mem5 s') ∧ same_data A s s').
Proof.
  intros Ho Hn k. split; [|exact (malloc_cases s A n Ho Hn)].
  destruct Ho as (fl & bl & Hinv & _).
  destruct (round_loop_run n s (inv_geom _ _ _ _ Hinv) Hn) as (_ & _ & H1 & H2).
  exact (conj H1 H2).
Qed.

Lemma memsys5Malloc_correct_witness :
  owns pool0 ∅ ∧ ∃ i s', memsys5Malloc 100 pool0 = Ok (addr_of (mem5 pool0) i, s') ∧
    owns s' (<[i := log_size (szAtom (mem5 pool0)) 100]> ∅).
Proof.
  split; [apply pool0_owns|].
  destruct (memsys5Malloc_correct pool0 ∅ 100 (proj1 pool0_owns) ltac:(lia))
    as [_ [[H _]|(i & s' & Hm & Ho & _)]]; [vm_compute in H; discriminate|].
  exists i, s'. split; assumption.
Defined.

(** The allocator fails only for want of space: it returns NULL exactly
    when every aligned run of atoms of the size it rounds the request to meets
    an outstanding block, so the coalescing on release loses nothing. *)
Theorem memsys5Malloc_null_iff s A n :
  owns s A → 0 < n ≤ 2 ^ 30 →
  (∃ s', memsys5Malloc n s = Ok (0, s')) ↔
  ∀ j, ¬ free_window A (nBlock (mem5 s)) (log_size (szAtom (mem5 s)) n) j.
Proof.
  intros Ho Hn. destruct (malloc_cases s A n Ho Hn) as [[Hm Hw]|(i & s' & Hm & _ & Hw & _)].
  - split; [done|]. by exists s.
  - split; [|intros H; by apply H in Hw]. intros [s2 Hm2]. exfalso.
    rewrite Hm in Hm2. injection Hm2 as E _.
    destruct Hw as (Hi & _). destruct Ho as (fl & bl & Hinv & _).
    pose proof (inv_geom _ _ _ _ Hinv) as Hg. pose proof (geom_atom_pos _ Hg).
    pose proof (geom_pool _ Hg). unfold addr_of in E. nia.
Qed.

Lemma memsys5Malloc_null_iff_witness :
  owns pool1 {[0 := 3]} ∧
  ∀ j, ¬ free_window {[0 := 3]} (nBlock (mem5 pool1)) (log_size (szAtom (mem5 pool1)) 200) j.
Proof.
  split; [apply pool1_owns|].
  apply (memsys5Malloc_null_iff pool1 {[0 := 3]} 200 (proj1 pool1_owns) ltac:(lia)).
  exists pool1. vm_compute. reflexivity.
Defined.

(** ** Release *)

(** C6. [memsys5Free] on an outstanding block: it returns, exactly that block
    is given back, and the bytes of all the others stay. *)
Theorem memsys5Free_correct s A i k :
  owns s A → A !! i = Some k →
  ∃ s', memsys5Free (addr_of (mem5 s) i) s = Ok (tt, s') ∧ owns s' (delete i A) ∧
    same_geo (mem5 s) (mem5 s') ∧ same_data (delete i A) s s'.
Proof. apply free_ok. Qed.

Lemma memsys5Free_correct_witness :
  ∃ s', memsys5Free 4096 pool1 = Ok (tt, s') ∧ owns s' ∅.
Proof.
  destruct pool1_owns as (Ho & Es & Ez).
  destruct (memsys5Free_correct pool1 {[0 := 3]} 0 3 Ho) as (s' & Hf & Ho' & _);
    [reflexivity|].
  exists s'. split.
  - rewrite <- Hf. unfold addr_of. rewrite Ez. reflexivity.
  - rewrite delete_singleton_eq in Ho'. exact Ho'.
Defined.

(** C39. The guards of [memsys5Free]: a pointer outside the pool, one off the
    atom grid and one to a free block (a double release of a block that has
    not been merged into its lower neighbour) all abort. *)
Theorem memsys5Free_guards s fl bl p :
  inv s fl bl [] → mem_lock (mem5 s) = 0 →
  let g := mem5 s in
  let i := block_of g p in
  p = 0 ∨ i < 0 ∨ nBlock g ≤ i ∨ Z.rem (p - zPool g) (szAtom g) ≠ 0 ∨
    (∃ k, bl !! i = Some (k, true)) →
  memsys5Free p s = Err EAbort.
Proof.
  intros Hinv Hlock g i Hbad. unfold memsys5Free.
  destruct (Z.eqb_spec p 0) as [|Hp]; [done|].
  rewrite bind_assert by done. rewrite (bind_Ok _ _ _ _ _ (enter_run s Hlock)).
  apply bind_Err. unfold memsys5FreeUnsafe. rewrite bind_gets. cbv zeta.
  change (block_of (mem5 (set_mem5 (with_lock 1) s)) p) with i.
  change (nBlock (mem5 (set_mem5 (with_lock 1) s))) with (nBlock g).
  destruct (decide (0 ≤ i < nBlock g)) as [Hi|Hi].
  2: { apply bind_Err. unfold massert.
    replace ((0 <=? i) && (i <? nBlock g)) with false; [done|].
    symmetry. apply andb_false_iff. rewrite Z.leb_gt, Z.ltb_ge. lia. }
  rewrite bind_assert by bool_lia. simpl.
  destruct (Z.eqb_spec (Z.rem (p - zPool (mem5 s)) (szAtom (mem5 s))) 0) as [Hr|Hr];
    [|by apply bind_Err].
  rewrite bind_assert by done. rewrite bind_gets.
  destruct Hbad as [|[|[|[|[k Hk]]]]]; [done|lia|lia|done|].
  change (ctrl (set_mem5 (with_lock 1) s) i) with (ctrl s i).
  rewrite (inv_ctrl _ _ _ _ Hinv i k true) by (done || set_solver).
  destruct (inv_wf _ _ _ _ _ _ _ Hinv Hk) as (Hk' & _).
  destruct (enc_ok k true Hk') as (_ & -> & _). by apply bind_Err.
Qed.

Lemma memsys5Free_guards_witness :
  memsys5Free 4100 pool0 = Err EAbort ∧ memsys5Free 0 pool0 = Err EAbort.
Proof.
  destruct pool0_owns as ((fl & bl & Hinv & _ & Hlock) & _).
  split; apply (memsys5Free_guards pool0 fl bl _ Hinv Hlock);
    [right; right; right; left; vm_compute; congruence|left; reflexivity].
Defined.

(** ** Reallocation and sizes *)

(** C21. [memsys5Realloc] of an outstanding block to a power of two: within the
    block's size the pointer comes back; otherwise either NULL, the heap
    untouched, or a fresh block that starts with the old block's bytes, the old
    block given back, every other block's bytes kept. *)
Theorem memsys5Realloc_correct s A i k n :
  owns s A → A !! i = Some k → 0 < n ≤ 2 ^ 30 → Z.land n (n - 1) = 0 →
  let k' := log_size (szAtom (mem5 s)) n in
  let p := addr_of (mem5 s) i in
  let old := szAtom (mem5 s) * 2 ^ k in
  if n <=? old then memsys5Realloc p n s = Ok (p, s)
  else (memsys5Realloc p n s = Ok (0, s) ∧ ∀ j, ¬ free_window A (nBlock (mem5 s)) k' j) ∨
    ∃ i' s', memsys5Realloc p n s = Ok (addr_of (mem5 s) i', s') ∧
      owns s' (<[i' := k']> (delete i A)) ∧ same_data (delete i A) s s' ∧
      load_bytes (ram s') (addr_of (mem5 s) i') (Z.to_nat old) =
        load_bytes (ram s) p (Z.to_nat old).
Proof.
  intros Ho Hi Hn Hpow k' p old. destruct (Z.leb_spec n old) as [Hle|Hgt].
  - destruct (owns_range s A i k Ho Hi) as (_ & _ & ? & _ & ? & _). unfold memsys5Realloc.
    rewrite bind_assert by (apply negb_true_iff, Z.eqb_neq; unfold p; lia).
    rewrite bind_assert by (by apply Z.eqb_eq). rewrite bind_assert by (apply Z.leb_le; lia).
    rewrite (proj2 (Z.eqb_neq n 0)) by lia.
    rewrite (bind_Ok _ _ _ _ _ (size_ok s A i k Ho Hi)).
    by rewrite (proj2 (Z.leb_le n _)).
  - by apply realloc_cases.
Qed.

Lemma memsys5Realloc_correct_witness :
  owns pool1 {[0 := 3]} ∧ memsys5Realloc (addr_of (mem5 pool1) 0) 64 pool1 =
    Ok (addr_of (mem5 pool1) 0, pool1).
Proof.
  split; [apply pool1_owns|]. destruct pool1_owns as (Ho & Es & Ez).
  pose proof (memsys5Realloc_correct pool1 {[0 := 3]} 0 3 64 Ho ltac:(reflexivity)
    ltac:(lia) ltac:(reflexivity)) as H.
  cbv zeta in H. rewrite Es in H. exact H.
Defined.

(** [memsys5Size] reports the size of an outstanding block, and
    [memsys5Roundup] the size of the block a request would get: what
    [memsys5Malloc] then hands out has the size that [memsys5Roundup]
    announced. *)
Theorem memsys5Roundup_announces s A n :
  owns s A → 0 < n ≤ 2 ^ 30 →
  ∃ r, memsys5Roundup n s = Ok (r, s) ∧ n ≤ r ∧
    ∀ p s', memsys5Malloc n s = Ok (p, s') → p ≠ 0 → memsys5Size p s' = Ok (r, s').
Proof.
  intros Ho Hn. destruct Ho as (fl & bl & Hinv & Hrest) eqn:Eo.
  destruct (round_loop_run n s (inv_geom _ _ _ _ Hinv) Hn) as (Hrun & Hk & Hle & _).
  exists (szAtom (mem5 s) * 2 ^ log_size (szAtom (mem5 s)) n). split_and!; [|done|].
  - unfold memsys5Roundup. rewrite (proj2 (Z.ltb_ge _ n)) by lia. rewrite bind_gets.
    by rewrite (bind_Ok _ _ _ _ _ Hrun).
  - intros p s' Hm Hp. destruct (malloc_cases s A n (ltac:(by exists fl, bl)) Hn)
      as [[Hm' _]|(i & s2 & Hm' & Ho' & _ & Hgeo & _)]; rewrite Hm in Hm'.
    + injection Hm' as -> _. done.
    + injection Hm' as -> ->. pose proof (size_ok s2 _ i _ Ho' (lookup_insert_eq _ _ _)) as Hsize.
      rewrite (same_geo_addr s s2) in Hsize by done.
      destruct Hgeo as (E & _). by rewrite E in Hsize.
Qed.

Lemma memsys5Roundup_announces_witness :
  memsys5Roundup 100 pool0 = Ok (128, pool0) ∧ memsys5Size 4096 pool1 = Ok (128, pool1).
Proof.
  destruct (memsys5Roundup_announces pool0 ∅ 100 (proj1 pool0_owns) ltac:(lia))
    as (r & Hr & _ & Hs).
  assert (memsys5Roundup 100 pool0 = Ok (128, pool0)) as E by (vm_compute; reflexivity).
  split; [exact E|]. rewrite E in Hr.
  apply Ok_inj in Hr as [<- _].
  apply Hs; [vm_compute; reflexivity|discriminate].
Defined.

(** ** Initialisation *)

(** C19. [memsys5Init] on a pool of less than 2 GB, and on the library's own pool
    of 2 GB in atoms of 16 bytes, whose size is negative as the [int] it is cast
    to: it returns 0, the arena is all free, the number of blocks is the size
    divided by an atom and its control byte, and no byte outside the pool is
    written. *)
Theorem memsys5Init_correct s ptr p_size mnReq :
  0 < ptr → 1 ≤ mnReq ≤ 2 ^ 30 → 0 ≤ p_size < 2 ^ 31 ∨ p_size = 2 ^ 31 ∧ atom_size mnReq = 16 →
  let nb := p_size / (atom_size mnReq + 1) in
  ∃ s', memsys5Init ptr p_size mnReq s = Ok (0, s') ∧ owns s' ∅ ∧
    szAtom (mem5 s') = atom_size mnReq ∧ nBlock (mem5 s') = nb ∧ zPool (mem5 s') = ptr ∧
    ∀ a, ¬ (ptr ≤ a < ptr + p_size) → rd8 (ram s') a = rd8 (ram s) a.
Proof.
  intros Hptr Hreq Hsize nb.
  assert (8 ≤ atom_size mnReq ≤ 2 ^ 30) as Hat.
  { unfold atom_size. change 8 with (2 ^ 3).
    assert (Z.log2_up mnReq ≤ 30) by (apply Z.log2_up_le_pow2; lia).
    split; apply pow2_le; lia. }
  assert (0 ≤ nb ∧ nb * (atom_size mnReq + 1) ≤ p_size) as [Hnb Hfit].
  { unfold nb. split; [apply Z.div_pos; lia|].
    pose proof (Z.mul_div_le p_size (atom_size mnReq + 1) ltac:(lia)). lia. }
  assert (pool_blocks p_size mnReq = nb) as Epb.
  { unfold pool_blocks. destruct Hsize as [Hsize|[-> Ea]]; [|unfold nb; rewrite Ea; reflexivity].
    rewrite (i32_id p_size), !u64_id by lia. apply i32_id. fold nb. nia. }
  assert (nb * atom_size mnReq < 2 ^ 31) as Hsmall.
  { destruct Hsize as [Hsize|[-> Ea]]; [nia|]. unfold nb. rewrite Ea. reflexivity. }
  destruct (init_ok s ptr p_size mnReq Hptr Hreq) as (s' & fl & bl & H1 & H2 & H3 & H4 & H5 & H6 & H7 & H8);
    rewrite ?Epb in *; [done|exact Hsmall|].
  exists s'. split_and!; try done; [by exists fl, bl|].
  intros a Ha. apply H8. lia.
Qed.

Lemma memsys5Init_correct_witness :
  (∃ s', memsys5Init 4096 300 16 heap0 = Ok (0, s') ∧ owns s' ∅ ∧ nBlock (mem5 s') = 17) ∧
  ∃ s', memsys5Init 4096 (2 ^ 31) 16 heap0 = Ok (0, s') ∧ owns s' ∅ ∧ nBlock (mem5 s') = 126322567.
Proof.
  split.
  - destruct (memsys5Init_correct heap0 4096 300 16) as (s' & H1 & H2 & _ & H3 & _);
      [lia|lia|lia|]. exists s'. split; [exact H1|]. split; [exact H2|]. rewrite H3. reflexivity.
  - destruct (memsys5Init_correct heap0 4096 (2 ^ 31) 16) as (s' & H1 & H2 & _ & H3 & _);
      [lia|lia|right; split; reflexivity|]. exists s'. split; [exact H1|]. split; [exact H2|]. rewrite H3. reflexivity.
Defined.

(** The call of [initialize_lib]: a pool of 2^31 bytes.  Its size does not
    fit the [int] it is cast to and becomes negative, and still the quotient
    taken in 64 bits truncates to the right number of blocks, since 17 divides
    [2^64 - 1]: the arena is set up as if nothing had wrapped. *)
Theorem memsys5Init_two_gigabytes s ptr :
  0 < ptr →
  i32 (2 ^ 31) = - 2 ^ 31 ∧
  ∃ s', memsys5Init ptr (2 ^ 31) 16 s = Ok (0, s') ∧ owns s' ∅ ∧
    nBlock (mem5 s') = 2 ^ 31 / 17 ∧ szAtom (mem5 s') = 16 ∧ zPool (mem5 s') = ptr.
Proof.
  intros Hptr. split; [done|].
  destruct (init_ok s ptr (2 ^ 31) 16 Hptr) as (s' & fl & bl & H1 & H2 & H3 & H4 & H5 & H6 & H7 & _);
    [lia|vm_compute; congruence|vm_compute; reflexivity|].
  exists s'. split; [exact H1|]. split; [exact (ex_intro _ fl (ex_intro _ bl (conj H2 (conj H3 H4))))|].
  rewrite H5, H6. split_and!; [vm_compute; reflexivity|vm_compute; reflexivity|exact H7].
Qed.

Lemma memsys5Init_two_gigabytes_witness :
  ∃ s', memsys5Init 4096 (2 ^ 31) 16 heap0 = Ok (0, s') ∧ nBlock (mem5 s') = 126322567.
Proof.
  destruct (memsys5Init_two_gigabytes heap0 4096) as (_ & s' & H1 & _ & H2 & _); [lia|].
  exists s'. split; [exact H1|]. rewrite H2. reflexivity.
Defined.

(** ** A client *)

(** C7. From a fresh pool, in every state a client reaches by allocating,
    releasing what it holds and writing in what it holds: its pointers lie in
    the pool and do not overlap; the next allocation and the release of any of
    its pointers return (no assertion fails, no lock is left taken, no loop
    runs on), and they change none of the bytes of its other blocks. *)
Theorem mem5_client_safe ptr p_size mnReq s0 s1 s P :
  0 < ptr → 1 ≤ mnReq ≤ 2 ^ 30 →
  0 ≤ pool_blocks p_size mnReq → pool_blocks p_size mnReq * atom_size mnReq < 2 ^ 31 →
  memsys5Init ptr p_size mnReq s0 = Ok (0, s1) → client_run (s1, ∅) (s, P) →
  (∀ p n, P !! p = Some n → 0 < p ∧ zPool (mem5 s) ≤ p ∧ p + n ≤ aCtrl (mem5 s)) ∧
  (∀ p q n m, P !! p = Some n → P !! q = Some m → p ≠ q → p + n ≤ q ∨ q + m ≤ p) ∧
  (∀ n, ∃ p s', memsys5Malloc n s = Ok (p, s') ∧
    ∀ q m a, P !! q = Some m → q ≤ a < q + m → rd8 (ram s') a = rd8 (ram s) a) ∧
  (∀ p n, P !! p = Some n → ∃ s', memsys5Free p s = Ok (tt, s') ∧
    ∀ q m a, P !! q = Some m → q ≠ p → q ≤ a < q + m → rd8 (ram s') a = rd8 (ram s) a).
Proof.
  intros Hptr Hreq Hnb Hfit Hinit Hrun.
  apply client_inv_safe, (client_run_inv (s1, ∅)); [|done].
  destruct (init_ok s0 ptr p_size mnReq Hptr Hreq Hnb Hfit) as (s' & fl & bl & H1 & H2 & H3 & H4 & _).
  rewrite Hinit in H1. injection H1 as <-.
  exists ∅. split; [by exists fl, bl|]. split; intros ? ?; cbn [snd]; by rewrite lookup_empty.
Qed.

Lemma mem5_client_safe_witness :
  ∃ s', memsys5Free 4096 pool1 = Ok (tt, s').
Proof.
  destruct (mem5_client_safe 4096 300 16 heap0 pool0 pool1 {[4096 := 100]})
    as (_ & _ & _ & H);
    [lia|lia|vm_compute; congruence|vm_compute; reflexivity|vm_compute; reflexivity| |].
  - eapply client_more; [apply client_start|].
    change ({[4096 := 100]} : pointers) with (<[4096 := 100]> (∅ : pointers)).
    apply client_malloc; [lia|vm_compute; reflexivity|discriminate].
  - destruct (H 4096 100) as (s' & Hs & _); [reflexivity|]. exists s'. exact Hs.
Defined.

(** C18. Nothing is lost for good: whatever a client of a fresh pool allocated,
    wrote and released, in whatever order, once it holds nothing a request whose
    rounded-up size fits in the pool is served. The release puts the halves
    together again: no block stays split. *)
Theorem memsys5_all_released ptr p_size mnReq s0 s1 s n :
  0 < ptr → 1 ≤ mnReq ≤ 2 ^ 30 →
  0 ≤ pool_blocks p_size mnReq → pool_blocks p_size mnReq * atom_size mnReq < 2 ^ 31 →
  memsys5Init ptr p_size mnReq s0 = Ok (0, s1) → client_run (s1, ∅) (s, ∅) →
  0 < n ≤ 2 ^ 30 → 2 ^ log_size (atom_size mnReq) n ≤ pool_blocks p_size mnReq →
  ∃ p s', memsys5Malloc n s = Ok (p, s') ∧ p ≠ 0.
Proof.
  intros Hptr Hreq Hnb Hfit Hinit Hrun Hn Hroom.
  destruct (init_ok s0 ptr p_size mnReq Hptr Hreq Hnb Hfit) as (s' & fl & bl & H1 & H2 & H3 & H4 & H5 & H6 & _).
  rewrite Hinit in H1. injection H1 as <-.
  assert (client_inv (s1, ∅)) as Hinv.
  { exists ∅. split; [by exists fl, bl|]. split; intros ? ?; cbn [snd]; by rewrite lookup_empty. }
  destruct (client_run_geo _ _ Hinv Hrun) as (G1 & G2 & _). cbn [fst] in *.
  apply (client_run_inv _ _ Hinv), client_inv_nothing in Hrun.
  apply empty_serves; [exact Hrun|exact Hn|]. rewrite G1, G2, H5, H6. exact Hroom.
Qed.

(** Two blocks taken from the 16 atoms and given back: the 16 atoms are served
    again. *)
Definition pool2 : heap := run_heap (memsys5Malloc 50) pool1.
Definition pool3 : heap := run_heap (memsys5Free 4096) pool2.
Definition pool4 : heap := run_heap (memsys5Free 4224) pool3.

Lemma memsys5_all_released_witness :
  ∃ p s', memsys5Malloc 256 pool4 = Ok (p, s') ∧ p ≠ 0.
Proof.
  apply (memsys5_all_released 4096 300 16 heap0 pool0 pool4 256);
    [lia|lia|vm_compute; congruence|vm_compute; reflexivity|vm_compute; reflexivity| |lia|vm_compute; congruence].
  change (∅ : pointers) with (delete 4224 (delete 4096 (<[4224 := 50]> (<[4096 := 100]> (∅ : pointers))))) at 2.
  eapply client_more; [eapply client_more; [eapply client_more; [eapply client_more; [apply client_start|]|]|]|].
  - apply (client_malloc pool0 pool1 _ 100 4096); [lia|vm_compute; reflexivity|discriminate].
  - apply (client_malloc pool1 pool2 _ 50 4224); [lia|vm_compute; reflexivity|discriminate].
  - apply (client_free pool2 pool3 _ 4096 100); vm_compute; reflexivity.
  - apply (client_free pool3 pool4 _ 4224 50); vm_compute; reflexivity.
Defined.
