(* ===== verification/SyncUtils.v ===== *)
(** * Spin locks

    Models [common/SyncUtils.cpp]: the lock word, the compare-and-swap loop of
    [spin_lock] and the store of [spin_unlock], first as interleaved steps of
    any number of threads, then as the routines a thread runs. *)

From S2P Require Import Prelude.

(** ** Interleaved threads *)

(** Where a thread is: outside, about to compare-and-swap, in the inner
    [while( *p)] loop, or past [spin_lock]. *)
Inductive pc : Type := Outside | AtCas | AtWait | Inside.

#[export] Instance pc_eq_dec : EqDecision pc.
Proof. solve_decision. Defined.

(** A lock word shared by threads numbered by [nat]. *)
Record lock_state := mkLock { word : Z; pcs : gmap nat pc }.

(** One atomic action of thread [t] from program point [c]: the next point and
    the next value of the lock word. *)
Definition lock_action (c : pc) (w : Z) : list (pc * Z) :=
  match c with
  | Outside => [(AtCas, w)]
  | AtCas => if w =? 0 then [(Inside, 1)] else [(AtWait, w)]
  | AtWait => if w =? 0 then [(AtCas, w)] else [(AtWait, w)]
  | Inside => [(Outside, 0)]
  end.

Inductive lock_step : lock_state → lock_state → Prop :=
  | lock_step_thread t c c' w w' m :
      m !! t = Some c → (c', w') ∈ lock_action c w →
      lock_step (mkLock w m) (mkLock w' (<[t := c']> m)).

Inductive lock_steps : lock_state → lock_state → Prop :=
  | lock_steps_refl s : lock_steps s s
  | lock_steps_more s1 s2 s3 : lock_steps s1 s2 → lock_step s2 s3 → lock_steps s1 s3.

(** The lock word is 1 exactly when some thread is inside, and one at most is. *)
Record lock_inv (s : lock_state) : Prop := {
  lock_word : word s = 0 ∨ word s = 1;
  lock_held : ∀ t, pcs s !! t = Some Inside → word s = 1;
  lock_taken : word s = 1 → ∃ t, pcs s !! t = Some Inside;
  lock_one : ∀ t t', pcs s !! t = Some Inside → pcs s !! t' = Some Inside → t = t'
}.

Lemma lock_inv_init n :
  lock_inv (mkLock 0 (gset_to_gmap Outside (set_seq 0 n : gset nat))).
Proof.
  assert (∀ t, gset_to_gmap Outside (set_seq 0 n : gset nat) !! t ≠ Some Inside) as H.
  { intros t. rewrite lookup_gset_to_gmap_Some. naive_solver. }
  constructor; simpl; [by left|naive_solver|done|naive_solver].
Qed.

(** A thread that moves outside the critical section. *)
Lemma lock_inv_outside w m t c c' :
  lock_inv (mkLock w m) → m !! t = Some c → c ≠ Inside → c' ≠ Inside →
  lock_inv (mkLock w (<[t := c']> m)).
Proof.
  intros [Hw Hh Ht Ho] Hc Hn Hn'. simpl in *. constructor; simpl; [done| | |].
  - intros t'. rewrite lookup_insert. case_decide; [congruence|apply Hh].
  - intros E. destruct (Ht E) as [t' Hin]. exists t'. rewrite lookup_insert_ne; congruence.
  - intros t1 t2. rewrite !lookup_insert. repeat case_decide; try congruence. apply Ho.
Qed.

Lemma lock_step_inv s s' : lock_inv s → lock_step s s' → lock_inv s'.
Proof.
  intros Hinv Hs. destruct Hs as [t c c' w w' m Hc Ha].
  destruct c; simpl in Ha; [|destruct (Z.eqb_spec w 0) as [->|Hne]..|];
    apply list_elem_of_singleton in Ha as [= -> ->];
    try by eapply lock_inv_outside.
  - destruct Hinv as [Hw Hh Ht Ho]. simpl in *.
    assert (∀ t', m !! t' ≠ Some Inside) as Hnone by (intros t' Hin; by apply Hh in Hin).
    constructor; simpl; [by right|done|intros _; exists t; by rewrite lookup_insert_eq|].
    intros t1 t2. rewrite !lookup_insert.
    repeat case_decide; [congruence|intros _ H2; by apply Hnone in H2
      |intros H1 _; by apply Hnone in H1|apply Ho].
  - destruct Hinv as [Hw Hh Ht Ho]. simpl in *. constructor; simpl; [by left| |done|].
    + intros t'. rewrite lookup_insert. case_decide; [done|]. intros Hin.
      pose proof (Ho t t' Hc Hin). congruence.
    + intros t1 t2. rewrite !lookup_insert. repeat case_decide; try done. apply Ho.
Qed.

Lemma lock_steps_inv s s' : lock_inv s → lock_steps s s' → lock_inv s'.
Proof. intros Hi. induction 1; eauto using lock_step_inv. Qed.

(** A thread about to compare-and-swap on a free word gets in at once. *)
Lemma lock_enter s t :
  pcs s !! t = Some AtCas → word s = 0 → lock_step s (mkLock 1 (<[t := Inside]> (pcs s))).
Proof.
  destruct s as [w m]. simpl. intros Ht ->.
  apply (lock_step_thread t AtCas); [done|]. simpl. set_solver.
Qed.

(** ** The routines

    A thread run on its own on the lock word: [ESpin] where nobody is there to
    release the lock. *)

Definition spin_lock : M Z unit :=
  w ← gets id;
  if w =? 0 then modify (λ _, 1) else fail ESpin.

Definition spin_unlock : M Z unit := modify (λ _, 0).

(** The overloads for a one-byte lock word. *)
Definition spin_lock_uchar : M Z unit :=
  w ← gets u8;
  if w =? 0 then modify (λ _, 1) else fail ESpin.

Definition spin_unlock_uchar : M Z unit := modify (λ _, u8 0).

(** The number of a thread's actions: [spin_lock] on its own, as the steps say. *)
Fixpoint solo (n : nat) (c : pc) (w : Z) : pc * Z :=
  match n with
  | O => (c, w)
  | S n' => match lock_action c w with (c', w') :: _ => solo n' c' w' | [] => (c, w) end
  end.

Lemma solo_blocked n w : w ≠ 0 → (solo n AtWait w).1 = AtWait ∧ (solo n AtWait w).2 = w.
Proof.
  intros Hw. induction n as [|n IH]; [done|]. simpl.
  by rewrite (proj2 (Z.eqb_neq w 0)) by done.
Qed.

(** ** Theorems *)

(** C14. Mutual exclusion: whatever the interleaving of any number of threads
    that take and release one lock, no two of them are past [spin_lock] at
    once, and the lock word reads 1 exactly while one is. *)
Theorem spin_lock_mutex n s :
  lock_steps (mkLock 0 (gset_to_gmap Outside (set_seq 0 n : gset nat))) s →
  (∀ t t', pcs s !! t = Some Inside → pcs s !! t' = Some Inside → t = t') ∧
  (word s = 1 ↔ ∃ t, pcs s !! t = Some Inside) ∧ (word s = 0 ∨ word s = 1).
Proof.
  intros Hs. apply lock_steps_inv in Hs as [Hw Hh Ht Ho]; [|apply lock_inv_init].
  split_and!; [done| |done]. split; [done|]. by intros [t H%Hh].
Qed.

(** One of two threads is in, the other one waits. *)
Definition contended : lock_state :=
  mkLock 1 (<[1%nat := AtWait]> (<[1%nat := AtCas]> (<[0%nat := Inside]> (<[0%nat := AtCas]>
    (gset_to_gmap Outside (set_seq 0 2 : gset nat)))))).

Lemma spin_lock_mutex_witness :
  pcs contended !! 1%nat = Some AtWait ∧
  (word contended = 1 ↔ ∃ t, pcs contended !! t = Some Inside).
Proof.
  split; [vm_compute; reflexivity|]. apply (spin_lock_mutex 2).
  eapply lock_steps_more; [eapply lock_steps_more; [eapply lock_steps_more;
    [eapply lock_steps_more; [apply lock_steps_refl|]|]|]|].
  - apply (lock_step_thread 0%nat Outside AtCas); [vm_compute; reflexivity|left].
  - apply (lock_step_thread 0%nat AtCas Inside); [vm_compute; reflexivity|left].
  - apply (lock_step_thread 1%nat Outside AtCas); [vm_compute; reflexivity|left].
  - apply (lock_step_thread 1%nat AtCas AtWait); [vm_compute; reflexivity|left].
Defined.

(** The routine agrees with the steps: it returns, with the word at 1,
    exactly when the loop of a thread left alone gets through, and it is
    [ESpin] exactly when that loop never does. *)
Theorem spin_lock_solo w :
  match spin_lock w with
  | Ok (_, w') => ∃ n, solo n AtCas w = (Inside, w') ∧ w' = 1
  | Err e => e = ESpin ∧ ∀ n, (solo n AtCas w).1 ≠ Inside
  end.
Proof.
  unfold spin_lock. rewrite bind_gets. simpl. destruct (Z.eqb_spec w 0) as [->|Hw].
  - exists 1%nat. done.
  - split; [done|]. intros [|n]; [done|]. simpl.
    rewrite (proj2 (Z.eqb_neq w 0)) by done.
    by rewrite (proj1 (solo_blocked n w Hw)).
Qed.
