(* ===== verification/Ring.v ===== *)
(** * Ring buffers and first-in first-out queues

    What the two queues of the program share: the slots of a ring buffer, and
    the interface a queue offers its clients. *)

From S2P Require Import Prelude.

(** ** Arrays *)

(** An array of [n] cells set to [v]. *)
Definition array {A} (n : Z) (v : A) : gmap Z A :=
  list_to_map ((λ i, (i, v)) <$> seqZ 0 n).

Lemma array_lookup {A} n (v : A) i : 0 ≤ i < n → array n v !! i = Some v.
Proof.
  intros Hi. apply elem_of_list_to_map.
  - rewrite <- list_fmap_compose. simpl. rewrite list_fmap_id. apply NoDup_seqZ.
  - apply list_elem_of_fmap. exists i. split; [done|]. apply elem_of_seqZ. lia.
Qed.

Lemma array_lookup_Some {A} n (v : A) i x : array n v !! i = Some x ↔ 0 ≤ i < n ∧ x = v.
Proof.
  split; [|by intros [? ->]; apply array_lookup]. intros H.
  apply elem_of_list_to_map_2, list_elem_of_fmap in H as (j & [= -> ->] & Hj).
  apply elem_of_seqZ in Hj. split; [lia|done].
Qed.

(** ** Slots *)

(** The [length l] cells of the ring from number [front] on hold [l]. *)
Definition slots {A} (q : gmap Z A) (size front : Z) (l : list A) : Prop :=
  ∀ i x, l !! i = Some x → q !! ((front + Z.of_nat i) mod size) = Some x.

Lemma slots_nil {A} (q : gmap Z A) size front : slots q size front [].
Proof. intros i x. by rewrite lookup_nil. Qed.

(** Cells less than a turn of the ring apart are distinct. *)
Lemma ring_ne size front i j :
  0 ≤ i → i < j → j < size → (front + i) mod size ≠ (front + j) mod size.
Proof.
  intros Hi Hij Hj E.
  pose proof (Z.div_mod (front + i) size ltac:(lia)).
  pose proof (Z.div_mod (front + j) size ltac:(lia)).
  set (a := (front + i) / size) in *. set (b := (front + j) / size) in *.
  assert (j - i = size * (b - a)) as E2 by lia.
  destruct (Z.lt_total b a) as [?|[?|?]]; nia.
Qed.

Lemma slots_push {A} (q : gmap Z A) size front l x :
  slots q size front l → Z.of_nat (length l) < size →
  slots (<[(front + Z.of_nat (length l)) mod size := x]> q) size front (l ++ [x]).
Proof.
  intros Hs Hl i y. rewrite lookup_app. destruct (l !! i) as [z|] eqn:E.
  - intros [= ->]. pose proof (lookup_lt_Some _ _ _ E).
    rewrite lookup_insert_ne; [by apply Hs|]. apply not_eq_sym, ring_ne; lia.
  - intros H. apply list_lookup_singleton_Some in H as [H ->].
    apply lookup_ge_None in E. assert (i = length l) as -> by lia.
    by rewrite lookup_insert_eq.
Qed.

Lemma slots_pop {A} (q : gmap Z A) size front x l :
  slots q size front (x :: l) →
  q !! (front mod size) = Some x ∧ slots q size (front + 1) l.
Proof.
  intros Hs. split.
  - specialize (Hs 0%nat x eq_refl). by rewrite Z.add_0_r in Hs.
  - intros i y Hi. specialize (Hs (S i) y Hi). rewrite Nat2Z.inj_succ in Hs.
    by replace (front + 1 + Z.of_nat i) with (front + Z.succ (Z.of_nat i)) by lia.
Qed.

Lemma slots_congr {A} (q : gmap Z A) size front front' l :
  0 < size → front mod size = front' mod size → slots q size front l → slots q size front' l.
Proof.
  intros Hsz E Hs i x Hi. rewrite <- (Hs i x Hi). f_equal.
  by rewrite <- Zplus_mod_idemp_l, <- E, Zplus_mod_idemp_l.
Qed.

(** ** The interface of a queue *)

(** What a bounded first-in first-out queue promises: [fifo_left] counts the
    insertions its counters still stand. *)
Class Fifo (St El : Type) := {
  fifo_enqueue : El → M St Z;
  fifo_dequeue : M St El;
  fifo_cap : St → Z;
  fifo_left : St → Z;
  fifo_holds : St → list El → Prop;
  fifo_enqueue_ok s l x :
    fifo_holds s l → Z.of_nat (length l) < fifo_cap s → 0 < fifo_left s →
    ∃ s', fifo_enqueue x s = Ok (0, s') ∧ fifo_holds s' (l ++ [x]) ∧
      fifo_cap s' = fifo_cap s ∧ fifo_left s - 1 ≤ fifo_left s';
  fifo_dequeue_ok s x l :
    fifo_holds s (x :: l) →
    ∃ s', fifo_dequeue s = Ok (x, s') ∧ fifo_holds s' l ∧
      fifo_cap s' = fifo_cap s ∧ fifo_left s ≤ fifo_left s'
}.

(** A client's calls. *)
Inductive fifo_call (El : Type) : Type :=
  | Put (x : El)
  | Take.
Arguments Put {El} x.
Arguments Take {El}.

(** The specification: a list, filled at the end and emptied at the front. *)
Fixpoint list_calls {El} (cap : Z) (cs : list (fifo_call El)) (l : list El)
    : option (list El * list El) :=
  match cs with
  | [] => Some ([], l)
  | Put x :: cs' =>
      if Z.of_nat (length l) <? cap then list_calls cap cs' (l ++ [x]) else None
  | Take :: cs' =>
      match l with
      | [] => None
      | x :: l' => r ← list_calls cap cs' l'; Some (x :: r.1, r.2)
      end
  end.

Fixpoint puts {El} (cs : list (fifo_call El)) : Z :=
  match cs with [] => 0 | Put _ :: cs' => 1 + puts cs' | Take :: cs' => puts cs' end.

Section fifo.
Context {St El : Type} `{Fifo St El}.

Fixpoint fifo_calls (cs : list (fifo_call El)) : M St (list El) :=
  match cs with
  | [] => mret []
  | Put x :: cs' => _ ← fifo_enqueue x; fifo_calls cs'
  | Take :: cs' => x ← fifo_dequeue; r ← fifo_calls cs'; mret (x :: r)
  end.

Lemma puts_nonneg (cs : list (fifo_call El)) : 0 ≤ puts cs.
Proof. induction cs as [|[x|] cs IH]; simpl; lia. Qed.

(** Forward simulation of any sequence of calls. *)
Lemma fifo_calls_ok cs s l out l' :
  fifo_holds s l → list_calls (fifo_cap s) cs l = Some (out, l') →
  puts cs ≤ fifo_left s →
  ∃ s', fifo_calls cs s = Ok (out, s') ∧ fifo_holds s' l'.
Proof.
  revert s l out. induction cs as [|[x|] cs IH]; intros s l out Hs Hl Hp; simpl in *.
  - injection Hl as <- <-. by exists s.
  - destruct (Z.ltb_spec (Z.of_nat (length l)) (fifo_cap s)) as [Hc|]; [|done].
    pose proof (puts_nonneg cs).
    destruct (fifo_enqueue_ok s l x Hs Hc) as (s1 & Hrun & Hs1 & Ec & El1); [lia|].
    rewrite (bind_Ok _ _ _ _ _ Hrun). apply (IH s1 (l ++ [x])); [done|by rewrite Ec|lia].
  - destruct l as [|x l]; [done|].
    destruct (list_calls (fifo_cap s) cs l) as [[out1 l1]|] eqn:E; [|done].
    simpl in Hl. injection Hl as <- <-.
    destruct (fifo_dequeue_ok s x l Hs) as (s1 & Hrun & Hs1 & Ec & El1).
    rewrite (bind_Ok _ _ _ _ _ Hrun).
    destruct (IH s1 l out1) as (s' & Hrun' & Hs'); [done|by rewrite Ec|lia|].
    exists s'. by rewrite (bind_Ok _ _ _ _ _ Hrun').
Qed.
End fifo.

(** The list specification delivers in order: what comes out is what was there
    followed by what was put, up to what is left. *)
Lemma list_calls_order {El} cap (cs : list (fifo_call El)) l out l' :
  list_calls cap cs l = Some (out, l') →
  out ++ l' = l ++ omap (λ c, match c with Put x => Some x | Take => None end) cs.
Proof.
  revert l out. induction cs as [|[x|] cs IH]; intros l out Hl; simpl in *.
  - injection Hl as <- <-. by rewrite app_nil_r.
  - destruct (_ <? _); [|done]. rewrite (IH _ _ Hl). by rewrite <- app_assoc.
  - destruct l as [|x l]; [done|].
    destruct (list_calls cap cs l) as [[out1 l1]|] eqn:E; [|done].
    simpl in Hl. injection Hl as <- <-. simpl. by rewrite (IH _ _ E).
Qed.
