(* ===== verification/Linear.v ===== *)
(** * Objects behind a spin lock

    Threads call the methods of a shared object and interleave at every access
    to memory.  A method takes the object's lock, works, and releases the lock:
    such an object cannot be told, by any thread, from one whose methods happen
    at once (the traces of calls and returns are those of the atomic object). *)

From S2P Require Import Prelude SyncUtils.

(** ** Threads and calls *)

Section machine.
Context {C R : Type}.

(** What can be observed. *)
Inductive event : Type :=
  | Invoke (t : nat) (c : C)
  | Return (t : nat) (r : R).

(** How an object runs a call: where it starts, its steps, its result. *)
Record object (St L : Type) := mkObject {
  enter : C → L;
  advance : L → St → option (L * St);
  result : L → option R
}.
Arguments enter {St L} _ _.
Arguments advance {St L} _ _ _.
Arguments result {St L} _ _.

(** A thread between calls or in one, with the calls it has still to make. *)
Inductive thread (L : Type) : Type :=
  | Idle (todo : list C)
  | Busy (l : L) (todo : list C).
Arguments Idle {L} todo.
Arguments Busy {L} l todo.

Record config (St L : Type) := mkConfig {
  threads : list (thread L); shared : St; events : list event
}.
Arguments mkConfig {St L} _ _ _.

Inductive step {St L} (O : object St L) : config St L → config St L → Prop :=
  | step_invoke t c cs T s ev :
      T !! t = Some (Idle (c :: cs)) →
      step O (mkConfig T s ev) (mkConfig (<[t := Busy (enter O c) cs]> T) s (ev ++ [Invoke t c]))
  | step_advance t l l' cs T s s' ev :
      T !! t = Some (Busy l cs) → advance O l s = Some (l', s') →
      step O (mkConfig T s ev) (mkConfig (<[t := Busy l' cs]> T) s' ev)
  | step_return t l r cs T s ev :
      T !! t = Some (Busy l cs) → result O l = Some r →
      step O (mkConfig T s ev) (mkConfig (<[t := Idle cs]> T) s (ev ++ [Return t r])).

(** Threads with calls to make, and nothing done. *)
Definition start {St L} (scripts : list (list C)) (s : St) : config St L := mkConfig (Idle <$> scripts) s [].

(** ** Methods, an access at a time *)

(** [Act] is an access to memory, [Acq] the compare-and-swap of [spin_lock] and
    [Spin] its inner loop, [Rel] the store of [spin_unlock]. *)
Inductive prog (St : Type) : Type :=
  | Ret (r : R)
  | Abort
  | Acq (k : prog St)
  | Spin (k : prog St)
  | Rel (k : prog St)
  | Act {B : Type} (m : M St B) (k : B → prog St).
Arguments Ret {St} r.
Arguments Abort {St}.
Arguments Acq {St} k.
Arguments Spin {St} k.
Arguments Rel {St} k.
Arguments Act {St B} m k.

End machine.

Arguments event : clear implicits.
Arguments object : clear implicits.
Arguments thread : clear implicits.
Arguments config : clear implicits.
Arguments prog : clear implicits.
Arguments enter {C R St L} _ _.
Arguments advance {C R St L} _ _ _.
Arguments result {C R St L} _ _.
Arguments mkConfig {C R St L} _ _ _.
Arguments threads {C R St L} _.
Arguments shared {C R St L} _.
Arguments events {C R St L} _.
Arguments Idle {C L} todo.
Arguments Busy {C L} l todo.
Arguments Ret {R St} r.
Arguments Abort {R St}.
Arguments Acq {R St} k.
Arguments Spin {R St} k.
Arguments Rel {R St} k.
Arguments Act {R St B} m k.

Lemma config_eta {C R St L} (x : config C R St L) : mkConfig (threads x) (shared x) (events x) = x.
Proof. by destruct x. Qed.

(** An execution, by the threads that move; one that cannot is skipped. *)
Definition turn {C R St L} (O : object C R St L) (t : nat) (x : config C R St L) : config C R St L :=
  match threads x !! t with
  | Some (Idle (c :: cs)) =>
      mkConfig (<[t := Busy (enter O c) cs]> (threads x)) (shared x) (events x ++ [Invoke t c])
  | Some (Busy l cs) =>
      match result O l, advance O l (shared x) with
      | Some r, _ => mkConfig (<[t := Idle cs]> (threads x)) (shared x) (events x ++ [Return t r])
      | None, Some (l', s') => mkConfig (<[t := Busy l' cs]> (threads x)) s' (events x)
      | None, None => x
      end
  | _ => x
  end.
Definition schedule {C R St L} (O : object C R St L) (ts : list nat) (x : config C R St L) : config C R St L :=
  fold_left (λ x t, turn O t x) ts x.

Lemma turn_steps {C R St L} (O : object C R St L) t x : rtc (step O) x (turn O t x).
Proof.
  destruct x as [T s ev]. unfold turn. cbn [threads shared events].
  destruct (T !! t) as [[[|c cs]|l cs]|] eqn:Ht; try apply rtc_refl.
  - by apply rtc_once, step_invoke.
  - destruct (result O l) as [r|] eqn:Er; [by eapply rtc_once, step_return|].
    destruct (advance O l s) as [[l' s']|] eqn:Ea; [by eapply rtc_once, step_advance|apply rtc_refl].
Qed.

Lemma schedule_steps {C R St L} (O : object C R St L) ts x : rtc (step O) x (schedule O ts x).
Proof.
  revert x. induction ts as [|t ts IH]; intros x; [apply rtc_refl|].
  etrans; [apply turn_steps|apply IH].
Qed.

(** The lock word of an object. *)
Class LockWord (St : Type) := {
  lock_word_of : St → Z;
  set_lock_word : Z → St → St;
  lock_word_set w s : lock_word_of (set_lock_word w s) = w
}.

Section programs.
Context {C R St : Type} `{LockWord St}.

Definition prog_advance (p : prog R St) (s : St) : option (prog R St * St) :=
  match p with
  | Ret _ | Abort => None
  | Acq k => if lock_word_of s =? 0 then Some (k, set_lock_word 1 s) else Some (Spin k, s)
  | Spin k => if lock_word_of s =? 0 then Some (Acq k, s) else Some (Spin k, s)
  | Rel k => Some (k, set_lock_word 0 s)
  | Act m k => match m s with Ok (b, s') => Some (k b, s') | Err _ => None end
  end.

Definition prog_result (p : prog R St) : option R := match p with Ret r => Some r | _ => None end.

(** The object whose methods are [methods]. *)
Definition locked_object (methods : C → prog R St) : object C R St (prog R St) :=
  {| enter := methods; advance := prog_advance; result := prog_result |}.

(** A method with nobody else about: [None] where it ends in [abort]. *)
Fixpoint exec (p : prog R St) : M St (option R) :=
  match p with
  | Ret r => mret (Some r)
  | Abort => mret None
  | Acq k | Spin k =>
      w ← gets lock_word_of;
      if w =? 0 then modify (set_lock_word 1);; exec k else fail ESpin
  | Rel k => modify (set_lock_word 0);; exec k
  | Act m k => b ← m; exec (k b)
  end.

(** The inside of a critical section: accesses that leave the lock word alone,
    then the release, then the end. *)
Inductive critical : prog R St → Prop :=
  | critical_act B (m : M St B) k :
      (∀ s b s', m s = Ok (b, s') → lock_word_of s' = lock_word_of s) → (∀ b, critical (k b)) →
      critical (Act m k)
  | critical_ret r : critical (Rel (Ret r))
  | critical_abort : critical (Rel Abort).
End programs.

(** ** The atomic object *)

Inductive atomic (C R : Type) : Type :=
  | Pending (c : C)
  | Done (r : R)
  | Dead.
Arguments Pending {C R} c.
Arguments Done {C R} r.
Arguments Dead {C R}.

Definition atomic_advance {C R A} (spec : C → A → option R * A) (l : atomic C R) (a : A)
    : option (atomic C R * A) :=
  match l with
  | Pending c =>
      let '(o, a') := spec c a in
      Some (match o with Some r => Done r | None => Dead end, a')
  | _ => None
  end.
Definition atomic_result {C R} (l : atomic C R) : option R := match l with Done r => Some r | _ => None end.

Definition atomic_object {C R A} (spec : C → A → option R * A) : object C R A (atomic C R) :=
  {| enter := Pending; advance := atomic_advance spec; result := atomic_result |}.

(** ** The simulation *)

Section simulation.
Context {C R St A : Type} `{LockWord St}.

(** A method takes the lock first; the rest of it is [inside]. *)
Definition method (inside : C → prog R St) (c : C) : prog R St := Acq (inside c).

(** What an implementation gives: [rep] where the lock is free, and a budget
    that calls use up. *)
Class Implements (inside : C → prog R St) (spec : C → A → option R * A) := {
  rep : St → A → Prop;
  cost : C → nat;
  budget : St → Z;
  rep_free s a : rep s a → lock_word_of s = 0;
  inside_critical c : critical (inside c);
  method_ok s a c o a' :
    rep s a → Z.of_nat (cost c) ≤ budget s → spec c a = (o, a') →
    ∃ s', exec (method inside c) s = Ok (o, s') ∧ rep s' a' ∧ budget s - Z.of_nat (cost c) ≤ budget s'
}.

Context {inside : C → prog R St} {spec : C → A → option R * A} {HI : Implements inside spec}.

Notation impl := (locked_object (method inside)).
Notation atom := (atomic_object spec).

(** A thread that is not in a critical section, and its counterpart. *)
Definition local_outside (p : prog R St) (l : atomic C R) : Prop :=
  match l with
  | Pending c => p = Acq (inside c) ∨ p = Spin (inside c)
  | Done r => p = Ret r
  | Dead => p = Abort
  end.
Definition outside (x : thread C (prog R St)) (y : thread C (atomic C R)) : Prop :=
  match x, y with
  | Idle cs, Idle cs' => cs = cs'
  | Busy p cs, Busy l cs' => cs = cs' ∧ local_outside p l
  | _, _ => False
  end.

(** All threads but [h] are outside. *)
Definition all_outside (h : option nat) (T : list (thread C (prog R St))) (T' : list (thread C (atomic C R))) : Prop :=
  length T = length T' ∧
  ∀ u x y, h ≠ Some u → T !! u = Some x → T' !! u = Some y → outside x y.

(** What the calls not yet made will cost. *)
Definition list_cost (cs : list C) : nat := sum_list (cost <$> cs).
Definition thread_cost (x : thread C (atomic C R)) : nat :=
  match x with
  | Idle cs => list_cost cs
  | Busy (Pending c) cs => cost c + list_cost cs
  | Busy _ cs => list_cost cs
  end.
Definition total (T : list (thread C (atomic C R))) : nat := sum_list (thread_cost <$> T).

Inductive sim : config C R St (prog R St) → config C R A (atomic C R) → Prop :=
  | sim_free T T' s a ev :
      all_outside None T T' → rep s a → Z.of_nat (total T') ≤ budget s →
      sim (mkConfig T s ev) (mkConfig T' a ev)
  | sim_held T T' s a ev t p c cs o s' a' :
      all_outside (Some t) T T' → T !! t = Some (Busy p cs) → T' !! t = Some (Busy (Pending c) cs) →
      lock_word_of s ≠ 0 → critical p → exec p s = Ok (o, s') → spec c a = (o, a') → rep s' a' →
      Z.of_nat (total T') - Z.of_nat (cost c) ≤ budget s' →
      sim (mkConfig T s ev) (mkConfig T' a ev).

Lemma total_cons x T : total (x :: T) = (thread_cost x + total T)%nat.
Proof. done. Qed.

Lemma total_insert T t x y :
  T !! t = Some x → (total (<[t := y]> T) + thread_cost x = total T + thread_cost y)%nat.
Proof.
  revert t. induction T as [|z T IH]; intros [|t] Ht; [done|done| |].
  - injection Ht as ->. change (<[0%nat := y]> (x :: T)) with (y :: T). rewrite !total_cons. lia.
  - change (<[S t := y]> (z :: T)) with (z :: <[t := y]> T). rewrite !total_cons. specialize (IH t Ht). lia.
Qed.

Lemma outside_insert h T T' t x y :
  all_outside h T T' → outside x y → all_outside h (<[t := x]> T) (<[t := y]> T').
Proof.
  intros [El Ho] Hxy. split; [by rewrite !length_insert|]. intros u x' y' Hu Hx Hy.
  apply list_lookup_insert_Some in Hx as [(<- & <- & Hlt)|[Hne Hx]].
  - rewrite list_lookup_insert_eq in Hy by lia. by injection Hy as <-.
  - rewrite list_lookup_insert_ne in Hy by done. by eapply Ho.
Qed.

Lemma outside_at h T T' t x :
  all_outside h T T' → h ≠ Some t → T !! t = Some x → ∃ y, T' !! t = Some y ∧ outside x y.
Proof.
  intros [El Ho] Hu Hx. destruct (lookup_lt_is_Some_2 T' t) as [y Hy].
  { rewrite <- El. by eapply lookup_lt_Some. }
  exists y. split; [done|]. by eapply Ho.
Qed.

(** One thread enters or leaves the critical section. *)
Lemma outside_enter T T' t x : all_outside None T T' → all_outside (Some t) (<[t := x]> T) T'.
Proof.
  intros [El Ho]. split; [by rewrite length_insert|]. intros u x' y' Hu Hx.
  rewrite list_lookup_insert_ne in Hx by congruence. by apply Ho.
Qed.

Lemma outside_inside T T' t x : all_outside (Some t) T T' → all_outside (Some t) (<[t := x]> T) T'.
Proof.
  intros [El Ho]. split; [by rewrite length_insert|]. intros u x' y' Hu Hx.
  rewrite list_lookup_insert_ne in Hx by congruence. by apply Ho.
Qed.

Lemma outside_leave T T' t x y :
  all_outside (Some t) T T' → outside x y → all_outside None (<[t := x]> T) (<[t := y]> T').
Proof.
  intros [El Ho] Hxy. split; [by rewrite !length_insert|]. intros u x' y' _ Hx Hy.
  apply list_lookup_insert_Some in Hx as [(<- & <- & Hlt)|[Hne Hx]].
  - rewrite list_lookup_insert_eq in Hy by lia. by injection Hy as <-.
  - rewrite list_lookup_insert_ne in Hy by done. apply (Ho u); [congruence|done|done].
Qed.

Lemma cost_held T t c cs : T !! t = Some (Busy (Pending c) cs) → (cost c ≤ total T)%nat.
Proof.
  intros Ht. pose proof (total_insert T t _ (Idle cs) Ht) as E. simpl in E. lia.
Qed.

(** The lock is free: a step of a thread. *)
Lemma sim_step_free T T' s a ev t p p' cs s' :
  all_outside None T T' → rep s a → Z.of_nat (total T') ≤ budget s →
  T !! t = Some (Busy p cs) → prog_advance p s = Some (p', s') →
  sim (mkConfig (<[t := Busy p' cs]> T) s' ev) (mkConfig T' a ev).
Proof.
  intros Ho Hr Hb Ht Hs. destruct (outside_at None T T' t _ Ho ltac:(done) Ht) as ([cs'|l cs'] & Ht' & Hxy); [done|].
  destruct Hxy as [<- Hl]. pose proof (rep_free s a Hr) as Hw.
  destruct l as [c|r|]; simpl in Hl; [|by subst p|by subst p]. destruct Hl as [-> | ->].
  - simpl in Hs. rewrite Hw in Hs. injection Hs as <- <-. pose proof (cost_held T' t c cs Ht').
    destruct (spec c a) as [o a'] eqn:Es.
    destruct (method_ok s a c o a' Hr) as (s' & Hrun & Hr' & Hb'); [lia|done|].
    unfold method in Hrun. cbn [exec] in Hrun. rewrite bind_gets, Hw in Hrun. cbn [Z.eqb] in Hrun.
    rewrite bind_modify in Hrun.
    apply (sim_held _ T' _ a ev t (inside c) c cs o s' a'); try done.
    + by apply outside_enter.
    + apply list_lookup_insert_eq. by eapply lookup_lt_Some.
    + by rewrite lock_word_set.
    + apply inside_critical.
    + lia.
  - simpl in Hs. rewrite Hw in Hs. injection Hs as <- <-. apply sim_free; [|done|done].
    rewrite <- (list_insert_id T' t _ Ht'). apply outside_insert; [done|]. split; [done|by left].
Qed.

(** Another thread holds it. *)
Lemma spins T T' t u p p' cs s s' :
  all_outside (Some u) T T' → u ≠ t → T !! t = Some (Busy p cs) → lock_word_of s ≠ 0 →
  prog_advance p s = Some (p', s') → s' = s ∧ all_outside (Some u) (<[t := Busy p' cs]> T) T'.
Proof.
  intros Ho Hne Ht Hw Hs. destruct (outside_at (Some u) T T' t _ Ho ltac:(congruence) Ht) as ([cs'|l cs'] & Ht' & Hxy); [done|].
  destruct Hxy as [<- Hl]. destruct l as [c|r|]; simpl in Hl; [|by subst p|by subst p].
  apply Z.eqb_neq in Hw.
  destruct Hl as [-> | ->]; simpl in Hs; rewrite Hw in Hs; injection Hs as <- <-; (split; [done|]);
    rewrite <- (list_insert_id T' t _ Ht'); apply outside_insert; try done; (split; [done|by right]).
Qed.

(** The holder's own step: an access, or the release, where the call happens. *)
Lemma sim_step_held T T' s a ev t p p' c cs o s1 s' a' :
  all_outside (Some t) T T' → T !! t = Some (Busy p cs) → T' !! t = Some (Busy (Pending c) cs) →
  lock_word_of s ≠ 0 → critical p → exec p s = Ok (o, s') → spec c a = (o, a') → rep s' a' →
  Z.of_nat (total T') - Z.of_nat (cost c) ≤ budget s' → prog_advance p s = Some (p', s1) →
  ∃ y, rtc (step atom) (mkConfig T' a ev) y ∧ sim (mkConfig (<[t := Busy p' cs]> T) s1 ev) y.
Proof.
  intros Ho Ht Ht' Hw Hc Hrun Es Hr Hb Hs.
  assert (∀ q l, p' = q → (Rel q = p) → exec q (set_lock_word 0 s) = Ok (o, set_lock_word 0 s) → s1 = set_lock_word 0 s →
    local_outside q l → l = match o with Some r => Done r | None => Dead end →
    ∃ y, rtc (step atom) (mkConfig T' a ev) y ∧ sim (mkConfig (<[t := Busy p' cs]> T) s1 ev) y) as Hrel.
  { intros q l -> <- Hq -> Hl ->. cbn [exec] in Hrun. rewrite bind_modify, Hq in Hrun. injection Hrun as ->.
    set (l := match o with Some r => Done r | None => Dead end) in *.
    exists (mkConfig (<[t := Busy l cs]> T') a' ev). split.
    - apply rtc_once. apply (step_advance atom t (Pending c)); [done|]. cbn. by rewrite Es.
    - apply sim_free; [by apply (outside_leave T T')|done|].
      pose proof (total_insert T' t _ (Busy l cs) Ht') as E.
      assert (thread_cost (Busy l cs) = list_cost cs) as El by (unfold l; by destruct o).
      rewrite El in E. cbn [thread_cost] in E. lia. }
  destruct Hc as [B m k Hm Hk|r|].
  - simpl in Hs, Hrun. destruct (m s) as [[b s2]|] eqn:Em; [|done]. injection Hs as <- <-.
    rewrite (bind_Ok _ _ _ _ _ Em) in Hrun. exists (mkConfig T' a ev). split; [apply rtc_refl|].
    apply (sim_held _ T' _ a ev t (k b) c cs o s' a'); try done.
    + by apply outside_inside.
    + apply list_lookup_insert_eq. by eapply lookup_lt_Some.
    + by rewrite (Hm _ _ _ Em).
  - cbn [exec] in Hrun. rewrite bind_modify in Hrun. injection Hrun as <- <-. injection Hs as <- <-.
    by apply (Hrel (Ret r) (Done r)).
  - cbn [exec] in Hrun. rewrite bind_modify in Hrun. injection Hrun as <- <-. injection Hs as <- <-.
    by apply (Hrel Abort Dead).
Qed.

(** A thread in no critical section, and what it does where the lock does not matter. *)
Definition uncritical (x : thread C (prog R St)) : Prop :=
  match x with Busy p _ => ¬ critical p | Idle _ => True end.

Lemma sim_at T T' s a ev t x :
  sim (mkConfig T s ev) (mkConfig T' a ev) → T !! t = Some x → uncritical x →
  ∃ y, T' !! t = Some y ∧ outside x y.
Proof.
  intros Hsim Ht Hx. inversion Hsim; subst.
  - by apply (outside_at None T T').
  - eapply outside_at; [done| |done]. intros [= ->]. simplify_eq.
Qed.

Lemma sim_outer T T' s a ev ev' t x y x2 y2 :
  sim (mkConfig T s ev) (mkConfig T' a ev) → T !! t = Some x → uncritical x → T' !! t = Some y →
  outside x2 y2 → thread_cost y2 = thread_cost y →
  sim (mkConfig (<[t := x2]> T) s ev') (mkConfig (<[t := y2]> T') a ev').
Proof.
  intros Hsim Ht Hx Ht' Hxy Hcost. pose proof (total_insert T' t y y2 Ht') as E.
  inversion Hsim as [|T1 T2 s1 a1 e1 u p c cs o s' a' Ho Hu Hu' Hw Hc Hrun Es Hr Hb]; subst.
  - apply sim_free; [by apply outside_insert|done|lia].
  - assert (t ≠ u) as Hne by (intros ->; simplify_eq; done).
    apply (sim_held _ _ s a ev' u p c cs o s' a'); try done.
    + by apply outside_insert.
    + by rewrite list_lookup_insert_ne.
    + by rewrite list_lookup_insert_ne.
    + lia.
Qed.

Lemma ret_uncritical r cs : uncritical (Busy (Ret r) cs).
Proof. intros Hc. inversion Hc. Qed.

(** Every step of the implementation is matched by the atomic object, which
    shows the same calls and returns. *)
Lemma sim_step x x' y : sim x y → step impl x x' → ∃ y', rtc (step atom) y y' ∧ sim x' y'.
Proof.
  intros Hsim Hstep. destruct Hstep as [t c cs T s ev Ht|t p p' cs T s s1 ev Ht Hs|t p r cs T s ev Ht Hres].
  - assert (∃ T' a, y = mkConfig T' a ev) as (T' & a & ->) by (inversion Hsim; subst; eauto).
    destruct (sim_at T T' s a ev t _ Hsim Ht I) as ([cs'|l cs'] & Ht' & Hxy); [|done]. simpl in Hxy. subst cs'.
    exists (mkConfig (<[t := Busy (Pending c) cs]> T') a (ev ++ [Invoke t c])). split.
    + by apply rtc_once, (step_invoke atom).
    + eapply (sim_outer T T'); try done. split; [done|by left].
  - inversion Hsim as [T1 T' s0 a e1 Ho Hr Hb|T1 T' s0 a e1 u q c cs' o s' a' Ho Hu Hu' Hw Hc Hrun Es Hr Hb]; subst.
    + exists (mkConfig T' a ev). split; [apply rtc_refl|]. by apply (sim_step_free T T' s a ev t p p').
    + destruct (decide (u = t)) as [->|Hne].
      * simplify_eq. by apply (sim_step_held T T' s a ev t p p' c cs o s1 s' a').
      * destruct (spins T T' t u p p' cs s s1 Ho Hne Ht Hw Hs) as [-> Ho'].
        exists (mkConfig T' a ev). split; [apply rtc_refl|].
        apply (sim_held _ T' s a ev u q c cs' o s' a'); try done. by rewrite list_lookup_insert_ne.
  - destruct p as [r'| | | | |]; simpl in Hres; try done. injection Hres as ->.
    assert (∃ T' a, y = mkConfig T' a ev) as (T' & a & ->) by (inversion Hsim; subst; eauto).
    destruct (sim_at T T' s a ev t _ Hsim Ht (ret_uncritical r cs)) as ([cs'|l cs'] & Ht' & Hxy); [done|].
    destruct Hxy as [<- Hl]. destruct l as [c|r2|]; simpl in Hl; [by destruct Hl|simplify_eq|done].
    exists (mkConfig (<[t := Idle cs]> T') a (ev ++ [Return t r2])). split.
    + by apply rtc_once, (step_return atom t (Done r2)).
    + by eapply (sim_outer T T'); try done; apply ret_uncritical.
Qed.

Lemma sim_steps x x' y : sim x y → rtc (step impl) x x' → ∃ y', rtc (step atom) y y' ∧ sim x' y'.
Proof.
  intros Hsim Hsteps. revert y Hsim. induction Hsteps as [x|x x1 x' H1 _ IH]; intros y Hsim.
  { by exists y. }
  destruct (sim_step x x1 y Hsim H1) as (y1 & Hy1 & Hsim1). destruct (IH y1 Hsim1) as (y' & Hy' & Hsim').
  exists y'. split; [by etrans|done].
Qed.

Lemma sim_start scripts s a :
  rep s a → Z.of_nat (sum_list (list_cost <$> scripts)) ≤ budget s → sim (start scripts s) (start scripts a).
Proof.
  intros Hr Hb. apply sim_free; [|done|].
  - split; [by rewrite !length_fmap|]. intros u x y _. rewrite !list_lookup_fmap.
    destruct (scripts !! u); intros [= <-] [= <-]. done.
  - unfold total. by rewrite <- list_fmap_compose.
Qed.

(** What the relation says of a configuration: the abstract state where the
    lock is free, and no thread about to do something undefined. *)
Lemma sim_safe T s ev y :
  sim (mkConfig T s ev) y →
  events y = ev ∧ (lock_word_of s = 0 → rep s (shared y)) ∧
  ∀ t p cs, T !! t = Some (Busy p cs) → is_Some (prog_advance p s) ∨ (∃ r, p = Ret r) ∨ p = Abort.
Proof.
  intros Hsim. inversion Hsim as [T1 T' s0 a e1 Ho Hr Hb|T1 T' s0 a e1 u q c cs' o s' a' Ho Hu Hu' Hw Hc Hrun Es Hr Hb]; subst.
  all: split; [done|]; split; [done|]; intros t p cs Ht.
  all: assert (∀ l, local_outside p l → is_Some (prog_advance p s) ∨ (∃ r, p = Ret r) ∨ p = Abort) as Hout
    by (intros [c0|r|]; simpl; [intros [-> | ->]; left; cbn; case_match; by eexists|by right; left; eexists|by right; right]).
  - destruct (outside_at None T T' t _ Ho ltac:(done) Ht) as ([|l ?] & _ & Hxy); [done|]. by apply (Hout l), Hxy.
  - destruct (decide (u = t)) as [->|Hne].
    + simplify_eq. left. destruct Hc as [B m k _ _| |]; [|by eexists..].
      cbn [exec] in Hrun. cbn. destruct (m s) as [[b s2]|] eqn:Em; [by eexists|]. by rewrite (bind_Err _ _ _ _ Em) in Hrun.
    + destruct (outside_at (Some u) T T' t _ Ho ltac:(congruence) Ht) as ([|l ?] & _ & Hxy); [done|]. by apply (Hout l), Hxy.
Qed.

(** The implementation refines the atomic object. *)
Lemma locked_refines scripts s a T s' ev :
  rep s a → Z.of_nat (sum_list (list_cost <$> scripts)) ≤ budget s →
  rtc (step impl) (start scripts s) (mkConfig T s' ev) →
  ∃ T' a', rtc (step atom) (start scripts a) (mkConfig T' a' ev) ∧ (lock_word_of s' = 0 → rep s' a') ∧
    ∀ t p cs, T !! t = Some (Busy p cs) → is_Some (prog_advance p s') ∨ (∃ r, p = Ret r) ∨ p = Abort.
Proof.
  intros Hr Hb Hsteps. destruct (sim_steps _ _ _ (sim_start scripts s a Hr Hb) Hsteps) as ([T' a' ev'] & Hsteps' & Hsim).
  destruct (sim_safe T s' ev _ Hsim) as (E & Hrep & Hsafe). simpl in E. subst ev'. by exists T', a'.
Qed.
End simulation.
