(* ===== verification/Queue.v ===== *)
(** * The request queue

    Models [common/Queue.cpp] and [common/Queue.h]: the ring of 1024 request
    pointers between the enclave and the untrusted worker, and its refinement
    of a first-in first-out list. *)

From S2P Require Import Prelude SyncUtils Ring.

Definition queue_size : Z := 1024.

(** [front] and [rear] are [int]; a request is its address, NULL is 0. *)
Record Queue := mkQueue { front : Z; rear : Z; q : gmap Z Z; _lock : Z }.

Definition on_lock {A} (m : M Z A) : M Queue A :=
  zoom _lock (λ w s, mkQueue (front s) (rear s) (q s) w) m.

(** [Queue::Queue]; the constructor leaves [_lock] as the memory was. *)
Definition Queue_ctor (garbage : Z) : Queue :=
  mkQueue 0 0 (array queue_size 0) garbage.

(** [q[i]]: out of the array is undefined behaviour. *)
Definition q_read (i : Z) : M Queue Z := c ← gets (λ s, q s !! i); defined c.
Definition q_write (i v : Z) : M Queue unit :=
  _ ← q_read i;
  modify (λ s, mkQueue (front s) (rear s) (<[i := v]> (q s)) (_lock s)).

Definition enqueue (elem : Z) : M Queue Z :=
  on_lock spin_lock;;
  n ← gets (λ s, i32 (rear s - front s));
  if n =? queue_size then
    on_lock spin_unlock;;
    fail EAbort
  else
    r ← gets rear;
    q_write (Z.rem r queue_size) elem;;
    modify (λ s, mkQueue (front s) (i32 (rear s + 1)) (q s) (_lock s));;
    on_lock spin_unlock;;
    mret 0.

Definition dequeue : M Queue Z :=
  on_lock spin_lock;;
  s ← gets id;
  if front s =? rear s then
    on_lock spin_unlock;;
    mret 0
  else
    result ← q_read (Z.rem (front s) queue_size);
    modify (λ s, mkQueue (i32 (front s + 1)) (rear s) (q s) (_lock s));;
    on_lock spin_unlock;;
    mret result.

(** ** The representation *)

(** The queue holds the list [l] of requests. *)
Record holds (s : Queue) (l : list Z) : Prop := {
  holds_free : _lock s = 0;
  holds_count : rear s = front s + Z.of_nat (length l);
  holds_range : 0 ≤ front s ∧ rear s < 2 ^ 31 ∧ Z.of_nat (length l) ≤ queue_size;
  holds_array : ∀ i, 0 ≤ i < queue_size → is_Some (q s !! i);
  holds_slots : slots (q s) queue_size (front s) l
}.

Lemma rem_mod_size i : 0 ≤ i → Z.rem i queue_size = i mod queue_size.
Proof. intros. by rewrite Z.rem_mod_nonneg. Qed.

Lemma size_mod i : 0 ≤ i mod queue_size < queue_size.
Proof. by apply Z.mod_pos_bound. Qed.

Lemma on_lock_run {B} (k : unit → M Queue B) s :
  _lock s = 0 →
  (on_lock spin_lock ≫= k) s = k tt (mkQueue (front s) (rear s) (q s) 1).
Proof.
  intros Hl. unfold on_lock. erewrite (bind_zoom _lock _ _ _ _ tt 1); [done|].
  unfold spin_lock. by rewrite Hl.
Qed.

Lemma on_unlock_run {B} (k : unit → M Queue B) s :
  (on_lock spin_unlock ≫= k) s = k tt (mkQueue (front s) (rear s) (q s) 0).
Proof. done. Qed.

Lemma q_write_run {B} (k : unit → M Queue B) s i v :
  is_Some (q s !! i) →
  (q_write i v ≫= k) s = k tt (mkQueue (front s) (rear s) (<[i := v]> (q s)) (_lock s)).
Proof. intros [c Hc]. unfold q_write, q_read. mrun. by rewrite Hc. Qed.

Lemma q_read_run {B} (k : Z → M Queue B) s i v :
  q s !! i = Some v → (q_read i ≫= k) s = k v s.
Proof. intros Hc. unfold q_read. mrun. by rewrite Hc. Qed.

Lemma enqueue_ok s l x :
  holds s l → Z.of_nat (length l) < queue_size → rear s < 2 ^ 31 - 1 →
  ∃ s', enqueue x s = Ok (0, s') ∧ holds s' (l ++ [x]) ∧
    rear s' = rear s + 1.
Proof.
  intros [Hf Hc Hr Ha Hs] Hroom Hmax. unfold queue_size in Hroom.
  eexists. split.
  - unfold enqueue. rewrite on_lock_run by done. rewrite bind_gets. simpl.
    rewrite i32_id by lia. rewrite (proj2 (Z.eqb_neq _ _)) by (unfold queue_size; lia).
    rewrite bind_gets. rewrite q_write_run; [|simpl; rewrite rem_mod_size by lia; apply Ha, size_mod].
    simpl. rewrite bind_modify, on_unlock_run. simpl. reflexivity.
  - rewrite rem_mod_size, (i32_id (rear s + 1)) by lia.
    split; [|done]. constructor; simpl.
    + done.
    + rewrite length_app. simpl. lia.
    + rewrite length_app. unfold queue_size. simpl. lia.
    + intros i Hi. rewrite lookup_insert. case_decide; [done|by apply Ha].
    + rewrite Hc. by apply slots_push.
Qed.

Lemma dequeue_ok s x l :
  holds s (x :: l) →
  ∃ s', dequeue s = Ok (x, s') ∧ holds s' l ∧ rear s' = rear s.
Proof.
  intros [Hf Hc Hr Ha Hs]. simpl in Hc, Hr. apply slots_pop in Hs as [Hx Hs].
  eexists. split.
  - unfold dequeue. rewrite on_lock_run by done. rewrite bind_gets. simpl.
    rewrite (proj2 (Z.eqb_neq _ _)) by lia.
    rewrite (q_read_run _ _ _ x) by (simpl; by rewrite rem_mod_size by lia).
    rewrite bind_modify, on_unlock_run. simpl. reflexivity.
  - rewrite i32_id by lia. split; [|done]. constructor; simpl; [done|lia|lia|done|done].
Qed.

(** The queue keeps the interface. *)
#[export] Program Instance Queue_Fifo : Fifo Queue Z := {|
  fifo_enqueue := enqueue;
  fifo_dequeue := dequeue;
  fifo_cap := λ _, queue_size;
  fifo_left := λ s, 2 ^ 31 - 1 - rear s;
  fifo_holds := holds
|}.
Next Obligation.
  simpl. intros s l x Hs Hl Hn. destruct (enqueue_ok s l x Hs Hl) as (s' & H1 & H2 & E); [lia|].
  exists s'. rewrite E. split_and!; (done || lia).
Qed.
Next Obligation.
  simpl. intros s x l Hs. destruct (dequeue_ok s x l Hs) as (s' & H1 & H2 & E). exists s'. by rewrite E.
Qed.

Lemma Queue_ctor_holds : holds (Queue_ctor 0) [].
Proof.
  constructor; simpl; [done|done|unfold queue_size; lia| |apply slots_nil].
  intros i Hi. rewrite array_lookup by done. done.
Qed.

(** ** Theorems *)

(** The queue refines a bounded list: any sequence of calls that the list
    of at most 1024 requests admits, with fewer than 2^31 insertions in all,
    runs on a fresh queue whose lock word happened to be 0, gives the same
    requests, in the order they were put, and leaves the same ones queued. *)
Theorem Queue_refines_list cs out l :
  list_calls queue_size cs [] = Some (out, l) → puts cs < 2 ^ 31 →
  ∃ s, fifo_calls cs (Queue_ctor 0) = Ok (out, s) ∧ holds s l ∧
    out ++ l = omap (λ c, match c with Put x => Some x | Take => None end) cs.
Proof.
  intros Hl Hp.
  destruct (fifo_calls_ok (H := Queue_Fifo) cs (Queue_ctor 0) [] out l Queue_ctor_holds Hl) as (s & Hrun & Hs).
  { simpl. lia. }
  exists s. split_and!; [done|done|]. by rewrite (list_calls_order _ _ _ _ _ Hl).
Qed.

Lemma Queue_refines_list_witness :
  ∃ s, fifo_calls [Put 5; Put 6; Take; Put 7; Take] (Queue_ctor 0) = Ok ([5; 6], s) ∧
    holds s [7].
Proof.
  destruct (Queue_refines_list [Put 5; Put 6; Take; Put 7; Take] [5; 6] [7])
    as (s & H1 & H2 & _); [reflexivity|reflexivity|]. exists s. split; assumption.
Defined.

Lemma dequeue_empty s : holds s [] → dequeue s = Ok (0, s).
Proof.
  intros [Hf Hc Hr Ha Hs]. simpl in Hc. unfold dequeue. rewrite on_lock_run by done. rewrite bind_gets. simpl.
  rewrite (proj2 (Z.eqb_eq _ _)) by lia. rewrite on_unlock_run. simpl. rewrite <- Hf. by destruct s.
Qed.

(** The edges of the queue: a full queue aborts the caller that puts, an
    empty one gives NULL and stays as it is, and on a queue whose lock word was
    not 0 when it was constructed every call hangs. *)
Theorem Queue_edges s l x :
  holds s l →
  (Z.of_nat (length l) = queue_size → enqueue x s = Err EAbort) ∧
  (l = [] → dequeue s = Ok (0, s)) ∧
  (∀ garbage, garbage ≠ 0 → enqueue x (Queue_ctor garbage) = Err ESpin ∧
    dequeue (Queue_ctor garbage) = Err ESpin).
Proof.
  intros Hs. pose proof (dequeue_empty s) as Hempty. split_and!; [|by intros ->; apply Hempty|].
  - destruct Hs as [Hf Hc Hr Ha Hs]. intros Hfull. unfold enqueue. rewrite on_lock_run by done. rewrite bind_gets. simpl.
    rewrite i32_id by lia. by rewrite (proj2 (Z.eqb_eq _ _)) by lia.
  - intros g Hg. unfold enqueue, dequeue, on_lock.
    split; apply bind_Err; unfold zoom, spin_lock; mrun; simpl;
      by rewrite (proj2 (Z.eqb_neq g 0)) by done.
Qed.

Lemma Queue_edges_witness : dequeue (Queue_ctor 0) = Ok (0, Queue_ctor 0).
Proof. apply (Queue_edges (Queue_ctor 0) [] 0 Queue_ctor_holds). reflexivity. Defined.

(** The counters are [int] and never reset: after 2^31 - 1 insertions
    into an empty queue, the next two overflow [rear] and then index the array
    with a negative remainder, out of its bounds. *)
Theorem Queue_overflow s x :
  _lock s = 0 → front s = 2 ^ 31 - 1 → rear s = 2 ^ 31 - 1 →
  (∀ i, 0 ≤ i < queue_size → is_Some (q s !! i)) → (∀ i, i < 0 → q s !! i = None) →
  ∃ s1 s2, enqueue x s = Ok (0, s1) ∧ rear s1 = - 2 ^ 31 ∧
    enqueue x s1 = Ok (0, s2) ∧ enqueue x s2 = Err EUndef.
Proof.
  intros Hl Hf Hr Ha Hneg. destruct s as [f r a lk]. simpl in *. subst.
  assert (is_Some (a !! 1023)) as H1 by (by apply Ha).
  assert (is_Some (a !! 0)) as H2 by (by apply Ha).
  do 2 eexists. split_and!.
  - unfold enqueue. rewrite on_lock_run by done. rewrite bind_gets. cbn [front rear].
    rewrite (proj2 (Z.eqb_neq _ _)) by (vm_compute; congruence).
    rewrite bind_gets, q_write_run by (exact H1).
    rewrite bind_modify, on_unlock_run. reflexivity.
  - reflexivity.
  - unfold enqueue. rewrite on_lock_run by done. rewrite bind_gets. cbn [front rear q].
    rewrite (proj2 (Z.eqb_neq _ _)) by (vm_compute; congruence).
    rewrite bind_gets, q_write_run.
    2: { cbn [q rear]. change (Z.rem (i32 (2 ^ 31 - 1 + 1)) queue_size) with 0.
      rewrite lookup_insert_ne by done. exact H2. }
    rewrite bind_modify, on_unlock_run. reflexivity.
  - unfold enqueue. rewrite on_lock_run by done. rewrite bind_gets. cbn [front rear q].
    rewrite (proj2 (Z.eqb_neq _ _)) by (vm_compute; congruence).
    rewrite bind_gets. apply bind_Err. unfold q_write. apply bind_Err.
    unfold q_read. rewrite bind_gets. cbn [q rear].
    rewrite lookup_insert_ne by (vm_compute; congruence).
    rewrite lookup_insert_ne by (vm_compute; congruence).
    by rewrite Hneg by (vm_compute; congruence).
Qed.

Lemma Queue_overflow_witness :
  ∃ s1 s2, enqueue 8 (mkQueue (2 ^ 31 - 1) (2 ^ 31 - 1) (array queue_size 0) 0) = Ok (0, s1) ∧
    rear s1 = - 2 ^ 31 ∧ enqueue 8 s1 = Ok (0, s2) ∧ enqueue 8 s2 = Err EUndef.
Proof.
  apply Queue_overflow; [reflexivity..| |]; simpl.
  - intros i Hi. rewrite array_lookup by exact Hi. exists 0. reflexivity.
  - intros i Hi. destruct (array queue_size 0 !! i) eqn:E; [|reflexivity].
    exfalso. apply elem_of_list_to_map_2, list_elem_of_fmap in E as (j & [= -> _] & Hj).
    apply elem_of_seqZ in Hj. lia.
Defined.
