(* ===== verification/QueueThreads.v ===== *)
(** * The request queue among threads

    [Queue::enqueue] and [Queue::dequeue] as their accesses to memory, which any
    number of threads interleave: the enclave's callers and the untrusted
    worker, or the connections and the workers of the face verification server.
    No thread can tell the queue from one whose calls happen at once. *)

From S2P Require Import Prelude SyncUtils Ring Linear Queue.

#[export] Program Instance Queue_lock : LockWord Queue := {|
  lock_word_of := _lock;
  set_lock_word w s := mkQueue (front s) (rear s) (q s) w
|}.
Next Obligation. done. Qed.

(** ** The methods, an access at a time *)

Definition set_rear (v : Z) (s : Queue) : Queue := mkQueue (front s) v (q s) (_lock s).
Definition set_front (v : Z) (s : Queue) : Queue := mkQueue v (rear s) (q s) (_lock s).

Definition enqueue_locked (elem : Z) : prog Z Queue :=
  Act (gets rear) (λ r, Act (gets front) (λ f,
    if i32 (r - f) =? queue_size then Rel Abort
    else
      Act (gets rear) (λ r, Act (q_write (Z.rem r queue_size) elem) (λ _,
        Act (gets rear) (λ r, Act (modify (set_rear (i32 (r + 1)))) (λ _, Rel (Ret 0))))))).

Definition dequeue_locked : prog Z Queue :=
  Act (gets front) (λ f, Act (gets rear) (λ r,
    if f =? r then Rel (Ret 0)
    else
      Act (gets front) (λ f, Act (q_read (Z.rem f queue_size)) (λ result,
        Act (gets front) (λ f, Act (modify (set_front (i32 (f + 1)))) (λ _, Rel (Ret result))))))).

Definition queue_inside (c : fifo_call Z) : prog Z Queue :=
  match c with Put x => enqueue_locked x | Take => dequeue_locked end.

(** The queue as an object threads share. *)
Definition queue_object : object (fifo_call Z) Z Queue (prog Z Queue) := locked_object (method queue_inside).

(** With nobody else about they are the routines of the queue. *)
Definition ends {St R} (o : option R) : M St R := match o with Some r => mret r | None => fail EAbort end.

Ltac run_solo :=
  cbn [exec method queue_inside enqueue_locked dequeue_locked];
  unfold on_lock, zoom, spin_lock, spin_unlock, q_write, q_read, defined, ends;
  unfold mbind, M_bind, gets, modify, fail, mret, M_ret;
  cbn [lock_word_of set_lock_word Queue_lock front rear q _lock id set_rear set_front].

Lemma enqueue_exec x s : enqueue x s = (exec (method queue_inside (Put x)) ≫= ends) s.
Proof.
  unfold enqueue, method, queue_inside, enqueue_locked. run_solo. destruct (_lock s =? 0); [|done]. run_solo.
  destruct (i32 (rear s - front s) =? queue_size); [done|]. run_solo.
  by destruct (q s !! _).
Qed.

Lemma dequeue_exec s : dequeue s = (exec (method queue_inside Take) ≫= ends) s.
Proof.
  unfold dequeue, method, queue_inside, dequeue_locked. run_solo. destruct (_lock s =? 0); [|done]. run_solo.
  destruct (front s =? rear s); [done|]. run_solo. by destruct (q s !! _).
Qed.

Lemma ends_Ok {St R} (m : M St (option R)) s r s' : (m ≫= ends) s = Ok (r, s') → m s = Ok (Some r, s').
Proof.
  unfold mbind, M_bind. destruct (m s) as [[[r'|] s1]|]; [|done|done]. intros [= -> ->]. done.
Qed.

(** ** The queue, all at once *)

(** What the queue promises: a bounded list; [None] is the [abort] of a caller
    that finds it full. *)
Definition queue_spec (c : fifo_call Z) (l : list Z) : option Z * list Z :=
  match c, l with
  | Put x, _ => if Z.of_nat (length l) <? queue_size then (Some 0, l ++ [x]) else (None, l)
  | Take, [] => (Some 0, [])
  | Take, x :: l' => (Some x, l')
  end.

Definition atomic_queue : object (fifo_call Z) Z (list Z) (atomic (fifo_call Z) Z) := atomic_object queue_spec.

Lemma enqueue_full s l x :
  holds s l → Z.of_nat (length l) = queue_size → exec (method queue_inside (Put x)) s = Ok (None, s).
Proof.
  intros [Hf Hc Hr _ _] Hl. unfold method, queue_inside, enqueue_locked. run_solo. rewrite Hf, Z.eqb_refl. run_solo.
  rewrite i32_id by (unfold queue_size in *; lia). rewrite (proj2 (Z.eqb_eq _ _)) by lia. run_solo.
  f_equal. f_equal. destruct s. simpl in *. by subst.
Qed.

Lemma queue_critical c : critical (queue_inside c).
Proof.
  assert (∀ A (f : Queue → A) s x s', gets f s = Ok (x, s') → lock_word_of s' = lock_word_of s) as Hg.
  { by intros A f s b0 s' [= _ <-]. }
  assert (∀ A (o : option A) (s : Queue) x s', defined o s = Ok (x, s') → s' = s) as Hd.
  { intros A [a|] s b0 s' E; [by injection E as _ <-|done]. }
  destruct c as [x|]; simpl.
  - unfold enqueue_locked. do 2 (apply critical_act; [apply Hg|intros ?]). destruct (_ =? _); [apply critical_abort|].
    apply critical_act; [apply Hg|intros ?]. apply critical_act; [|intros _].
    { intros s ? s'. run_solo. destruct (q s !! _); [|done]. by intros [= _ <-]. }
    apply critical_act; [apply Hg|intros ?]. apply critical_act; [by intros s ? s' [= _ <-]|intros _]. apply critical_ret.
  - unfold dequeue_locked. do 2 (apply critical_act; [apply Hg|intros ?]). destruct (_ =? _); [apply critical_ret|].
    apply critical_act; [apply Hg|intros ?]. apply critical_act; [|intros ?].
    { intros s ? s'. unfold q_read. rewrite bind_gets. intros E. by apply Hd in E as ->. }
    apply critical_act; [apply Hg|intros ?]. apply critical_act; [by intros s ? s' [= _ <-]|intros _]. apply critical_ret.
Qed.

#[export] Program Instance Queue_implements : Implements queue_inside queue_spec := {|
  rep := holds;
  cost c := match c with Put _ => 1%nat | Take => 0%nat end;
  budget s := 2 ^ 31 - 1 - rear s
|}.
Next Obligation. by intros s l []. Qed.
Next Obligation. apply queue_critical. Qed.
Next Obligation.
  intros s l [x|] o l' Hs Hb Hspec; simpl in *.
  - destruct (Z.ltb_spec (Z.of_nat (length l)) queue_size) as [Hlt|Hge]; injection Hspec as <- <-.
    + destruct (enqueue_ok s l x Hs Hlt) as (s' & Hrun & Hs' & E); [lia|]. exists s'.
      rewrite enqueue_exec in Hrun. apply ends_Ok in Hrun. split; [exact Hrun|]. split; [exact Hs'|]. rewrite E. lia.
    + exists s. split; [apply (enqueue_full s l x Hs)|split; [done|lia]].
      destruct Hs as [_ _ Hr _ _]. lia.
  - destruct l as [|x l]; injection Hspec as <- <-.
    + exists s. split; [|split; [done|lia]]. apply ends_Ok. rewrite <- dequeue_exec. by apply dequeue_empty.
    + destruct (dequeue_ok s x l Hs) as (s' & Hrun & Hs' & E). exists s'. rewrite dequeue_exec in Hrun.
      apply ends_Ok in Hrun. split; [exact Hrun|]. split; [exact Hs'|]. rewrite E. lia.
Qed.

(** ** Theorem *)

(** The calls to [enqueue] the threads will make. *)
Definition all_puts (scripts : list (list (fifo_call Z))) : Z :=
  Z.of_nat (sum_list (list_cost (inside := queue_inside) (spec := queue_spec) <$> scripts)).

(** C15. The queue among threads, however many, whatever they call and however
    their accesses to memory interleave, as long as they put fewer than 2^31
    requests in all: the calls and returns that happen, in their order, are
    those of a queue whose calls happen at once, between the call and its
    return, on a list of at most 1024 requests, first in first out; a thread is
    never about to touch memory out of the array; a thread that finds the queue
    full aborts; and where the lock is free the queue holds the list. *)
Theorem queue_linearizable scripts T s ev :
  all_puts scripts < 2 ^ 31 →
  rtc (step queue_object) (start scripts (Queue_ctor 0)) (mkConfig T s ev) →
  ∃ T' l, rtc (step atomic_queue) (start scripts []) (mkConfig T' l ev) ∧ (_lock s = 0 → holds s l) ∧
    ∀ t p cs, T !! t = Some (Busy p cs) → is_Some (prog_advance p s) ∨ (∃ r, p = Ret r) ∨ p = Abort.
Proof.
  intros Hp Hsteps. apply (locked_refines (HI := Queue_implements) scripts (Queue_ctor 0) [] T s ev);
    [apply Queue_ctor_holds| |exact Hsteps].
  unfold all_puts in Hp. cbn [budget Queue_implements Queue_ctor rear]. lia.
Qed.

(** A producer and a consumer: the producer is in its critical section when the
    consumer calls, and spins. *)
Definition two_threads : config (fifo_call Z) Z Queue (prog Z Queue) :=
  schedule queue_object ([0; 0; 1; 1; 0; 1; 0; 0; 0; 0; 0; 0; 1; 1; 0] ++ replicate 9 1)%nat
    (start [[Put 7]; [Take]] (Queue_ctor 0)).

Lemma queue_linearizable_witness :
  ∃ T' l, rtc (step atomic_queue) (start [[Put 7]; [Take]] [])
    (mkConfig T' l [Invoke 0 (Put 7); Invoke 1 Take; Return 0 0; Return 1 7]).
Proof.
  assert (events two_threads = [Invoke 0 (Put 7); Invoke 1 Take; Return 0 0; Return 1 7]) as <- by (vm_compute; reflexivity).
  destruct (queue_linearizable [[Put 7]; [Take]] (threads two_threads) (shared two_threads) (events two_threads))
    as (T' & l & H & _).
  - vm_compute. reflexivity.
  - rewrite config_eta. apply schedule_steps.
  - exists T', l. exact H.
Defined.
