(* ===== verification/PageCache.v ===== *)
(** * The page cache

    Models [static_trusted/PageCache.h]: the ring of the pages in use, the
    hash table from page numbers to EPC slots with a lock per bucket, the byte
    of references of every page, and the choice of the page to evict. *)

From S2P Require Import Prelude SyncUtils Ring.

(** ** The ring of used pages *)

Record UsedPagesQueue := mkUsed {
  m_queue_size : Z; front : Z; rear : Z; q : gmap Z Z; _lock : Z
}.

Definition on_lock {A} (m : M Z A) : M UsedPagesQueue A :=
  zoom _lock (λ w s, mkUsed (m_queue_size s) (front s) (rear s) (q s) w) m.

(** The constructor does not initialise [_lock]. *)
Definition UsedPagesQueue_ctor (queue_size garbage : Z) : UsedPagesQueue :=
  mkUsed queue_size 0 0 (array queue_size (-1)) garbage.

Definition used_enqueue (elem : Z) : M UsedPagesQueue Z :=
  on_lock spin_lock;;
  s ← gets id;
  if u64 (rear s - front s) =? u64 (m_queue_size s) then
    on_lock spin_unlock;;
    fail EAbort
  else
    let i := rear s mod u64 (m_queue_size s) in
    _ ← defined (q s !! i);
    modify (λ s, mkUsed (m_queue_size s) (front s) (rear s) (<[i := elem]> (q s)) (_lock s));;
    modify (λ s, mkUsed (m_queue_size s) (front s) (u64 (rear s + 1)) (q s) (_lock s));;
    on_lock spin_unlock;;
    mret 0.

Definition used_dequeue : M UsedPagesQueue Z :=
  on_lock spin_lock;;
  s ← gets id;
  if front s =? rear s then
    on_lock spin_unlock;;
    fail EAbort
  else
    result ← defined (q s !! (front s mod u64 (m_queue_size s)));
    modify (λ s, mkUsed (m_queue_size s) (u64 (front s + 1)) (rear s) (q s) (_lock s));;
    on_lock spin_unlock;;
    mret result.

(** The ring holds the list [l]: its counters may wrap, since its size divides
    [2^64]. *)
Record used_holds (s : UsedPagesQueue) (l : list Z) : Prop := {
  used_free : _lock s = 0;
  used_size : 0 < m_queue_size s < 2 ^ 32 ∧ (m_queue_size s | 2 ^ 64);
  used_range : 0 ≤ front s < 2 ^ 64 ∧ 0 ≤ rear s < 2 ^ 64;
  used_count : rear s = u64 (front s + Z.of_nat (length l)) ∧ Z.of_nat (length l) ≤ m_queue_size s;
  used_array : ∀ i, 0 ≤ i < m_queue_size s → is_Some (q s !! i);
  used_slots : slots (q s) (m_queue_size s) (front s) l
}.

Lemma u64_mod size i : 0 < size → (size | 2 ^ 64) → u64 i mod size = i mod size.
Proof.
  intros Hs [k E]. unfold u64. rewrite E. rewrite (Z.mul_comm k size).
  assert (0 < k) by nia. rewrite Z.rem_mul_r by lia.
  rewrite (Z.mul_comm size), Z_mod_plus_full, Z.mod_mod by lia. done.
Qed.

Lemma u64_diff a n : 0 ≤ a < 2 ^ 64 → 0 ≤ n < 2 ^ 64 → u64 (u64 (a + n) - a) = n.
Proof.
  intros Ha Hn. unfold u64. rewrite Zminus_mod_idemp_l.
  replace (a + n - a) with n by lia. by apply Z.mod_small.
Qed.

Lemma used_lock_run {B} (k : unit → M UsedPagesQueue B) s :
  _lock s = 0 →
  (on_lock spin_lock ≫= k) s = k tt (mkUsed (m_queue_size s) (front s) (rear s) (q s) 1).
Proof.
  intros Hl. unfold on_lock. erewrite (bind_zoom _lock _ _ _ _ tt 1); [done|].
  unfold spin_lock. by rewrite Hl.
Qed.

Lemma used_unlock_run {B} (k : unit → M UsedPagesQueue B) s :
  (on_lock spin_unlock ≫= k) s = k tt (mkUsed (m_queue_size s) (front s) (rear s) (q s) 0).
Proof. done. Qed.

Lemma used_enqueue_ok s l x :
  used_holds s l → Z.of_nat (length l) < m_queue_size s →
  ∃ s', used_enqueue x s = Ok (0, s') ∧ used_holds s' (l ++ [x]) ∧
    m_queue_size s' = m_queue_size s.
Proof.
  intros [Hf [Hz Hd] Hr [Hc Hc'] Ha Hs] Hroom.
  eexists. split.
  - unfold used_enqueue. rewrite used_lock_run by done. rewrite bind_gets. cbn [id front rear q m_queue_size].
    rewrite Hc, u64_diff, u64_id by lia. rewrite (proj2 (Z.eqb_neq _ _)) by lia.
    cbv zeta. rewrite u64_mod by (done || lia).
    edestruct Ha as [c Hcell]; [apply (Z.mod_pos_bound (front s + Z.of_nat (length l))); lia|].
    rewrite (bind_defined _ _ _ _ Hcell).
    rewrite !bind_modify, used_unlock_run. cbn [front rear q m_queue_size]. reflexivity.
  - split; [|done]. constructor; simpl.
    + done.
    + done.
    + split; [lia|apply u64_range].
    + rewrite length_app. simpl. split; [|lia].
      unfold u64. rewrite Zplus_mod_idemp_l. f_equal. lia.
    + intros i Hi. rewrite lookup_insert. case_decide; [done|by apply Ha].
    + by apply slots_push.
Qed.

Lemma used_dequeue_ok s x l :
  used_holds s (x :: l) →
  ∃ s', used_dequeue s = Ok (x, s') ∧ used_holds s' l ∧ m_queue_size s' = m_queue_size s.
Proof.
  intros [Hf [Hz Hd] Hr [Hc Hc'] Ha Hs]. apply slots_pop in Hs as [Hx Hs]. simpl in Hc, Hc'.
  assert (front s ≠ rear s) as Hne.
  { intros E. pose proof (u64_diff (front s) (Z.of_nat (S (length l))) ltac:(lia) ltac:(lia)) as Hu.
    rewrite <- Hc, E, Z.sub_diag in Hu. change (u64 0) with 0 in Hu. lia. }
  eexists. split.
  - unfold used_dequeue. rewrite used_lock_run by done. rewrite bind_gets. cbn [id front rear q m_queue_size].
    rewrite (proj2 (Z.eqb_neq _ _)) by done. rewrite (u64_id (m_queue_size s)) by lia.
    rewrite (bind_defined _ _ _ _ Hx), bind_modify, used_unlock_run. cbn. reflexivity.
  - split; [|done]. constructor; simpl; [done|done| | |done|].
    + split; [apply u64_range|lia].
    + split; [|lia]. rewrite Hc. unfold u64. rewrite Zplus_mod_idemp_l. f_equal. lia.
    + apply (slots_congr _ _ (front s + 1)); [lia| |done]. by rewrite u64_mod by (done || lia).
Qed.

#[export] Program Instance UsedPagesQueue_Fifo : Fifo UsedPagesQueue Z := {|
  fifo_enqueue := used_enqueue;
  fifo_dequeue := used_dequeue;
  fifo_cap := m_queue_size;
  fifo_left := λ _, 2 ^ 64;
  fifo_holds := used_holds
|}.
Next Obligation.
  simpl. intros s l x Hs Hl _. destruct (used_enqueue_ok s l x Hs Hl) as (s' & H1 & H2 & H3).
  exists s'. split_and!; (done || lia).
Qed.
Next Obligation.
  simpl. intros s x l Hs. destruct (used_dequeue_ok s x l Hs) as (s' & H1 & H2 & H3).
  exists s'. split_and!; (done || lia).
Qed.

Lemma UsedPagesQueue_ctor_holds n :
  0 < n < 2 ^ 32 → (n | 2 ^ 64) → used_holds (UsedPagesQueue_ctor n 0) [].
Proof.
  intros Hn Hd. constructor; simpl; [done|done|lia|split; [done|lia]| |apply slots_nil].
  intros i Hi. by rewrite array_lookup.
Qed.

(** ** The hash table *)

(** A cached page: its number and the address of its EPC slot. *)
Record item_t := mkItem { page_index : Z; epc : Z }.
(** The chained items of a bucket, in order, and its lock byte. *)
Record bucket := mkBucket { head : list item_t; lock : Z }.

Record PageCache := mkCache {
  m_buckets : gmap Z bucket;
  m_hashmap_size : Z;
  m_used_pages : UsedPagesQueue;
  m_ref_count : gmap Z Z;
  m_page_cache_size : Z
}.

Definition set_buckets (f : gmap Z bucket → gmap Z bucket) (c : PageCache) : PageCache :=
  mkCache (f (m_buckets c)) (m_hashmap_size c) (m_used_pages c) (m_ref_count c)
    (m_page_cache_size c).
Definition set_used (u : UsedPagesQueue) (c : PageCache) : PageCache :=
  mkCache (m_buckets c) (m_hashmap_size c) u (m_ref_count c) (m_page_cache_size c).
Definition set_refs (f : gmap Z Z → gmap Z Z) (c : PageCache) : PageCache :=
  mkCache (m_buckets c) (m_hashmap_size c) (m_used_pages c) (f (m_ref_count c))
    (m_page_cache_size c).
(** [__sync_fetch_and_add(&m_page_cache_size, d)] *)
Definition add_size (d : Z) (c : PageCache) : PageCache :=
  mkCache (m_buckets c) (m_hashmap_size c) (m_used_pages c) (m_ref_count c)
    (i32 (m_page_cache_size c + d)).

Definition on_used {A} (m : M UsedPagesQueue A) : M PageCache A := zoom m_used_pages set_used m.

(** [PageCache::init]; [garbage] is what the ring's lock word is made of. *)
Definition cache_init (num_of_buckets backing_store_size page_cache_size garbage : Z) : PageCache :=
  mkCache (array num_of_buckets (mkBucket [] 0)) num_of_buckets
    (UsedPagesQueue_ctor (i32 page_cache_size) garbage) (array backing_store_size 0) 0.

(** [page_index % m_hashmap_size]: the [int] is converted to [size_t]. *)
Definition hash (c : PageCache) (page : Z) : Z := u64 page mod m_hashmap_size c.

Definition get_bucket (page : Z) : M PageCache bucket :=
  b ← gets (λ c, m_buckets c !! hash c page); defined b.
Definition put_bucket (page : Z) (b : bucket) : M PageCache unit :=
  modify (λ c, set_buckets (<[hash c page := b]>) c).
Definition on_bucket_lock {A} (page : Z) (m : M Z A) : M PageCache A :=
  b ← get_bucket page;
  match m (lock b) with
  | Ok (a, w) => put_bucket page (mkBucket (head b) w);; mret a
  | Err e => fail e
  end.

Definition get_ref (page : Z) : M PageCache Z :=
  r ← gets (λ c, m_ref_count c !! page); defined r.

(** [m_ref_count[page_index] += d] on an unsigned char, under the bucket lock. *)
Definition bump_ref_count (d page : Z) : M PageCache unit :=
  on_bucket_lock page spin_lock_uchar;;
  r ← get_ref page;
  modify (set_refs (<[page := u8 (r + d)]>));;
  on_bucket_lock page spin_unlock_uchar.
Definition inc_ref_count (page : Z) : M PageCache unit := bump_ref_count 1 page.
Definition dec_ref_count (page : Z) : M PageCache unit := bump_ref_count (-1) page.

(** [while (p)]: the first item of the chain with this page. *)
Fixpoint find_item (page : Z) (l : list item_t) : option item_t :=
  match l with
  | [] => None
  | p :: l' => if page_index p =? page then Some p else find_item page l'
  end.

(** The chain without that item. *)
Fixpoint remove_item (page : Z) (l : list item_t) : list item_t :=
  match l with
  | [] => []
  | p :: l' => if page_index p =? page then l' else p :: remove_item page l'
  end.

Definition get_internal (page : Z) : M PageCache (option item_t) :=
  b ← get_bucket page;
  mret (find_item page (head b)).

Definition get (page : Z) : M PageCache (option item_t) :=
  on_bucket_lock page spin_lock_uchar;;
  ret ← get_internal page;
  on_bucket_lock page spin_unlock_uchar;;
  mret ret.

(** The do-while loop; returns with the bucket of the page still locked. *)
Fixpoint get_page_index_to_evict (fuel : nat) : M PageCache item_t :=
  match fuel with
  | O => fail EFuel
  | S fuel' =>
      page ← on_used used_dequeue;
      on_bucket_lock page spin_lock_uchar;;
      r ← get_ref page;
      if 0 <? r then
        on_bucket_lock page spin_unlock_uchar;;
        on_used (used_enqueue page);;
        get_page_index_to_evict fuel'
      else
        ret ← get_internal page;
        match ret with
        | Some it => mret it
        | None => fail EAbort
        end
  end.

Definition try_add (page epc_page : Z) : M PageCache bool :=
  on_bucket_lock page spin_lock_uchar;;
  b ← get_bucket page;
  match find_item page (head b) with
  | Some _ =>
      on_bucket_lock page spin_unlock_uchar;;
      mret false
  | None =>
      put_bucket page (mkBucket (head b ++ [mkItem page epc_page]) (lock b));;
      modify (add_size 1);;
      on_used (used_enqueue page);;
      on_bucket_lock page spin_unlock_uchar;;
      mret true
  end.

(** The caller holds the lock of the bucket. *)
Definition remove (page : Z) : M PageCache Z :=
  b ← get_bucket page;
  match find_item page (head b) with
  | Some _ =>
      modify (add_size (-1));;
      put_bucket page (mkBucket (remove_item page (head b)) (lock b));;
      on_bucket_lock page spin_unlock_uchar;;
      mret 0
  | None => fail EAbort
  end.

(** ** The chains *)

Lemma find_item_page page l it : find_item page l = Some it → page_index it = page.
Proof.
  induction l as [|x l IH]; simpl; [done|].
  destruct (Z.eqb_spec (page_index x) page); [naive_solver|done].
Qed.

Lemma find_item_In page l it : find_item page l = Some it → it ∈ l.
Proof.
  induction l as [|x l IH]; simpl; [done|]. rewrite elem_of_cons.
  destruct (Z.eqb_spec (page_index x) page); naive_solver.
Qed.

Lemma find_item_None page l : find_item page l = None ↔ page ∉ page_index <$> l.
Proof.
  induction l as [|x l IH]; csimpl; [set_solver|].
  rewrite not_elem_of_cons. destruct (Z.eqb_spec (page_index x) page); naive_solver.
Qed.

Lemma find_item_app page l it :
  find_item page (l ++ [it]) =
    match find_item page l with
    | Some x => Some x
    | None => if page_index it =? page then Some it else None
    end.
Proof. induction l as [|x l IH]; simpl; [done|]. destruct (page_index x =? page); [done|exact IH]. Qed.

Lemma find_remove_item page l p :
  NoDup (page_index <$> l) →
  find_item p (remove_item page l) = if p =? page then None else find_item p l.
Proof.
  induction l as [|x l IH]; csimpl; [by destruct (_ =? _)|].
  rewrite NoDup_cons. intros [Hx Hnd].
  destruct (Z.eqb_spec (page_index x) page) as [<-|Hne].
  - destruct (Z.eqb_spec p (page_index x)) as [E|Hp]; [rewrite E|].
    + by apply find_item_None.
    + rewrite (proj2 (Z.eqb_neq (page_index x) p)); [done|congruence].
  - simpl. rewrite IH by done. destruct (Z.eqb_spec (page_index x) p) as [<-|]; [|done].
    by rewrite (proj2 (Z.eqb_neq _ _)) by done.
Qed.

Lemma remove_item_sublist page l : remove_item page l `sublist_of` l.
Proof.
  induction l as [|x l IH]; simpl; [constructor|].
  destruct (_ =? _); [by apply sublist_cons|by apply sublist_skip].
Qed.
