(* ===== verification/PageCacheSpec.v ===== *)
(** * The contract of the page cache

    The cache as a map [C] from page numbers to EPC slots and the list [U] of
    the pages waiting for eviction, oldest first. *)

From S2P Require Import Prelude SyncUtils Ring PageCache.

(** ** The invariant *)

Definition lookup_page (c : PageCache) (p : Z) : option item_t :=
  b ← m_buckets c !! hash c p; find_item p (head b).

(** The lock byte of bucket [b] when [lk] is the page whose bucket is locked. *)
Definition held (c : PageCache) (lk : option Z) (b : Z) : Z :=
  match lk with
  | Some p => if decide (hash c p = b) then 1 else 0
  | None => 0
  end.

Definition bucket_ok (c : PageCache) (lk : option Z) (b : Z) (k : bucket) : Prop :=
  NoDup (page_index <$> head k) ∧ (∀ it, it ∈ head k → hash c (page_index it) = b) ∧
  lock k = held c lk b.

(** [out] is the page taken out of the ring for eviction and still cached. *)
Record cache_ok (c : PageCache) (C : gmap Z Z) (U : list Z) (lk out : option Z) : Prop := {
  ok_hash : 0 < m_hashmap_size c;
  ok_bucket : ∀ b, 0 ≤ b < m_hashmap_size c →
    ∃ k, m_buckets c !! b = Some k ∧ bucket_ok c lk b k;
  ok_find : ∀ p, C !! p = epc <$> lookup_page c p;
  ok_count : m_page_cache_size c = Z.of_nat (size C) ∧ Z.of_nat (size C) < 2 ^ 31;
  ok_used : used_holds (m_used_pages c) U;
  ok_queued : NoDup U ∧ ∀ p, p ∈ U ↔ is_Some (C !! p) ∧ out ≠ Some p
}.

(** What every operation leaves alone. *)
Definition same_shape (c c' : PageCache) : Prop :=
  m_hashmap_size c' = m_hashmap_size c ∧
  m_queue_size (m_used_pages c') = m_queue_size (m_used_pages c).
Definition same_refs (c c' : PageCache) : Prop :=
  same_shape c c' ∧ m_ref_count c' = m_ref_count c.

Lemma hash_range c p : 0 < m_hashmap_size c → 0 ≤ hash c p < m_hashmap_size c.
Proof. intros. by apply Z.mod_pos_bound. Qed.

Lemma same_shape_trans c1 c2 c3 : same_shape c1 c2 → same_shape c2 c3 → same_shape c1 c3.
Proof. intros [? ?] [? ?]. split; congruence. Qed.
Lemma same_refs_trans c1 c2 c3 : same_refs c1 c2 → same_refs c2 c3 → same_refs c1 c3.
Proof. intros [? ?] [? ?]. split; [by eapply same_shape_trans|congruence]. Qed.

(** ** Buckets *)

Lemma get_bucket_ok c C U lk out p :
  cache_ok c C U lk out →
  ∃ k, m_buckets c !! hash c p = Some k ∧ bucket_ok c lk (hash c p) k ∧
    find_item p (head k) = lookup_page c p ∧
    ∀ B (f : bucket → M PageCache B), (get_bucket p ≫= f) c = f k c.
Proof.
  intros Hok. destruct (ok_bucket _ _ _ _ _ Hok (hash c p)) as (k & Hk & Hb).
  { apply hash_range, Hok. }
  exists k. split_and!; [done|done| |].
  - unfold lookup_page. by rewrite Hk.
  - intros B f. unfold get_bucket. mrun. by rewrite Hk.
Qed.

(** Replacing the lock bytes. *)
Lemma relock_ok c C U lk lk' out p k w :
  cache_ok c C U lk out → m_buckets c !! hash c p = Some k →
  w = held c lk' (hash c p) → (∀ b, b ≠ hash c p → held c lk' b = held c lk b) →
  cache_ok (set_buckets (<[hash c p := mkBucket (head k) w]>) c) C U lk' out.
Proof.
  intros [Hh Hb Hf Hc Hu Hq] Hk Hw Hne. constructor; [done| | |done..].
  - intros b Hbr. destruct (Hb b Hbr) as (kb & Hkb & Hnd & Hit & Hl). simpl in *.
    destruct (decide (hash c p = b)) as [<-|Hpb].
    + rewrite lookup_insert_eq. eexists. split; [done|]. rewrite Hk in Hkb. injection Hkb as ->.
      split_and!; done.
    + rewrite lookup_insert_ne by done. exists kb. split; [done|].
      split_and!; [done..|]. by rewrite Hl, <- (Hne b) by done.
  - intros q. rewrite Hf. unfold lookup_page. simpl.
    change (hash (set_buckets _ c) q) with (hash c q).
    destruct (decide (hash c p = hash c q)) as [E|E].
    + by rewrite <- E, lookup_insert_eq, Hk.
    + by rewrite lookup_insert_ne.
Qed.

Lemma lock_ok c C U out p :
  cache_ok c C U None out →
  ∃ c', (∀ B (f : unit → M PageCache B), (on_bucket_lock p spin_lock_uchar ≫= f) c = f tt c') ∧
    cache_ok c' C U (Some p) out ∧ same_refs c c'.
Proof.
  intros Hok. destruct (get_bucket_ok c C U None out p Hok) as (k & Hk & (_ & _ & Hl) & _ & Hrun).
  eexists. split.
  - intros B f. unfold on_bucket_lock. rewrite bind_assoc, Hrun.
    unfold spin_lock_uchar. rewrite Hl. simpl. reflexivity.
  - split; [|done]. eapply relock_ok; [done|done| |]; simpl.
    + by rewrite decide_True.
    + intros b Hb. by rewrite decide_False.
Qed.

Lemma unlock_ok c C U out p :
  cache_ok c C U (Some p) out →
  ∃ c', (∀ B (f : unit → M PageCache B), (on_bucket_lock p spin_unlock_uchar ≫= f) c = f tt c') ∧
    on_bucket_lock p spin_unlock_uchar c = Ok (tt, c') ∧
    cache_ok c' C U None out ∧ same_refs c c'.
Proof.
  intros Hok. destruct (get_bucket_ok c C U (Some p) out p Hok) as (k & Hk & _ & _ & Hrun).
  eexists. split_and!.
  - intros B f. unfold on_bucket_lock. rewrite bind_assoc, Hrun. simpl. reflexivity.
  - unfold on_bucket_lock. by rewrite Hrun.
  - eapply relock_ok; [done|done|done|]. intros b Hb. simpl. by rewrite decide_False.
  - done.
Qed.

(** Changes to the references do not concern the table. *)
Lemma refs_ok f c C U lk out : cache_ok c C U lk out → cache_ok (set_refs f c) C U lk out.
Proof. intros [Hh Hb Hf Hc Hu Hq]. by constructor. Qed.

(** ** References *)

Definition ref_of (c : PageCache) (p : Z) : Z := default 0 (m_ref_count c !! p).

Lemma bump_ref_count_ok d c C U p r :
  cache_ok c C U None None → m_ref_count c !! p = Some r →
  ∃ c', bump_ref_count d p c = Ok (tt, c') ∧ cache_ok c' C U None None ∧ same_shape c c' ∧
    m_ref_count c' = <[p := u8 (r + d)]> (m_ref_count c).
Proof.
  intros Hok Hr. destruct (lock_ok c C U None p Hok) as (c1 & Hrun1 & Hok1 & [S1 R1]).
  destruct (unlock_ok (set_refs (<[p := u8 (r + d)]>) c1) C U None p) as (c2 & _ & Hrun2 & Hok2 & [S2 R2]);
    [by apply refs_ok|].
  exists c2. split_and!; [|done|by eapply same_shape_trans, S2|by rewrite R2; simpl; rewrite R1].
  unfold bump_ref_count, get_ref. rewrite Hrun1. mrun. by rewrite R1, Hr.
Qed.

(** ** Lookup *)

Lemma get_ok c C U p :
  cache_ok c C U None None →
  ∃ c' ret, get p c = Ok (ret, c') ∧ epc <$> ret = C !! p ∧
    (∀ it, ret = Some it → page_index it = p) ∧
    cache_ok c' C U None None ∧ same_refs c c'.
Proof.
  intros Hok. destruct (lock_ok c C U None p Hok) as (c1 & Hrun1 & Hok1 & R1).
  destruct (get_bucket_ok c1 _ _ _ _ p Hok1) as (k & _ & _ & Hfind & Hrunb).
  destruct (unlock_ok c1 C U None p Hok1) as (c2 & Hrun2 & _ & Hok2 & R2).
  exists c2, (lookup_page c1 p). split_and!.
  - unfold get, get_internal. rewrite Hrun1. mrun. rewrite Hrunb. mrun. rewrite Hrun2. by rewrite Hfind.
  - symmetry. apply (ok_find _ _ _ _ _ Hok1).
  - intros it. rewrite <- Hfind. apply find_item_page.
  - done.
  - by eapply same_refs_trans.
Qed.

(** ** The ring, seen from the cache *)

Lemma cache_dequeue_ok c C x U :
  cache_ok c C (x :: U) None None →
  ∃ c', (∀ B (f : Z → PageCache → res (B * PageCache)),
      (on_used used_dequeue ≫= f) c = f x c') ∧
    cache_ok c' C U None (Some x) ∧ same_refs c c'.
Proof.
  intros [Hh Hb Hf Hc Hu [Hnd Hq]]. apply NoDup_cons in Hnd as [Hx Hnd].
  destruct (used_dequeue_ok _ _ _ Hu) as (u & Hrun & Hu' & Hsz).
  exists (set_used u c). split_and!.
  - intros B f. unfold on_used. by erewrite (bind_zoom m_used_pages _ _ _ _ _ _ Hrun).
  - constructor; [done..|]. split; [done|]. intros p. specialize (Hq p).
    rewrite elem_of_cons in Hq. destruct (decide (p = x)) as [->|]; naive_solver.
  - done.
Qed.

Lemma cache_enqueue_ok c C x U lk :
  cache_ok c C U lk (Some x) → is_Some (C !! x) →
  Z.of_nat (length U) < m_queue_size (m_used_pages c) →
  ∃ c', (∀ B (f : Z → PageCache → res (B * PageCache)),
      (on_used (used_enqueue x) ≫= f) c = f 0 c') ∧
    cache_ok c' C (U ++ [x]) lk None ∧ same_refs c c'.
Proof.
  intros [Hh Hb Hf Hc Hu [Hnd Hq]] Hx Hroom.
  destruct (used_enqueue_ok _ _ x Hu Hroom) as (u & Hrun & Hu' & Hsz).
  exists (set_used u c). split_and!.
  - intros B f. unfold on_used. by erewrite (bind_zoom m_used_pages _ _ _ _ _ _ Hrun).
  - constructor; [done..|]. split.
    + apply NoDup_app. split; [done|]. split; [|apply NoDup_singleton].
      intros y Hy ->%list_elem_of_singleton. apply Hq in Hy. naive_solver.
    + intros p. rewrite elem_of_app, list_elem_of_singleton. specialize (Hq p).
      destruct (decide (p = x)) as [->|]; naive_solver.
  - done.
Qed.

(** ** Insertion *)

Lemma append_ok c C U p e k :
  cache_ok c C U (Some p) None → C !! p = None → Z.of_nat (size C) + 1 < 2 ^ 31 →
  m_buckets c !! hash c p = Some k →
  cache_ok (add_size 1 (set_buckets (<[hash c p := mkBucket (head k ++ [mkItem p e]) (lock k)]>) c))
    (<[p := e]> C) U (Some p) (Some p).
Proof.
  intros Hok Hp Hsz Hk. destruct Hok as [Hh Hb Hf [Hc1 Hc2] Hu [Hnd Hq]].
  assert (lookup_page c p = None) as Hnew.
  { specialize (Hf p). rewrite Hp in Hf. by destruct (lookup_page c p). }
  assert (find_item p (head k) = None) as Hnf by (unfold lookup_page in Hnew; by rewrite Hk in Hnew).
  constructor; [done| | | |done|].
  - intros b Hbr. destruct (Hb b Hbr) as (kb & Hkb & Hnd' & Hit & Hl). simpl in *.
    destruct (decide (hash c p = b)) as [<-|Hpb].
    + rewrite lookup_insert_eq. eexists. split; [done|]. rewrite Hk in Hkb. injection Hkb as ->.
      split_and!; simpl; [| |by rewrite decide_True].
      * rewrite fmap_app. apply NoDup_app. split_and!; [done| |apply NoDup_singleton].
        apply find_item_None in Hnf. intros y Hy. simpl. rewrite list_elem_of_singleton.
        by intros ->.
      * intros it. rewrite elem_of_app, list_elem_of_singleton.
        intros [Hi| ->]; [by apply Hit|done].
    + rewrite lookup_insert_ne by done. exists kb. split; [done|].
      split_and!; [done|done|simpl; by rewrite decide_False].
  - intros q. unfold lookup_page. simpl.
    change (hash (add_size 1 (set_buckets _ c)) q) with (hash c q).
    rewrite lookup_insert. case_decide as Epq.
    + subst q. rewrite lookup_insert_eq. simpl.
      by rewrite find_item_app, Hnf, Z.eqb_refl.
    + rewrite Hf. unfold lookup_page. destruct (decide (hash c p = hash c q)) as [E|E].
      * rewrite <- E, lookup_insert_eq, Hk. simpl. rewrite find_item_app. simpl.
        rewrite (proj2 (Z.eqb_neq p q)) by done. by destruct (find_item q (head k)).
      * by rewrite lookup_insert_ne.
  - simpl. rewrite map_size_insert_None by done. rewrite i32_id; lia.
  - split; [done|]. intros q. specialize (Hq q). rewrite lookup_insert.
    destruct (decide (p = q)) as [<-|Hne]; rewrite Hq.
    + rewrite Hp. split; [by intros [[? ?] _]|by intros [_ ?]].
    + split; intros [? ?]; split; (done || congruence).
Qed.

Lemma try_add_ok c C U p e :
  cache_ok c C U None None → Z.of_nat (length U) < m_queue_size (m_used_pages c) →
  Z.of_nat (size C) + 1 < 2 ^ 31 →
  ∃ c', same_refs c c' ∧
    match C !! p with
    | Some _ => try_add p e c = Ok (false, c') ∧ cache_ok c' C U None None
    | None => try_add p e c = Ok (true, c') ∧ cache_ok c' (<[p := e]> C) (U ++ [p]) None None
    end.
Proof.
  intros Hok Hroom Hsz. destruct (lock_ok c C U None p Hok) as (c1 & Hrun1 & Hok1 & R1).
  destruct (get_bucket_ok c1 _ _ _ _ p Hok1) as (k & Hk & _ & Hfind & Hrunb).
  pose proof (ok_find _ _ _ _ _ Hok1 p) as Hp. rewrite <- Hfind in Hp.
  unfold try_add. rewrite Hrun1, Hrunb. destruct (find_item p (head k)) as [it|]; rewrite Hp; simpl.
  - destruct (unlock_ok c1 C U None p Hok1) as (c2 & Hrun2 & _ & Hok2 & R2).
    exists c2. split; [by eapply same_refs_trans|]. by rewrite Hrun2.
  - set (c2 := set_buckets (<[hash c1 p := mkBucket (head k ++ [mkItem p e]) (lock k)]>) c1).
    assert (cache_ok (add_size 1 c2) (<[p := e]> C) U (Some p) (Some p)) as Hok2
      by (by apply append_ok).
    destruct (cache_enqueue_ok _ _ _ _ _ Hok2) as (c3 & Hrun3 & Hok3 & R3).
    { by rewrite lookup_insert_eq. }
    { destruct R1 as [[_ E] _]. simpl. by rewrite E. }
    destruct (unlock_ok c3 _ _ None p Hok3) as (c4 & Hrun4 & _ & Hok4 & R4).
    exists c4. split.
    { eapply same_refs_trans; [exact R1|]. eapply same_refs_trans; [|exact R4]. exact R3. }
    unfold put_bucket. rewrite !bind_modify. fold c2. by rewrite Hrun3, Hrun4.
Qed.

(** ** Eviction *)

(** The pages ahead of the first unreferenced one go round; with none of these
    the loop never ends, whatever the fuel. *)
Lemma evict_pinned fuel c C x U r :
  cache_ok c C (x :: U) None None → m_ref_count c !! x = Some r → 0 < r →
  ∃ c', get_page_index_to_evict (S fuel) c = get_page_index_to_evict fuel c' ∧
    cache_ok c' C (U ++ [x]) None None ∧ same_refs c c'.
Proof.
  intros Hok Hr Hpos. pose proof (ok_used _ _ _ _ _ Hok) as Hu.
  assert (is_Some (C !! x)) as Hx by (apply (ok_queued _ _ _ _ _ Hok); set_solver).
  destruct (cache_dequeue_ok c C x U Hok) as (c1 & Hrun1 & Hok1 & R1).
  destruct (lock_ok c1 C U (Some x) x Hok1) as (c2 & Hrun2 & Hok2 & R2).
  destruct (unlock_ok c2 C U (Some x) x Hok2) as (c3 & Hrun3 & _ & Hok3 & R3).
  pose proof (same_refs_trans _ _ _ R1 R2) as R12.
  pose proof (same_refs_trans _ _ _ R12 R3) as R13.
  destruct (cache_enqueue_ok c3 C x U None Hok3 Hx) as (c4 & Hrun4 & Hok4 & R4).
  { destruct R13 as [[_ ->] _]. pose proof (proj2 (used_count _ _ Hu)) as Hlen.
    simpl in Hlen. lia. }
  exists c4. split_and!; [|done|by eapply same_refs_trans].
  cbn [get_page_index_to_evict]. rewrite Hrun1, Hrun2. unfold get_ref. mrun.
  destruct R12 as [_ ->]. rewrite (bind_defined _ _ _ _ Hr), (proj2 (Z.ltb_lt 0 r)) by done.
  by rewrite Hrun3, Hrun4.
Qed.

Lemma evict_found fuel c C p U :
  cache_ok c C (p :: U) None None → m_ref_count c !! p = Some 0 →
  ∃ c' it, get_page_index_to_evict (S fuel) c = Ok (it, c') ∧
    page_index it = p ∧ C !! p = Some (epc it) ∧
    cache_ok c' C U (Some p) (Some p) ∧ same_refs c c'.
Proof.
  intros Hok Hr.
  assert (is_Some (C !! p)) as [e Hp] by (apply (ok_queued _ _ _ _ _ Hok); set_solver).
  destruct (cache_dequeue_ok c C p U Hok) as (c1 & Hrun1 & Hok1 & R1).
  destruct (lock_ok c1 C U (Some p) p Hok1) as (c2 & Hrun2 & Hok2 & R2).
  pose proof (same_refs_trans _ _ _ R1 R2) as R12.
  destruct (get_bucket_ok c2 _ _ _ _ p Hok2) as (k & _ & _ & Hfind & Hrunb).
  pose proof (ok_find _ _ _ _ _ Hok2 p) as Hf. rewrite <- Hfind, Hp in Hf.
  destruct (find_item p (head k)) as [it|] eqn:E; [|done].
  exists c2, it. split_and!; [|by eapply find_item_page|by rewrite Hp|done|done].
  cbn [get_page_index_to_evict]. rewrite Hrun1, Hrun2. unfold get_ref. mrun.
  destruct R12 as [_ ->]. rewrite (bind_defined _ _ _ _ Hr). change (0 <? 0) with false. cbv iota.
  unfold get_internal. rewrite bind_assoc, Hrunb, bind_ret. by rewrite E.
Qed.

Lemma evict_ok fuel c C pinned p rest :
  cache_ok c C (pinned ++ p :: rest) None None →
  (∀ x, x ∈ pinned → ∃ r, m_ref_count c !! x = Some r ∧ 0 < r) →
  m_ref_count c !! p = Some 0 → (length pinned < fuel)%nat →
  ∃ c' it, get_page_index_to_evict fuel c = Ok (it, c') ∧
    page_index it = p ∧ C !! p = Some (epc it) ∧
    cache_ok c' C (rest ++ pinned) (Some p) (Some p) ∧ same_refs c c'.
Proof.
  revert c rest fuel. induction pinned as [|x pinned IH]; intros c rest fuel Hok Hpin Hp Hf;
    (destruct fuel as [|fuel]; [simpl in Hf; lia|]).
  - rewrite app_nil_r. by apply evict_found.
  - destruct (Hpin x) as (r & Hr & Hpos); [set_solver|].
    destruct (evict_pinned fuel c C x _ r Hok Hr Hpos) as (c1 & -> & Hok1 & R1).
    rewrite <- app_assoc in Hok1. simpl in Hok1, Hf.
    destruct (IH c1 (rest ++ [x]) fuel) as (c' & it & H1 & H2 & H3 & H4 & H5); [done| | |lia|].
    + intros y Hy. destruct R1 as [_ ->]. apply Hpin. set_solver.
    + by destruct R1 as [_ ->].
    + exists c', it. rewrite <- app_assoc in H4. split_and!; [done..|by eapply same_refs_trans].
Qed.

Lemma evict_all_pinned fuel c C U :
  cache_ok c C U None None → U ≠ [] →
  (∀ x, x ∈ U → ∃ r, m_ref_count c !! x = Some r ∧ 0 < r) →
  get_page_index_to_evict fuel c = Err EFuel.
Proof.
  revert c U. induction fuel as [|fuel IH]; intros c U Hok Hne Hpin; [done|].
  destruct U as [|x U]; [done|]. destruct (Hpin x) as (r & Hr & Hpos); [set_solver|].
  destruct (evict_pinned fuel c C x U r Hok Hr Hpos) as (c1 & -> & Hok1 & [_ R1]).
  apply (IH c1 (U ++ [x])); [done|by destruct U|].
  intros y Hy. rewrite R1. apply Hpin. set_solver.
Qed.

(** ** Removal *)

Lemma remove_ok c C U p e :
  cache_ok c C U (Some p) (Some p) → C !! p = Some e →
  ∃ c', remove p c = Ok (0, c') ∧ cache_ok c' (delete p C) U None None ∧ same_refs c c'.
Proof.
  intros Hok Hp. destruct (get_bucket_ok c _ _ _ _ p Hok) as (k & Hk & Hbk & Hfind & Hrunb).
  pose proof (ok_find _ _ _ _ _ Hok p) as Hf. rewrite <- Hfind, Hp in Hf.
  destruct (find_item p (head k)) as [it|] eqn:E; [|done].
  set (c2 := set_buckets (<[hash c p := mkBucket (remove_item p (head k)) (lock k)]>)
    (add_size (-1) c)).
  assert (cache_ok c2 (delete p C) U (Some p) None) as Hok2.
  { destruct Hok as [Hh Hb Hff [Hc1 Hc2] Hu [Hnd Hq]].
    assert (size C ≠ 0)%nat by (intros E0%map_size_empty_inv; by rewrite E0 in Hp).
    constructor; [done| | | |done|].
    - intros b Hbr. destruct (Hb b Hbr) as (kb & Hkb & Hnd' & Hit & Hl). simpl in *.
      destruct (decide (hash c p = b)) as [<-|Hpb].
      + rewrite lookup_insert_eq. eexists. split; [done|]. rewrite Hk in Hkb. injection Hkb as ->.
        split_and!; simpl; [| |by rewrite decide_True].
        * eapply sublist_NoDup; [exact Hnd'|]. apply fmap_sublist, remove_item_sublist.
        * intros it' Hin. apply Hit. eapply elem_of_sublist; [exact Hin|].
          apply remove_item_sublist.
      + rewrite lookup_insert_ne by done. exists kb. split; [done|].
      split_and!; [done|done|simpl; by rewrite decide_False].
    - intros q. unfold lookup_page. simpl. change (hash c2 q) with (hash c q).
      rewrite lookup_delete. destruct (decide (hash c p = hash c q)) as [Eh|Eh].
      + rewrite <- Eh, lookup_insert_eq. simpl. rewrite find_remove_item by apply Hbk.
        case_decide as Epq; [subst; by rewrite Z.eqb_refl|].
        rewrite (proj2 (Z.eqb_neq q p)) by congruence.
        rewrite Hff. unfold lookup_page. by rewrite <- Eh, Hk.
      + rewrite lookup_insert_ne by done. rewrite decide_False by congruence. apply Hff.
    - simpl. rewrite map_size_delete_Some by done.
      rewrite i32_id; lia.
    - split; [done|]. intros q. specialize (Hq q). rewrite lookup_delete.
      destruct (decide (p = q)) as [<-|Hne]; rewrite Hq.
      + split; [by intros [_ ?]|by intros [[? ?] _]].
      + split; intros [? ?]; split; (done || congruence). }
  destruct (unlock_ok c2 _ _ None p Hok2) as (c3 & Hrun3 & _ & Hok3 & R3).
  exists c3. split_and!; [|done|by eapply same_refs_trans, R3].
  unfold remove. rewrite Hrunb, E, bind_modify. unfold put_bucket. rewrite bind_modify.
  change (set_buckets (<[hash (add_size (-1) c) p := _]>) (add_size (-1) c)) with c2.
  by rewrite Hrun3.
Qed.

(** ** Initialisation *)

Lemma cache_init_ok nb n cap :
  0 < nb → 0 < cap < 2 ^ 31 → (cap | 2 ^ 64) →
  cache_ok (cache_init nb n cap 0) ∅ [] None None ∧
  ∀ p, 0 ≤ p < n → m_ref_count (cache_init nb n cap 0) !! p = Some 0.
Proof.
  intros Hnb Hcap Hd. split; [constructor; simpl|].
  - done.
  - intros b Hb. rewrite array_lookup by done. eexists. split; [done|].
    split_and!; simpl; [constructor|set_solver|done].
  - intros p. rewrite lookup_empty. unfold lookup_page. simpl. rewrite array_lookup; [done|].
    by apply hash_range.
  - done.
  - rewrite i32_id by lia. apply UsedPagesQueue_ctor_holds; [lia|done].
  - split; [constructor|]. intros p. rewrite lookup_empty. split; [set_solver|].
    intros [[x Hx] _]. done.
  - intros p Hp. simpl. by apply array_lookup.
Qed.

(** ** Theorems *)

(** A small cache: 8 buckets, 16 pages, a ring of 4; pages 1 and 9 (which
    share a bucket) and 2 are cached. *)
Lemma small_cache :
  ∃ c, cache_ok c (<[2 := 202]> (<[9 := 109]> (<[1 := 101]> ∅))) [1; 9; 2] None None ∧
    m_queue_size (m_used_pages c) = 4 ∧ m_ref_count c = array 16 0.
Proof.
  destruct (cache_init_ok 8 16 4) as [Hok Hr]; [lia|lia|by exists (2 ^ 62)|].
  destruct (try_add_ok _ _ _ 1 101 Hok) as (c1 & [[_ S1] R1] & H1); [done|done|].
  rewrite lookup_empty in H1. destruct H1 as [_ Hok1].
  destruct (try_add_ok _ _ _ 9 109 Hok1) as (c2 & [[_ S2] R2] & H2); [by rewrite S1|done|].
  rewrite lookup_insert_ne, lookup_empty in H2 by done. destruct H2 as [_ Hok2].
  destruct (try_add_ok _ _ _ 2 202 Hok2) as (c3 & [[_ S3] R3] & H3); [by rewrite S2, S1|done|].
  rewrite !lookup_insert_ne, lookup_empty in H3 by done. destruct H3 as [_ Hok3].
  exists c3. split_and!; [done|by rewrite S3, S2, S1|]. by rewrite R3, R2, R1.
Qed.

(** More fuel does not change what a loop that ended returned. *)
Lemma evict_more_fuel fuel n c r :
  get_page_index_to_evict fuel c = Ok r → get_page_index_to_evict (fuel + n) c = Ok r.
Proof.
  revert c. induction fuel as [|fuel IH]; intros c; [done|].
  cbn [get_page_index_to_evict Nat.add]. unfold mbind, M_bind.
  destruct (on_used used_dequeue c) as [[x c1]|]; [|done].
  destruct (on_bucket_lock x spin_lock_uchar c1) as [[[] c2]|]; [|done].
  destruct (get_ref x c2) as [[r0 c3]|]; [|done]. destruct (0 <? r0); [|done].
  destruct (on_bucket_lock x spin_unlock_uchar c3) as [[[] c4]|]; [|done].
  destruct (on_used (used_enqueue x) c4) as [[y c5]|]; [|done]. apply IH.
Qed.

Lemma first_unreferenced (f : Z → Z) (U : list Z) :
  (∃ pinned p rest, U = pinned ++ p :: rest ∧ (∀ x, x ∈ pinned → f x ≠ 0) ∧ f p = 0) ∨
  (∀ x, x ∈ U → f x ≠ 0).
Proof.
  induction U as [|x U IH]; [right; set_solver|]. destruct (decide (f x = 0)) as [Hx|Hx].
  - left. exists [], x, U. split_and!; [done|set_solver|done].
  - destruct IH as [(pinned & p & rest & -> & H1 & H2)|IH]; [left|right; set_solver].
    exists (x :: pinned), p, rest. split_and!; [done|set_solver|done].
Qed.

(** What the loop returns is unreferenced; and it returns when a page of the
    ring is. *)
Definition counted (c : PageCache) (U : list Z) : Prop :=
  (∀ x, x ∈ U → is_Some (m_ref_count c !! x)) ∧ ∀ x r, m_ref_count c !! x = Some r → 0 ≤ r.

Lemma counted_pinned c U x : counted c U → x ∈ U → ref_of c x ≠ 0 → ∃ r, m_ref_count c !! x = Some r ∧ 0 < r.
Proof.
  intros [Href Hpos] Hx Hr. destruct (Href x Hx) as [r E]. exists r. split; [done|].
  pose proof (Hpos x r E). unfold ref_of in Hr. rewrite E in Hr. simpl in Hr. lia.
Qed.

Lemma counted_free c U x : counted c U → x ∈ U → ref_of c x = 0 → m_ref_count c !! x = Some 0.
Proof. intros [Href _] Hx. unfold ref_of. destruct (Href x Hx) as [r E]. rewrite E. simpl. by intros ->. Qed.

Lemma evict_unreferenced c C U fuel it c' :
  cache_ok c C U None None → U ≠ [] → counted c U →
  get_page_index_to_evict fuel c = Ok (it, c') → ref_of c (page_index it) = 0.
Proof.
  intros Hok Hne Hc Hrun.
  destruct (first_unreferenced (ref_of c) U) as [(pinned & q & rest & -> & H1 & H2)|Hall].
  - destruct (evict_ok (S (length pinned)) c C pinned q rest Hok) as (c2 & it2 & Hrun2 & <- & _); [| |lia|].
    + intros x Hx. apply (counted_pinned c _ x Hc); [set_solver|by apply H1].
    + apply (counted_free c _ q Hc); [set_solver|done].
    + apply (evict_more_fuel _ (S (length pinned))) in Hrun. apply (evict_more_fuel _ fuel) in Hrun2.
      rewrite Nat.add_comm, Hrun in Hrun2. by injection Hrun2 as -> _.
  - rewrite (evict_all_pinned fuel c C U Hok Hne) in Hrun; [done|].
    intros x Hx. apply (counted_pinned c U x Hc Hx), Hall, Hx.
Qed.

Lemma evict_returns c C U q :
  cache_ok c C U None None → counted c U → q ∈ U → ref_of c q = 0 →
  ∃ it c', get_page_index_to_evict (length U) c = Ok (it, c').
Proof.
  intros Hok Hc Hq Hr.
  destruct (first_unreferenced (ref_of c) U) as [(pinned & p & rest & -> & H1 & H2)|Hall]; [|by apply Hall in Hr].
  destruct (evict_ok (length (pinned ++ p :: rest)) c C pinned p rest Hok) as (c2 & it2 & Hrun2 & _).
  - intros x Hx. apply (counted_pinned c _ x Hc); [set_solver|by apply H1].
  - apply (counted_free c _ p Hc); [set_solver|done].
  - rewrite length_app. simpl. lia.
  - by exists it2, c2.
Qed.

(** C11. The choice of the page to evict: the loop ends exactly when some page
    of the ring is unreferenced, within as many turns as the ring is long; it
    then returns the oldest such page with its slot, the referenced pages ahead
    of it having gone to the back, and the table, the references and the other
    locks as they were.  With every page referenced no number of turns ends
    it. *)
Theorem evict_picks_oldest_unreferenced c C U :
  cache_ok c C U None None → U ≠ [] → (∀ x, x ∈ U → is_Some (m_ref_count c !! x)) →
  (∀ x r, m_ref_count c !! x = Some r → 0 ≤ r) →
  (∃ pinned p rest c' it, U = pinned ++ p :: rest ∧
    (∀ x, x ∈ pinned → ref_of c x ≠ 0) ∧ ref_of c p = 0 ∧
    (∀ fuel, (length U ≤ fuel)%nat → get_page_index_to_evict fuel c = Ok (it, c')) ∧
    page_index it = p ∧ C !! p = Some (epc it) ∧
    cache_ok c' C (rest ++ pinned) (Some p) (Some p) ∧ same_refs c c') ∨
  (∀ x, x ∈ U → ref_of c x ≠ 0) ∧ ∀ fuel, get_page_index_to_evict fuel c = Err EFuel.
Proof.
  intros Hok Hne Href Hpos.
  assert (∀ x, x ∈ U → ref_of c x ≠ 0 → ∃ r, m_ref_count c !! x = Some r ∧ 0 < r) as Hpin.
  { intros x Hx Hr. destruct (Href x Hx) as [r E]. exists r. split; [done|].
    pose proof (Hpos x r E). unfold ref_of in Hr. rewrite E in Hr. simpl in Hr. lia. }
  destruct (first_unreferenced (ref_of c) U) as [(pinned & p & rest & -> & H1 & H2)|Hall].
  - left. assert (m_ref_count c !! p = Some 0) as Hp.
    { destruct (Href p) as [r E]; [set_solver|]. unfold ref_of in H2. rewrite E in H2 |- *.
      by simpl in H2; subst. }
    destruct (evict_ok (length (pinned ++ p :: rest)) c C pinned p rest)
      as (c' & it & Hrun & Hit & Hepc & Hok' & Hr'); [done| |done| |].
    { intros x Hx. apply Hpin; [set_solver|by apply H1]. }
    { rewrite length_app. simpl. lia. }
    exists pinned, p, rest, c', it. split_and!; try done; try apply Hr'.
    intros fuel Hf. replace fuel with (length (pinned ++ p :: rest) +
      (fuel - length (pinned ++ p :: rest)))%nat by lia. by apply evict_more_fuel.
  - right. split; [done|]. intros fuel. eapply evict_all_pinned; eauto.
Qed.

Lemma evict_picks_oldest_unreferenced_witness :
  ∃ c c' it, get_page_index_to_evict 3 c = Ok (it, c') ∧ page_index it = 1.
Proof.
  destruct small_cache as (c & Hok & _ & Hr).
  assert (ref_of c 1 = 0) as H1 by (unfold ref_of; rewrite Hr; vm_compute; reflexivity).
  destruct (evict_picks_oldest_unreferenced c _ [1; 9; 2] Hok)
    as [(pinned & p & rest & c' & it & E & Hpin & Hp & Hrun & Hit & _)|[Hall _]].
  - discriminate.
  - intros x Hx. exists 0. rewrite Hr. apply array_lookup.
    rewrite !elem_of_cons in Hx. destruct Hx as [->|[->|[->|Hx]]]; [lia..|].
    by apply elem_of_nil in Hx.
  - intros x r. rewrite Hr. intros [_ ->]%array_lookup_Some. reflexivity.
  - exists c, c', it. split; [apply Hrun; simpl; lia|].
    destruct pinned as [|y pinned]; simpl in E; injection E as <- _; [exact Hit|].
    exfalso. apply (Hpin 1); [left|exact H1].
  - exfalso. apply (Hall 1); [left|exact H1].
Defined.

(** C10. The cache refines a map: insertion adds the page unless it is there
    (then nothing changes), lookup returns the slot of the last insertion and
    removal takes it out; each operation returns with every bucket unlocked. *)
Theorem cache_refines_map c C U p e :
  cache_ok c C U None None → Z.of_nat (length U) < m_queue_size (m_used_pages c) →
  Z.of_nat (size C) + 1 < 2 ^ 31 →
  (∃ c' ret, get p c = Ok (ret, c') ∧ epc <$> ret = C !! p ∧ cache_ok c' C U None None) ∧
  (∃ c' b, try_add p e c = Ok (b, c') ∧ b = negb (bool_decide (is_Some (C !! p))) ∧
    cache_ok c' (if b then <[p := e]> C else C) (if b then U ++ [p] else U) None None) ∧
  (∀ d, m_ref_count c = m_ref_count d → cache_ok d C U (Some p) (Some p) → is_Some (C !! p) →
    ∃ d', remove p d = Ok (0, d') ∧ cache_ok d' (delete p C) U None None).
Proof.
  intros Hok Hroom Hsz. split_and!.
  - destruct (get_ok c C U p Hok) as (c' & ret & H1 & H2 & _ & H3 & _). by exists c', ret.
  - destruct (try_add_ok c C U p e Hok Hroom Hsz) as (c' & _ & H).
    destruct (C !! p) as [e'|] eqn:E; destruct H as [Hrun Hok'].
    + exists c', false. by rewrite bool_decide_true by done.
    + exists c', true. rewrite bool_decide_false by (by intros [? ?]). done.
  - intros d _ Hd [e' He]. destruct (remove_ok d C U p e' Hd He) as (d' & H1 & H2 & _). by exists d'.
Qed.

Lemma cache_refines_map_witness :
  ∃ c c' c'', try_add 5 505 c = Ok (true, c') ∧ get 9 c = Ok (Some (mkItem 9 109), c'').
Proof.
  destruct small_cache as (c & Hok & Hsz & _).
  destruct (cache_refines_map c _ [1; 9; 2] 5 505 Hok) as (_ & (c' & b & H1 & H2 & _) & _);
    [rewrite Hsz; reflexivity|vm_compute; reflexivity|].
  destruct (cache_refines_map c _ [1; 9; 2] 9 0 Hok) as ((c'' & ret & H3 & H4 & _) & _);
    [rewrite Hsz; reflexivity|vm_compute; reflexivity|].
  exists c, c', c''. vm_compute in H2. subst b. split; [exact H1|].
  destruct (get_ok c _ [1; 9; 2] 9 Hok) as (c3 & ret3 & H5 & _ & H6 & _).
  rewrite H3 in H5. apply Ok_inj in H5 as [<- _]. rewrite H3.
  destruct ret as [[p0 e0]|]; vm_compute in H4; [|discriminate].
  injection H4 as ->. specialize (H6 _ eq_refl). simpl in H6. subst. reflexivity.
Defined.

(** ** The width of the reference count *)

Fixpoint inc_times (n : nat) (p : Z) : M PageCache unit :=
  match n with
  | O => mret tt
  | S n' => inc_ref_count p;; inc_times n' p
  end.

Lemma inc_times_ok n c C U p r :
  cache_ok c C U None None → m_ref_count c !! p = Some r → 0 ≤ r < 256 →
  ∃ c', inc_times n p c = Ok (tt, c') ∧ cache_ok c' C U None None ∧ same_shape c c' ∧
    m_ref_count c' = <[p := u8 (r + Z.of_nat n)]> (m_ref_count c).
Proof.
  revert c r. induction n as [|n IH]; intros c r Hok Hr Hb.
  - exists c. rewrite Z.add_0_r, u8_id, insert_id by done. done.
  - destruct (bump_ref_count_ok 1 c C U p r Hok Hr) as (c1 & Hrun1 & Hok1 & S1 & R1).
    destruct (IH c1 (u8 (r + 1)) Hok1) as (c2 & Hrun2 & Hok2 & S2 & R2).
    { by rewrite R1, lookup_insert_eq. }
    { apply u8_range. }
    exists c2. split_and!; [|done|by eapply same_shape_trans|].
    + cbn [inc_times]. unfold inc_ref_count. by rewrite (bind_Ok _ _ _ _ _ Hrun1).
    + rewrite R2, R1, insert_insert_eq. f_equal. unfold u8. rewrite Zplus_mod_idemp_l. f_equal. lia.
Qed.

(** C22. The reference count of a page is one byte: 256 references wrap it
    round to 0, and the page, referenced 256 times, is the one evicted next.
    With 1 to 255 references the count is exact and the page is passed over:
    whenever the loop returns, within any number of turns, it returns another
    page, and it does return when another page of the ring is unreferenced. *)
Theorem ref_count_width c C p U n :
  cache_ok c C (p :: U) None None → m_ref_count c !! p = Some 0 →
  (∀ x, x ∈ U → is_Some (m_ref_count c !! x)) → (∀ x r, m_ref_count c !! x = Some r → 0 ≤ r) →
  ∃ c', inc_times n p c = Ok (tt, c') ∧ cache_ok c' C (p :: U) None None ∧
    ref_of c' p = Z.of_nat n mod 256 ∧
    (0 < Z.of_nat n < 256 → ref_of c' p = Z.of_nat n ∧
      (∀ fuel it c'', get_page_index_to_evict fuel c' = Ok (it, c'') → page_index it ≠ p) ∧
      (∀ q, q ∈ U → ref_of c q = 0 → ∃ it c'', get_page_index_to_evict (S (length U)) c' = Ok (it, c''))) ∧
    (n = 256%nat → ∃ c'' it, get_page_index_to_evict 1 c' = Ok (it, c'') ∧ page_index it = p).
Proof.
  intros Hok Hr Href Hpos. destruct (inc_times_ok n c C _ p 0 Hok Hr ltac:(lia)) as (c' & Hrun & Hok' & _ & R).
  assert (ref_of c' p = Z.of_nat n mod 256) as E by (unfold ref_of; by rewrite R, lookup_insert_eq).
  assert (counted c' (p :: U)) as Hc.
  { split; intros x.
    - rewrite R, elem_of_cons, lookup_insert. case_decide; [done|]. intros [->|Hx]; [done|by apply Href].
    - intros r. rewrite R, lookup_insert. case_decide; [intros [= <-]; apply u8_range|apply Hpos]. }
  exists c'. split_and!; [done|done|done| |].
  - intros Hn. assert (ref_of c' p = Z.of_nat n) as En by (rewrite E; apply Z.mod_small; lia).
    split_and!; [done| |].
    + intros fuel it c'' Hev Ep. apply (evict_unreferenced c' C (p :: U)) in Hev; [|done..]. rewrite Ep in Hev. lia.
    + intros q Hq Hq0. apply (evict_returns c' C (p :: U) q); [done|done|set_solver|].
      unfold ref_of. rewrite R, lookup_insert_ne; [exact Hq0|]. intros <-.
      destruct (ok_queued _ _ _ _ _ Hok) as [Hnd _]. by apply NoDup_cons in Hnd as [Hnd _].
  - intros ->. destruct (evict_found 0 c' C p U Hok') as (c'' & it & H1 & H2 & _).
    + by rewrite R, lookup_insert_eq.
    + by exists c'', it.
Qed.

Lemma ref_count_width_witness :
  ∃ c, (∃ c' c'' it, inc_times 256 1 c = Ok (tt, c') ∧
      get_page_index_to_evict 1 c' = Ok (it, c'') ∧ page_index it = 1) ∧
    ∃ c' c'' it, inc_times 255 1 c = Ok (tt, c') ∧
      get_page_index_to_evict 3 c' = Ok (it, c'') ∧ page_index it ≠ 1.
Proof.
  destruct small_cache as (c & Hok & _ & Hr).
  assert (∀ x, x ∈ [9; 2] → is_Some (m_ref_count c !! x)) as Href.
  { intros x Hx. rewrite Hr. apply elem_of_cons in Hx as [->|Hx]; [by eexists|].
    apply list_elem_of_singleton in Hx as ->. by eexists. }
  assert (∀ x r, m_ref_count c !! x = Some r → 0 ≤ r) as Hpos.
  { intros x r. rewrite Hr. intros [_ ->]%array_lookup_Some. lia. }
  assert (m_ref_count c !! 1 = Some 0) as H1 by (rewrite Hr; reflexivity).
  exists c. split.
  - destruct (ref_count_width c _ 1 [9; 2] 256 Hok H1 Href Hpos) as (c' & H2 & _ & _ & _ & H3).
    destruct (H3 eq_refl) as (c'' & it & H4 & H5). exists c', c'', it.
    split; [exact H2|]. split; [exact H4|exact H5].
  - destruct (ref_count_width c _ 1 [9; 2] 255 Hok H1 Href Hpos) as (c' & H2 & _ & _ & H3 & _).
    destruct H3 as (_ & H4 & H5); [lia|].
    destruct (H5 9) as (it & c'' & H6); [constructor|unfold ref_of; rewrite Hr; reflexivity|].
    exists c', c'', it. split; [exact H2|]. split; [exact H6|exact (H4 3%nat it c'' H6)].
Defined.
