(* ===== verification/CryptoCache.v ===== *)
(** * The crypto cache

    Models [static_trusted/CryptoCache.h]: for every page ever evicted, the
    nonce and the tag it was encrypted with, in a hash table of chained items
    with a lock per bucket.  Items are never removed. *)

From S2P Require Import Prelude SyncUtils Ring.

Definition NONCE_BYTE_SIZE : Z := 12.

(** One sub-page per page: [SUB_PAGE_COUNT] is 1. *)
Record crypto_item_t := mkCrypto { page_index : Z; nonce : list Z; mac_ptr : list Z }.
Record crypto_bucket_t := mkCBucket { head : list crypto_item_t; lock : Z }.
Record CryptoCache := mkCCache { m_buckets : gmap Z crypto_bucket_t; m_hashmap_size : Z }.

(** [CryptoCache::init] *)
Definition crypto_init (num_of_buckets : Z) : CryptoCache :=
  mkCCache (array num_of_buckets (mkCBucket [] 0)) num_of_buckets.

Definition hash (c : CryptoCache) (page : Z) : Z := u64 page mod m_hashmap_size c.

Definition get_bucket (page : Z) : M CryptoCache crypto_bucket_t :=
  b ← gets (λ c, m_buckets c !! hash c page); defined b.
Definition put_bucket (page : Z) (b : crypto_bucket_t) : M CryptoCache unit :=
  modify (λ c, mkCCache (<[hash c page := b]> (m_buckets c)) (m_hashmap_size c)).
Definition on_bucket_lock {A} (page : Z) (m : M Z A) : M CryptoCache A :=
  b ← get_bucket page;
  match m (lock b) with
  | Ok (a, w) => put_bucket page (mkCBucket (head b) w);; mret a
  | Err e => fail e
  end.

Fixpoint find_item (page : Z) (l : list crypto_item_t) : option crypto_item_t :=
  match l with
  | [] => None
  | p :: l' => if page_index p =? page then Some p else find_item page l'
  end.

Definition crypto_get (page : Z) : M CryptoCache (option crypto_item_t) :=
  on_bucket_lock page spin_lock_uchar;;
  b ← get_bucket page;
  on_bucket_lock page spin_unlock_uchar;;
  mret (find_item page (head b)).

(** [new crypto_item_t()] zeroes the item. *)
Definition new_item (page : Z) : crypto_item_t :=
  mkCrypto page (replicate 12 0) (replicate 16 0).

Definition crypto_add (page : Z) : M CryptoCache crypto_item_t :=
  on_bucket_lock page spin_lock_uchar;;
  b ← get_bucket page;
  match find_item page (head b) with
  | Some p => on_bucket_lock page spin_unlock_uchar;; mret p
  | None =>
      let it := new_item page in
      put_bucket page (mkCBucket (head b ++ [it]) (lock b));;
      on_bucket_lock page spin_unlock_uchar;;
      mret it
  end.

(** Stores through the pointer [crypto_add] returned: the item of [page]. *)
Fixpoint update_item (page : Z) (f : crypto_item_t → crypto_item_t) (l : list crypto_item_t)
    : list crypto_item_t :=
  match l with
  | [] => []
  | p :: l' => if page_index p =? page then f p :: l' else p :: update_item page f l'
  end.
Definition crypto_store (page : Z) (n m : list Z) : M CryptoCache unit :=
  b ← get_bucket page;
  put_bucket page (mkCBucket (update_item page (λ p, mkCrypto (page_index p) n m) (head b)) (lock b)).

(** ** The contract: a map from pages to nonce and tag *)

Definition meta (it : crypto_item_t) : list Z * list Z := (nonce it, mac_ptr it).

Definition lookup_meta (c : CryptoCache) (p : Z) : option (list Z * list Z) :=
  meta <$> (b ← m_buckets c !! hash c p; find_item p (head b)).

Record crypto_ok (c : CryptoCache) (K : gmap Z (list Z * list Z)) : Prop := {
  crypto_hash : 0 < m_hashmap_size c;
  crypto_bucket : ∀ b, 0 ≤ b < m_hashmap_size c → ∃ k, m_buckets c !! b = Some k ∧ lock k = 0;
  crypto_find : ∀ p, K !! p = lookup_meta c p
}.

Lemma crypto_find_item_app page l it :
  find_item page (l ++ [it]) =
    match find_item page l with
    | Some x => Some x
    | None => if page_index it =? page then Some it else None
    end.
Proof. induction l as [|x l IH]; simpl; [done|]. destruct (page_index x =? page); [done|exact IH]. Qed.

Lemma crypto_find_item_page page l it : find_item page l = Some it → page_index it = page.
Proof.
  induction l as [|x l IH]; simpl; [done|].
  destruct (Z.eqb_spec (page_index x) page); [naive_solver|done].
Qed.

Lemma find_update_item page q n m l :
  find_item q (update_item page (λ p, mkCrypto (page_index p) n m) l) =
    if q =? page then (λ _, mkCrypto page n m) <$> find_item page l else find_item q l.
Proof.
  induction l as [|x l IH]; simpl; [by destruct (q =? page)|].
  destruct (Z.eqb_spec (page_index x) page) as [E|E]; simpl.
  - rewrite E. destruct (Z.eqb_spec page q) as [->|]; [by rewrite Z.eqb_refl|].
    by rewrite (proj2 (Z.eqb_neq q page)) by congruence.
  - rewrite IH. destruct (Z.eqb_spec q page) as [->|]; [by rewrite (proj2 (Z.eqb_neq _ _))|done].
Qed.

(** A bucket whose chain is replaced, lock byte free. *)
Lemma put_bucket_ok c K p l K' :
  crypto_ok c K → (∀ q, hash c q ≠ hash c p → K' !! q = K !! q) →
  (∀ q, hash c q = hash c p → K' !! q = meta <$> find_item q l) →
  crypto_ok (mkCCache (<[hash c p := mkCBucket l 0]> (m_buckets c)) (m_hashmap_size c)) K'.
Proof.
  intros [Hh Hb Hf] Hne Heq. constructor; [done| |].
  - intros b Hbr. simpl in *. rewrite lookup_insert. case_decide; [by eexists|by apply Hb].
  - intros q. unfold lookup_meta. simpl.
    change (hash (mkCCache _ _) q) with (hash c q).
    destruct (decide (hash c q = hash c p)) as [E|E].
    + by rewrite E, lookup_insert_eq, (Heq q E).
    + rewrite lookup_insert_ne by congruence. rewrite (Hne q E). apply Hf.
Qed.

Lemma crypto_get_bucket_ok c K p :
  crypto_ok c K →
  ∃ k, m_buckets c !! hash c p = Some k ∧ lock k = 0 ∧ K !! p = meta <$> find_item p (head k) ∧
    ∀ B (f : crypto_bucket_t → M CryptoCache B), (get_bucket p ≫= f) c = f k c.
Proof.
  intros [Hh Hb Hf]. destruct (Hb (hash c p)) as (k & Hk & Hl).
  { by apply Z.mod_pos_bound. }
  exists k. split_and!; [done|done| |].
  - rewrite Hf. unfold lookup_meta. by rewrite Hk.
  - intros B f. unfold get_bucket. mrun. by rewrite Hk.
Qed.

(** Runs of the lock and of the table, bucket by bucket. *)
Section bucket.
Context (c : CryptoCache) (p : Z) (k : crypto_bucket_t).

Definition with_bucket (k' : crypto_bucket_t) : CryptoCache :=
  mkCCache (<[hash c p := k']> (m_buckets c)) (m_hashmap_size c).

Lemma get_with_bucket {B} k' (f : crypto_bucket_t → M CryptoCache B) :
  (get_bucket p ≫= f) (with_bucket k') = f k' (with_bucket k').
Proof.
  unfold get_bucket. rewrite bind_assoc, bind_gets. simpl.
  change (hash (with_bucket k') p) with (hash c p). by rewrite lookup_insert_eq.
Qed.

Lemma put_with_bucket {B} k1 k2 (f : unit → M CryptoCache B) :
  (put_bucket p k2 ≫= f) (with_bucket k1) = f tt (with_bucket k2).
Proof.
  unfold put_bucket. rewrite bind_modify. unfold with_bucket. simpl.
  change (hash _ p) with (hash c p). by rewrite insert_insert_eq.
Qed.

Lemma unlock_with_bucket {B} k1 (f : unit → M CryptoCache B) :
  (on_bucket_lock p spin_unlock_uchar ≫= f) (with_bucket k1) =
    f tt (with_bucket (mkCBucket (head k1) 0)).
Proof.
  unfold on_bucket_lock. rewrite bind_assoc, get_with_bucket. simpl.
  by rewrite bind_assoc, put_with_bucket.
Qed.

Lemma lock_with_bucket {B} (f : unit → M CryptoCache B) :
  m_buckets c !! hash c p = Some k → lock k = 0 →
  (on_bucket_lock p spin_lock_uchar ≫= f) c = f tt (with_bucket (mkCBucket (head k) 1)).
Proof.
  intros Hk Hl. unfold on_bucket_lock, get_bucket. rewrite !bind_assoc, bind_gets, Hk.
  rewrite (bind_defined _ k) by done. unfold spin_lock_uchar. rewrite Hl. simpl.
  by rewrite bind_assoc.
Qed.
End bucket.

Lemma crypto_get_ok c K p :
  crypto_ok c K →
  ∃ c' ret, crypto_get p c = Ok (ret, c') ∧ meta <$> ret = K !! p ∧ crypto_ok c' K.
Proof.
  intros Hok. destruct (crypto_get_bucket_ok c K p Hok) as (k & Hk & Hl & Hf & _).
  exists (with_bucket c p (mkCBucket (head k) 0)), (find_item p (head k)). split_and!.
  - unfold crypto_get. rewrite (lock_with_bucket c p k) by done.
    by rewrite get_with_bucket, unlock_with_bucket.
  - done.
  - apply (put_bucket_ok c K); [done|done|]. intros q Hq. rewrite (crypto_find _ _ Hok).
    unfold lookup_meta. by rewrite Hq, Hk.
Qed.

(** After [crypto_add] the page has an item, whatever is in it if it is new. *)
Lemma crypto_add_ok c K p :
  crypto_ok c K →
  ∃ c' it, crypto_add p c = Ok (it, c') ∧ page_index it = p ∧
    crypto_ok c' (<[p := meta it]> K) ∧ (is_Some (K !! p) → K !! p = Some (meta it)).
Proof.
  intros Hok. destruct (crypto_get_bucket_ok c K p Hok) as (k & Hk & Hl & Hf & _).
  assert (∀ q, hash c q = hash c p → K !! q = meta <$> find_item q (head k)) as Hbk.
  { intros q Hq. rewrite (crypto_find _ _ Hok). unfold lookup_meta. by rewrite Hq, Hk. }
  unfold crypto_add. rewrite (lock_with_bucket c p k) by done. rewrite get_with_bucket.
  cbn [head]. destruct (find_item p (head k)) as [it|] eqn:E.
  - exists (with_bucket c p (mkCBucket (head k) 0)), it. rewrite unlock_with_bucket.
    rewrite Hf. simpl. split_and!; [done|by eapply crypto_find_item_page| |done].
    rewrite insert_id by done. by apply (put_bucket_ok c K).
  - exists (with_bucket c p (mkCBucket (head k ++ [new_item p]) 0)), (new_item p).
    cbv zeta. rewrite put_with_bucket, unlock_with_bucket. split_and!; [done|done| |].
    + apply (put_bucket_ok c K); [done| |].
      * intros q Hq. rewrite lookup_insert_ne; [done|]. by intros ->.
      * intros q Hq. rewrite crypto_find_item_app, lookup_insert. case_decide as Epq.
        { subst q. rewrite E. simpl. by rewrite Z.eqb_refl. }
        rewrite Hbk by done. simpl. rewrite (proj2 (Z.eqb_neq p q)) by done.
        by destruct (find_item q (head k)).
    + rewrite Hf. by intros [? ?].
Qed.

Lemma crypto_store_ok c K p n m :
  crypto_ok c K → is_Some (K !! p) →
  ∃ c', crypto_store p n m c = Ok (tt, c') ∧ crypto_ok c' (<[p := (n, m)]> K).
Proof.
  intros Hok Hp. destruct (crypto_get_bucket_ok c K p Hok) as (k & Hk & Hl & Hf & Hrun).
  eexists. split; [unfold crypto_store; by rewrite Hrun|]. rewrite Hl.
  apply (put_bucket_ok c K); [done| |].
  - intros q Hq. rewrite lookup_insert_ne; [done|]. by intros ->.
  - intros q Hq. rewrite find_update_item, lookup_insert. case_decide as Epq.
    + subst q. rewrite Z.eqb_refl. rewrite Hf in Hp.
      destruct (find_item p (head k)); [done|by destruct Hp].
    + rewrite (proj2 (Z.eqb_neq q p)) by done.
      rewrite (crypto_find _ _ Hok). unfold lookup_meta. by rewrite Hq, Hk.
Qed.

Lemma crypto_init_ok n : 0 < n → crypto_ok (crypto_init n) ∅.
Proof.
  intros Hn. constructor; simpl; [done| |].
  - intros b Hb. rewrite array_lookup by done. by eexists.
  - intros p. rewrite lookup_empty. unfold lookup_meta. simpl.
    rewrite array_lookup; [done|]. by apply Z.mod_pos_bound.
Qed.

(** ** Theorem *)

(** C20. The crypto cache refines a map that only grows: [add] gives every page
    an item and keeps the one it had, stores through the returned pointer
    replace that page's nonce and tag alone, and [get] reads them back. *)
Theorem crypto_cache_refines_map c K p n m :
  crypto_ok c K →
  ∃ it c1 c2 ret c3,
    crypto_add p c = Ok (it, c1) ∧ page_index it = p ∧
    (is_Some (K !! p) → K !! p = Some (meta it)) ∧
    crypto_store p n m c1 = Ok (tt, c2) ∧ crypto_ok c2 (<[p := (n, m)]> K) ∧
    crypto_get p c2 = Ok (ret, c3) ∧ meta <$> ret = Some (n, m) ∧
    crypto_ok c3 (<[p := (n, m)]> K).
Proof.
  intros Hok. destruct (crypto_add_ok c K p Hok) as (c1 & it & H1 & H2 & Hok1 & H3).
  destruct (crypto_store_ok c1 _ p n m Hok1) as (c2 & H4 & Hok2).
  { by rewrite lookup_insert_eq. }
  rewrite insert_insert_eq in Hok2.
  destruct (crypto_get_ok c2 _ p Hok2) as (c3 & ret & H5 & H6 & Hok3).
  rewrite lookup_insert_eq in H6. exists it, c1, c2, ret, c3. by split_and!.
Qed.

Lemma crypto_cache_refines_map_witness :
  ∃ c ret c', crypto_get 21 c = Ok (ret, c') ∧ meta <$> ret = Some ([7], [8]).
Proof.
  destruct (crypto_cache_refines_map (crypto_init 4) ∅ 21 [7] [8] (crypto_init_ok 4 ltac:(lia)))
    as (it & c1 & c2 & ret & c3 & _ & _ & _ & _ & _ & H & Hm & _).
  exists c2, ret, c3. split; [exact H|exact Hm].
Defined.
