(* ===== verification/Suvm.v ===== *)
(** * Secure user-managed virtual memory: paging

    Models [static_trusted/Aptr.cpp] (state, initialisation, eviction, page
    fault) and the [aptr_t] and [deref] of [static_trusted/Aptr.h], with
    [APTR_RANDOM_ACCESS] off as [DataStructures.h] has it.

    The AES-GCM routines, the random numbers and [malloc] belong to the SGX SDK
    and the platform: they are parameters. *)

From S2P Require Import Prelude Memory SyncUtils Ring Mem5.
From S2P Require PageCache CryptoCache.

Definition PAGE_SIZE : Z := 4096.
(** The bytes of a page, as a length. *)
Definition PAGE_BYTES : nat := Z.to_nat PAGE_SIZE.
Arguments PAGE_BYTES : simpl never.
Definition PAGE_SIZE_LOG : Z := 12.
Definition PAGE_BITS_MASK : Z := PAGE_SIZE - 1.

(** The bytes of the cache are a constant of the build. *)
Class Build := { CACHE_SIZE : Z }.
Definition CACHE_CAPACITY `{Bld : Build} : Z := CACHE_SIZE / PAGE_SIZE.
(** [#define CACHE_SIZE (1<<26)], what everything but the Windows port is about. *)
#[export] Instance linux_build : Build := {| CACHE_SIZE := Z.shiftl 1 26 |}.

Definition LLC_CAPACITY : Z := 262144.
Definition MN_REQ : Z := 16.
Definition MAX_NUM_OF_THREADS_OPTIMIZATION : Z := 10.

(** What the SGX SDK provides, and what the enclave's image has after [DUMMY]. *)
Class Sgx := {
  (** [sgx_rijndael128GCM_encrypt]: ciphertext and tag of a plaintext, or a
      status that is not success. *)
  gcm_encrypt : list Z → list Z → list Z → option (list Z * list Z);
  (** [sgx_rijndael128GCM_decrypt]: the plaintext where the tag is right. *)
  gcm_decrypt : list Z → list Z → list Z → list Z → option (list Z);
  (** [sgx_read_rand]: the [n]-th draw of so many bytes. *)
  read_rand : nat → nat → list Z;
  (** The eight bytes at [&DUMMY], as a pointer: [DUMMY] itself is one byte, 0,
      and the seven after it are what the linker put there. *)
  dummy_word : Z
}.

(** What is relied on.  Documented: decryption inverts encryption under the same
    key and nonce, lengths are kept, and with valid arguments, as they are here,
    encryption fails only for want of memory: there is enough.  Of the image:
    zeros follow [DUMMY]. *)
Class SgxLaws `{Sgx} := {
  gcm_round_trip key p n c t : gcm_encrypt key p n = Some (c, t) → gcm_decrypt key c n t = Some (u8 <$> p);
  gcm_length key p n c t : gcm_encrypt key p n = Some (c, t) → length c = length p;
  gcm_bytes key p n c t : gcm_encrypt key p n = Some (c, t) → u8 <$> c = c;
  gcm_succeeds key p n : is_Some (gcm_encrypt key p n);
  dummy_zero : dummy_word = 0
}.

(** ** State *)

(** An EPC slot is the address of a cell of [epc_arr], here its index; the
    address of [DUMMY] is another one. *)
Definition DUMMY : Z := -1.

Record suvm := mkSuvm {
  l1 : PageCache.PageCache;            (* g_aptr_crypto_page_cache_l1 *)
  llc : CryptoCache.CryptoCache;       (* g_aptr_crypto_page_cache_llc *)
  g_free_epc_pages : list Z;           (* the vector, its back first *)
  g_free_epc_pages_lock : Z;
  epc_arr : gmap Z Z;                  (* slot to page address and dirty bit *)
  prm : memory;                        (* the pages inside the enclave *)
  pool : heap;                         (* the allocator and the untrusted pool *)
  g_base_pool_ptr : Z;
  g_pool_size : Z;
  g_slab : Z;
  g_eviction_key : list Z;
  draws : nat;                         (* random draws so far *)
  g_perf_counters : Z;                 (* counter 0, the page faults *)
  g_dirty : Z;
  g_is_initialized : bool
}.

Section setters.
Context (s : suvm).
Definition set_l1 c := mkSuvm c (llc s) (g_free_epc_pages s) (g_free_epc_pages_lock s)
  (epc_arr s) (prm s) (pool s) (g_base_pool_ptr s) (g_pool_size s) (g_slab s)
  (g_eviction_key s) (draws s) (g_perf_counters s) (g_dirty s) (g_is_initialized s).
Definition set_llc c := mkSuvm (l1 s) c (g_free_epc_pages s) (g_free_epc_pages_lock s)
  (epc_arr s) (prm s) (pool s) (g_base_pool_ptr s) (g_pool_size s) (g_slab s)
  (g_eviction_key s) (draws s) (g_perf_counters s) (g_dirty s) (g_is_initialized s).
Definition set_free f l := mkSuvm (l1 s) (llc s) f l
  (epc_arr s) (prm s) (pool s) (g_base_pool_ptr s) (g_pool_size s) (g_slab s)
  (g_eviction_key s) (draws s) (g_perf_counters s) (g_dirty s) (g_is_initialized s).
Definition set_epc_arr a := mkSuvm (l1 s) (llc s) (g_free_epc_pages s) (g_free_epc_pages_lock s)
  a (prm s) (pool s) (g_base_pool_ptr s) (g_pool_size s) (g_slab s)
  (g_eviction_key s) (draws s) (g_perf_counters s) (g_dirty s) (g_is_initialized s).
Definition set_prm m := mkSuvm (l1 s) (llc s) (g_free_epc_pages s) (g_free_epc_pages_lock s)
  (epc_arr s) m (pool s) (g_base_pool_ptr s) (g_pool_size s) (g_slab s)
  (g_eviction_key s) (draws s) (g_perf_counters s) (g_dirty s) (g_is_initialized s).
Definition set_pool h := mkSuvm (l1 s) (llc s) (g_free_epc_pages s) (g_free_epc_pages_lock s)
  (epc_arr s) (prm s) h (g_base_pool_ptr s) (g_pool_size s) (g_slab s)
  (g_eviction_key s) (draws s) (g_perf_counters s) (g_dirty s) (g_is_initialized s).
Definition set_draws n := mkSuvm (l1 s) (llc s) (g_free_epc_pages s) (g_free_epc_pages_lock s)
  (epc_arr s) (prm s) (pool s) (g_base_pool_ptr s) (g_pool_size s) (g_slab s)
  (g_eviction_key s) n (g_perf_counters s) (g_dirty s) (g_is_initialized s).
Definition count_fault := mkSuvm (l1 s) (llc s) (g_free_epc_pages s) (g_free_epc_pages_lock s)
  (epc_arr s) (prm s) (pool s) (g_base_pool_ptr s) (g_pool_size s) (g_slab s)
  (g_eviction_key s) (draws s) (u64 (g_perf_counters s + 1)) (g_dirty s) (g_is_initialized s).
Definition count_dirty := mkSuvm (l1 s) (llc s) (g_free_epc_pages s) (g_free_epc_pages_lock s)
  (epc_arr s) (prm s) (pool s) (g_base_pool_ptr s) (g_pool_size s) (g_slab s)
  (g_eviction_key s) (draws s) (g_perf_counters s) (u64 (g_dirty s + 1)) (g_is_initialized s).
End setters.

Definition on_l1 {A} (m : M PageCache.PageCache A) : M suvm A := zoom l1 (λ c s, set_l1 s c) m.
Definition on_llc {A} (m : M CryptoCache.CryptoCache A) : M suvm A :=
  zoom llc (λ c s, set_llc s c) m.
Definition on_free_lock {A} (m : M Z A) : M suvm A :=
  zoom g_free_epc_pages_lock (λ w s, set_free s (g_free_epc_pages s) w) m.
Definition on_pool {A} (m : M heap A) : M suvm A := zoom pool (λ h s, set_pool s h) m.

(** [ *prm_ptr]: eight bytes, also of [DUMMY]; writing so many there is
    undefined. *)
Definition read_slot `{Sgx} (prm_ptr : Z) : M suvm Z :=
  if prm_ptr =? DUMMY then mret dummy_word else v ← gets (λ s, epc_arr s !! prm_ptr); defined v.
Definition write_slot (prm_ptr v : Z) : M suvm unit :=
  if prm_ptr =? DUMMY then fail EUndef
  else
    o ← gets (λ s, epc_arr s !! prm_ptr);
    _ ← defined o;
    modify (λ s, set_epc_arr s (<[prm_ptr := v]> (epc_arr s))).

(** [g_base_pool_ptr + page_index * PAGE_SIZE]: the product is an [int]. *)
Definition ram_page_ptr (s : suvm) (page_index : Z) : Z :=
  g_base_pool_ptr s + i32 (page_index * PAGE_SIZE).

(** [v & 0xFFFFFFFFFFFFFFFE] and [v | 0x01] on the value of a slot. *)
Definition clean (v : Z) : Z := Z.land v 0xFFFFFFFFFFFFFFFE.
Definition dirty (v : Z) : Z := Z.lor v 1.

(** [g_free_epc_pages.push_back] under its lock. *)
Definition push_free (prm_ptr : Z) : M suvm unit :=
  on_free_lock spin_lock;;
  modify (λ s, set_free s (prm_ptr :: g_free_epc_pages s) (g_free_epc_pages_lock s));;
  on_free_lock spin_unlock.

(** The pointer of a client: [struct aptr_t]. *)
Record aptr_t := mkAptr { prm_ptr : Z; page : Z; offset : Z; hint_write : bool }.

Section paging.
Context `{Sgx} `{Bld : Build}.

(** ** Eviction *)

(** The dirty branch of [try_evict_page]: encrypt the page to the pool. *)
Definition write_back (page_index slot v : Z) : M suvm unit :=
  let prm_addr := clean v in
  write_slot slot prm_addr;;
  _ ← on_llc (CryptoCache.crypto_add page_index);
  n ← gets (λ s, read_rand (draws s) (Z.to_nat CryptoCache.NONCE_BYTE_SIZE));
  modify (λ s, set_draws s (S (draws s)));;
  r ← gets (λ s, gcm_encrypt (g_eviction_key s)
                   (load_bytes (prm s) prm_addr PAGE_BYTES) n);
  match r with
  | None => fail EAbort
  | Some (c, mac) =>
      modify (λ s, set_pool s (set_ram (λ m, store_bytes m (ram_page_ptr s page_index) c) (pool s)));;
      on_llc (CryptoCache.crypto_store page_index n mac)
  end.

Definition try_evict_page (pce : PageCache.item_t) : M suvm Z :=
  let page_index := PageCache.page_index pce in
  let slot := PageCache.epc pce in
  v ← read_slot slot;
  (if Z.land v 1 =? 1 then write_back page_index slot v else mret tt);;
  _ ← on_l1 (PageCache.remove page_index);
  push_free slot;;
  mret 0.

(** ** Page faults *)

(** The eviction loop passes the ring once at most. *)
Definition EVICT_FUEL : nat := Z.to_nat CACHE_CAPACITY.

(** Makes room where the cache is nearly full. *)
Definition make_room : M suvm unit :=
  n ← gets (λ s, PageCache.m_page_cache_size (l1 s));
  if CACHE_CAPACITY - MAX_NUM_OF_THREADS_OPTIMIZATION <=? n then
    page_to_evict ← on_l1 (PageCache.get_page_index_to_evict EVICT_FUEL);
    _ ← try_evict_page page_to_evict;
    mret tt
  else mret tt.

(** Takes the last free slot. *)
Definition pop_free : M suvm Z :=
  on_free_lock spin_lock;;
  f ← gets g_free_epc_pages;
  match f with
  | [] => fail EAbort
  | slot :: f' =>
      modify (λ s, set_free s f' (g_free_epc_pages_lock s));;
      on_free_lock spin_unlock;;
      mret slot
  end.

(** Decrypts the page into the slot if it was ever written back. *)
Definition page_in (page_index slot : Z) : M suvm unit :=
  crypto_item ← on_llc (CryptoCache.crypto_get page_index);
  match crypto_item with
  | None => mret tt
  | Some it =>
      epc_ptr ← read_slot slot;
      r ← gets (λ s, gcm_decrypt (g_eviction_key s)
            (load_bytes (ram (pool s)) (ram_page_ptr s page_index) PAGE_BYTES)
            (CryptoCache.nonce it) (CryptoCache.mac_ptr it));
      match r with
      | None => fail EAbort
      | Some p => modify (λ s, set_prm s (store_bytes (prm s) epc_ptr p))
      end
  end.

(** Enters the page in the cache, or gives the slot back if it is there. *)
Definition install (page_index slot : Z) : M suvm Z :=
  added ← on_l1 (PageCache.try_add page_index slot);
  if (added : bool) then mret slot
  else
    found ← on_l1 (PageCache.get page_index);
    match found with
    | None => fail EAbort
    | Some it => push_free slot;; mret (PageCache.epc it)
    end.

Definition page_fault (a : aptr_t) (base_page_index : Z) : M suvm aptr_t :=
  modify count_fault;;
  let tmp_page := Z.shiftr (offset a) PAGE_SIZE_LOG in
  v ← read_slot (prm_ptr a);
  (if v =? 0 then mret tt
   else on_l1 (PageCache.dec_ref_count (i32 (base_page_index + page a))));;
  let tmp_offset := Z.land (offset a) PAGE_BITS_MASK in
  let real_page := i32 (page a + tmp_page) in
  let page_index := i32 (base_page_index + real_page) in
  on_l1 (PageCache.inc_ref_count page_index);;
  it ← on_l1 (PageCache.get page_index);
  match it with
  | Some it => mret (mkAptr (PageCache.epc it) real_page tmp_offset (hint_write a))
  | None =>
      make_room;;
      slot ← pop_free;
      page_in page_index slot;;
      slot' ← install page_index slot;
      mret (mkAptr slot' real_page tmp_offset (hint_write a))
  end.

(** ** Dereference *)

Definition ISVALID (off : Z) : bool := (off <? PAGE_SIZE) && (0 <=? off).

(** Returns the address and the pointer as the fault left it. *)
Definition deref (a : aptr_t) (base_page_index : Z) : M suvm (Z * aptr_t) :=
  a ← (if ISVALID (offset a) then mret a else page_fault a base_page_index);
  v ← read_slot (prm_ptr a);
  (if hint_write a then
     massert (negb (v =? 0));;
     modify count_dirty;;
     write_slot (prm_ptr a) (dirty v)
   else mret tt);;
  mret (clean v + offset a, a).

(** A load or store through the address: outside the enclave's pages it is
    undefined behaviour. *)
Definition in_slab (s : suvm) (addr : Z) : bool :=
  (g_slab s <=? addr) && (addr <? g_slab s + CACHE_CAPACITY * PAGE_SIZE).
Definition load_prm (addr : Z) : M suvm Z :=
  s ← gets id;
  if in_slab s addr then mret (rd8 (prm s) addr) else fail EUndef.
Definition store_prm (addr v : Z) : M suvm unit :=
  s ← gets id;
  if in_slab s addr then modify (λ s, set_prm s (wr8 (prm s) addr v)) else fail EUndef.

(** ** Initialisation *)

(** [for (i=0; i<CACHE_CAPACITY; i++)]: fills [epc_arr] and the free list. *)
Fixpoint slab_loop (n : nat) (i : Z) : M suvm unit :=
  match n with
  | O => mret tt
  | S n' =>
      p ← gets (λ s, g_slab s + i * PAGE_SIZE);
      modify (λ s, set_epc_arr s (<[i := p]> (epc_arr s)));;
      massert (negb (p =? 0));;
      modify (λ s, set_free s (i :: g_free_epc_pages s) (g_free_epc_pages_lock s));;
      slab_loop n' (i + 1)
  end.

(** [slab_ptr] is what [malloc] returns for the slab, [garbage] the memory
    the ring's lock word is made of. *)
Definition initialize_aptr (ptr_pool pool_size : Z) (has_ptr_to_pin has_size_to_pin : bool)
    (slab_ptr garbage : Z) : M suvm Z :=
  s ← gets id;
  massert (negb (g_is_initialized s || (ptr_pool =? 0) || negb has_ptr_to_pin
                 || negb has_size_to_pin));;
  modify (λ s, mkSuvm
    (PageCache.cache_init (CACHE_CAPACITY * 10) (pool_size / PAGE_SIZE) CACHE_CAPACITY garbage)
    (CryptoCache.crypto_init LLC_CAPACITY) (g_free_epc_pages s) (g_free_epc_pages_lock s)
    ∅ (prm s) (pool s) ptr_pool pool_size (Z.land slab_ptr (Z.lnot 0xFFF))
    (g_eviction_key s) (draws s) (g_perf_counters s) (g_dirty s) (g_is_initialized s));;
  slab_loop (Z.to_nat CACHE_CAPACITY) 0;;
  rc ← on_pool (memsys5Init ptr_pool pool_size MN_REQ);
  massert (rc =? 0);;
  modify (λ s, mkSuvm (l1 s) (llc s) (g_free_epc_pages s) (g_free_epc_pages_lock s)
    (epc_arr s) (prm s) (pool s) (g_base_pool_ptr s) (g_pool_size s) (g_slab s)
    (read_rand (draws s) 16) (S (draws s)) (g_perf_counters s) (g_dirty s) true);;
  mret 0.
End paging.
Arguments EVICT_FUEL : simpl never.
