(* ===== verification/SuvmInv.v ===== *)
(** * The invariant of the paging layer

    What ties the page cache, the crypto cache, the EPC slots and the pool to
    the contents [V] of the pages and to the list [L] of the pages that linked
    pointers hold. *)

From S2P Require Import Prelude Memory SyncUtils Ring Mem5 Suvm.
From S2P Require Import PageCacheSpec.
From S2P Require PageCache CryptoCache.

(** How many pointers hold page [p]. *)
Fixpoint refs (p : Z) (L : list Z) : Z :=
  match L with
  | [] => 0
  | q :: L' => (if decide (q = p) then 1 else 0) + refs p L'
  end.

Lemma refs_nonneg p L : 0 ≤ refs p L.
Proof. induction L as [|q L IH]; simpl; [done|]. case_decide; lia. Qed.

Lemma refs_elem p L : p ∈ L ↔ 0 < refs p L.
Proof.
  induction L as [|q L IH]; simpl; [split; [by intros ?%elem_of_nil|lia]|].
  rewrite elem_of_cons, IH. pose proof (refs_nonneg p L). case_decide; subst; intuition lia.
Qed.

(** The address of slot [i] and the page in it. *)
Definition slot_addr (s : suvm) (i : Z) : Z := g_slab s + i * PAGE_SIZE.
Definition slot_bytes (s : suvm) (i : Z) : list Z :=
  load_bytes (prm s) (slot_addr s i) PAGE_BYTES.
Definition ram_bytes (s : suvm) (p : Z) : list Z :=
  load_bytes (ram (pool s)) (g_base_pool_ptr s + p * PAGE_SIZE) PAGE_BYTES.
Definition slot_val (s : suvm) (i : Z) (d : bool) : Z := slot_addr s i + if d then 1 else 0.

(** The pool as the allocator left it: paging only writes the pages that have
    contents, and a change of the allocator's changes the base. *)
Class PoolBase := pool_base : heap.

(** Byte [a] of the pool is of page [p]. *)
Definition in_page (s : suvm) (p a : Z) : Prop :=
  g_base_pool_ptr s + p * PAGE_SIZE ≤ a < g_base_pool_ptr s + p * PAGE_SIZE + PAGE_SIZE.

Section inv.
Context `{Sgx} {HB : PoolBase}.

(** The pool's copy of page [p] decrypts to [b]. *)
Definition stored (s : suvm) (K : gmap Z (list Z * list Z)) (p : Z) (b : list Z) : Prop :=
  ∃ n m, K !! p = Some (n, m) ∧ gcm_decrypt (g_eviction_key s) (ram_bytes s p) n m = Some b.

(** The number of pages of the pool. *)
Definition npages (s : suvm) : Z := g_pool_size s / PAGE_SIZE.

Record geometry (s : suvm) : Prop := {
  geo_slab : 0 < g_slab s ∧ (PAGE_SIZE | g_slab s) ∧
    g_slab s + CACHE_CAPACITY * PAGE_SIZE < 2 ^ 63;
  geo_pool : 0 < g_base_pool_ptr s ∧ npages s * PAGE_SIZE ≤ 2 ^ 31;
  geo_lock : g_free_epc_pages_lock s = 0
}.

(** [D] says which slots are dirty; [pend] is the page a fault is bringing in,
    held already but not cached yet. *)
Record suvm_inv (s : suvm) (C : gmap Z Z) (U : list Z) (K : gmap Z (list Z * list Z))
    (D : Z → bool) (V : gmap Z (list Z)) (L : list Z) (lk out pend : option Z) : Prop := {
  inv_geo : geometry s;
  inv_l1 : cache_ok (l1 s) C U lk out;
  inv_llc : CryptoCache.crypto_ok (llc s) K;
  inv_ring : PageCache.m_queue_size (PageCache.m_used_pages (l1 s)) = CACHE_CAPACITY;
  inv_cached : ∀ p i, C !! p = Some i → 0 ≤ p < npages s ∧ 0 ≤ i < CACHE_CAPACITY;
  inv_inj : ∀ p q i, C !! p = Some i → C !! q = Some i → p = q;
  inv_free : NoDup (g_free_epc_pages s) ∧
    ∀ i, i ∈ g_free_epc_pages s → 0 ≤ i < CACHE_CAPACITY ∧ D i = false ∧ ∀ p, C !! p ≠ Some i;
  inv_slots : Z.of_nat (length (g_free_epc_pages s)) + Z.of_nat (size C) = CACHE_CAPACITY;
  inv_arr : ∀ i, 0 ≤ i < CACHE_CAPACITY → epc_arr s !! i = Some (slot_val s i (D i));
  inv_refs : ∀ p, 0 ≤ p < npages s →
    PageCache.m_ref_count (l1 s) !! p = Some (refs p L) ∧ refs p L < 256;
  inv_held : ∀ p, p ∈ L → 0 ≤ p < npages s ∧ (is_Some (C !! p) ∨ pend = Some p);
  inv_page : ∀ p b, V !! p = Some b →
    length b = PAGE_BYTES ∧ u8 <$> b = b ∧ 0 ≤ p < npages s;
  inv_bytes : ∀ p b, V !! p = Some b →
    match C !! p with
    | Some i => slot_bytes s i = b ∧ (D i = true ∨ stored s K p b)
    | None => stored s K p b
    end;
  inv_fresh : ∀ p, V !! p = None → K !! p = None ∧ ∀ i, C !! p = Some i → D i = false;
  inv_mem5 : mem5 (pool s) = mem5 pool_base;
  inv_outside : ∀ a, (∀ p, is_Some (V !! p) → ¬ in_page s p a) →
    rd8 (ram (pool s)) a = rd8 (ram pool_base) a
}.
End inv.

(** ** Addresses *)

Lemma page_bytes : Z.of_nat PAGE_BYTES = PAGE_SIZE.
Proof. reflexivity. Qed.

Lemma slot_val_clean s i d :
  geometry s → 0 ≤ i < CACHE_CAPACITY → clean (slot_val s i d) = slot_addr s i.
Proof.
  intros [(H1 & [k Hk] & H2) _ _] Hi. unfold slot_val, clean, slot_addr in *. rewrite Hk in *.
  change CACHE_CAPACITY with 16384 in *. unfold PAGE_SIZE in *.
  replace (k * 4096 + i * 4096) with (2 * (2048 * (k + i))) by lia.
  set (n := 2048 * (k + i)). assert (0 ≤ n < 2 ^ 63) as Hn by lia.
  apply Z.bits_inj'. intros j Hj. rewrite Z.land_spec.
  change 0xFFFFFFFFFFFFFFFE with (2 * Z.ones 63).
  destruct (decide (j = 0)) as [->|Hj0].
  - rewrite !Z.testbit_even_0. by rewrite andb_false_r.
  - replace j with (Z.succ (j - 1)) by lia. rewrite !Z.testbit_even_succ by lia.
    replace (Z.testbit (2 * n + (if d then 1 else 0)) (Z.succ (j - 1))) with (Z.testbit n (j - 1)).
    + rewrite Z.testbit_ones_nonneg by lia. destruct (Z.ltb_spec (j - 1) 63); [by rewrite andb_true_r|].
      rewrite andb_false_r. symmetry. apply Z.bits_above_log2; [lia|].
      destruct (decide (n = 0)) as [->|]; [simpl; lia|]. apply Z.log2_lt_pow2; [lia|].
      apply (Z.lt_le_trans _ (2 ^ 63)); [lia|apply Z.pow_le_mono_r; lia].
    + destruct d; [by rewrite Z.testbit_odd_succ by lia|by rewrite Z.add_0_r, Z.testbit_even_succ by lia].
Qed.

Lemma slot_val_bit s i d :
  geometry s → (Z.land (slot_val s i d) 1 =? 1) = d.
Proof.
  intros [(H1 & [k Hk] & H2) _ _]. unfold slot_val, slot_addr. rewrite Hk.
  change 1 with (Z.ones 1) at 2. rewrite Z.land_ones by done. change (2 ^ 1) with 2.
  unfold PAGE_SIZE. replace (k * 4096 + i * 4096) with (2048 * (k + i) * 2) by lia.
  rewrite Z.add_comm, Z.mod_add by lia. by destruct d.
Qed.

Lemma slot_val_dirty s i d : geometry s → dirty (slot_val s i d) = slot_val s i true.
Proof.
  intros [(H1 & [k Hk] & H2) _ _]. unfold dirty, slot_val, slot_addr. rewrite Hk. unfold PAGE_SIZE.
  replace (k * 4096 + i * 4096) with (2 * (2048 * (k + i))) by lia. set (n := 2048 * (k + i)).
  apply Z.bits_inj'. intros j Hj. rewrite Z.lor_spec.
  destruct (decide (j = 0)) as [->|Hj0].
  - rewrite Z.testbit_odd_0. simpl. by rewrite orb_true_r.
  - replace (Z.testbit 1 j) with false by (symmetry; apply Z.bits_above_log2; simpl; lia).
    rewrite orb_false_r. replace j with (Z.succ (j - 1)) by lia.
    destruct d; [done|]. rewrite Z.add_0_r.
    by rewrite Z.testbit_even_succ, Z.testbit_odd_succ by lia.
Qed.

Lemma slot_val_nonzero s i d : geometry s → 0 ≤ i → slot_val s i d ≠ 0.
Proof.
  intros [(H1 & _ & _) _ _] Hi. unfold slot_val, slot_addr, PAGE_SIZE. destruct d; lia.
Qed.

(** Distinct slots are disjoint, and so are distinct pages of the pool. *)
Lemma slot_disjoint s i j :
  i ≠ j → slot_addr s i + PAGE_SIZE ≤ slot_addr s j ∨ slot_addr s j + PAGE_SIZE ≤ slot_addr s i.
Proof. intros. unfold slot_addr, PAGE_SIZE. lia. Qed.

Lemma ram_page_ptr_eq s p :
  geometry s → 0 ≤ p < npages s → ram_page_ptr s p = g_base_pool_ptr s + p * PAGE_SIZE.
Proof.
  intros [_ [_ Hn] _] Hp. unfold ram_page_ptr. f_equal. apply i32_id. unfold PAGE_SIZE in *. lia.
Qed.
