(* ===== verification/SuvmProofs.v ===== *)
(** * Paging is transparent

    Eviction, page faults and dereferences against the invariant of the paging
    layer. *)

From S2P Require Import Prelude Memory SyncUtils Ring Mem5 Suvm SuvmInv.
From S2P Require Import PageCacheSpec.
From S2P Require PageCache CryptoCache.

Lemma evict_fuel : Z.of_nat EVICT_FUEL = CACHE_CAPACITY.
Proof. unfold EVICT_FUEL. by rewrite Z2Nat.id. Qed.
Lemma capacity : CACHE_CAPACITY = 16384.
Proof. reflexivity. Qed.
#[local] Opaque EVICT_FUEL.
#[local] Opaque CACHE_CAPACITY.
#[local] Opaque PAGE_BYTES.

(** ** Runs of the small routines *)

Lemma on_l1_run {A B} (m : M PageCache.PageCache A) (f : A → M suvm B) s a c :
  m (l1 s) = Ok (a, c) → (on_l1 m ≫= f) s = f a (set_l1 s c).
Proof. intros E. unfold on_l1. by erewrite (bind_zoom l1 _ _ _ _ _ _ E). Qed.

Lemma on_llc_run {A B} (m : M CryptoCache.CryptoCache A) (f : A → M suvm B) s a c :
  m (llc s) = Ok (a, c) → (on_llc m ≫= f) s = f a (set_llc s c).
Proof. intros E. unfold on_llc. by erewrite (bind_zoom llc _ _ _ _ _ _ E). Qed.

Lemma on_llc_last {A} (m : M CryptoCache.CryptoCache A) s a c :
  m (llc s) = Ok (a, c) → on_llc m s = Ok (a, set_llc s c).
Proof. intros E. unfold on_llc, zoom. by rewrite E. Qed.

Lemma read_slot_run `{Sgx} {B} (f : Z → M suvm B) s i v :
  0 ≤ i → epc_arr s !! i = Some v → (read_slot i ≫= f) s = f v s.
Proof.
  intros Hi Hv. unfold read_slot. rewrite (proj2 (Z.eqb_neq i DUMMY)) by (unfold DUMMY; lia).
  mrun. by rewrite (bind_defined _ _ _ _ Hv).
Qed.

Lemma write_slot_run {B} (f : unit → M suvm B) s i v w :
  0 ≤ i → epc_arr s !! i = Some v →
  (write_slot i w ≫= f) s = f tt (set_epc_arr s (<[i := w]> (epc_arr s))).
Proof.
  intros Hi Hv. unfold write_slot. rewrite (proj2 (Z.eqb_neq i DUMMY)) by (unfold DUMMY; lia).
  rewrite bind_assoc. mrun. by rewrite Hv.
Qed.

Lemma free_lock_run {B} (f : unit → M suvm B) s :
  g_free_epc_pages_lock s = 0 →
  (on_free_lock spin_lock ≫= f) s = f tt (set_free s (g_free_epc_pages s) 1).
Proof.
  intros E. unfold on_free_lock. erewrite (bind_zoom g_free_epc_pages_lock _ _ _ _ tt 1); [done|].
  unfold spin_lock. by rewrite E.
Qed.

Lemma push_free_run {B} (f : unit → M suvm B) s i :
  g_free_epc_pages_lock s = 0 →
  (push_free i ≫= f) s = f tt (set_free s (i :: g_free_epc_pages s) 0).
Proof.
  intros E. unfold push_free. rewrite bind_assoc, free_lock_run by done. by mrun.
Qed.

Lemma pop_free_run {B} (f : Z → M suvm B) s i l :
  g_free_epc_pages_lock s = 0 → g_free_epc_pages s = i :: l →
  (pop_free ≫= f) s = f i (set_free s l 0).
Proof.
  intros E El. unfold pop_free. rewrite bind_assoc, free_lock_run by done. mrun.
  cbn [g_free_epc_pages set_free]. rewrite El. by mrun.
Qed.

Section proofs.
Context `{HS : Sgx, HB : PoolBase, HL : !SgxLaws}.

(** Fields that paging never changes. *)
Definition same_static (s s' : suvm) : Prop :=
  g_base_pool_ptr s' = g_base_pool_ptr s ∧ g_pool_size s' = g_pool_size s ∧
  g_slab s' = g_slab s ∧ g_eviction_key s' = g_eviction_key s.

Lemma same_static_trans s1 s2 s3 : same_static s1 s2 → same_static s2 s3 → same_static s1 s3.
Proof. intros (?&?&?&?) (?&?&?&?). unfold same_static. split_and!; congruence. Qed.

Lemma npages_page s p q :
  p ≠ q → g_base_pool_ptr s + p * PAGE_SIZE + PAGE_SIZE ≤ g_base_pool_ptr s + q * PAGE_SIZE ∨
  g_base_pool_ptr s + q * PAGE_SIZE + PAGE_SIZE ≤ g_base_pool_ptr s + p * PAGE_SIZE.
Proof. unfold PAGE_SIZE. lia. Qed.

(** ** Writing a page back *)

(** The state [write_back] leaves; [ct] is the encrypted page. *)
Definition written_back (s : suvm) (p i : Z) (c : CryptoCache.CryptoCache) (ct : list Z) : suvm :=
  set_llc (set_pool (set_draws (set_epc_arr s (<[i := slot_addr s i]> (epc_arr s))) (S (draws s)))
    (set_ram (λ m, store_bytes m (g_base_pool_ptr s + p * PAGE_SIZE) ct) (pool s))) c.

Lemma ram_bytes_written s p i c ct q :
  length ct = PAGE_BYTES → u8 <$> ct = ct →
  ram_bytes (written_back s p i c ct) q = if decide (q = p) then ct else ram_bytes s q.
Proof.
  intros Hlen Hb. unfold ram_bytes, written_back. simpl. case_decide as E; [subst q|].
  - rewrite <- Hlen, load_store_bytes_eq. exact Hb.
  - apply load_store_bytes_ne. rewrite Hlen, page_bytes. unfold PAGE_SIZE. lia.
Qed.

Lemma write_back_ok s C U K D V L lk out pend p i :
  suvm_inv s C U K D V L lk out pend → C !! p = Some i → D i = true →
  ∃ s' K', (∀ B (f : unit → M suvm B), (write_back p i (slot_val s i true) ≫= f) s = f tt s') ∧
    suvm_inv s' C U K' (fupd D i false) V L lk out pend ∧ stored s' K' p (slot_bytes s i) ∧
    (∀ q, q ≠ p → ram_bytes s' q = ram_bytes s q) ∧
    l1 s' = l1 s ∧ g_free_epc_pages s' = g_free_epc_pages s ∧ same_static s s'.
Proof.
  intros Hinv Hp Hd. pose proof (inv_geo _ _ _ _ _ _ _ _ _ _ Hinv) as Hgeo.
  destruct (inv_cached _ _ _ _ _ _ _ _ _ _ Hinv p i Hp) as [Hpr Hir].
  set (n := read_rand (draws s) (Z.to_nat CryptoCache.NONCE_BYTE_SIZE)).
  destruct (gcm_succeeds (g_eviction_key s) (slot_bytes s i) n) as [[ct tg] Hr].
  assert (length ct = PAGE_BYTES) as Hlct by (rewrite (gcm_length _ _ _ _ _ Hr); apply length_load_bytes).
  pose proof (gcm_bytes _ _ _ _ _ Hr) as Hbct.
  destruct (CryptoCache.crypto_add_ok _ K p (inv_llc _ _ _ _ _ _ _ _ _ _ Hinv))
    as (c1 & it & Hadd & _ & Hok1 & _).
  destruct (CryptoCache.crypto_store_ok c1 _ p n tg Hok1) as (c2 & Hstore & Hok2).
  { by rewrite lookup_insert_eq. }
  rewrite insert_insert_eq in Hok2.
  pose proof (inv_arr _ _ _ _ _ _ _ _ _ _ Hinv i Hir) as Harr.
  assert (stored (written_back s p i c2 ct) (<[p := (n, tg)]> K) p (slot_bytes s i)) as Hstp.
  { exists n, tg. rewrite lookup_insert_eq. split; [done|].
    rewrite ram_bytes_written, decide_True by done. simpl.
    rewrite (gcm_round_trip _ _ _ _ _ Hr). f_equal. apply u8_load_bytes. }
  exists (written_back s p i c2 ct), (<[p := (n, tg)]> K).
  split; [|split; [|split; [exact Hstp|split; [|by split_and!]]]].
  - intros B f. unfold write_back. rewrite slot_val_clean by done. rewrite bind_assoc.
    rewrite (write_slot_run _ s i (slot_val s i (D i))) by (done || lia).
    rewrite bind_assoc, (on_llc_run _ _ (set_epc_arr s _) _ _ Hadd). mrun.
    change (load_bytes (prm _) (slot_addr s i) _) with (slot_bytes s i). fold n.
    cbn [g_eviction_key draws set_draws set_llc set_epc_arr]. fold n. rewrite Hr. cbv beta iota. mrun.
    rewrite (on_llc_run _ _ _ tt c2) by done. f_equal.
    unfold written_back, ram_page_ptr. simpl.
    by rewrite <- (ram_page_ptr_eq s p Hgeo Hpr).
  - destruct Hinv as [G I1 I2 I3 I4 I5 [I6 I6'] I7 I8 I9 I10 Iw I11 I12 I13 I14].
    assert (∀ q b, q ≠ p → stored s K q b → stored (written_back s p i c2 ct) (<[p := (n, tg)]> K) q b)
      as Hst.
    { intros q b Hq (n' & m' & Hk & Hdec). exists n', m'. rewrite lookup_insert_ne by done.
      split; [done|]. rewrite ram_bytes_written, decide_False by done. done. }
    constructor; try done.
    + destruct G as [G1 G2 G3]. by constructor.
    + split; [done|]. intros j Hj. destruct (I6' j Hj) as (H1 & H2 & H3).
      split_and!; [lia..| |done]. unfold fupd. by case_decide.
    + intros j Hj. simpl. rewrite lookup_insert. unfold fupd.
      destruct (decide (i = j)) as [<-|Hij].
      * rewrite decide_True by done. unfold slot_val, slot_addr. simpl. f_equal. lia.
      * rewrite decide_False by done. by rewrite I8.
    + intros q b Hq. specialize (I11 q b Hq). destruct (decide (q = p)) as [->|Hqp].
      * rewrite Hp in I11 |- *. destruct I11 as [Hb _]. split; [exact Hb|]. right.
        rewrite <- Hb. exact Hstp.
      * destruct (C !! q) as [j|] eqn:Eq; [|by apply Hst].
        destruct I11 as [Hb Hor]. split; [exact Hb|].
        unfold fupd. rewrite decide_False by (intros ->; apply Hqp; by eapply I5).
        destruct Hor; auto.
    + intros q Hq. destruct (I12 q Hq) as [H1 H2].
      assert (q ≠ p) as Hqp by (intros ->; specialize (H2 i Hp); congruence).
      split; [by rewrite lookup_insert_ne|]. intros j Hj. unfold fupd.
      case_decide; [done|by apply H2].
    + intros a Ha. simpl. rewrite rd8_store_bytes_ne; [by apply I14|].
      rewrite Hlct, page_bytes.
      assert (is_Some (V !! p)) as HV.
      { destruct (V !! p) eqn:EV; [done|]. destruct (I12 p EV) as [_ H2]. specialize (H2 i Hp). congruence. }
      specialize (Ha p HV). unfold in_page in Ha. simpl in Ha. lia.
  - intros q Hq. by rewrite ram_bytes_written, decide_False.
Qed.

(** ** Eviction *)

(** What is left to do once the page's slot is clean: out of the cache, its
    slot on the free list. *)
Lemma drop_page_ok s C U K D V L pend p i :
  suvm_inv s C U K D V L (Some p) (Some p) pend → C !! p = Some i → D i = false → p ∉ L →
  (is_Some (V !! p) → ∃ b, V !! p = Some b ∧ stored s K p b) →
  ∃ c, PageCache.remove p (l1 s) = Ok (0, c) ∧
    suvm_inv (set_free (set_l1 s c) (i :: g_free_epc_pages s) 0)
      (delete p C) U K D V L None None pend.
Proof.
  intros Hinv Hp Hd HpL Hst.
  destruct (remove_ok _ _ _ p i (inv_l1 _ _ _ _ _ _ _ _ _ _ Hinv) Hp) as (c & Hrun & Hok & [[R1 R2] R3]).
  exists c. split; [done|].
  destruct (inv_cached _ _ _ _ _ _ _ _ _ _ Hinv p i Hp) as [Hpr Hir].
  destruct Hinv as [G I1 I2 I3 I4 I5 [I6 I6'] I7 I8 I9 I10 Iw I11 I12 I13 I14].
  assert (∀ q j, delete p C !! q = Some j → q ≠ p ∧ C !! q = Some j) as Hdel.
  { intros q j. rewrite lookup_delete. case_decide; naive_solver. }
  constructor; try done.
  - destruct G as [G1 G2 G3]. by constructor.
  - simpl. congruence.
  - intros q j Hq. apply Hdel in Hq as [_ Hq]. by apply I4.
  - intros q1 q2 j H1 H2. apply Hdel in H1 as [_ H1]. apply Hdel in H2 as [_ H2]. by eapply I5.
  - simpl. split.
    + apply NoDup_cons. split; [|done]. intros Hin. destruct (I6' i Hin) as (_ & _ & H3).
      by apply (H3 p).
    + intros j [->|Hj]%elem_of_cons.
      * split_and!; [lia|lia|done|]. intros q Hq. apply Hdel in Hq as [Hne Hq].
        apply Hne. by eapply I5.
      * destruct (I6' j Hj) as (H1 & H2 & H3). split_and!; [lia|lia|done|].
        intros q Hq. apply Hdel in Hq as [_ Hq]. by apply (H3 q).
  - simpl. rewrite map_size_delete_Some by done.
    assert (size C ≠ 0)%nat by (intros E0%map_size_empty_inv; by rewrite E0 in Hp). lia.
  - intros q Hq. simpl. rewrite R3. by apply I9.
  - intros q Hq. destruct (I10 q Hq) as [H1 H2]. split; [done|].
    rewrite lookup_delete_ne; [done|]. by intros ->.
  - intros q b Hq. rewrite lookup_delete. case_decide as E; [subst q|by apply I11].
    destruct Hst as (b' & Hb' & Hs); [done|]. rewrite Hq in Hb'. by injection Hb' as ->.
  - intros q Hq. destruct (I12 q Hq) as [H1 H2]. split; [done|].
    intros j Hj. apply Hdel in Hj as [_ Hj]. by apply H2.
Qed.

Lemma try_evict_page_ok s C U K D V L pend p it :
  suvm_inv s C U K D V L (Some p) (Some p) pend → PageCache.page_index it = p →
  C !! p = Some (PageCache.epc it) → p ∉ L →
  ∃ s' K' D', (∀ B (f : Z → M suvm B), (try_evict_page it ≫= f) s = f 0 s') ∧
    suvm_inv s' (delete p C) U K' D' V L None None pend ∧
    (if D (PageCache.epc it) then stored s' K' p (slot_bytes s (PageCache.epc it))
     else pool s' = pool s ∧ llc s' = llc s) ∧
    (∀ q, q ≠ p → ram_bytes s' q = ram_bytes s q) ∧
    g_free_epc_pages s' = PageCache.epc it :: g_free_epc_pages s ∧ same_static s s'.
Proof.
  intros Hinv Eit Hp HpL. set (i := PageCache.epc it) in *.
  destruct (inv_cached _ _ _ _ _ _ _ _ _ _ Hinv p i Hp) as [Hpr Hir].
  pose proof (inv_geo _ _ _ _ _ _ _ _ _ _ Hinv) as Hgeo.
  pose proof (inv_arr _ _ _ _ _ _ _ _ _ _ Hinv i Hir) as Harr.
  destruct (D i) eqn:Ed.
  - destruct (write_back_ok _ _ _ _ _ _ _ _ _ _ p i Hinv Hp Ed)
      as (s1 & K1 & Hrun1 & Hinv1 & HK & Hram & El & Ef & Hstat).
    destruct (drop_page_ok s1 C U K1 _ V L pend p i Hinv1 Hp) as (c & Hrun2 & Hinv2);
      [by rewrite fupd_eq|done| |].
    { intros [b Hb]. exists b. split; [done|].
      pose proof (inv_bytes _ _ _ _ _ _ _ _ _ _ Hinv1 p b Hb) as H1. rewrite Hp in H1.
      destruct H1 as [_ [H1|H1]]; [by rewrite fupd_eq in H1|done]. }
    eexists _, K1, _. split; [|split; [exact Hinv2|split; [exact HK|split; [exact Hram|
      split; [simpl; by rewrite Ef|exact Hstat]]]]].
    intros B f. unfold try_evict_page. rewrite Eit. cbv zeta. fold i.
    rewrite ?bind_assoc, (read_slot_run _ s i _ (proj1 Hir) Harr), ?bind_assoc.
    rewrite slot_val_bit by done. rewrite ?bind_assoc, Hrun1, ?bind_assoc, (on_l1_run _ _ _ _ _ Hrun2).
    rewrite ?bind_assoc, push_free_run by apply (inv_geo _ _ _ _ _ _ _ _ _ _ Hinv1). by mrun.
  - destruct (drop_page_ok s C U K D V L pend p i Hinv Hp Ed HpL) as (c & Hrun2 & Hinv2).
    { intros [b Hb]. exists b. split; [done|].
      pose proof (inv_bytes _ _ _ _ _ _ _ _ _ _ Hinv p b Hb) as H1. rewrite Hp in H1.
      destruct H1 as [_ [H1|H1]]; [congruence|done]. }
    eexists _, K, D. split; [|split; [exact Hinv2|by split_and!]].
    intros B f. unfold try_evict_page. rewrite Eit. cbv zeta. fold i.
    rewrite ?bind_assoc, (read_slot_run _ s i _ (proj1 Hir) Harr), ?bind_assoc.
    rewrite slot_val_bit by done. rewrite bind_ret, ?bind_assoc, (on_l1_run _ _ _ _ _ Hrun2).
    rewrite ?bind_assoc, push_free_run by apply Hgeo. by mrun.
Qed.

(** Fewer pages held than cached: some cached page is unreferenced. *)
Lemma unreferenced_exists s C U K D V L pend :
  suvm_inv s C U K D V L None None pend → (length L < length U)%nat →
  ∃ pinned p rest, U = pinned ++ p :: rest ∧ (∀ x, x ∈ pinned → refs x L ≠ 0) ∧ refs p L = 0.
Proof.
  intros Hinv Hlen. destruct (first_unreferenced (λ x, refs x L) U) as [H|Hall]; [exact H|].
  exfalso. assert (U ⊆+ L) as Hsub.
  { apply NoDup_submseteq; [apply (ok_queued _ _ _ _ _ (inv_l1 _ _ _ _ _ _ _ _ _ _ Hinv))|].
    intros x Hx. apply refs_elem. pose proof (refs_nonneg x L). specialize (Hall x Hx). lia. }
  apply submseteq_length in Hsub. lia.
Qed.

Lemma queue_length s C U K D V L pend :
  suvm_inv s C U K D V L None None pend → length U = size C.
Proof.
  intros Hinv. destruct (ok_queued _ _ _ _ _ (inv_l1 _ _ _ _ _ _ _ _ _ _ Hinv)) as [Hnd Hq].
  rewrite <- size_dom. rewrite <- (size_list_to_set (C := gset Z) U) by done.
  f_equal. apply set_eq. intros x. rewrite elem_of_list_to_set, elem_of_dom, Hq.
  split; [by intros [? _]|done].
Qed.

Lemma make_room_ok s C U K D V L pend :
  suvm_inv s C U K D V L None None pend →
  Z.of_nat (length L) < CACHE_CAPACITY - MAX_NUM_OF_THREADS_OPTIMIZATION →
  Z.of_nat (size C) ≤ CACHE_CAPACITY - MAX_NUM_OF_THREADS_OPTIMIZATION →
  ∃ s' C' U' K' D', (∀ B (f : unit → M suvm B), (make_room ≫= f) s = f tt s') ∧
    suvm_inv s' C' U' K' D' V L None None pend ∧
    Z.of_nat (size C') < CACHE_CAPACITY - MAX_NUM_OF_THREADS_OPTIMIZATION ∧
    (∀ q, C !! q = None → C' !! q = None) ∧ (∀ q, q ∈ L → C' !! q = C !! q) ∧ same_static s s' ∧
    (Z.of_nat (size C) < CACHE_CAPACITY - MAX_NUM_OF_THREADS_OPTIMIZATION → s' = s ∧ C' = C).
Proof.
  intros Hinv HL' Hsz. pose proof (inv_l1 _ _ _ _ _ _ _ _ _ _ Hinv) as Hok.
  pose proof (proj1 (ok_count _ _ _ _ _ Hok)) as Hcount.
  unfold make_room.
  destruct (decide (CACHE_CAPACITY - MAX_NUM_OF_THREADS_OPTIMIZATION ≤ Z.of_nat (size C))) as [Hfull|Hroom].
  2: { exists s, C, U, K, D. split_and!; try done; [|lia].
    intros B f. rewrite ?bind_assoc, bind_gets, Hcount.
    by rewrite (proj2 (Z.leb_gt _ _)) by lia. }
  pose proof (queue_length _ _ _ _ _ _ _ _ Hinv) as Hlen.
  destruct (unreferenced_exists _ _ _ _ _ _ _ _ Hinv) as (pinned & p & rest & EU & Hpin & Hp0); [lia|].
  assert (∀ x, x ∈ U → 0 ≤ x < npages s) as HUr.
  { intros x Hx. apply (ok_queued _ _ _ _ _ Hok) in Hx as [[i Hx] _].
    by destruct (inv_cached _ _ _ _ _ _ _ _ _ _ Hinv x i Hx). }
  pose proof (inv_refs _ _ _ _ _ _ _ _ _ _ Hinv) as Hrefs.
  rewrite EU in Hok, HUr.
  destruct (evict_ok EVICT_FUEL _ C pinned p rest Hok) as (c & it & Hrun & Eit & Hepc & Hok' & [[R1 R2] R3]).
  { intros x Hx. exists (refs x L). specialize (Hpin x Hx). pose proof (refs_nonneg x L).
    split; [apply Hrefs, HUr; set_solver|lia]. }
  { rewrite <- Hp0. apply Hrefs, HUr. set_solver. }
  { pose proof (proj2 (PageCache.used_count _ _ (ok_used _ _ _ _ _ Hok))) as Hq.
    rewrite (inv_ring _ _ _ _ _ _ _ _ _ _ Hinv), length_app in Hq. simpl in Hq.
    pose proof evict_fuel. lia. }
  destruct (try_evict_page_ok (set_l1 s c) C (rest ++ pinned) K D V L pend p it)
    as (s' & K' & D' & Hev & Hinv' & _ & _ & _ & Hstat); [|done|done|by rewrite refs_elem, Hp0|].
  { destruct Hinv as [G I1 I2 I3 I4 I5 I6 I7 I8 I9 I10 Iw I11 I12 I13 I14]. constructor; try done.
    - destruct G as [G1 G2 G3]. by constructor.
    - simpl. congruence.
    - intros q Hq. simpl. rewrite R3. by apply I9. }
  exists s', (delete p C), (rest ++ pinned), K', D'. split_and!; try done; try apply Hstat; [| | | |lia].
  - intros B f. rewrite ?bind_assoc, bind_gets, Hcount.
    rewrite (proj2 (Z.leb_le _ _)) by lia.
    rewrite ?bind_assoc, (on_l1_run _ _ _ _ _ Hrun), ?bind_assoc, Hev. by mrun.
  - rewrite map_size_delete_Some by done.
    assert (size C ≠ 0)%nat by (intros E0%map_size_empty_inv; by rewrite E0 in Hepc). lia.
  - intros q Hq. rewrite lookup_delete. by case_decide.
  - intros q Hq. apply lookup_delete_ne. intros ->. by rewrite refs_elem, Hp0 in Hq.
Qed.

(** ** Bringing a page in *)

(** Slot [i], just taken from the free list, holds the page and enters the
    cache. *)
Lemma installed_ok s C U K D V L p i l c m c' :
  suvm_inv s C U K D V L None None (Some p) → C !! p = None → 0 ≤ p < npages s →
  g_free_epc_pages s = i :: l → CryptoCache.crypto_ok c K →
  cache_ok c' (<[p := i]> C) (U ++ [p]) None None → same_refs (l1 s) c' →
  (∀ a, a < slot_addr s i ∨ slot_addr s i + PAGE_SIZE ≤ a → rd8 m a = rd8 (prm s) a) →
  (∀ b, V !! p = Some b → load_bytes m (slot_addr s i) PAGE_BYTES = b) →
  suvm_inv (set_l1 (set_prm (set_llc (set_free s l 0) c) m) c')
    (<[p := i]> C) (U ++ [p]) K D V L None None None.
Proof.
  intros [G I1 I2 I3 I4 I5 [I6 I6'] I7 I8 I9 I10 Iw I11 I12 I13 I14] Hp Hpr Ef Hc Hok [[R1 R2] R3] Hm Hb.
  rewrite Ef in I6, I6', I7. apply NoDup_cons in I6 as [Hil Hnd].
  destruct (I6' i) as (Hir & Hdi & Hci); [set_solver|].
  set (s' := set_l1 (set_prm (set_llc (set_free s l 0) c) m) c').
  assert (∀ j, 0 ≤ j < CACHE_CAPACITY → j ≠ i → slot_bytes s' j = slot_bytes s j) as Hsb.
  { intros j Hj Hne. unfold slot_bytes. apply load_bytes_ext. intros a Ha. simpl in *.
    apply Hm. rewrite page_bytes in Ha. unfold slot_addr in *. simpl in *.
    unfold PAGE_SIZE in *. lia. }
  constructor; try done.
  - destruct G as [G1 G2 G3]. by constructor.
  - simpl. congruence.
  - intros q j. rewrite lookup_insert. case_decide; [|apply I4].
    intros [= <-]. subst. split; [done|lia].
  - intros q1 q2 j. rewrite !lookup_insert. case_decide; case_decide; [congruence| | |apply I5].
    + intros [= <-] H2. by apply Hci in H2.
    + intros H1 [= <-]. by apply Hci in H1.
  - simpl. split; [done|]. intros j Hj. destruct (I6' j) as (H1 & H2 & H3); [set_solver|].
    split_and!; [lia|lia|done|]. intros q. rewrite lookup_insert. case_decide; [|apply H3].
    intros [= ->]. done.
  - simpl. simpl in I7. rewrite map_size_insert_None by done. lia.
  - intros q Hq. simpl. rewrite R3. by apply I9.
  - intros q Hq. destruct (I10 q Hq) as [H1 H2]. split; [done|]. left.
    rewrite lookup_insert. case_decide; [done|]. destruct H2 as [?|[= ->]]; done.
  - intros q b Hq. specialize (I11 q b Hq). rewrite lookup_insert. case_decide as E.
    + subst q. rewrite Hp in I11. split; [|by right]. by apply Hb.
    + destruct (C !! q) as [j|] eqn:Eq; [|done]. destruct I11 as [H1 H2]. split; [|done].
      destruct (I4 q j Eq) as [_ Hjr]. rewrite Hsb; [done|done|].
      intros ->. by apply Hci in Eq.
  - intros q Hq. destruct (I12 q Hq) as [H1 H2]. split; [done|]. intros j.
    rewrite lookup_insert. case_decide; [intros [= <-]; done|apply H2].
Qed.

Lemma bring_in_ok s C U K D V L p :
  suvm_inv s C U K D V L None None (Some p) → C !! p = None → 0 ≤ p < npages s →
  Z.of_nat (size C) < CACHE_CAPACITY - MAX_NUM_OF_THREADS_OPTIMIZATION →
  ∃ s' i, (∀ B (f : Z → M suvm B),
      (slot ← pop_free; page_in p slot;; slot' ← install p slot; f slot') s = f i s') ∧
    suvm_inv s' (<[p := i]> C) (U ++ [p]) K D V L None None None ∧ same_static s s' ∧
    (V !! p = None → prm s' = prm s).
Proof.
  intros Hinv Hp Hpr Hsz. pose proof (inv_geo _ _ _ _ _ _ _ _ _ _ Hinv) as Hgeo.
  pose proof (inv_slots _ _ _ _ _ _ _ _ _ _ Hinv) as Hslots.
  destruct (g_free_epc_pages s) as [|i l] eqn:Ef; [simpl in Hslots; unfold MAX_NUM_OF_THREADS_OPTIMIZATION in *; lia|].
  destruct (inv_free _ _ _ _ _ _ _ _ _ _ Hinv) as [_ Hfree]. rewrite Ef in Hfree.
  destruct (Hfree i) as (Hir & Hdi & Hci); [set_solver|]. clear Hfree.
  destruct (CryptoCache.crypto_get_ok _ K p (inv_llc _ _ _ _ _ _ _ _ _ _ Hinv))
    as (c & ret & Hget & Hret & Hok).
  pose proof (inv_l1 _ _ _ _ _ _ _ _ _ _ Hinv) as Hl1.
  pose proof (queue_length _ _ _ _ _ _ _ _ Hinv) as Hlen. pose proof capacity as Hcap.
  destruct (try_add_ok (l1 s) C U p i Hl1) as (c' & R & Hadd).
  { rewrite (inv_ring _ _ _ _ _ _ _ _ _ _ Hinv). unfold MAX_NUM_OF_THREADS_OPTIMIZATION in *. lia. }
  { unfold MAX_NUM_OF_THREADS_OPTIMIZATION in *. lia. }
  rewrite Hp in Hadd. destruct Hadd as [Hadd Hok'].
  set (s2 := set_llc (set_free s l 0) c).
  assert (∃ m, (∀ B (f : unit → M suvm B), (page_in p i ≫= f) (set_free s l 0) = f tt (set_prm s2 m)) ∧
    (∀ a, a < slot_addr s i ∨ slot_addr s i + PAGE_SIZE ≤ a → rd8 m a = rd8 (prm s) a) ∧
    (∀ b, V !! p = Some b → load_bytes m (slot_addr s i) PAGE_BYTES = b) ∧
    (V !! p = None → m = prm s)) as (m & Hin & Hm & Hb & Hquiet).
  { destruct ret as [it|]; simpl in Hret.
    - assert (∃ b, V !! p = Some b) as [b Hb].
      { destruct (V !! p) as [b|] eqn:E; [by exists b|].
        destruct (inv_fresh _ _ _ _ _ _ _ _ _ _ Hinv p E) as [Hn _]. congruence. }
      pose proof (inv_bytes _ _ _ _ _ _ _ _ _ _ Hinv p b Hb) as Hst. rewrite Hp in Hst.
      destruct Hst as (n & t & Hk & Hdec). rewrite Hk in Hret. injection Hret as En Et.
      destruct (inv_page _ _ _ _ _ _ _ _ _ _ Hinv p b Hb) as (Hbl & Hbb & _).
      exists (store_bytes (prm s) (slot_addr s i) b). split_and!.
      + intros B f. unfold page_in. rewrite ?bind_assoc.
        rewrite (on_llc_run _ _ (set_free s l 0) (Some it) c) by done. fold s2.
        rewrite ?bind_assoc, (read_slot_run _ s2 i (slot_val s i (D i))) by
          (lia || apply (inv_arr _ _ _ _ _ _ _ _ _ _ Hinv i Hir)).
        rewrite Hdi. unfold slot_val. rewrite Z.add_0_r.
        rewrite ?bind_assoc, bind_gets. cbn [g_eviction_key pool s2 set_llc set_free].
        change (ram_page_ptr s2 p) with (ram_page_ptr s p). rewrite (ram_page_ptr_eq s p Hgeo Hpr).
        fold (ram_bytes s p). rewrite En, Et, Hdec. rewrite bind_modify. done.
      + intros a Ha. apply rd8_store_bytes_ne. rewrite Hbl, page_bytes. lia.
      + intros b' Hb'. rewrite Hb in Hb'. injection Hb' as <-.
        rewrite <- Hbl, load_store_bytes_eq. done.
      + congruence.
    - exists (prm s). split_and!; [|done| |done].
      + intros B f. unfold page_in. rewrite ?bind_assoc.
        rewrite (on_llc_run _ _ (set_free s l 0) None c) by done. rewrite bind_ret. done.
      + intros b Hb. pose proof (inv_bytes _ _ _ _ _ _ _ _ _ _ Hinv p b Hb) as Hst.
        rewrite Hp in Hst. destruct Hst as (n & t & Hk & _). congruence. }
  exists (set_l1 (set_prm s2 m) c'), i. split_and!; try done.
  - intros B f. rewrite (pop_free_run _ s i l) by (done || apply Hgeo). rewrite Hin.
    unfold install. rewrite ?bind_assoc, (on_l1_run _ _ (set_prm s2 m) true c') by done.
    by rewrite bind_ret.
  - by apply (installed_ok s C U K D V L p i l c m c').
Qed.

(** ** References *)

Lemma suvm_inv_l1 s c C U K D V L L' pend pend' :
  suvm_inv s C U K D V L None None pend → cache_ok c C U None None → same_shape (l1 s) c →
  (∀ p, 0 ≤ p < npages s → PageCache.m_ref_count c !! p = Some (refs p L') ∧ refs p L' < 256) →
  (∀ p, p ∈ L' → 0 ≤ p < npages s ∧ (is_Some (C !! p) ∨ pend' = Some p)) →
  suvm_inv (set_l1 s c) C U K D V L' None None pend'.
Proof.
  intros [[G1 G2 G3] I1 I2 I3 I4 I5 I6 I7 I8 I9 I10 Iw I11 I12 I13 I14] Hok [R1 R2] Hr Hh.
  constructor; try done. simpl. congruence.
Qed.

Lemma dec_ok s C U K D V L q :
  suvm_inv s C U K D V (q :: L) None None None →
  ∃ c, PageCache.dec_ref_count q (l1 s) = Ok (tt, c) ∧
    suvm_inv (set_l1 s c) C U K D V L None None None.
Proof.
  intros Hinv. pose proof (inv_refs _ _ _ _ _ _ _ _ _ _ Hinv) as Hr.
  pose proof (inv_held _ _ _ _ _ _ _ _ _ _ Hinv) as Hh.
  destruct (Hh q) as [Hq _]; [set_solver|]. destruct (Hr q Hq) as [Eq Hb].
  destruct (bump_ref_count_ok (-1) _ C U q _ (inv_l1 _ _ _ _ _ _ _ _ _ _ Hinv) Eq)
    as (c & Hrun & Hok & Hs & R).
  exists c. split; [exact Hrun|].
  apply (suvm_inv_l1 s c C U K D V (q :: L) L None None Hinv Hok Hs); rewrite ?R.
  - intros p Hp. destruct (Hr p Hp) as [Ep Hbp]. rewrite lookup_insert. simpl in *.
    pose proof (refs_nonneg p L). case_decide; [subst|].
    + rewrite (decide_True _ _ eq_refl), u8_id by lia. split; [f_equal; lia|lia].
    + rewrite Ep. split; [f_equal; lia|lia].
  - intros p Hp. apply Hh. set_solver.
Qed.

Lemma inc_ok s C U K D V L p :
  suvm_inv s C U K D V L None None None → 0 ≤ p < npages s → refs p L < 255 →
  ∃ c, PageCache.inc_ref_count p (l1 s) = Ok (tt, c) ∧
    suvm_inv (set_l1 s c) C U K D V (p :: L) None None (Some p).
Proof.
  intros Hinv Hp Hlt. pose proof (inv_refs _ _ _ _ _ _ _ _ _ _ Hinv) as Hr.
  pose proof (inv_held _ _ _ _ _ _ _ _ _ _ Hinv) as Hh.
  destruct (Hr p Hp) as [Ep Hb]. pose proof (refs_nonneg p L).
  destruct (bump_ref_count_ok 1 _ C U p _ (inv_l1 _ _ _ _ _ _ _ _ _ _ Hinv) Ep)
    as (c & Hrun & Hok & Hs & R).
  exists c. split; [exact Hrun|].
  apply (suvm_inv_l1 s c C U K D V L (p :: L) None (Some p) Hinv Hok Hs); rewrite ?R.
  - intros q Hq. destruct (Hr q Hq) as [Eq Hbq]. rewrite lookup_insert. simpl.
    case_decide; [subst|].
    + rewrite u8_id by lia. split; [f_equal; lia|lia].
    + rewrite Eq. split; [f_equal; lia|lia].
  - intros q [->|Hq]%elem_of_cons; [by auto|]. destruct (Hh q Hq) as [? [?|?]]; [auto|done].
Qed.

(** The lookup of the fault leaves the table as it was. *)
Lemma get_page_ok s C U K D V L p pend :
  suvm_inv s C U K D V L None None pend →
  ∃ c ret, PageCache.get p (l1 s) = Ok (ret, c) ∧ PageCache.epc <$> ret = C !! p ∧
    suvm_inv (set_l1 s c) C U K D V L None None pend.
Proof.
  intros Hinv. destruct (get_ok _ C U p (inv_l1 _ _ _ _ _ _ _ _ _ _ Hinv))
    as (c & ret & Hrun & Hret & _ & Hok & [Hs R]).
  exists c, ret. split_and!; [done|done|].
  apply (suvm_inv_l1 s c C U K D V L L pend pend Hinv Hok Hs); rewrite ?R; apply Hinv.
Qed.

Lemma pend_done s C U K D V L p :
  suvm_inv s C U K D V L None None (Some p) → is_Some (C !! p) →
  suvm_inv s C U K D V L None None None.
Proof.
  intros [G I1 I2 I3 I4 I5 I6 I7 I8 I9 I10 Iw I11 I12 I13 I14] Hp. constructor; try done.
  intros q Hq. destruct (I10 q Hq) as [? [?|[= ->]]]; auto.
Qed.

(** ** Page faults *)

(** The page a pointer is linked to, if any: the slot it holds. *)
Definition link_ok (C : gmap Z Z) (base : Z) (a : aptr_t) (prev : option Z) : Prop :=
  match prev with
  | None => prm_ptr a = DUMMY
  | Some q => q = i32 (base + page a) ∧ C !! q = Some (prm_ptr a)
  end.

(** The first half of the fault: the old page is let go. *)
Lemma unlink_ok s C U K D V L base a prev :
  suvm_inv s C U K D V (option_list prev ++ L) None None None → link_ok C base a prev →
  ∃ s' v, (∀ B (f : Z → M suvm B), (read_slot (prm_ptr a) ≫= f) s = f v s) ∧
    (∀ B (f : unit → M suvm B), ((if v =? 0 then mret tt
        else on_l1 (PageCache.dec_ref_count (i32 (base + page a)))) ≫= f) s = f tt s') ∧
    suvm_inv s' C U K D V L None None None ∧ same_static s s' ∧ prm s' = prm s.
Proof.
  intros Hinv Hlink. destruct prev as [q|]; simpl in Hlink.
  - destruct Hlink as [Eq Hq]. destruct (dec_ok s C U K D V L q Hinv) as (c & Hrun & Hinv').
    destruct (inv_cached _ _ _ _ _ _ _ _ _ _ Hinv q _ Hq) as [_ Hir].
    exists (set_l1 s c), (slot_val s (prm_ptr a) (D (prm_ptr a))). split_and!; [| |done..].
    + intros B f. apply read_slot_run; [apply Hir|].
      apply (inv_arr _ _ _ _ _ _ _ _ _ _ Hinv _ Hir).
    + intros B f. rewrite (proj2 (Z.eqb_neq _ 0))
        by (apply slot_val_nonzero; [apply (inv_geo _ _ _ _ _ _ _ _ _ _ Hinv)|lia]).
      by rewrite <- Eq, (on_l1_run _ _ _ _ _ Hrun).
  - exists s, 0. split_and!; [|done..]. intros B f. unfold read_slot. rewrite Hlink.
    by rewrite Z.eqb_refl, dummy_zero.
Qed.

Lemma page_fault_ok s C U K D V L base a prev p :
  suvm_inv s C U K D V (option_list prev ++ L) None None None → link_ok C base a prev →
  p = i32 (base + i32 (page a + Z.shiftr (offset a) PAGE_SIZE_LOG)) → 0 ≤ p < npages s →
  refs p L < 255 →
  Z.of_nat (length L) + 1 < CACHE_CAPACITY - MAX_NUM_OF_THREADS_OPTIMIZATION →
  Z.of_nat (size C) ≤ CACHE_CAPACITY - MAX_NUM_OF_THREADS_OPTIMIZATION →
  ∃ s' C' U' K' D' a', (∀ B (f : aptr_t → M suvm B), (page_fault a base ≫= f) s = f a' s') ∧
    suvm_inv s' C' U' K' D' V (p :: L) None None None ∧
    C' !! p = Some (prm_ptr a') ∧ page a' = i32 (page a + Z.shiftr (offset a) PAGE_SIZE_LOG) ∧
    offset a' = Z.land (offset a) PAGE_BITS_MASK ∧ hint_write a' = hint_write a ∧
    Z.of_nat (size C') ≤ CACHE_CAPACITY - MAX_NUM_OF_THREADS_OPTIMIZATION ∧
    (∀ q, q ∈ L → C' !! q = C !! q) ∧ same_static s s' ∧
    (V !! p = None → Z.of_nat (size C) < CACHE_CAPACITY - MAX_NUM_OF_THREADS_OPTIMIZATION →
     prm s' = prm s ∧ C ⊆ C' ∧ ∀ q, q ≠ p → C' !! q = C !! q).
Proof.
  intros Hinv Hlink Ep Hp Hrefs HlenL Hsz.
  assert (suvm_inv (count_fault s) C U K D V (option_list prev ++ L) None None None) as Hinv0.
  { destruct Hinv as [[G1 G2 G3] I1 I2 I3 I4 I5 I6 I7 I8 I9 I10 Iw I11 I12 I13 I14]. by constructor. }
  destruct (unlink_ok _ C U K D V L base a prev Hinv0 Hlink) as (s1 & v & Hread & Hdec & Hinv1 & S1 & P1).
  assert (npages s1 = npages s) as En by (destruct S1 as (_ & E & _); unfold npages; by rewrite E).
  destruct (inc_ok s1 C U K D V L p Hinv1) as (c1 & Hinc & Hinv2); [by rewrite En|done|].
  destruct (get_page_ok _ C U K D V (p :: L) p _ Hinv2) as (c2 & ret & Hget & Hret & Hinv3).
  change (set_l1 (set_l1 s1 c1) c2) with (set_l1 s1 c2) in Hinv3.
  set (mk := λ slot, mkAptr slot (i32 (page a + Z.shiftr (offset a) PAGE_SIZE_LOG))
    (Z.land (offset a) PAGE_BITS_MASK) (hint_write a)).
  assert (∀ B (f : aptr_t → M suvm B), (page_fault a base ≫= f) s =
    match ret with
    | Some it => f (mk (PageCache.epc it)) (set_l1 s1 c2)
    | None => (make_room;; slot ← pop_free; page_in p slot;; slot' ← install p slot;
         f (mk slot')) (set_l1 s1 c2)
    end) as Hrun.
  { intros B f. unfold page_fault. rewrite ?bind_assoc, bind_modify. cbv zeta.
    rewrite ?bind_assoc, Hread, ?bind_assoc, Hdec. rewrite <- Ep.
    rewrite ?bind_assoc, (on_l1_run _ _ _ _ _ Hinc), ?bind_assoc.
    rewrite (on_l1_run _ _ (set_l1 s1 c1) _ _ Hget).
    destruct ret as [it|]; [by rewrite bind_ret|]. rewrite ?bind_assoc.
    change (set_l1 (set_l1 s1 c1) c2) with (set_l1 s1 c2).
    unfold mbind, M_bind. simpl.
    destruct (make_room (set_l1 s1 c2)) as [[[] s2]|]; [|done].
    destruct (pop_free s2) as [[i s3]|]; [|done].
    destruct (page_in p i s3) as [[[] s4]|]; [|done].
    by destruct (install p i s4) as [[i' s5]|]. }
  destruct ret as [it|]; simpl in Hret.
  - exists (set_l1 s1 c2), C, U, K, D, (mk (PageCache.epc it)).
    split_and!; try done; try apply S1. by eapply pend_done.
  - destruct (make_room_ok _ C U K D V (p :: L) _ Hinv3)
      as (s2 & C2 & U2 & K2 & D2 & Hroom & Hinv4 & Hsz2 & Hnone & Hkeep & S2 & P2);
      [simpl; lia|done|].
    assert (npages s2 = npages s) as En2.
    { destruct S2 as (_ & E & _). unfold npages in *. rewrite E. simpl. congruence. }
    destruct (bring_in_ok s2 C2 U2 K2 D2 V (p :: L) p Hinv4) as (s3 & i & Hbring & Hinv5 & S3 & P3);
      [by apply Hnone|by rewrite En2|done|].
    exists s3, (<[p := i]> C2), (U2 ++ [p]), K2, D2, (mk i). split_and!; try done.
    + intros B f. by rewrite Hrun, Hroom, Hbring.
    + by rewrite lookup_insert_eq.
    + rewrite map_size_insert_None by (by apply Hnone). lia.
    + intros q Hq. rewrite lookup_insert. case_decide as E; [subst q|apply Hkeep; set_solver].
      exfalso. destruct (inv_held _ _ _ _ _ _ _ _ _ _ Hinv1 p Hq) as [_ [[x Hx]|]]; congruence.
    + eapply same_static_trans; [exact S1|]. eapply same_static_trans; [|exact S3]. exact S2.
    + intros HVp Hq. destruct (P2 Hq) as [-> ->]. split; [rewrite P3 by done; exact P1|].
      split; [by apply insert_subseteq, Hnone|]. intros q Hne. by apply lookup_insert_ne.
Qed.

(** ** Dereferences *)

(** Where a pointer points: the page and the byte in it. *)
Definition target_page (base : Z) (a : aptr_t) : Z :=
  i32 (base + i32 (page a + Z.shiftr (offset a) PAGE_SIZE_LOG)).
Definition target_offset (a : aptr_t) : Z := Z.land (offset a) PAGE_BITS_MASK.

(** A pointer as the library keeps them: linked, or with an offset that the
    next dereference faults on. *)
Definition ptr_ok (C : gmap Z Z) (base : Z) (a : aptr_t) (prev : option Z) : Prop :=
  link_ok C base a prev ∧ (prev = None → ISVALID (offset a) = false) ∧
  i32 (page a) = page a.

Lemma target_offset_range a : 0 ≤ target_offset a < PAGE_SIZE.
Proof.
  unfold target_offset, PAGE_BITS_MASK, PAGE_SIZE. change (4096 - 1) with (Z.ones 12).
  rewrite Z.land_ones by lia. apply Z.mod_pos_bound. lia.
Qed.

Lemma ISVALID_spec off : ISVALID off = true ↔ 0 ≤ off < PAGE_SIZE.
Proof. unfold ISVALID. rewrite andb_true_iff, Z.ltb_lt, Z.leb_le. lia. Qed.

Lemma valid_target base a :
  ISVALID (offset a) = true → i32 (page a) = page a →
  target_page base a = i32 (base + page a) ∧ target_offset a = offset a.
Proof.
  intros Hv Hp. apply ISVALID_spec in Hv. unfold target_page, target_offset, PAGE_BITS_MASK.
  rewrite Z.shiftr_div_pow2 by done. unfold PAGE_SIZE, PAGE_SIZE_LOG in *.
  rewrite Z.div_small by lia. rewrite Z.add_0_r, Hp. split; [done|].
  change (4096 - 1) with (Z.ones 12). rewrite Z.land_ones by lia. apply Z.mod_small. lia.
Qed.

(** The state between two calls: everything bound up in the invariant. *)
Definition suvm_ok (s : suvm) (C : gmap Z Z) (V : gmap Z (list Z)) (L : list Z) : Prop :=
  (∃ U K D, suvm_inv s C U K D V L None None None) ∧
  Z.of_nat (size C) ≤ CACHE_CAPACITY - MAX_NUM_OF_THREADS_OPTIMIZATION.

(** Room for the pages the pointers hold, and for one more reference. *)
Definition room (s : suvm) (L : list Z) (p : Z) : Prop :=
  0 ≤ p < npages s ∧ refs p L < 255 ∧
  Z.of_nat (length L) + 1 < CACHE_CAPACITY - MAX_NUM_OF_THREADS_OPTIMIZATION.

(** The fault of [deref], if one is needed. *)
Lemma deref_fault s C V L base a prev :
  suvm_ok s C V (option_list prev ++ L) → ptr_ok C base a prev →
  room s L (target_page base a) →
  ∃ s' C' a', (∀ B (f : aptr_t → M suvm B),
      ((if ISVALID (offset a) then mret a else page_fault a base) ≫= f) s = f a' s') ∧
    suvm_ok s' C' V (target_page base a :: L) ∧ C' !! target_page base a = Some (prm_ptr a') ∧
    target_page base a' = target_page base a ∧ offset a' = target_offset a ∧
    hint_write a' = hint_write a ∧ ptr_ok C' base a' (Some (target_page base a)) ∧
    (∀ q, q ∈ L → C' !! q = C !! q) ∧ same_static s s'.
Proof.
  intros [(U & K & D & Hinv) Hsz] (Hlink & Hnone & Hpage) (Hp & Hrefs & HlenL).
  destruct (ISVALID (offset a)) eqn:Ev.
  - destruct prev as [q|]; [|by specialize (Hnone eq_refl)]. simpl in *.
    destruct (valid_target base a Ev Hpage) as [Et Eo]. destruct Hlink as [Eq HC].
    assert (q = target_page base a) as -> by congruence.
    exists s, C, a. split_and!; try done. split; [by exists U, K, D|done].
  - destruct (page_fault_ok s C U K D V L base a prev _ Hinv Hlink eq_refl Hp Hrefs HlenL Hsz)
      as (s' & C' & U' & K' & D' & a' & Hrun & Hinv' & HC' & Epg & Eoff & Eh & Hsz' & Hkeep & Hst & _).
    assert (i32 (page a') = page a') as Hpage'.
    { rewrite Epg. apply i32_i32. }
    assert (ISVALID (offset a') = true) as Ev'.
    { apply ISVALID_spec. rewrite Eoff. apply target_offset_range. }
    destruct (valid_target base a' Ev' Hpage') as [Et Eo].
    assert (target_page base a' = target_page base a) as Ett by (rewrite Et, Epg; done).
    exists s', C', a'. split_and!; try done.
    + split; [by exists U', K', D'|done].
    + split; [split; [congruence|done]|split; done].
Qed.

Lemma mark_dirty_ok s C U K D V L p i :
  suvm_inv s C U K D V L None None None → C !! p = Some i →
  suvm_inv (set_epc_arr (count_dirty s) (<[i := dirty (slot_val s i (D i))]> (epc_arr s)))
    C U K (fupd D i true) (<[p := slot_bytes s i]> V) L None None None.
Proof.
  intros [G I1 I2 I3 I4 I5 [I6 I6'] I7 I8 I9 I10 Iw I11 I12 I13 I14] Hp. destruct (I4 p i Hp) as [Hpr Hir].
  rewrite slot_val_dirty by done. constructor; try done.
  - destruct G as [G1 G2 G3]. by constructor.
  - split; [done|]. intros j Hj. destruct (I6' j Hj) as (H1 & H2 & H3). split_and!; [lia|lia| |done].
    unfold fupd. rewrite decide_False; [done|]. intros ->. by apply (H3 p).
  - intros j Hj. simpl. rewrite lookup_insert. unfold fupd.
    case_decide; [subst; by rewrite decide_True|]. by rewrite decide_False, I8 by congruence.
  - intros q b. rewrite lookup_insert. case_decide; [|apply Iw]. intros [= <-]. subst.
    split_and!; [apply length_load_bytes|apply u8_load_bytes|apply Hpr..].
  - intros q b. rewrite lookup_insert. case_decide.
    + intros [= <-]. subst. rewrite Hp. split; [done|]. left. apply fupd_eq.
    + intros Hq. specialize (I11 q b Hq). destruct (C !! q) as [j|] eqn:Eq; [|done].
      destruct I11 as [H1 H2]. split; [done|]. unfold fupd.
      rewrite decide_False; [done|]. intros ->. assert (p = q) by (by eapply I5). done.
  - intros q. rewrite lookup_insert. case_decide; [done|]. intros Hq. destruct (I12 q Hq) as [H1 H2].
    split; [done|]. intros j Hj. unfold fupd. rewrite decide_False; [by apply H2|].
    intros ->. assert (p = q) by (by eapply I5). done.
  - intros a Ha. apply I14. intros q Hq. apply Ha. rewrite lookup_insert. by case_decide.
Qed.

(** The whole of [deref]: with the write hint the page becomes tracked, with
    the contents it has. *)
Lemma deref_ok s C V L base a prev :
  suvm_ok s C V (option_list prev ++ L) → ptr_ok C base a prev →
  room s L (target_page base a) →
  ∃ s' C' a' i, let p := target_page base a in
    (∀ B (f : Z * aptr_t → M suvm B),
      (deref a base ≫= f) s = f (slot_addr s' i + target_offset a, a') s') ∧
    suvm_ok s' C' (if hint_write a then <[p := slot_bytes s' i]> V else V) (p :: L) ∧
    C' !! p = Some i ∧ (∀ b, V !! p = Some b → slot_bytes s' i = b) ∧
    offset a' = target_offset a ∧ hint_write a' = hint_write a ∧ target_page base a' = p ∧
    ptr_ok C' base a' (Some p) ∧ (∀ q, q ∈ L → C' !! q = C !! q) ∧ same_static s s' ∧
    (hint_write a = true → epc_arr s' !! i = Some (slot_val s' i true)) ∧
    0 ≤ i < CACHE_CAPACITY.
Proof.
  intros Hok Hptr Hroom.
  destruct (deref_fault s C V L base a prev Hok Hptr Hroom)
    as (s1 & C1 & a1 & Hrun & [(U & K & D & Hinv) Hsz] & HC & Et & Eo & Eh & Hptr' & Hkeep & Hst).
  set (p := target_page base a) in *. set (i := prm_ptr a1) in *.
  pose proof (inv_geo _ _ _ _ _ _ _ _ _ _ Hinv) as Hgeo.
  destruct (inv_cached _ _ _ _ _ _ _ _ _ _ Hinv p i HC) as [Hpr Hir].
  pose proof (inv_arr _ _ _ _ _ _ _ _ _ _ Hinv i Hir) as Harr.
  assert (∀ b, V !! p = Some b → slot_bytes s1 i = b) as Hb.
  { intros b Hb. pose proof (inv_bytes _ _ _ _ _ _ _ _ _ _ Hinv p b Hb) as H1.
    rewrite HC in H1. apply H1. }
  destruct (hint_write a) eqn:Ew.
  - set (s2 := set_epc_arr (count_dirty s1) (<[i := dirty (slot_val s1 i (D i))]> (epc_arr s1))).
    exists s2, C1, a1, i. split_and!; try done; try apply Hir.
    + intros B f. unfold deref. rewrite ?bind_assoc, Hrun, ?bind_assoc.
      rewrite (read_slot_run _ s1 i _ (proj1 Hir) Harr). rewrite Eh, ?bind_assoc.
      rewrite bind_assert by (apply negb_true_iff, Z.eqb_neq, slot_val_nonzero; [done|lia]).
      rewrite ?bind_assoc, bind_modify.
      rewrite (write_slot_run _ (count_dirty s1) i _ _ (proj1 Hir) Harr), bind_ret.
      by rewrite slot_val_clean, Eo by done.
    + split; [|done]. exists U, K, (fupd D i true). exact (mark_dirty_ok s1 C1 U K D V (p :: L) p i Hinv HC).
    + intros _. simpl. rewrite lookup_insert_eq. by rewrite slot_val_dirty.
  - exists s1, C1, a1, i. split_and!; try done; try apply Hir.
    + intros B f. unfold deref. rewrite ?bind_assoc, Hrun, ?bind_assoc.
      rewrite (read_slot_run _ s1 i _ (proj1 Hir) Harr). rewrite Eh, ?bind_ret.
      by rewrite slot_val_clean, Eo by done.
    + split; [|done]. by exists U, K, D.
Qed.

(** ** Loads and stores *)

Lemma in_slab_ok s i o :
  0 ≤ i < CACHE_CAPACITY → 0 ≤ o < PAGE_SIZE → in_slab s (slot_addr s i + o) = true.
Proof.
  intros Hi Ho. unfold in_slab, slot_addr. rewrite andb_true_iff, Z.leb_le, Z.ltb_lt.
  unfold PAGE_SIZE in *. lia.
Qed.

Lemma slot_bytes_lookup s i o :
  0 ≤ o < PAGE_SIZE → slot_bytes s i !! Z.to_nat o = Some (rd8 (prm s) (slot_addr s i + o)).
Proof.
  intros Ho. pose proof page_bytes. unfold slot_bytes. rewrite lookup_load_bytes by lia.
  by rewrite Z2Nat.id by lia.
Qed.

Lemma load_prm_ok s i o x :
  0 ≤ i < CACHE_CAPACITY → 0 ≤ o < PAGE_SIZE → slot_bytes s i !! Z.to_nat o = Some x →
  ∀ B (f : Z → M suvm B), (load_prm (slot_addr s i + o) ≫= f) s = f x s.
Proof.
  intros Hi Ho Hx B f. rewrite slot_bytes_lookup in Hx by done. injection Hx as <-.
  unfold load_prm. rewrite bind_assoc, bind_gets. simpl. by rewrite in_slab_ok.
Qed.

(** The bytes of a slot after a store into it. *)
Definition poke (b : list Z) (o v : Z) : list Z := <[Z.to_nat o := u8 v]> b.

(** A byte of a dirty page changes. *)
Lemma poke_ok s C V L p i o v :
  suvm_ok s C V L → C !! p = Some i → 0 ≤ o < PAGE_SIZE →
  epc_arr s !! i = Some (slot_val s i true) →
  let s' := set_prm s (wr8 (prm s) (slot_addr s i + o) v) in
  suvm_ok s' C (<[p := poke (slot_bytes s i) o v]> V) L ∧
  slot_bytes s' i = poke (slot_bytes s i) o v.
Proof.
  intros [(U & K & D & Hinv) Hsz] Hp Ho Hdirty s'. pose proof page_bytes as Hpb.
  destruct (inv_cached _ _ _ _ _ _ _ _ _ _ Hinv p i Hp) as [Hpr Hir].
  assert (D i = true) as HD.
  { rewrite (inv_arr _ _ _ _ _ _ _ _ _ _ Hinv i Hir) in Hdirty. injection Hdirty as E.
    unfold slot_val in E. destruct (D i); [done|lia]. }
  assert (slot_bytes s' i = poke (slot_bytes s i) o v) as Hsi.
  { unfold slot_bytes, poke, s'. simpl. change (slot_addr (set_prm s _) i) with (slot_addr s i).
    rewrite <- load_bytes_wr8 by lia. by rewrite Z2Nat.id by lia. }
  assert (∀ j, 0 ≤ j < CACHE_CAPACITY → j ≠ i → slot_bytes s' j = slot_bytes s j) as Hsj.
  { intros j Hj Hne. unfold slot_bytes. apply load_bytes_ext. intros a Ha. simpl.
    apply rd8_wr8_ne. rewrite Hpb in Ha. unfold slot_addr in *. simpl in *. unfold PAGE_SIZE in *. lia. }
  split; [|exact Hsi]. split; [|done]. exists U, K, D.
  destruct Hinv as [[G1 G2 G3] I1 I2 I3 I4 I5 I6 I7 I8 I9 I10 Iw I11 I12 I13 I14].
  constructor; try done.
  - intros q b. rewrite lookup_insert. case_decide; [|apply Iw]. intros [= <-]. subst q.
    rewrite <- Hsi. split_and!; [apply length_load_bytes|apply u8_load_bytes|apply Hpr..].
  - intros q b. rewrite lookup_insert. case_decide.
    + intros [= <-]. subst q. rewrite Hp. split; [done|by left].
    + intros Hq. specialize (I11 q b Hq). destruct (C !! q) as [j|] eqn:Eq; [|done].
      destruct I11 as [H1 H2]. split; [|done]. rewrite Hsj; [done|by eapply I4|].
      intros ->. assert (p = q) by (by eapply I5). done.
  - intros q. rewrite lookup_insert. case_decide; [done|]. apply I12.
  - intros a Ha. apply I14. intros q Hq. apply Ha. rewrite lookup_insert. by case_decide.
Qed.

Lemma store_prm_ok s C V L p i o v :
  suvm_ok s C V L → C !! p = Some i → 0 ≤ o < PAGE_SIZE → 0 ≤ i < CACHE_CAPACITY →
  epc_arr s !! i = Some (slot_val s i true) →
  ∃ s', (∀ B (f : unit → M suvm B), (store_prm (slot_addr s i + o) v ≫= f) s = f tt s') ∧
    suvm_ok s' C (<[p := poke (slot_bytes s i) o v]> V) L ∧ same_static s s'.
Proof.
  intros Hok Hp Ho Hir Hdirty.
  destruct (poke_ok s C V L p i o v Hok Hp Ho Hdirty) as [Hok' Hs].
  eexists. split; [|split; [exact Hok'|done]].
  intros B f. unfold store_prm. rewrite ?bind_assoc, bind_gets. simpl. by rewrite in_slab_ok.
Qed.

(** What a pointer is after a dereference of it. *)
Definition derefed (C' : gmap Z Z) (base : Z) (a a' : aptr_t) : Prop :=
  ptr_ok C' base a' (Some (target_page base a)) ∧ target_page base a' = target_page base a ∧
  offset a' = target_offset a ∧ hint_write a' = hint_write a.

Lemma deref_load_ok s C V L base a prev :
  suvm_ok s C V (option_list prev ++ L) → ptr_ok C base a prev →
  room s L (target_page base a) → hint_write a = false →
  ∃ s' C' a' x, let p := target_page base a in
    (∀ B (f : Z → aptr_t → M suvm B),
      (r ← deref a base; x ← load_prm r.1; f x r.2) s = f x a' s') ∧
    suvm_ok s' C' V (p :: L) ∧ 0 ≤ x < 256 ∧
    (∀ b, V !! p = Some b → b !! Z.to_nat (target_offset a) = Some x) ∧
    derefed C' base a a' ∧ (∀ q, q ∈ L → C' !! q = C !! q) ∧ same_static s s'.
Proof.
  intros Hok Hptr Hroom Hw. pose proof (target_offset_range a) as Ho.
  destruct (deref_ok s C V L base a prev Hok Hptr Hroom)
    as (s' & C' & a' & i & Hrun & Hok' & HC & Hb & Eo & Eh & Et & Hptr' & Hkeep & Hst & _ & Hir).
  rewrite Hw in Hok'. pose proof (slot_bytes_lookup s' i _ Ho) as Hx.
  exists s', C', a', (rd8 (prm s') (slot_addr s' i + target_offset a)).
  split_and!; try done.
  - intros B f. rewrite Hrun. simpl. by rewrite (load_prm_ok s' i _ _ Hir Ho Hx).
  - apply u8_range.
  - apply u8_range.
  - intros b HV. by rewrite <- (Hb b HV).
Qed.

Lemma deref_store_ok s C V L base a prev v :
  suvm_ok s C V (option_list prev ++ L) → ptr_ok C base a prev →
  room s L (target_page base a) → hint_write a = true →
  ∃ s' C' a' b, let p := target_page base a in
    (∀ B (f : aptr_t → M suvm B),
      (r ← deref a base; store_prm r.1 v;; f r.2) s = f a' s') ∧
    suvm_ok s' C' (<[p := poke b (target_offset a) v]> V) (p :: L) ∧
    length b = PAGE_BYTES ∧ (∀ b0, V !! p = Some b0 → b = b0) ∧
    derefed C' base a a' ∧ (∀ q, q ∈ L → C' !! q = C !! q) ∧ same_static s s'.
Proof.
  intros Hok Hptr Hroom Hw. pose proof (target_offset_range a) as Ho.
  destruct (deref_ok s C V L base a prev Hok Hptr Hroom)
    as (s1 & C' & a' & i & Hrun & Hok' & HC & Hb & Eo & Eh & Et & Hptr' & Hkeep & Hst & Hd & Hir).
  rewrite Hw in Hok'.
  destruct (store_prm_ok s1 C' _ _ _ i _ v Hok' HC Ho Hir (Hd Hw)) as (s2 & Hrun2 & Hok2 & Hst2).
  rewrite insert_insert_eq in Hok2.
  pose proof (same_static_trans _ _ _ Hst Hst2) as (T1 & T2 & T3 & T4).
  exists s2, C', a', (slot_bytes s1 i). split_and!; try done.
  - intros B f. rewrite Hrun. simpl. by rewrite Hrun2.
Qed.
End proofs.
