(* ===== verification/SuvmThms.v ===== *)
(** * Theorems about the paging layer

    Initialisation, page faults, loads and stores through pointers, and at the
    end the allocator and the paging layer on one pool. *)

From S2P Require Import Prelude Memory SyncUtils Ring Mem5 Mem5Init Mem5Spec Suvm SuvmInv SuvmProofs.
From S2P Require Import PageCacheSpec.
From S2P Require PageCache CryptoCache.
From S2P Require Import Mem5Inv Mem5Proofs.

#[local] Opaque EVICT_FUEL.
#[local] Opaque CACHE_CAPACITY.
#[local] Opaque PAGE_BYTES.

(** ** A concrete cipher

    For the instances: bytes are shifted by one, the tag is the plaintext. *)

Definition toy_encrypt (key p n : list Z) : list Z * list Z :=
  ((λ x, u8 (x + 1)) <$> p, u8 <$> p).
Definition toy_decrypt (key c n t : list Z) : option (list Z) :=
  let p := (λ x, u8 (x - 1)) <$> c in
  if decide (t = p) then Some p else None.
#[export] Instance toy_sgx : Sgx := {|
  gcm_encrypt := λ key p n, Some (toy_encrypt key p n);
  gcm_decrypt := toy_decrypt;
  read_rand := λ i n, replicate n (Z.of_nat i);
  dummy_word := 0
|}.

Lemma u8_shift x : u8 (u8 (x + 1) - 1) = u8 x.
Proof. unfold u8. rewrite Zminus_mod_idemp_l. f_equal. lia. Qed.
Lemma u8_shift' x : u8 (u8 (x - 1) + 1) = u8 x.
Proof. unfold u8. rewrite Zplus_mod_idemp_l. f_equal. lia. Qed.

#[export] Instance toy_laws : SgxLaws.
Proof.
  constructor.
  - intros key p n c t [= <- <-]. simpl. unfold toy_decrypt.
    replace ((λ x, u8 (x - 1)) <$> ((λ x, u8 (x + 1)) <$> p)) with (u8 <$> p); [by rewrite decide_True|].
    rewrite <- list_fmap_compose. apply list_fmap_ext. intros i x _. simpl. by rewrite u8_shift.
  - intros key p n c t [= <- <-]. by rewrite length_fmap.
  - intros key p n c t [= <- <-]. rewrite <- list_fmap_compose. apply list_fmap_ext.
    intros i x _. simpl. apply u8_u8.
  - intros key p n. by eexists.
  - done.
Qed.

(** ** Initialisation *)

Section init.
Context `{HS : Sgx}.

Lemma slab_loop_ok n i s :
  0 < g_slab s → 0 ≤ i →
  ∃ E, slab_loop n i s = Ok (tt, set_epc_arr
      (set_free s (reverse (seqZ i (Z.of_nat n)) ++ g_free_epc_pages s) (g_free_epc_pages_lock s)) E) ∧
    (∀ j, i ≤ j < i + Z.of_nat n → E !! j = Some (g_slab s + j * PAGE_SIZE)) ∧
    (∀ j, j < i → E !! j = epc_arr s !! j).
Proof.
  revert i s. induction n as [|n IH]; intros i s Hs Hi.
  - exists (epc_arr s). split_and!; [by destruct s|lia|done].
  - cbn [slab_loop]. mrun.
    rewrite bind_assert by (apply negb_true_iff, Z.eqb_neq; unfold PAGE_SIZE; lia). mrun.
    set (s1 := set_epc_arr s (<[i := g_slab s + i * PAGE_SIZE]> (epc_arr s))).
    set (s2 := set_free s1 (i :: g_free_epc_pages s1) (g_free_epc_pages_lock s1)).
    destruct (IH (i + 1) s2) as (E & Hrun & HE1 & HE2); [done|lia|].
    exists E. split_and!.
    + rewrite Hrun. do 2 f_equal. rewrite (seqZ_cons i (Z.of_nat (S n))) by lia.
      rewrite reverse_cons, <- app_assoc. simpl.
      unfold set_epc_arr, set_free. simpl. do 4 f_equal. f_equal; lia.
    + intros j Hj. destruct (decide (j = i)) as [->|Hne].
      * rewrite HE2 by lia. simpl. by rewrite lookup_insert_eq.
      * rewrite HE1 by lia. done.
    + intros j Hj. rewrite HE2 by lia. simpl. by rewrite lookup_insert_ne by lia.
Qed.

(** The pages of the pool can be addressed with [int] arithmetic, and the
    allocator can be set up on it. *)
Definition pool_fits (ptr_pool pool_size : Z) : Prop :=
  0 < ptr_pool ∧ pool_size / PAGE_SIZE * PAGE_SIZE ≤ 2 ^ 31 ∧
  0 ≤ pool_blocks pool_size MN_REQ ∧
  pool_blocks pool_size MN_REQ * atom_size MN_REQ < 2 ^ 31.

Definition fresh (s : suvm) : Prop :=
  g_is_initialized s = false ∧ g_free_epc_pages s = [] ∧ g_free_epc_pages_lock s = 0.

(** The page-aligned start of the slab. *)
Definition slab_start (slab_ptr : Z) : Z := Z.land slab_ptr (Z.lnot 0xFFF).

Lemma slab_start_spec p :
  (PAGE_SIZE | slab_start p) ∧ slab_start p ≤ p < slab_start p + PAGE_SIZE.
Proof.
  unfold slab_start, PAGE_SIZE. change 0xFFF with (Z.ones 12).
  rewrite <- Z.ldiff_land, Z.ldiff_ones_r, Z.shiftl_mul_pow2, Z.shiftr_div_pow2 by lia.
  change (2 ^ 12) with 4096. split; [by exists (p / 4096)|].
  pose proof (Z.div_mod p 4096). pose proof (Z.mod_pos_bound p 4096). lia.
Qed.

Lemma initialize_run s ptr_pool pool_size slab_ptr :
  fresh s → pool_fits ptr_pool pool_size → PAGE_SIZE ≤ slab_ptr →
  ∃ s' E, initialize_aptr ptr_pool pool_size true true slab_ptr 0 s = Ok (0, s') ∧
    l1 s' = PageCache.cache_init (CACHE_CAPACITY * 10) (pool_size / PAGE_SIZE) CACHE_CAPACITY 0 ∧
    llc s' = CryptoCache.crypto_init LLC_CAPACITY ∧
    g_free_epc_pages s' = reverse (seqZ 0 CACHE_CAPACITY) ∧ g_free_epc_pages_lock s' = 0 ∧
    epc_arr s' = E ∧ (∀ j, 0 ≤ j < CACHE_CAPACITY → E !! j = Some (slab_start slab_ptr + j * PAGE_SIZE)) ∧
    g_base_pool_ptr s' = ptr_pool ∧ g_pool_size s' = pool_size ∧
    g_slab s' = slab_start slab_ptr ∧ g_is_initialized s' = true ∧ owns (pool s') ∅ ∧
    szAtom (mem5 (pool s')) = atom_size MN_REQ ∧ nBlock (mem5 (pool s')) = pool_blocks pool_size MN_REQ ∧
    zPool (mem5 (pool s')) = ptr_pool ∧ prm s' = prm s.
Proof.
  intros (Hf & Hfree & Hlock) (Hptr & Hpages & Hnb & Hfit) Hslab.
  destruct (slab_start_spec slab_ptr) as [_ Hstart].
  destruct (init_ok (pool s) ptr_pool pool_size MN_REQ Hptr) as (h & fl & bl & Hinit & Hi & Ho & Hl & Ha & Hb & Hz & _);
    [unfold MN_REQ; lia|done|done|].
  set (s1 := mkSuvm
    (PageCache.cache_init (CACHE_CAPACITY * 10) (pool_size / PAGE_SIZE) CACHE_CAPACITY 0)
    (CryptoCache.crypto_init LLC_CAPACITY) (g_free_epc_pages s) (g_free_epc_pages_lock s)
    ∅ (prm s) (pool s) ptr_pool pool_size (slab_start slab_ptr)
    (g_eviction_key s) (draws s) (g_perf_counters s) (g_dirty s) (g_is_initialized s)).
  destruct (slab_loop_ok (Z.to_nat CACHE_CAPACITY) 0 s1) as (E & Hrun & HE & _); [simpl; lia|lia|].
  rewrite Z.add_0_l, Z2Nat.id in HE by (rewrite capacity; lia).
  rewrite Z2Nat.id in Hrun by (rewrite capacity; lia).
  eexists _, E. split.
  - unfold initialize_aptr. rewrite bind_gets. cbn [id].
    rewrite bind_assert.
    2: { rewrite Hf. rewrite (proj2 (Z.eqb_neq ptr_pool 0)); [done|lia]. }
    rewrite bind_modify. fold (slab_start slab_ptr). fold s1.
    rewrite (bind_Ok _ _ _ _ _ Hrun).
    unfold on_pool. erewrite (bind_zoom pool _ _ _ _ 0 h) by exact Hinit.
    rewrite bind_assert by done. rewrite bind_modify. reflexivity.
  - simpl. rewrite Hfree, app_nil_r. split_and!; try done. by exists fl, bl.
Qed.

Lemma all_slots n :
  0 ≤ n → NoDup (reverse (seqZ 0 n)) ∧ (∀ i, i ∈ reverse (seqZ 0 n) → 0 ≤ i < n) ∧
  Z.of_nat (length (reverse (seqZ 0 n))) = n.
Proof.
  intros Hn. split_and!.
  - rewrite reverse_Permutation. apply NoDup_seqZ.
  - intros i Hi%elem_of_reverse%elem_of_seqZ. lia.
  - rewrite length_reverse, length_seqZ. lia.
Qed.

(** Init leaves every page untouched and every slot free. *)
Lemma initialize_ok s ptr_pool pool_size slab_ptr :
  fresh s → pool_fits ptr_pool pool_size → PAGE_SIZE ≤ slab_ptr < 2 ^ 62 →
  ∃ s', initialize_aptr ptr_pool pool_size true true slab_ptr 0 s = Ok (0, s') ∧
    suvm_ok (HB := pool s') s' ∅ ∅ [] ∧ owns (pool s') ∅ ∧ npages s' = pool_size / PAGE_SIZE ∧
    g_slab s' = slab_start slab_ptr ∧ g_base_pool_ptr s' = ptr_pool ∧ g_is_initialized s' = true.
Proof.
  intros Hs Hfit Hslab.
  destruct (initialize_run s ptr_pool pool_size slab_ptr Hs Hfit) as
    (s' & E & Hrun & E1 & E2 & E3 & E4 & E5 & HE & E6 & E7 & E8 & E9 & Hown & _); [lia|].
  destruct (slab_start_spec slab_ptr) as [Hal Hstart].
  exists s'. split; [exact Hrun|].
  cut (suvm_ok (HB := pool s') s' ∅ ∅ []).
  { intros Hok. split; [exact Hok|]. split; [exact Hown|]. unfold npages. rewrite E7.
    split; [reflexivity|]. split; [exact E8|]. split; [exact E6|exact E9]. }
  clear Hrun. split; [|rewrite map_size_empty, capacity; vm_compute; congruence].
  pose proof capacity as Hcap. assert (CACHE_CAPACITY | 2 ^ 64) as Hdiv.
  { rewrite Hcap. exists (2 ^ 50). vm_compute. reflexivity. }
  destruct (cache_init_ok (CACHE_CAPACITY * 10) (pool_size / PAGE_SIZE) CACHE_CAPACITY)
    as [Hcache Hrefs]; [lia|lia|exact Hdiv|].
  destruct (all_slots CACHE_CAPACITY) as (Hnd & Hin & Hlen); [lia|].
  exists [], ∅, (λ _, false). unfold PAGE_SIZE in Hslab. constructor.
  - constructor; [|split|done].
    + rewrite E8, capacity. unfold PAGE_SIZE in *. split_and!; [lia|done|lia].
    + rewrite E6. apply Hfit.
    + unfold npages. rewrite E7. apply Hfit.
  - by rewrite E1.
  - rewrite E2. apply CryptoCache.crypto_init_ok. unfold LLC_CAPACITY. lia.
  - rewrite E1. simpl. apply i32_id. rewrite capacity. lia.
  - intros p i. rewrite lookup_empty. discriminate.
  - intros p q i. rewrite lookup_empty. discriminate.
  - rewrite E3. split; [exact Hnd|]. intros i Hi. split; [by apply Hin|].
    split; [reflexivity|]. intros p. rewrite lookup_empty. discriminate.
  - rewrite E3, Hlen, map_size_empty. lia.
  - intros i Hi. rewrite E5, HE by done. unfold slot_val, slot_addr. rewrite E8. f_equal. lia.
  - intros p Hp. rewrite E1. unfold npages in Hp. rewrite E7 in Hp. rewrite Hrefs by exact Hp. split; reflexivity.
  - intros p Hp. exfalso. exact (proj1 (elem_of_nil p) Hp).
  - intros p b. rewrite lookup_empty. discriminate.
  - intros p b. rewrite lookup_empty. discriminate.
  - intros p _. split; [reflexivity|]. intros i. rewrite lookup_empty. discriminate.
  - reflexivity.
  - reflexivity.
Qed.
End init.

(** ** Instances *)

Definition blank : suvm := mkSuvm
  (PageCache.cache_init 1 0 1 0) (CryptoCache.crypto_init 1) [] 0 ∅ ∅ (mkHeap mem5_zero ∅)
  0 0 0 [] 0 0 0 false.

(** A library initialised on a pool of 16 pages at 65536, and a pointer to byte
    5 of page 3, as [Aptr]'s constructor makes it. *)
Definition small_state : suvm :=
  match initialize_aptr 65536 65536 true true 8200 0 blank with
  | Ok (_, s) => s
  | Err _ => blank
  end.
#[export] Instance small_base : PoolBase := pool small_state.

Lemma small_library :
  ∃ s, initialize_aptr 65536 65536 true true 8200 0 blank = Ok (0, s) ∧
    suvm_ok s ∅ ∅ [] ∧ npages s = 16 ∧ g_base_pool_ptr s = 65536 ∧ g_slab s = 8192.
Proof.
  destruct (initialize_ok blank 65536 65536 8200) as (s & H1 & H2 & _ & H3 & H4 & H5 & _).
  - split; [reflexivity|]. split; reflexivity.
  - split; [reflexivity|]. split; [vm_compute; congruence|].
    split; [vm_compute; congruence|vm_compute; reflexivity].
  - unfold PAGE_SIZE. lia.
  - assert (small_state = s) as E by (unfold small_state; by rewrite H1).
    exists s. unfold small_base. rewrite E.
    split; [exact H1|]. split; [exact H2|]. split; [exact H3|]. split; [exact H5|exact H4].
Qed.
#[global] Opaque small_state.

Lemma small_suvm :
  ∃ s, initialize_aptr 65536 65536 true true 8200 0 blank = Ok (0, s) ∧
    suvm_ok s ∅ ∅ [] ∧ npages s = 16.
Proof. destruct small_library as (s & H1 & H2 & H3 & _). exists s. split; [exact H1|]. split; [exact H2|exact H3]. Qed.

Definition small_ptr (w : bool) : aptr_t := mkAptr DUMMY (-1) (4096 + 5) w.

Lemma small_ptr_ok w C : ptr_ok C 3 (small_ptr w) None ∧ target_page 3 (small_ptr w) = 3 ∧
  target_offset (small_ptr w) = 5.
Proof. split_and!; try reflexivity. split_and!; [reflexivity|intros _; reflexivity|reflexivity]. Qed.

Lemma small_room s : npages s = 16 → room s [] 3.
Proof.
  intros E. unfold room. rewrite E, capacity. split_and!; try lia; vm_compute; congruence.
Qed.

(** ** Theorems *)

Section theorems.
Context `{HS : Sgx, HB : PoolBase, HL : !SgxLaws}.

(** C1. A page fault is transparent: from any state of the invariant, for a
    pointer that is linked or fresh, with a reference to spare on the target
    page and fewer pages held than the cache keeps, [page_fault] returns; the
    contents of every page, cached or evicted, are what they were, though a
    page may have been encrypted to the pool to make room; the pointer now
    holds the slot of its target page and no longer its old page, and every
    other held page keeps its slot. *)
Theorem page_fault_transparent s C V L base a prev :
  suvm_ok s C V (option_list prev ++ L) → link_ok C base a prev →
  room s L (target_page base a) →
  ∃ s' C' a', page_fault a base s = Ok (a', s') ∧
    suvm_ok s' C' V (target_page base a :: L) ∧
    C' !! target_page base a = Some (prm_ptr a') ∧
    offset a' = target_offset a ∧ hint_write a' = hint_write a ∧
    (∀ q, q ∈ L → C' !! q = C !! q).
Proof.
  intros [(U & K & D & Hinv) Hsz] Hlink (Hp & Hrefs & HlenL).
  destruct (page_fault_ok s C U K D V L base a prev _ Hinv Hlink eq_refl Hp Hrefs HlenL Hsz)
    as (s' & C' & U' & K' & D' & a' & Hrun & Hinv' & HC' & _ & Eoff & Eh & Hsz' & Hkeep & _).
  exists s', C', a'. split; [|split; [split; [by exists U', K', D'|done]|done]].
  specialize (Hrun aptr_t mret). unfold mbind, M_bind in Hrun.
  destruct (page_fault a base s) as [[a1 s1]|]; [|done]. exact Hrun.
Qed.

(** C3. A load through a pointer without the write hint returns the byte of
    the page it points to, faulting the page in if need be, and changes no
    page. *)
Theorem deref_load_correct s C V L base a prev b :
  suvm_ok s C V (option_list prev ++ L) → ptr_ok C base a prev →
  room s L (target_page base a) → hint_write a = false →
  V !! target_page base a = Some b →
  ∃ s' C' a' x, (r ← deref a base; x ← load_prm r.1; mret (x, r.2)) s = Ok ((x, a'), s') ∧
    b !! Z.to_nat (target_offset a) = Some x ∧
    suvm_ok s' C' V (target_page base a :: L) ∧ derefed C' base a a'.
Proof.
  intros Hok Hptr Hroom Hw Hb.
  destruct (deref_load_ok s C V L base a prev Hok Hptr Hroom Hw)
    as (s' & C' & a' & x & Hrun & Hok' & _ & Hx & Hd & _).
  exists s', C', a', x. split; [exact (Hrun (Z * aptr_t)%type (λ x a, mret (x, a)))|auto].
Qed.

(** C2. A store through a pointer with the write hint changes that byte of
    that page and nothing else in any page, and the page counts as written
    from then on: it will be encrypted to the pool when it is evicted. *)
Theorem deref_store_correct s C V L base a prev v :
  suvm_ok s C V (option_list prev ++ L) → ptr_ok C base a prev →
  room s L (target_page base a) → hint_write a = true →
  ∃ s' C' a' b, (r ← deref a base; store_prm r.1 v;; mret r.2) s = Ok (a', s') ∧
    suvm_ok s' C' (<[target_page base a := poke b (target_offset a) v]> V)
      (target_page base a :: L) ∧
    length b = PAGE_BYTES ∧ (∀ b0, V !! target_page base a = Some b0 → b = b0) ∧
    derefed C' base a a'.
Proof.
  intros Hok Hptr Hroom Hw.
  destruct (deref_store_ok s C V L base a prev v Hok Hptr Hroom Hw)
    as (s' & C' & a' & b & Hrun & Hok' & Hl & Hb & Hd & _).
  exists s', C', a', b. split; [exact (Hrun aptr_t mret)|auto].
Qed.

(** Initialisation on a fresh enclave: it returns 0, no page has
    contents, every slot is free, no pointer is linked, and the allocator owns
    the whole pool; a second call, or one with a null argument, aborts. *)
Theorem initialize_aptr_correct s ptr_pool pool_size slab_ptr :
  fresh s → pool_fits ptr_pool pool_size → PAGE_SIZE ≤ slab_ptr < 2 ^ 62 →
  ∃ s', initialize_aptr ptr_pool pool_size true true slab_ptr 0 s = Ok (0, s') ∧
    suvm_ok (HB := pool s') s' ∅ ∅ [] ∧ owns (pool s') ∅ ∧ npages s' = pool_size / PAGE_SIZE ∧
    (∀ p n b1 b2 m g, initialize_aptr p n b1 b2 m g s' = Err EAbort) ∧
    (∀ n b1 b2 m g, initialize_aptr 0 n b1 b2 m g s = Err EAbort).
Proof.
  intros Hs Hfit Hslab.
  destruct (initialize_ok s ptr_pool pool_size slab_ptr Hs Hfit Hslab)
    as (s' & H1 & H2 & H3 & H4 & _ & _ & H5).
  exists s'. split; [exact H1|]. split; [exact H2|]. split; [exact H3|]. split; [exact H4|].
  split.
  - intros p n b1 b2 m g. unfold initialize_aptr. rewrite bind_gets. cbn [id]. by rewrite H5.
  - intros n b1 b2 m g. unfold initialize_aptr. rewrite bind_gets. cbn [id].
    destruct Hs as [-> _]. done.
Qed.
End theorems.

Lemma page_fault_transparent_witness :
  ∃ s s' C' a', page_fault (small_ptr true) 3 s = Ok (a', s') ∧ suvm_ok s' C' ∅ [3].
Proof.
  destruct small_suvm as (s & _ & Hok & Hn).
  destruct (page_fault_transparent s ∅ ∅ [] 3 (small_ptr true) None Hok eq_refl (small_room s Hn))
    as (s' & C' & a' & H1 & H2 & _).
  exists s, s', C', a'. split; [exact H1|exact H2].
Defined.

(** Byte 5 of page 3 is set to 77. *)
Lemma deref_store_correct_witness :
  ∃ s s' C' a' b, suvm_ok s' C' {[3 := poke b 5 77]} [3] ∧ length b = PAGE_BYTES ∧
    (r ← deref (small_ptr true) 3; store_prm r.1 77;; mret r.2) s = Ok (a', s') ∧
    derefed C' 3 (small_ptr true) a' ∧ npages s = 16.
Proof.
  destruct small_suvm as (s & _ & Hok & Hn).
  destruct (small_ptr_ok true ∅) as (Hp & _ & _).
  destruct (deref_store_correct s ∅ ∅ [] 3 (small_ptr true) None 77 Hok Hp (small_room s Hn) eq_refl)
    as (s' & C' & a' & b & H1 & H2 & H3 & _ & H4).
  exists s, s', C', a', b.
  split; [exact H2|]. split; [exact H3|]. split; [exact H1|]. split; [exact H4|exact Hn].
Defined.

Lemma deref_load_correct_witness :
  ∃ s' s'' C'' b a'' x, b !! 5%nat = Some x ∧ suvm_ok s'' C'' {[3 := b]} [3; 3] ∧
    (r ← deref (small_ptr false) 3; x ← load_prm r.1; mret (x, r.2)) s' = Ok ((x, a''), s'').
Proof.
  destruct small_suvm as (s & _ & Hok & Hn).
  destruct (small_ptr_ok true ∅) as (Hp & _ & _).
  destruct (deref_store_ok s ∅ ∅ [] 3 (small_ptr true) None 77 Hok Hp (small_room s Hn) eq_refl)
    as (s' & C' & a' & b & _ & Hok' & _ & _ & _ & _ & (_ & E & _ & _)).
  destruct (small_ptr_ok false C') as (Hp' & _ & _).
  assert (room s' [3] 3) as Hroom.
  { assert (npages s' = 16) as E' by (unfold npages in *; rewrite E; exact Hn).
    unfold room. rewrite E', capacity. split_and!; try lia; vm_compute; congruence. }
  destruct (deref_load_correct s' C' {[3 := poke b 5 77]} [3] 3 (small_ptr false) None (poke b 5 77)
    Hok' Hp' Hroom eq_refl) as (s'' & C'' & a'' & x & H1 & H2 & H3 & _); [reflexivity|].
  exists s', s'', C'', (poke b 5 77), a'', x.
  split; [exact H2|]. split; [exact H3|exact H1].
Defined.

Lemma initialize_aptr_correct_witness :
  ∃ s, initialize_aptr 65536 65536 true true 8200 0 blank = Ok (0, s) ∧ suvm_ok (HB := pool s) s ∅ ∅ [].
Proof.
  destruct (initialize_aptr_correct blank 65536 65536 8200) as (s & H1 & H2 & _).
  - split; [reflexivity|]. split; reflexivity.
  - split; [reflexivity|]. split; [vm_compute; congruence|].
    split; [vm_compute; congruence|vm_compute; reflexivity].
  - unfold PAGE_SIZE. lia.
  - exists s. split; [exact H1|exact H2].
Defined.

(** The slab is rounded down to a page boundary, not up: where [malloc]
    does not return a page-aligned address, the first EPC page starts below
    the block that was allocated. *)
Theorem slab_starts_below s ptr_pool pool_size slab_ptr :
  fresh s → pool_fits ptr_pool pool_size → PAGE_SIZE ≤ slab_ptr < 2 ^ 62 →
  slab_ptr mod PAGE_SIZE ≠ 0 →
  ∃ s' a, initialize_aptr ptr_pool pool_size true true slab_ptr 0 s = Ok (0, s') ∧
    epc_arr s' !! 0 = Some a ∧ a = g_slab s' ∧ slab_ptr - PAGE_SIZE < a < slab_ptr.
Proof.
  intros Hs Hfit Hslab Hmod.
  destruct (initialize_run s ptr_pool pool_size slab_ptr Hs Hfit) as
    (s' & E & Hrun & _ & _ & _ & _ & E5 & HE & _ & _ & E8 & _); [lia|].
  destruct (slab_start_spec slab_ptr) as [[k Hk] Hstart].
  exists s', (slab_start slab_ptr). split; [exact Hrun|]. split.
  - rewrite E5, HE by (rewrite capacity; lia). f_equal. lia.
  - split; [symmetry; exact E8|].
    assert (slab_start slab_ptr ≠ slab_ptr); [|lia]. intros Eq. apply Hmod.
    rewrite <- Eq, Hk. apply Z.mod_mul. unfold PAGE_SIZE. lia.
Qed.

Lemma slab_starts_below_witness :
  ∃ s a, initialize_aptr 65536 65536 true true 8200 0 blank = Ok (0, s) ∧
    epc_arr s !! 0 = Some a ∧ a < 8200.
Proof.
  destruct (slab_starts_below blank 65536 65536 8200) as (s & a & H1 & H2 & _ & H3).
  - split; [reflexivity|]. split; reflexivity.
  - split; [reflexivity|]. split; [vm_compute; congruence|].
    split; [vm_compute; congruence|vm_compute; reflexivity].
  - unfold PAGE_SIZE. lia.
  - vm_compute. congruence.
  - exists s, a. split; [exact H1|]. split; [exact H2|]. lia.
Defined.

(** ** The allocator and the paging layer on one pool

    The blocks of [memsys5Malloc] are memory the paging layer encrypts pages
    into.  What keeps the two apart: pages with contents lie in outstanding
    blocks.  Then paging leaves the allocator's links and control bytes alone,
    and the allocator leaves the encrypted pages alone. *)

#[local] Opaque EVICT_FUEL.
#[local] Opaque CACHE_CAPACITY.
#[local] Opaque PAGE_BYTES.

Section heap.
Context `{HS : Sgx, HL : !SgxLaws}.

Lemma suvm_geometry (h : heap) s C V L : suvm_ok (HB := h) s C V L → geometry s.
Proof. intros [(U & K & D & Hinv) _]. apply Hinv. Qed.

(** The allocator may change the pool, but for the pages with contents. *)
Lemma rebase (h h' : heap) s C V L :
  suvm_ok (HB := h) s C V L →
  (∀ p a, is_Some (V !! p) → in_page s p a → rd8 (ram h') a = rd8 (ram (pool s)) a) →
  suvm_ok (HB := h') (set_pool s h') C V L.
Proof.
  intros [(U & K & D & [I0 I1 I2 I3 I4 I5 I6 I7 I8 I9 I10 Iw I11 I12 I13 I14]) Hsz] Hram. split; [|exact Hsz].
  assert (∀ p b, V !! p = Some b → stored s K p b → stored (set_pool s h') K p b) as Hst.
  { intros p b Hp (n & m & Hk & Hdec). exists n, m. split; [exact Hk|]. rewrite <- Hdec. f_equal.
    unfold ram_bytes. apply load_bytes_ext. intros a Ha. rewrite page_bytes in Ha. by apply (Hram p). }
  exists U, K, D. destruct I0 as [G1 G2 G3]. constructor; try done.
  intros p b Hp. specialize (I11 p b Hp). destruct (C !! p) as [i|]; [|by apply Hst].
  destruct I11 as [Hb [Hd|Hs]]; (split; [exact Hb|]); [by left|right; by apply Hst].
Qed.

(** Every page with contents lies in a block the allocator gave out. *)
Definition in_blocks (s : suvm) (A : gmap Z Z) (V : gmap Z (list Z)) : Prop :=
  ∀ p, is_Some (V !! p) → ∃ i k, A !! i = Some k ∧ ∀ a, in_page s p a → in_block (mem5 (pool s)) i k a.

(** Paging does not disturb the allocator. *)
Lemma paging_owns (h : heap) s C V L A :
  suvm_ok (HB := h) s C V L → owns h A → in_blocks s A V → owns (pool s) A.
Proof.
  intros [(U & K & D & Hinv) _] Ho Hin.
  pose proof (inv_mem5 _ _ _ _ _ _ _ _ _ _ Hinv) as Em. change (@pool_base h) with h in Em.
  apply (owns_frame h); [exact Ho|exact Em|]. intros a.
  set (p := (a - g_base_pool_ptr s) `div` PAGE_SIZE).
  assert (∀ q, in_page s q a → q = p) as Hq.
  { intros q Hq. unfold in_page, p, PAGE_SIZE in *. pose proof (Z.div_mod (a - g_base_pool_ptr s) 4096).
    pose proof (Z.mod_pos_bound (a - g_base_pool_ptr s) 4096). lia. }
  assert (in_page s p a) as Hp.
  { unfold in_page, p, PAGE_SIZE in *. pose proof (Z.div_mod (a - g_base_pool_ptr s) 4096).
    pose proof (Z.mod_pos_bound (a - g_base_pool_ptr s) 4096). lia. }
  destruct (decide (is_Some (V !! p))) as [HV|HV].
  - right. destruct (Hin p HV) as (i & k & Hi & Hb). exists i, k. split; [exact Hi|]. rewrite <- Em. by apply Hb.
  - left. apply (inv_outside _ _ _ _ _ _ _ _ _ _ Hinv). intros q HVq Hqa. apply HV. by rewrite <- (Hq q Hqa).
Qed.

(** [memsys5Malloc] under the paging layer: it fails, or hands out a block and
    leaves the contents of every page alone. *)
Lemma paging_malloc (h : heap) s C V L A n :
  suvm_ok (HB := h) s C V L → owns h A → in_blocks s A V → 0 < n ≤ 2 ^ 30 →
  let k := log_size (szAtom (mem5 (pool s))) n in
  (memsys5Malloc n (pool s) = Ok (0, pool s) ∧ ∀ j, ¬ free_window A (nBlock (mem5 (pool s))) k j) ∨
  ∃ i h', memsys5Malloc n (pool s) = Ok (addr_of (mem5 (pool s)) i, h') ∧
    free_window A (nBlock (mem5 (pool s))) k i ∧ owns h' (<[i := k]> A) ∧
    suvm_ok (HB := h') (set_pool s h') C V L ∧ in_blocks (set_pool s h') (<[i := k]> A) V ∧
    same_geo (mem5 (pool s)) (mem5 h').
Proof.
  intros Hok Ho Hin Hn k. pose proof (paging_owns h s C V L A Hok Ho Hin) as Hown.
  destruct (malloc_cases (pool s) A n Hown Hn) as [H|(i & h' & Hrun & Hown' & Hw & Hgeo & Hdata)]; [by left|].
  right. exists i, h'. split; [exact Hrun|]. split; [exact Hw|]. split; [exact Hown'|].
  assert (∀ j kj a, in_block (mem5 h') j kj a ↔ in_block (mem5 (pool s)) j kj a) as Hblk.
  { intros j kj a. unfold in_block, addr_of. destruct Hgeo as (-> & _ & -> & _). done. }
  split; [|split; [|exact Hgeo]].
  - apply (rebase h); [exact Hok|]. intros p a HV Ha. destruct (Hin p HV) as (j & kj & Hj & Hb).
    by apply (Hdata j kj a Hj), Hb.
  - intros p HV. destruct (Hin p HV) as (j & kj & Hj & Hb). exists j, kj. split.
    + rewrite lookup_insert_ne; [exact Hj|]. intros <-. destruct Hw as (H0 & _ & _ & Hdis).
      specialize (Hdis i kj Hj). pose proof (pow2_pos k). pose proof (pow2_pos kj).
      assert (0 ≤ kj). { pose proof (owns_range _ _ _ _ Hown Hj). lia. }
      assert (0 ≤ k) by (unfold k, log_size; lia). lia.
    + intros a Ha. apply Hblk. by apply Hb.
Qed.

(** With no page of contents, the pool belongs to the allocator alone. *)
Lemma untouched_pool (h h' : heap) s : suvm_ok (HB := h) s ∅ ∅ [] → suvm_ok (HB := h') (set_pool s h') ∅ ∅ [].
Proof. intros Hok. apply (rebase h); [exact Hok|]. intros p a [b Hb]. by rewrite lookup_empty in Hb. Qed.

(** Where the allocator's blocks lie: atoms of 16 bytes from the start of the
    pool, all within its pages, at positions that fit an [int]. *)
Record pool_layout (s : suvm) : Prop := {
  lay_atom : szAtom (mem5 (pool s)) = 16;
  lay_pool : zPool (mem5 (pool s)) = g_base_pool_ptr s;
  lay_range : nBlock (mem5 (pool s)) * 16 ≤ npages s * PAGE_SIZE;
  lay_int : nBlock (mem5 (pool s)) * 16 + PAGE_SIZE < 2 ^ 31;
  lay_ptr : 0 < g_base_pool_ptr s ∧ g_base_pool_ptr s + 2 ^ 31 ≤ 2 ^ 63
}.

Lemma layout_addr s i : pool_layout s → addr_of (mem5 (pool s)) i = g_base_pool_ptr s + 16 * i.
Proof. intros [Ha Hp _ _ _]. unfold addr_of. rewrite Ha, Hp. lia. Qed.

Lemma layout_geo s h : same_geo (mem5 (pool s)) (mem5 h) → pool_layout s → pool_layout (set_pool s h).
Proof.
  intros (E1 & E2 & E3 & _) [H1 H2 H3 H4 H5]. constructor; cbn [pool set_pool]; rewrite ?E1, ?E2, ?E3; done.
Qed.

Lemma layout_static (h : heap) s s' C V L C' V' L' :
  suvm_ok (HB := h) s C V L → suvm_ok (HB := h) s' C' V' L' → same_static s s' → pool_layout s → pool_layout s'.
Proof.
  intros [(U & K & D & Hi) _] [(U' & K' & D' & Hi') _] (E1 & E2 & _) [H1 H2 H3 H4 H5].
  pose proof (inv_mem5 _ _ _ _ _ _ _ _ _ _ Hi) as Em. pose proof (inv_mem5 _ _ _ _ _ _ _ _ _ _ Hi') as Em'.
  rewrite <- Em' in Em. constructor; unfold npages; rewrite <- ?Em, ?E1, ?E2; done.
Qed.

(** The paging layer has not been used, and the allocator owns the pool. *)
Record pool_ready (s : suvm) : Prop := {
  ready_ok : suvm_ok (HB := pool s) s ∅ ∅ [];
  ready_owns : owns (pool s) ∅;
  ready_layout : pool_layout s
}.

(** The allocator's part of the pool lies in whole pages. *)
Definition library_fits (ptr_pool pool_size : Z) : Prop :=
  pool_fits ptr_pool pool_size ∧ ptr_pool + 2 ^ 31 ≤ 2 ^ 63 ∧
  pool_blocks pool_size MN_REQ * 16 ≤ pool_size / PAGE_SIZE * PAGE_SIZE ∧
  pool_blocks pool_size MN_REQ * 16 + PAGE_SIZE < 2 ^ 31.

Lemma initialize_ready s ptr_pool pool_size slab_ptr :
  fresh s → library_fits ptr_pool pool_size → PAGE_SIZE ≤ slab_ptr < 2 ^ 62 →
  ∃ s', initialize_aptr ptr_pool pool_size true true slab_ptr 0 s = Ok (0, s') ∧ pool_ready s' ∧
    nBlock (mem5 (pool s')) = pool_blocks pool_size MN_REQ.
Proof.
  intros Hs (Hfit & Hptr & Hr & Hint) Hslab.
  destruct (initialize_ok s ptr_pool pool_size slab_ptr Hs Hfit Hslab)
    as (s' & Hrun & Hok & Hown & Hn & _ & Hb & _).
  destruct (initialize_run s ptr_pool pool_size slab_ptr Hs Hfit) as
    (s2 & E & Hrun2 & _ & _ & _ & _ & _ & _ & _ & _ & _ & _ & _ & Ha & Hnb & Hz & _); [lia|].
  rewrite Hrun in Hrun2. injection Hrun2 as <-. exists s'. split; [exact Hrun|].
  split; [|exact Hnb]. split; [exact Hok|exact Hown|]. destruct Hfit as [Hpos _]. constructor.
  - exact Ha.
  - by rewrite Hz, Hb.
  - by rewrite Hnb, Hn.
  - by rewrite Hnb.
  - by rewrite Hb.
Qed.
End heap.
