(* ===== verification/SuvmEvict.v ===== *)
(** * Eviction, and what the authentication of the pages buys

    The eviction path of [make_room] on its own, and [page_in] against a pool
    that the untrusted side may have changed. *)

From S2P Require Import Prelude Memory SyncUtils Ring Mem5 Suvm SuvmInv SuvmProofs SuvmThms.
From S2P Require Import PageCacheSpec.
From S2P Require PageCache CryptoCache.

#[local] Opaque EVICT_FUEL.
#[local] Opaque CACHE_CAPACITY.
#[local] Opaque PAGE_BYTES.

(** The pages the encryption produces are the only ones it takes back. *)
Class SgxAuth `{Sgx} := {
  gcm_auth key c n t p :
    u8 <$> c = c → gcm_decrypt key c n t = Some p → gcm_encrypt key p n = Some (c, t)
}.

#[export] Instance toy_auth : SgxAuth.
Proof.
  constructor. intros key c n t p Hc. simpl. unfold toy_decrypt, toy_encrypt. case_decide; [|done].
  intros [= <-]. subst. do 2 f_equal.
  - rewrite <- list_fmap_compose. rewrite <- Hc at 2. apply list_fmap_ext. intros i x _. simpl.
    apply u8_shift'.
  - rewrite <- list_fmap_compose. apply list_fmap_ext. intros i x _. simpl. apply u8_u8.
Qed.

(** What [make_room] does once it has decided to. *)
Definition evict_one `{Sgx} : M suvm (PageCache.item_t * Z) :=
  it ← on_l1 (PageCache.get_page_index_to_evict EVICT_FUEL);
  r ← try_evict_page it;
  mret (it, r).

Section evict.
Context `{HS : Sgx, HB : PoolBase, HL : !SgxLaws}.

Lemma evict_one_ok s C U K D V L pinned p rest :
  suvm_inv s C U K D V L None None None →
  U = pinned ++ p :: rest → (∀ x, x ∈ pinned → refs x L ≠ 0) → refs p L = 0 →
  ∃ s' it K' D', evict_one s = Ok ((it, 0), s') ∧ PageCache.page_index it = p ∧
    C !! p = Some (PageCache.epc it) ∧
    suvm_inv s' (delete p C) (rest ++ pinned) K' D' V L None None None ∧
    (if D (PageCache.epc it) then stored s' K' p (slot_bytes s (PageCache.epc it))
     else pool s' = pool s ∧ llc s' = llc s) ∧
    (∀ q, q ≠ p → ram_bytes s' q = ram_bytes s q) ∧
    g_free_epc_pages s' = PageCache.epc it :: g_free_epc_pages s.
Proof.
  intros Hinv EU Hpin Hp0. pose proof (inv_l1 _ _ _ _ _ _ _ _ _ _ Hinv) as Hok.
  assert (∀ x, x ∈ U → 0 ≤ x < npages s) as HUr.
  { intros x Hx. apply (ok_queued _ _ _ _ _ Hok) in Hx as [[i Hx] _].
    by destruct (inv_cached _ _ _ _ _ _ _ _ _ _ Hinv x i Hx). }
  pose proof (inv_refs _ _ _ _ _ _ _ _ _ _ Hinv) as Hrefs.
  rewrite EU in Hok, HUr.
  destruct (evict_ok EVICT_FUEL _ C pinned p rest Hok)
    as (c & it & Hrun & Eit & Hepc & Hok' & [[R1 R2] R3]).
  { intros x Hx. exists (refs x L). specialize (Hpin x Hx). pose proof (refs_nonneg x L).
    split; [apply Hrefs, HUr; set_solver|lia]. }
  { rewrite <- Hp0. apply Hrefs, HUr. set_solver. }
  { pose proof (proj2 (PageCache.used_count _ _ (ok_used _ _ _ _ _ Hok))) as Hq.
    rewrite (inv_ring _ _ _ _ _ _ _ _ _ _ Hinv), length_app in Hq. simpl in Hq.
    pose proof evict_fuel. lia. }
  destruct (try_evict_page_ok (set_l1 s c) C (rest ++ pinned) K D V L None p it)
    as (s' & K' & D' & Hev & Hinv' & HD & Hram & Hfree & _); [|done|done|by rewrite refs_elem, Hp0|].
  { destruct Hinv as [G I1 I2 I3 I4 I5 I6 I7 I8 I9 I10 Iw I11 I12 I13 I14]. constructor; try done.
    - destruct G as [G1 G2 G3]. by constructor.
    - simpl. congruence.
    - intros q Hq. simpl. rewrite R3. by apply I9. }
  exists s', it, K', D'. split; [|by split_and!].
  unfold evict_one. by rewrite (on_l1_run _ _ _ _ _ Hrun), Hev.
Qed.

(** C8. Evicting a page: the victim is the oldest cached page no pointer
    holds; if it was written since it came in, the pool now holds a ciphertext
    of it that decrypts, under the nonce and tag kept in the crypto cache, to
    exactly what the slot held; if it was not, neither the pool nor the crypto
    cache changes. No other page of the pool changes, the page leaves the cache
    and its slot is the next to be handed out, clean. *)
Theorem eviction_correct s C U K D V L pinned p rest :
  suvm_inv s C U K D V L None None None →
  U = pinned ++ p :: rest → (∀ x, x ∈ pinned → refs x L ≠ 0) → refs p L = 0 →
  ∃ s' it K' D' i, evict_one s = Ok ((it, 0), s') ∧ PageCache.page_index it = p ∧
    C !! p = Some i ∧
    suvm_inv s' (delete p C) (rest ++ pinned) K' D' V L None None None ∧
    (epc_arr s !! i = Some (slot_val s i true) → stored s' K' p (slot_bytes s i)) ∧
    (epc_arr s !! i = Some (slot_val s i false) → pool s' = pool s ∧ llc s' = llc s) ∧
    (∀ q, q ≠ p → ram_bytes s' q = ram_bytes s q) ∧
    g_free_epc_pages s' = i :: g_free_epc_pages s ∧
    epc_arr s' !! i = Some (slot_val s' i false).
Proof.
  intros Hinv EU Hpin Hp0.
  destruct (evict_one_ok s C U K D V L pinned p rest Hinv EU Hpin Hp0)
    as (s' & it & K' & D' & Hrun & Hit & Hp & Hinv' & HD & Hram & Hfree).
  set (i := PageCache.epc it) in *.
  destruct (inv_cached _ _ _ _ _ _ _ _ _ _ Hinv p i Hp) as [_ Hir].
  pose proof (inv_arr _ _ _ _ _ _ _ _ _ _ Hinv i Hir) as Harr.
  destruct (inv_free _ _ _ _ _ _ _ _ _ _ Hinv') as [_ Hf].
  destruct (Hf i) as (_ & Hd' & _); [rewrite Hfree; set_solver|].
  exists s', it, K', D', i. split; [exact Hrun|]. split; [exact Hit|]. split; [exact Hp|].
  split; [exact Hinv'|]. rewrite Harr. unfold slot_val.
  split; [|split; [|split; [exact Hram|split; [exact Hfree|]]]].
  - intros [= E]. destruct (D i); [exact HD|lia].
  - intros [= E]. destruct (D i); [lia|exact HD].
  - rewrite (inv_arr _ _ _ _ _ _ _ _ _ _ Hinv' i Hir), Hd'. reflexivity.
Qed.
End evict.

(** Page 3 is written, let go, and evicted. *)
Lemma eviction_correct_witness :
  ∃ s it s' C U K D V p b, evict_one s = Ok ((it, 0), s') ∧ PageCache.page_index it = p ∧
    suvm_inv s' C U K D V [] None None None ∧ V !! 3 = Some (poke b 5 77).
Proof.
  destruct small_suvm as (s & _ & Hok & Hn).
  destruct (small_ptr_ok true ∅) as (Hp & _ & _).
  destruct (deref_store_ok s ∅ ∅ [] 3 (small_ptr true) None 77 Hok Hp (small_room s Hn) eq_refl)
    as (s1 & C1 & a' & b & _ & [(U & K & D & Hinv) _] & _ & _ & (((_ & HC) & _) & _) & _).
  destruct (dec_ok s1 C1 U K D _ [] 3 Hinv) as (c & _ & Hinv2).
  destruct (unreferenced_exists _ _ _ _ _ _ _ _ Hinv2) as (pinned & p & rest & EU & Hpin & Hp0).
  { destruct U as [|x U]; [|simpl; lia]. exfalso. apply (proj1 (elem_of_nil (A := Z) 3)).
    apply (ok_queued _ _ _ _ _ (inv_l1 _ _ _ _ _ _ _ _ _ _ Hinv2)).
    split; [|discriminate]. exists (prm_ptr a'). exact HC. }
  destruct (eviction_correct _ C1 U K D _ [] pinned p rest Hinv2 EU Hpin Hp0)
    as (s' & it & K' & D' & i & H1 & H2 & _ & H3 & _).
  eexists _, it, s', _, _, K', D', _, p, b.
  split; [exact H1|]. split; [exact H2|]. split; [exact H3|]. reflexivity.
Defined.

(** ** A pool in hostile hands *)

Section auth.
Context `{HS : Sgx, HB : PoolBase, HL : !SgxLaws, HA : !SgxAuth}.

(** A ciphertext other than [c0] that carries the tag [t] under nonce [n]. *)
Definition forgery (key n t c0 : list Z) (c : list Z) : Prop :=
  c ≠ c0 ∧ ∃ b, gcm_encrypt key b n = Some (c, t).

(** C9. What the untrusted side can do to an evicted page. Let [p0] be what
    page [p] held when it was last encrypted, [c0] and [t] its ciphertext and
    tag. Unless the pool's bytes for the page are now a forgery under that
    very nonce and tag, bringing the page in either aborts, without changing
    anything, or puts exactly [p0] in the slot; and it does the latter where
    the pool was left alone. An old ciphertext of the page is no exception: the
    tag kept is that of the last eviction. *)
Theorem page_in_authentic s K p slot v p0 n t c0 :
  CryptoCache.crypto_ok (llc s) K → K !! p = Some (n, t) →
  gcm_encrypt (g_eviction_key s) p0 n = Some (c0, t) → u8 <$> p0 = p0 →
  geometry s → 0 ≤ p < npages s → 0 ≤ slot → epc_arr s !! slot = Some v →
  ¬ forgery (g_eviction_key s) n t c0 (ram_bytes s p) →
  (ram_bytes s p ≠ c0 ∧ page_in p slot s = Err EAbort) ∨
  (ram_bytes s p = c0 ∧ ∃ s', page_in p slot s = Ok (tt, s') ∧
    prm s' = store_bytes (prm s) v p0 ∧ pool s' = pool s ∧ l1 s' = l1 s ∧
    CryptoCache.crypto_ok (llc s') K).
Proof.
  intros Hok HK Henc Hp0 Hgeo Hp Hslot Hv Hforge.
  destruct (CryptoCache.crypto_get_ok _ K p Hok) as (c & ret & Hget & Hret & Hok').
  rewrite HK in Hret. destruct ret as [it|]; [|done]. simpl in Hret. injection Hret as En Et.
  assert (page_in p slot s =
    match gcm_decrypt (g_eviction_key s) (ram_bytes s p) n t with
    | None => Err EAbort
    | Some b => Ok (tt, set_prm (set_llc s c) (store_bytes (prm s) v b))
    end) as ->.
  { unfold page_in. rewrite (on_llc_run _ _ _ _ _ Hget).
    rewrite (read_slot_run _ (set_llc s c) slot v Hslot Hv). rewrite bind_gets.
    cbn [g_eviction_key pool set_llc]. change (ram_page_ptr (set_llc s c) p) with (ram_page_ptr s p).
    rewrite (ram_page_ptr_eq s p Hgeo Hp). fold (ram_bytes s p). rewrite En, Et.
    by destruct (gcm_decrypt _ _ n t). }
  destruct (decide (ram_bytes s p = c0)) as [E|E]; [right|left]; (split; [exact E|]).
  - rewrite E, (gcm_round_trip _ _ _ _ _ Henc), Hp0. eexists. split; [reflexivity|]. by split_and!.
  - destruct (gcm_decrypt _ _ n t) as [b|] eqn:Ed; [|done]. exfalso. apply Hforge.
    split; [exact E|]. exists b. apply gcm_auth; [|done]. unfold ram_bytes. apply u8_load_bytes.
Qed.
End auth.

(** A page of sevens on a pool of one page, with a byte of its ciphertext
    changed. *)
Definition sevens : list Z := replicate PAGE_BYTES 7.
Definition tampered (c : CryptoCache.CryptoCache) : suvm := mkSuvm
  (PageCache.cache_init 1 1 1 0) c [] 0 {[0 := 4096]} ∅
  (mkHeap mem5_zero (store_bytes ∅ 65536 (<[9%nat := 1]> (toy_encrypt [] sevens [5]).1)))
  65536 4096 4096 [] 0 0 0 true.

Lemma page_in_authentic_witness :
  ∃ c, page_in 0 0 (tampered c) = Err EAbort.
Proof.
  destruct (CryptoCache.crypto_add_ok (CryptoCache.crypto_init 4) ∅ 0
    (CryptoCache.crypto_init_ok 4 ltac:(lia))) as (c1 & it & _ & _ & Hok1 & _).
  destruct (CryptoCache.crypto_store_ok c1 _ 0 [5] (u8 <$> sevens) Hok1) as (c & _ & Hok).
  { exists (CryptoCache.meta it). apply lookup_insert_eq. }
  exists c.
  assert (ram_bytes (tampered c) 0 !! 9%nat = Some 1) as H9.
  { unfold ram_bytes. rewrite lookup_load_bytes by (pose proof page_bytes; unfold PAGE_SIZE in *; lia).
    vm_compute. reflexivity. }
  assert ((toy_encrypt [] sevens [5]).1 !! 9%nat = Some 8) as H9'.
  { simpl. unfold sevens. rewrite fmap_replicate, lookup_replicate_2; [reflexivity|].
    pose proof page_bytes. unfold PAGE_SIZE in *. lia. }
  destruct (page_in_authentic (tampered c) _ 0 0 4096 sevens [5] (u8 <$> sevens)
    (toy_encrypt [] sevens [5]).1 Hok) as [[_ H]|[E _]].
  - apply lookup_insert_eq.
  - reflexivity.
  - unfold sevens. by rewrite fmap_replicate.
  - constructor; [split_and!|split|]; try reflexivity.
    vm_compute. congruence.
  - split; [lia|vm_compute; reflexivity].
  - lia.
  - reflexivity.
  - intros [Hne [b Hb]]. injection Hb as Hc Ht. apply Hne. rewrite <- Hc. simpl.
    assert (∀ l : list Z, (λ x, u8 (x + 1)) <$> l = (λ x, u8 (x + 1)) <$> (u8 <$> l)) as Hu.
    { intros l. rewrite <- list_fmap_compose. apply list_fmap_ext. intros i x _. simpl.
      unfold u8. by rewrite Zplus_mod_idemp_l. }
    rewrite (Hu b), Ht, <- Hu. reflexivity.
  - exact H.
  - exfalso. rewrite E, H9' in H9. discriminate H9.
Defined.
