(* ===== verification/Aptr.v ===== *)
(** * Pointers of the library: [Aptr<T>]

    Models the class template of [static_trusted/Aptr.h] over the paging layer:
    construction, copies, arithmetic, comparisons, dereference and release.
    The size of [T] is a parameter where the arithmetic needs it. *)

From S2P Require Import Prelude Memory SyncUtils Ring Mem5 Suvm SuvmInv SuvmProofs SuvmThms.
From S2P Require PageCache.

#[local] Opaque EVICT_FUEL.
#[local] Opaque CACHE_CAPACITY.
#[local] Opaque PAGE_BYTES.

Record Aptr := mkAptrC { m_aptr : aptr_t; m_base_page_index : Z; m_size : Z }.

Definition set_offset (a : aptr_t) (o : Z) : aptr_t := mkAptr (prm_ptr a) (page a) o (hint_write a).
(** [(aptr)->offset += val] on an [int]. *)
Definition MOVE_APTR (a : aptr_t) (val : Z) : aptr_t := set_offset a (i32 (offset a + val)).
Definition on_aptr (f : aptr_t → aptr_t) (p : Aptr) : Aptr :=
  mkAptrC (f (m_aptr p)) (m_base_page_index p) (m_size p).
(** [aptr.m_aptr.hint_write = w] *)
Definition set_hint (w : bool) (p : Aptr) : Aptr :=
  on_aptr (λ a, mkAptr (prm_ptr a) (page a) (offset a) w) p.

(** [Aptr()] sets two of the members. *)
Definition Aptr_null (garbage : aptr_t) : Aptr := mkAptrC garbage (-1) 0.

(** [Aptr(void* ram_ptr, size_t size, int)] *)
Definition Aptr_ctor (ram_ptr size : Z) : M suvm Aptr :=
  base ← gets g_base_pool_ptr;
  let d := i64 (ram_ptr - base) in
  let a := mkAptr DUMMY (-1) (i32 (Z.land d PAGE_BITS_MASK + PAGE_SIZE)) false in
  let base_page_index := i32 (Z.shiftr d PAGE_SIZE_LOG) in
  massert (0 <=? base_page_index);;
  mret (mkAptrC a base_page_index size).

Definition do_copy (p : Aptr) : Aptr :=
  let a := m_aptr p in
  mkAptrC (mkAptr DUMMY (i32 (page a - 1)) (i32 (offset a + PAGE_SIZE)) (hint_write a))
    (m_base_page_index p) (m_size p).

Definition reset `{HS : Sgx} (p : Aptr) : M suvm Aptr :=
  let nulled := mkAptrC (mkAptr DUMMY (page (m_aptr p)) (offset (m_aptr p)) (hint_write (m_aptr p)))
    (-1) (m_size p) in
  if m_base_page_index p <? 0 then mret nulled
  else
    v ← read_slot (prm_ptr (m_aptr p));
    (if v =? 0 then mret tt
     else on_l1 (PageCache.dec_ref_count (i32 (m_base_page_index p + page (m_aptr p)))));;
    mret nulled.

(** [p = aptr]: what [p] held is released, and then [aptr] is copied. [None]
    stands for [p] itself, which the copy finds already reset. *)
Definition assign `{HS : Sgx} (p : Aptr) (aptr : option Aptr) : M suvm Aptr :=
  p ← reset p;
  mret (do_copy (default p aptr)).

(** [move(size_t offset)] for elements of [sizeof_T] bytes. *)
Definition move (sizeof_T : Z) (n : Z) (p : Aptr) : Aptr :=
  on_aptr (λ a, MOVE_APTR a (u64 (u64 n * sizeof_T))) p.
Definition incr (sizeof_T : Z) (p : Aptr) : Aptr := move sizeof_T 1 p.
Definition decr (sizeof_T : Z) (p : Aptr) : Aptr := move sizeof_T (-1) p.
Definition plus_eq (sizeof_T n : Z) (p : Aptr) : Aptr := move sizeof_T n p.
Definition minus_eq (sizeof_T n : Z) (p : Aptr) : Aptr := move sizeof_T (- n) p.

Definition is_not_null (p : Aptr) : bool := 0 <? m_base_page_index p.
Definition op_not (p : Aptr) : bool := m_base_page_index p <? 0.

(** The precedence is that of C++: [a + b >> c] is [(a + b) >> c]. *)
Definition op_eq (p lhs : Aptr) : bool :=
  (m_base_page_index lhs =? m_base_page_index p) &&
  (i32 (offset (m_aptr lhs) + Z.shiftr (page (m_aptr lhs)) PAGE_SIZE_LOG) =?
   Z.shiftr (i32 (offset (m_aptr p) + page (m_aptr p))) PAGE_SIZE_LOG).
Definition op_ne (p lhs : Aptr) : bool :=
  negb (m_base_page_index lhs =? m_base_page_index p) ||
  negb (i32 (offset (m_aptr lhs) + Z.shiftr (page (m_aptr lhs)) PAGE_SIZE_LOG) =?
   Z.shiftr (i32 (offset (m_aptr p) + page (m_aptr p))) PAGE_SIZE_LOG).

(** [*p]: the address, and the pointer as the dereference leaves it. *)
Definition star `{Sgx} `{Bld : Build} (p : Aptr) : M suvm (Z * Aptr) :=
  r ← deref (m_aptr p) (m_base_page_index p);
  mret (r.1, on_aptr (λ _, r.2) p).

(** [memmove] and the accesses through [T&]: [n] bytes at an address of the
    enclave's pages. *)
Definition range_in_slab `{Bld : Build} (s : suvm) (addr n : Z) : bool :=
  (g_slab s <=? addr) && (addr + n <=? g_slab s + CACHE_CAPACITY * PAGE_SIZE).
Definition load_block `{Bld : Build} (addr : Z) (n : nat) : M suvm (list Z) :=
  s ← gets id;
  if range_in_slab s addr (Z.of_nat n) then mret (load_bytes (prm s) addr n) else fail EUndef.
Definition store_block `{Bld : Build} (addr : Z) (l : list Z) : M suvm unit :=
  s ← gets id;
  if range_in_slab s addr (Z.of_nat (length l))
  then modify (λ s, set_prm s (store_bytes (prm s) addr l)) else fail EUndef.

(** ** Where a pointer points

    Positions are bytes from the start of the pool. *)

Definition points (C : gmap Z Z) (base : Z) (a : aptr_t) (prev : option Z) (P : Z) : Prop :=
  ptr_ok C base a prev ∧ target_page base a = P `div` PAGE_SIZE ∧
  target_offset a = P `mod` PAGE_SIZE.

(** A byte of the pool whose contents are tracked. *)
Definition byte_at (V : gmap Z (list Z)) (P : Z) : option Z :=
  b ← V !! (P `div` PAGE_SIZE); b !! Z.to_nat (P `mod` PAGE_SIZE).

(** The position [P] is of the pool. *)
Definition in_pool (s : suvm) (P : Z) : Prop := 0 ≤ P < npages s * PAGE_SIZE.

Section positions.
Context `{HS : Sgx}.

Lemma target_eq base a :
  target_page base a = i32 (base + page a + offset a `div` PAGE_SIZE) ∧
  target_offset a = offset a `mod` PAGE_SIZE.
Proof.
  unfold target_page, target_offset, PAGE_BITS_MASK, PAGE_SIZE_LOG.
  rewrite i32_add_r, Z.shiftr_div_pow2 by lia. change (PAGE_SIZE - 1) with (Z.ones 12).
  rewrite Z.land_ones by lia. change (2 ^ 12) with PAGE_SIZE. split; [f_equal; lia|done].
Qed.

Lemma position_split P : P = P `div` PAGE_SIZE * PAGE_SIZE + P `mod` PAGE_SIZE ∧
  0 ≤ P `mod` PAGE_SIZE < PAGE_SIZE.
Proof.
  unfold PAGE_SIZE. pose proof (Z.div_mod P 4096). pose proof (Z.mod_pos_bound P 4096). lia.
Qed.

Lemma in_pool_page s P : in_pool s P → 0 ≤ P `div` PAGE_SIZE < npages s.
Proof. unfold in_pool. destruct (position_split P). unfold PAGE_SIZE in *. lia. Qed.

Lemma pool_pages s : geometry s → npages s * PAGE_SIZE ≤ 2 ^ 31.
Proof. by intros [_ [_ H] _]. Qed.

(** A pointer moved by [v] bytes points [v] bytes further, as long as one
    that is not linked keeps an offset that faults. *)
Lemma points_move C base a prev P v :
  points C base a prev P → 0 ≤ P + v < 2 ^ 43 →
  0 ≤ P < 2 ^ 43 → - 2 ^ 31 ≤ offset a + v < 2 ^ 31 →
  (prev = None → ISVALID (offset a + v) = false) →
  points C base (MOVE_APTR a v) prev (P + v).
Proof.
  intros ((Hl & Hn & Hp) & Ht & Ho) Hv HP Hov Hnone.
  destruct (target_eq base a) as [E1 E2]. rewrite E1 in Ht. rewrite E2 in Ho.
  split.
  { split; [by destruct prev|]. split; [|done]. intros E. simpl.
    rewrite (i32_id (offset a + v)) by exact Hov. by apply Hnone. }
  destruct (target_eq base (MOVE_APTR a v)) as [-> ->]. simpl. rewrite (i32_id (offset a + v)) by exact Hov.
  destruct (position_split P) as [EP _]. destruct (position_split (P + v)) as [EPv ?].
  unfold PAGE_SIZE in *. pose proof (Z.div_mod (offset a) 4096) as Hd.
  replace (offset a + v) with (P + v + (offset a / 4096 - P / 4096) * 4096) by lia.
  rewrite Z.div_add, Z.mod_add by lia. split; [|done].
  replace (base + page a + ((P + v) / 4096 + (offset a / 4096 - P / 4096)))
    with (base + page a + offset a / 4096 + ((P + v) / 4096 - P / 4096)) by lia.
  rewrite <- i32_add_l, Ht. replace (P / 4096 + ((P + v) / 4096 - P / 4096)) with ((P + v) / 4096) by lia.
  apply i32_id. lia.
Qed.

(** A copy points to the same byte and holds nothing, where its offset is one
    that faults. *)
Lemma do_copy_points C C' p prev P :
  points C (m_base_page_index p) (m_aptr p) prev P →
  - 2 ^ 31 ≤ offset (m_aptr p) → offset (m_aptr p) + PAGE_SIZE < 2 ^ 31 →
  ¬ (- PAGE_SIZE ≤ offset (m_aptr p) < 0) →
  points C' (m_base_page_index (do_copy p)) (m_aptr (do_copy p)) None P.
Proof.
  intros ((Hl & Hn & Hp) & Ht & Ho) Hlo Hhi Hoff.
  assert (offset (m_aptr (do_copy p)) = offset (m_aptr p) + PAGE_SIZE) as Eo.
  { simpl. apply i32_id. unfold PAGE_SIZE in *. lia. }
  split.
  - split; [done|]. split; [|apply i32_i32]. intros _. rewrite Eo.
    apply not_true_iff_false. intros E. apply ISVALID_spec in E. unfold PAGE_SIZE in *. lia.
  - destruct (target_eq (m_base_page_index (do_copy p)) (m_aptr (do_copy p))) as [-> ->]. rewrite Eo.
    destruct (target_eq (m_base_page_index p) (m_aptr p)) as [E1 E2].
    rewrite <- Ht, <- Ho, E1, E2. unfold PAGE_SIZE.
    replace (offset (m_aptr p) + 4096) with (offset (m_aptr p) + 1 * 4096) by lia.
    rewrite Z.div_add, Z.mod_add by lia. split; [|done].
    replace (m_base_page_index (do_copy p) + page (m_aptr (do_copy p)) + (offset (m_aptr p) `div` 4096 + 1))
      with (m_base_page_index p + (offset (m_aptr p) `div` 4096 + 1) + i32 (page (m_aptr p) - 1))
      by (simpl; lia).
    rewrite i32_add_r. f_equal. lia.
Qed.

(** A pointer made for byte [P] of the pool points there and holds nothing. *)
Lemma Aptr_ctor_ok s P size :
  geometry s → 0 ≤ P < 2 ^ 31 → g_base_pool_ptr s + P < 2 ^ 63 →
  ∃ p, (∀ B (f : Aptr → M suvm B), (Aptr_ctor (g_base_pool_ptr s + P) size ≫= f) s = f p s) ∧
    (∀ C, points C (m_base_page_index p) (m_aptr p) None P) ∧ hint_write (m_aptr p) = false ∧
    m_base_page_index p = P `div` PAGE_SIZE ∧ page (m_aptr p) = -1 ∧
    offset (m_aptr p) = P `mod` PAGE_SIZE + PAGE_SIZE.
Proof.
  intros _ HP Hptr. destruct (position_split P) as [EP Hm].
  set (p := mkAptrC (mkAptr DUMMY (-1) (P `mod` PAGE_SIZE + PAGE_SIZE) false) (P `div` PAGE_SIZE) size).
  assert (∀ B (f : Aptr → M suvm B), (Aptr_ctor (g_base_pool_ptr s + P) size ≫= f) s = f p s) as Hrun.
  { intros B f. unfold Aptr_ctor. rewrite bind_assoc, bind_gets. cbv zeta.
    replace (g_base_pool_ptr s + P - g_base_pool_ptr s) with P by lia. rewrite i64_id by lia.
    unfold PAGE_BITS_MASK, PAGE_SIZE_LOG. change (PAGE_SIZE - 1) with (Z.ones 12).
    rewrite Z.land_ones, Z.shiftr_div_pow2 by lia. change (2 ^ 12) with PAGE_SIZE.
    unfold PAGE_SIZE in *. rewrite !i32_id by lia. rewrite bind_assoc, bind_assert by (apply Z.leb_le; lia).
    by rewrite bind_ret. }
  exists p. split; [exact Hrun|]. split; [|done]. intros C. split.
  - split; [done|]. split; [|reflexivity]. intros _. simpl. unfold ISVALID.
    rewrite (proj2 (Z.ltb_ge _ _)) by lia. done.
  - destruct (target_eq (m_base_page_index p) (m_aptr p)) as [-> ->]. simpl.
    unfold PAGE_SIZE in *. replace (P mod 4096 + 4096) with (P mod 4096 + 1 * 4096) by lia.
    rewrite Z.div_add, Z.mod_add, Z.mod_mod, (Z.div_small (P mod 4096)) by lia.
    split; [|done]. rewrite i32_id by lia. lia.
Qed.
End positions.

(** ** Reading and writing the pool through a pointer *)

(** [V'] is [V] with the bytes [l] written at [P]; the pages of the range may
    be tracked in [V'] and not in [V]. *)
Record written (V V' : gmap Z (list Z)) (P : Z) (l : list Z) : Prop := {
  written_bytes : ∀ i x, l !! i = Some x → byte_at V' (P + Z.of_nat i) = Some (u8 x);
  written_others : ∀ Q x, ¬ (P ≤ Q < P + Z.of_nat (length l)) →
    byte_at V Q = Some x → byte_at V' Q = Some x;
  written_pages : ∀ p, is_Some (V' !! p) → is_Some (V !! p) ∨
    ∃ Q, P ≤ Q < P + Z.max 1 (Z.of_nat (length l)) ∧ p = Q `div` PAGE_SIZE
}.

(** The bytes [l] are what [V] has at [P], wherever it has anything. *)
Definition agrees (V : gmap Z (list Z)) (P : Z) (l : list Z) : Prop :=
  ∀ i x y, l !! i = Some x → byte_at V (P + Z.of_nat i) = Some y → x = y.

Lemma written_nil V V' P :
  (∀ Q x, byte_at V Q = Some x → byte_at V' Q = Some x) →
  (∀ p, is_Some (V' !! p) → is_Some (V !! p) ∨ p = P `div` PAGE_SIZE) → written V V' P [].
Proof.
  intros H H'. split; [intros i x; by rewrite lookup_nil|intros Q x _; apply H|].
  intros p Hp. destruct (H' p Hp) as [|Ep]; [by left|]. right. exists P. simpl. split; [lia|exact Ep].
Qed.

Lemma written_byte V V' P Q x : written V V' P [] → byte_at V Q = Some x → byte_at V' Q = Some x.
Proof. intros H. apply (written_others _ _ _ _ H). simpl. lia. Qed.

Lemma written_app V V1 V2 P l1 l2 :
  l1 = [] ∨ l2 ≠ [] ∨ V2 = V1 →
  written V V1 P l1 → written V1 V2 (P + Z.of_nat (length l1)) l2 → written V V2 P (l1 ++ l2).
Proof.
  intros Hne [A1 A2 A3] [B1 B2 B3]. split.
  - intros i x. rewrite lookup_app_Some. intros [H|[Hge H]].
    + apply B2; [|by apply A1]. apply lookup_lt_Some in H. lia.
    + apply B1 in H. rewrite <- H. f_equal. lia.
  - intros Q x HQ Hx. rewrite length_app in HQ. apply B2; [lia|]. apply A2; [lia|done].
  - intros p Hp. rewrite length_app.
    assert (is_Some (V1 !! p) → is_Some (V !! p) ∨ ∃ Q, P ≤ Q < P + Z.max 1 (Z.of_nat (length l1 + length l2)) ∧
      p = Q `div` PAGE_SIZE) as Hfirst.
    { intros Hp1. destruct (A3 p Hp1) as [|(Q & HQ & ->)]; [by left|]. right. exists Q. split; [lia|done]. }
    destruct Hne as [->|[Hl2| ->]]; [| |by apply Hfirst].
    all: destruct (B3 p Hp) as [Hp1|(Q & HQ & ->)]; [by apply Hfirst|]; right; exists Q; (split; [|done]).
    + simpl in *. lia.
    + destruct l2; [done|]. cbn [length] in *. lia.
Qed.

Lemma written_refl V P : written V V P [].
Proof. apply written_nil; auto. Qed.

Lemma agrees_app V P l1 l2 :
  agrees V P l1 → agrees V (P + Z.of_nat (length l1)) l2 → agrees V P (l1 ++ l2).
Proof.
  intros H1 H2 i x y. rewrite lookup_app_Some. intros [H|[Hge H]] Hy; [by eapply H1|].
  eapply H2; [exact H|]. rewrite <- Hy. f_equal. lia.
Qed.

Lemma agrees_written V V' P l : written V V' P [] → agrees V' P l → agrees V P l.
Proof. intros Hw H i x y Hi Hy. eapply H; [exact Hi|]. by eapply written_byte. Qed.

(** Where [V] has all the bytes of a range, agreeing bytes are those. *)
Lemma agrees_eq V P l l' :
  agrees V P l → length l = length l' →
  (∀ i x, l' !! i = Some x → byte_at V (P + Z.of_nat i) = Some x) → l = l'.
Proof.
  intros H Hlen Hl'. apply list_eq. intros i. destruct (l !! i) as [x|] eqn:E.
  - destruct (lookup_lt_is_Some_2 l' i) as [y Hy]; [rewrite <- Hlen; by eapply lookup_lt_Some|].
    rewrite Hy. f_equal. eapply H; [exact E|]. by apply Hl'.
  - symmetry. apply lookup_ge_None. rewrite <- Hlen. by apply lookup_ge_None.
Qed.

Lemma byte_at_split V p o :
  0 ≤ o < PAGE_SIZE → byte_at V (p * PAGE_SIZE + o) = b ← V !! p; b !! Z.to_nat o.
Proof.
  intros Ho. unfold byte_at, PAGE_SIZE in *. rewrite Z.add_comm, Z.div_add, Z.mod_add by lia.
  rewrite Z.div_small, Z.mod_small by lia. done.
Qed.

Section access.
Context `{HS : Sgx, HB : PoolBase, HL : !SgxLaws}.

(** A dereference for position [P]: the page's slot, pinned, and, with the
    write hint, tracked and dirty. *)
Lemma deref_at s C V L base a prev P :
  suvm_ok s C V (option_list prev ++ L) → points C base a prev P →
  room s L (P `div` PAGE_SIZE) →
  ∃ s' C' V' a' i, let p := P `div` PAGE_SIZE in
    (∀ B (f : Z * aptr_t → M suvm B),
      (deref a base ≫= f) s = f (slot_addr s' i + P `mod` PAGE_SIZE, a') s') ∧
    suvm_ok s' C' V' (p :: L) ∧ written V V' P [] ∧ points C' base a' (Some p) P ∧
    offset a' = P `mod` PAGE_SIZE ∧ hint_write a' = hint_write a ∧
    C' !! p = Some i ∧ 0 ≤ i < CACHE_CAPACITY ∧ (∀ q, q ∈ L → C' !! q = C !! q) ∧
    same_static s s' ∧
    (if hint_write a then V' !! p = Some (slot_bytes s' i) ∧ epc_arr s' !! i = Some (slot_val s' i true)
     else V' = V ∧ ∀ b, V !! p = Some b → slot_bytes s' i = b).
Proof.
  intros Hok (Hptr & Ht & Ho) Hroom. rewrite <- Ht in Hroom |- *. rewrite <- Ho.
  destruct (deref_ok s C V L base a prev Hok Hptr Hroom)
    as (s' & C' & a' & i & Hrun & Hok' & HC & Hb & Eo & Eh & Et & Hptr' & Hkeep & Hst & Hd & Hir).
  eexists s', C', _, a', i. cbv zeta. split; [exact Hrun|]. split; [exact Hok'|].
  split.
  { destruct (hint_write a); [|apply written_nil; auto]. apply written_nil.
    - intros Q x. unfold byte_at. rewrite lookup_insert. case_decide as E; [|done]. rewrite <- E.
      destruct (V !! target_page base a) as [b|]; [|done]. simpl. by rewrite (Hb b eq_refl).
    - intros q. rewrite lookup_insert. case_decide as E; [right; congruence|by left]. }
  split.
  { split; [exact Hptr'|]. rewrite Et, Ht. split; [done|]. destruct (target_eq base a') as [_ ->].
    rewrite Eo, Ho. apply Z.mod_mod. unfold PAGE_SIZE. lia. }
  do 6 (split; [done|]).
  destruct (hint_write a) eqn:Ew; [|done]. split; [apply lookup_insert_eq|by apply Hd].
Qed.

(** The bytes of a pinned slot, read and written. *)
Lemma read_agrees s C V L p i o n :
  suvm_ok s C V L → C !! p = Some i → 0 ≤ o → o + Z.of_nat n ≤ PAGE_SIZE →
  agrees V (p * PAGE_SIZE + o) (load_bytes (prm s) (slot_addr s i + o) n).
Proof.
  intros [(U & K & D & Hinv) Hsz] Hp Ho Hn j x y Hx Hy. pose proof (lookup_lt_Some _ _ _ Hx) as Hj.
  rewrite length_load_bytes in Hj. rewrite lookup_load_bytes in Hx by done. injection Hx as <-.
  replace (p * PAGE_SIZE + o + Z.of_nat j) with (p * PAGE_SIZE + (o + Z.of_nat j)) in Hy by lia.
  rewrite byte_at_split in Hy by lia. destruct (V !! p) as [b|] eqn:Eb; [|done]. simpl in Hy.
  pose proof (inv_bytes _ _ _ _ _ _ _ _ _ _ Hinv p b Eb) as H1. rewrite Hp in H1.
  destruct H1 as [<- _]. rewrite slot_bytes_lookup in Hy by lia. injection Hy as <-.
  f_equal. lia.
Qed.

Lemma written_poke V p o v b :
  0 ≤ o < PAGE_SIZE → V !! p = Some b → length b = PAGE_BYTES →
  written V (<[p := poke b o v]> V) (p * PAGE_SIZE + o) [v].
Proof.
  intros Ho Hb Hlen. pose proof page_bytes as Hpb. split.
  - intros i x Hx. apply list_lookup_singleton_Some in Hx as [-> <-]. rewrite Z.add_0_r.
    rewrite byte_at_split, lookup_insert_eq by done. simpl. unfold poke.
    apply list_lookup_insert_eq. lia.
  - intros Q x HQ. simpl in HQ. destruct (position_split Q) as [EQ HmQ].
    rewrite EQ. rewrite !byte_at_split by done. rewrite lookup_insert. case_decide as E; [|done].
    rewrite <- E, Hb. simpl. unfold poke. rewrite list_lookup_insert_ne; [done|]. lia.
  - intros q. rewrite lookup_insert. case_decide as E; [subst q; rewrite Hb; by left|by left].
Qed.

Lemma write_written s C V L p i o l :
  suvm_ok s C V L → C !! p = Some i → 0 ≤ o → o + Z.of_nat (length l) ≤ PAGE_SIZE →
  epc_arr s !! i = Some (slot_val s i true) → V !! p = Some (slot_bytes s i) →
  ∃ V', suvm_ok (set_prm s (store_bytes (prm s) (slot_addr s i + o) l)) C V' L ∧
    written V V' (p * PAGE_SIZE + o) l.
Proof.
  revert s V o. induction l as [|v l IH]; intros s V o Hok Hp Ho Hl Hd HV; simpl in Hl.
  - exists V. split; [|apply written_refl]. simpl. by destruct s.
  - destruct (poke_ok s C V L p i o v Hok Hp) as [Hok' Hs]; [lia|done|].
    destruct (IH _ _ (o + 1) Hok' Hp) as (V' & Hok2 & Hw); [lia|lia|exact Hd| |].
    { by rewrite lookup_insert_eq, Hs. }
    assert (0 ≤ o < PAGE_SIZE) as Hop by lia.
    pose proof (written_poke V p o v _ Hop HV (length_load_bytes _ _ _)) as Hw0.
    destruct l as [|v2 l].
    { eexists. split; [exact Hok'|exact Hw0]. }
    exists V'. split.
    + simpl. change (slot_addr (set_prm s _) i) with (slot_addr s i) in Hok2.
      rewrite Z.add_assoc in Hok2. exact Hok2.
    + eapply (written_app _ _ _ _ [v] (v2 :: l)); [by right; left|exact Hw0|].
      simpl. rewrite <- Z.add_assoc. exact Hw.
Qed.

Lemma range_in_slab_ok s i o n :
  0 ≤ i < CACHE_CAPACITY → 0 ≤ o → o + n ≤ PAGE_SIZE → range_in_slab s (slot_addr s i + o) n = true.
Proof.
  intros Hi Ho Hn. unfold range_in_slab, slot_addr. rewrite andb_true_iff, !Z.leb_le.
  unfold PAGE_SIZE in *. lia.
Qed.

(** [n] bytes read through a pointer, within its page. *)
Lemma read_at s C V L base a prev P n :
  suvm_ok s C V (option_list prev ++ L) → points C base a prev P →
  room s L (P `div` PAGE_SIZE) → P `mod` PAGE_SIZE + Z.of_nat n ≤ PAGE_SIZE →
  ∃ s' C' V' a' l, let p := P `div` PAGE_SIZE in
    (∀ B (f : list Z → aptr_t → M suvm B),
      (r ← deref a base; l ← load_block r.1 n; f l r.2) s = f l a' s') ∧
    suvm_ok s' C' V' (p :: L) ∧ written V V' P [] ∧ (hint_write a = false → V' = V) ∧
    points C' base a' (Some p) P ∧ offset a' = P `mod` PAGE_SIZE ∧ hint_write a' = hint_write a ∧
    length l = n ∧ (∀ x, x ∈ l → 0 ≤ x < 256) ∧ agrees V P l ∧
    (∀ q, q ∈ L → C' !! q = C !! q) ∧ same_static s s'.
Proof.
  intros Hok Hpt Hroom Hn. destruct (position_split P) as [EP Hm].
  destruct (deref_at s C V L base a prev P Hok Hpt Hroom)
    as (s' & C' & V' & a' & i & Hrun & Hok' & Hw & Hpt' & Eo & Eh & HC & Hir & Hkeep & Hst & Hd).
  exists s', C', V', a', (load_bytes (prm s') (slot_addr s' i + P `mod` PAGE_SIZE) n). cbv zeta.
  split; [|split; [exact Hok'|split; [exact Hw|split; [|split; [exact Hpt'|split; [exact Eo|split; [exact Eh|]]]]]]].
  - intros B f. rewrite Hrun. simpl. unfold load_block. rewrite ?bind_assoc, bind_gets. cbn [id].
    by rewrite range_in_slab_ok by lia.
  - intros Ew. rewrite Ew in Hd. apply Hd.
  - split; [apply length_load_bytes|]. split; [|split; [|done]].
    + intros x Hx. rewrite <- u8_load_bytes in Hx. apply list_elem_of_fmap in Hx as (y & -> & _).
      apply u8_range.
    + eapply agrees_written; [exact Hw|].
      pose proof (read_agrees s' C' V' _ _ i (P `mod` PAGE_SIZE) n Hok' HC) as H.
      rewrite <- EP in H. apply H; lia.
Qed.

(** The bytes [l] written through a pointer with the write hint, within its
    page. *)
Lemma write_at s C V L base a prev P l :
  suvm_ok s C V (option_list prev ++ L) → points C base a prev P →
  room s L (P `div` PAGE_SIZE) → P `mod` PAGE_SIZE + Z.of_nat (length l) ≤ PAGE_SIZE →
  hint_write a = true →
  ∃ s' C' V' a', let p := P `div` PAGE_SIZE in
    (∀ B (f : aptr_t → M suvm B),
      (r ← deref a base; store_block r.1 l;; f r.2) s = f a' s') ∧
    suvm_ok s' C' V' (p :: L) ∧ written V V' P l ∧ points C' base a' (Some p) P ∧
    offset a' = P `mod` PAGE_SIZE ∧ hint_write a' = true ∧
    (∀ q, q ∈ L → C' !! q = C !! q) ∧ same_static s s'.
Proof.
  intros Hok Hpt Hroom Hn Ew. destruct (position_split P) as [EP Hm].
  destruct (deref_at s C V L base a prev P Hok Hpt Hroom)
    as (s1 & C' & V1 & a' & i & Hrun & Hok' & Hw & Hpt' & Eo & Eh & HC & Hir & Hkeep & Hst & Hd).
  rewrite Ew in Hd, Eh. destruct Hd as [HV1 Hd].
  destruct (write_written s1 C' V1 _ _ i (P `mod` PAGE_SIZE) l Hok' HC) as (V' & Hok2 & Hw2);
    [lia|lia|exact Hd|exact HV1|]. rewrite <- EP in Hw2.
  eexists _, C', V', a'. cbv zeta. split; [|split; [exact Hok2|]].
  - intros B f. rewrite Hrun. simpl. unfold store_block. rewrite ?bind_assoc, bind_gets. cbn [id].
    rewrite range_in_slab_ok by lia. by rewrite bind_modify.
  - split; [|done]. apply (written_app V V1 V' P [] l); [by left|exact Hw|]. simpl. by rewrite Z.add_0_r.
Qed.

(** The single loads and stores of the byte routines are blocks of one. *)
Lemma load_one {B} addr (f : Z → M suvm B) s :
  (load_prm addr ≫= f) s = (load_block addr 1 ≫= λ l, f (nth 0 l 0)) s.
Proof.
  unfold load_prm, load_block. rewrite ?bind_assoc, !bind_gets. cbn [id].
  replace (range_in_slab s addr (Z.of_nat 1)) with (in_slab s addr); [by destruct (in_slab s addr)|].
  unfold in_slab, range_in_slab. f_equal. apply eq_bool_prop_intro.
  rewrite !Is_true_true, Z.ltb_lt, Z.leb_le. lia.
Qed.
Lemma store_one {B} addr v (f : unit → M suvm B) s :
  (store_prm addr v ≫= f) s = (store_block addr [v] ≫= f) s.
Proof.
  unfold store_prm, store_block. rewrite ?bind_assoc, !bind_gets. cbn [id].
  replace (range_in_slab s addr (Z.of_nat (length [v]))) with (in_slab s addr); [done|].
  unfold in_slab, range_in_slab. f_equal. apply eq_bool_prop_intro.
  rewrite !Is_true_true, Z.ltb_lt, Z.leb_le. simpl. lia.
Qed.

(** Releasing a pointer gives its reference back. *)
Lemma reset_ok s C V L p prev :
  suvm_ok s C V (option_list prev ++ L) → link_ok C (m_base_page_index p) (m_aptr p) prev →
  0 ≤ m_base_page_index p →
  ∃ s' p', (∀ B (f : Aptr → M suvm B), (reset p ≫= f) s = f p' s') ∧
    suvm_ok s' C V L ∧ m_base_page_index p' = -1 ∧ prm_ptr (m_aptr p') = DUMMY ∧ same_static s s'.
Proof.
  intros [(U & K & D & Hinv) Hsz] Hl Hb.
  destruct (unlink_ok s C U K D V L _ _ prev Hinv Hl) as (s' & v & Hread & Hdec & Hinv' & Hst & _).
  eexists s', _. split; [|split; [split; [by exists U, K, D|exact Hsz]|]].
  - intros B f. unfold reset. rewrite (proj2 (Z.ltb_ge _ _)) by lia.
    by rewrite ?bind_assoc, Hread, ?bind_assoc, Hdec.
  - done.
Qed.
End access.
