(* ===== verification/AptrThms.v ===== *)
(** * Theorems about pointers

    What is stored through one pointer is loaded through another and every
    reference is given back; what a copy is; what the comparisons compute. *)

From S2P Require Import Prelude Memory SyncUtils Ring Mem5 Suvm SuvmInv SuvmProofs SuvmThms Aptr.

#[local] Opaque EVICT_FUEL.
#[local] Opaque CACHE_CAPACITY.
#[local] Opaque PAGE_BYTES.

Section clients.
Context `{HS : Sgx}.

(** [{ Aptr<T> p(ram_ptr, size, 0); p.m_aptr.hint_write = true; p += k;
    *p = l; }] and the reading counterpart, for a [T] of [w] bytes. *)
Definition write_elem (w ram_ptr size k : Z) (l : list Z) : M suvm unit :=
  p ← Aptr_ctor ram_ptr size;
  let p := set_hint true (plus_eq w k p) in
  r ← star p;
  store_block r.1 l;;
  _ ← reset r.2;
  mret tt.
Definition read_elem (w ram_ptr size k : Z) : M suvm (list Z) :=
  p ← Aptr_ctor ram_ptr size;
  let p := plus_eq w k p in
  r ← star p;
  l ← load_block r.1 (Z.to_nat w);
  _ ← reset r.2;
  mret l.
End clients.

Section proofs.
Context `{HS : Sgx, HB : PoolBase, HL : !SgxLaws}.

(** A pointer made for byte [P] and moved [k] elements on. *)
Lemma made_pointer s P size w k :
  geometry s → 0 < w → 0 ≤ k → 0 ≤ P → P + k * w + PAGE_SIZE < 2 ^ 31 →
  g_base_pool_ptr s + P < 2 ^ 63 →
  ∃ p, (∀ B (f : Aptr → M suvm B), (Aptr_ctor (g_base_pool_ptr s + P) size ≫= f) s = f p s) ∧
    0 ≤ m_base_page_index p ∧ hint_write (m_aptr p) = false ∧
    (∀ C hint, points C (m_base_page_index p) (m_aptr (set_hint hint (plus_eq w k p))) None (P + k * w)).
Proof.
  intros Hgeo Hw Hk HP Hend Hptr. destruct (position_split P) as [EP Hm].
  assert (0 ≤ k * w) by nia. assert (P < 2 ^ 31) by (unfold PAGE_SIZE in *; lia).
  destruct (Aptr_ctor_ok s P size Hgeo) as (p & Hrun & Hpt & Hh & Hb & Hpg & Ho); [lia|lia|].
  exists p. split; [exact Hrun|]. split; [rewrite Hb; apply Z.div_pos; unfold PAGE_SIZE in *; lia|].
  split; [exact Hh|]. intros C hint.
  assert (k ≤ k * w) by nia.
  assert (u64 (u64 k * w) = k * w) as Eu by (rewrite (u64_id k), u64_id; lia).
  assert (points C (m_base_page_index p) (MOVE_APTR (m_aptr p) (k * w)) None (P + k * w)) as H'.
  { apply points_move; [apply Hpt|unfold PAGE_SIZE in *; lia|lia|unfold PAGE_SIZE in *; lia|].
    intros _. destruct (ISVALID _) eqn:E; [|done]. apply ISVALID_spec in E. lia. }
  unfold plus_eq, move, on_aptr. rewrite Eu. exact H'.
Qed.

Lemma write_elem_ok s C V L P size w k l :
  suvm_ok s C V L → 0 < w → Z.of_nat (length l) = w → 0 ≤ k → 0 ≤ P →
  P + k * w + PAGE_SIZE < 2 ^ 31 → (P + k * w) `mod` PAGE_SIZE + w ≤ PAGE_SIZE →
  g_base_pool_ptr s + P < 2 ^ 63 → room s L ((P + k * w) `div` PAGE_SIZE) →
  ∃ s' C' V', write_elem w (g_base_pool_ptr s + P) size k l s = Ok (tt, s') ∧
    suvm_ok s' C' V' L ∧ written V V' (P + k * w) l ∧ same_static s s'.
Proof.
  intros Hok Hw Hl Hk HP Hend Hmod Hptr Hroom.
  destruct (made_pointer s P size w k) as (p & Hrun & Hb & _ & Hpt); try done.
  { destruct Hok as [(U & K & D & Hinv) _]. apply Hinv. }
  destruct (write_at s C V L _ _ None _ l Hok (Hpt C true) Hroom) as
    (s1 & C1 & V1 & a1 & Hrun1 & Hok1 & Hw1 & (Hp1 & _) & _ & _ & _ & Hst1); [lia|done|].
  destruct (reset_ok s1 C1 V1 L (on_aptr (λ _, a1) p) (Some _) Hok1 (proj1 Hp1) Hb)
    as (s2 & p2 & Hrun2 & Hok2 & _ & _ & Hst2).
  exists s2, C1, V1. split; [|split; [exact Hok2|split; [exact Hw1|by eapply same_static_trans]]].
  unfold write_elem. rewrite Hrun. cbv zeta. unfold star. rewrite bind_assoc.
  etransitivity; [exact (Hrun1 unit (λ a, _ ← reset (on_aptr (λ _, a) p); mret tt))|].
  exact (Hrun2 unit (λ _, mret tt)).
Qed.

Lemma read_elem_ok s C V L P size w k :
  suvm_ok s C V L → 0 < w → 0 ≤ k → 0 ≤ P →
  P + k * w + PAGE_SIZE < 2 ^ 31 → (P + k * w) `mod` PAGE_SIZE + w ≤ PAGE_SIZE →
  g_base_pool_ptr s + P < 2 ^ 63 → room s L ((P + k * w) `div` PAGE_SIZE) →
  ∃ s' C' l, read_elem w (g_base_pool_ptr s + P) size k s = Ok (l, s') ∧
    suvm_ok s' C' V L ∧ Z.of_nat (length l) = w ∧ agrees V (P + k * w) l ∧ same_static s s'.
Proof.
  intros Hok Hw Hk HP Hend Hmod Hptr Hroom.
  destruct (made_pointer s P size w k) as (p & Hrun & Hb & Hh & Hpt); try done.
  { destruct Hok as [(U & K & D & Hinv) _]. apply Hinv. }
  destruct (read_at s C V L _ _ None _ (Z.to_nat w) Hok (Hpt C false) Hroom) as
    (s1 & C1 & V1 & a1 & l & Hrun1 & Hok1 & _ & HV & (Hp1 & _) & _ & _ & Hlen & _ & Hag & _ & Hst1);
    [lia|]. rewrite (HV eq_refl) in Hok1.
  destruct (reset_ok s1 C1 V L (on_aptr (λ _, a1) p) (Some _) Hok1 (proj1 Hp1) Hb)
    as (s2 & p2 & Hrun2 & Hok2 & _ & _ & Hst2).
  exists s2, C1, l. split; [|split; [exact Hok2|split; [lia|split; [exact Hag|by eapply same_static_trans]]]].
  unfold read_elem. rewrite Hrun. cbv zeta. unfold star. rewrite bind_assoc.
  assert (set_hint false (plus_eq w k p) = plus_eq w k p) as E.
  { unfold set_hint, plus_eq, move, on_aptr, MOVE_APTR, set_offset. simpl. by rewrite Hh. }
  rewrite E in Hrun1.
  etransitivity; [exact (Hrun1 (list Z) (λ l a, _ ← reset (on_aptr (λ _, a) p); mret l))|].
  exact (Hrun2 (list Z) (λ _, mret l)).
Qed.

(** Through pointers: an element written through one [Aptr] is read back
    through another made for the same address; nothing else in the pool
    changes; and when both have gone out of scope the pages held are exactly
    those held before, so no reference leaks. The element must not straddle a
    page. *)
Theorem aptr_write_read_roundtrip s C V L P size w k l :
  suvm_ok s C V L → 0 < w → Z.of_nat (length l) = w → 0 ≤ k → 0 ≤ P →
  P + k * w + PAGE_SIZE < 2 ^ 31 → (P + k * w) `mod` PAGE_SIZE + w ≤ PAGE_SIZE →
  g_base_pool_ptr s + P < 2 ^ 63 → room s L ((P + k * w) `div` PAGE_SIZE) →
  ∃ s' C' V',
    (write_elem w (g_base_pool_ptr s + P) size k l;;
     read_elem w (g_base_pool_ptr s + P) size k) s = Ok (u8 <$> l, s') ∧
    suvm_ok s' C' V' L ∧ written V V' (P + k * w) l.
Proof.
  intros Hok Hw Hl Hk HP Hend Hmod Hptr Hroom.
  destruct (write_elem_ok s C V L P size w k l) as (s1 & C1 & V1 & Hrun1 & Hok1 & Hw1 & Hst1); try done.
  pose proof Hst1 as (E1 & E2 & _ & _).
  destruct (read_elem_ok s1 C1 V1 L P size w k) as (s2 & C2 & l' & Hrun2 & Hok2 & Hl' & Hag & _);
    try done; [by rewrite E1| |].
  { destruct Hroom as (H1 & H2). split; [|done]. unfold npages in *. by rewrite E2. }
  exists s2, C2, V1. split; [|by split].
  rewrite (bind_Ok _ _ _ _ _ Hrun1), <- E1, Hrun2. do 2 f_equal.
  apply (agrees_eq V1 (P + k * w)); [done|rewrite length_fmap; lia|].
  intros i x Hx. rewrite list_lookup_fmap in Hx. destruct (l !! i) as [y|] eqn:Ey; [|done].
  simpl in Hx. injection Hx as <-. exact (written_bytes _ _ _ _ Hw1 i y Ey).
Qed.

(** Copying a pointer. The copy points to the same byte and holds no
    reference of its own, unless the offset of the original is in [-4096, -1],
    which it is after stepping back over the start of a page: then the copy's
    offset passes for a valid one while it is linked to nothing, so a load
    through it reads at the bare offset and a store aborts. *)
Theorem aptr_copy_points s C p prev P :
  points C (m_base_page_index p) (m_aptr p) prev P →
  - 2 ^ 31 ≤ offset (m_aptr p) → offset (m_aptr p) + PAGE_SIZE < 2 ^ 31 →
  0 < g_slab s → PAGE_SIZE ≤ g_slab s →
  let q := do_copy p in
  m_base_page_index q = m_base_page_index p ∧
  (¬ (- PAGE_SIZE ≤ offset (m_aptr p) < 0) →
     ∀ C', points C' (m_base_page_index q) (m_aptr q) None P) ∧
  (- PAGE_SIZE ≤ offset (m_aptr p) < 0 →
     if hint_write (m_aptr p) then star q s = Err EAbort
     else (r ← star q; load_prm r.1) s = Err EUndef).
Proof.
  intros ((Hl & Hn & Hp) & Ht & Ho) Hlo Hhi _ Hslab q. split; [done|].
  assert (offset (m_aptr q) = offset (m_aptr p) + PAGE_SIZE) as Eo.
  { simpl. apply i32_id. unfold PAGE_SIZE in *. lia. }
  split; intros Hoff.
  - intros C'. by apply (do_copy_points C C' p prev).
  - assert (ISVALID (offset (m_aptr q)) = true) as Ev.
    { apply ISVALID_spec. rewrite Eo. unfold PAGE_SIZE in *. lia. }
    assert (star q s = if hint_write (m_aptr p) then Err EAbort
      else Ok ((offset (m_aptr q), q), s)) as Erun.
    { unfold star, deref. rewrite Ev. change (prm_ptr (m_aptr q)) with DUMMY.
      change (hint_write (m_aptr q)) with (hint_write (m_aptr p)).
      rewrite ?bind_assoc, bind_ret. unfold read_slot. change (prm_ptr (m_aptr q)) with DUMMY.
      rewrite Z.eqb_refl, dummy_zero, ?bind_assoc, bind_ret.
      change (hint_write (m_aptr q)) with (hint_write (m_aptr p)).
      destruct (hint_write (m_aptr p)); [done|]. rewrite ?bind_assoc, !bind_ret. done. }
    rewrite Erun. destruct (hint_write (m_aptr p)); [done|].
    rewrite (bind_Ok _ _ _ _ _ Erun). unfold load_prm. rewrite bind_gets. cbn [id fst].
    unfold in_slab. rewrite (proj2 (Z.leb_gt _ _)); [done|]. rewrite Eo. unfold PAGE_SIZE in *. lia.
Qed.

(** The comparisons of a pointer just made. [operator==] adds the offset
    and the page before it shifts on one side only, so the pointer is not equal
    to itself, whatever it points to; [operator!=] is its negation; and of the
    two null tests, [is_not_null] rejects a pointer into the first page of the
    pool that [operator!] accepts. *)
Theorem aptr_self_comparison s P size :
  geometry s → 0 ≤ P < 2 ^ 31 → g_base_pool_ptr s + P < 2 ^ 63 →
  ∃ p, Aptr_ctor (g_base_pool_ptr s + P) size s = Ok (p, s) ∧
    op_eq p p = false ∧ op_ne p p = true ∧ op_not p = false ∧
    (is_not_null p = false ↔ P < PAGE_SIZE).
Proof.
  intros Hgeo HP Hptr. destruct (Aptr_ctor_ok s P size Hgeo HP Hptr) as (p & Hrun & _ & _ & Eb & Ep & Eo).
  destruct (position_split P) as [EP Hm]. unfold PAGE_SIZE in *.
  exists p. split; [rewrite <- bind_ret_r; exact (Hrun Aptr mret)|].
  assert (i32 (offset (m_aptr p) + Z.shiftr (page (m_aptr p)) PAGE_SIZE_LOG) =?
    Z.shiftr (i32 (offset (m_aptr p) + page (m_aptr p))) PAGE_SIZE_LOG = false) as Hne.
  { apply Z.eqb_neq. rewrite Ep, Eo. change (Z.shiftr (-1) PAGE_SIZE_LOG) with (-1).
    rewrite i32_id by lia. rewrite Z.shiftr_div_pow2 by done. change (2 ^ PAGE_SIZE_LOG) with 4096.
    Z.div_mod_to_equations. lia. }
  unfold op_eq, op_ne, op_not, is_not_null. rewrite Hne, Z.eqb_refl, Eb.
  split; [done|]. split; [done|]. split; [apply Z.ltb_ge; lia|].
  rewrite Z.ltb_ge. lia.
Qed.
End proofs.

(** ** Instances *)

Lemma small_geometry s C V L : suvm_ok s C V L → geometry s.
Proof. intros [(U & K & D & Hinv) _]. apply Hinv. Qed.

Lemma aptr_write_read_roundtrip_witness :
  ∃ s s', (write_elem 4 70000 400 3 [1; 2; 3; 4];; read_elem 4 70000 400 3) s = Ok ([1; 2; 3; 4], s').
Proof.
  destruct small_library as (s & _ & Hok & Hn & Hb & _).
  assert (room s [] 1) as Hroom.
  { unfold room. rewrite Hn, capacity. split_and!; try lia; vm_compute; congruence. }
  destruct (aptr_write_read_roundtrip s ∅ ∅ [] 4464 400 4 3 [1; 2; 3; 4] Hok)
    as (s' & C' & V' & H & _); [lia|reflexivity|lia|lia|reflexivity| | |exact Hroom|].
  - change ((4464 + 3 * 4) `mod` PAGE_SIZE) with 380. unfold PAGE_SIZE. lia.
  - rewrite Hb. lia.
  - rewrite Hb in H. exists s, s'. exact H.
Defined.

(** A pointer to byte 0 of page 3, linked, and stepped back one byte. *)
Definition stepped_back : Aptr := mkAptrC (MOVE_APTR (mkAptr 7 0 0 false) (-1)) 3 1.

Lemma aptr_copy_points_witness :
  ∃ s, points {[3 := 7]} 3 (m_aptr stepped_back) (Some 3) 12287 ∧
    (r ← star (do_copy stepped_back); load_prm r.1) s = Err EUndef.
Proof.
  destruct small_library as (s & _ & Hok & Hn & Hb & Hs). exists s.
  assert (points {[3 := 7]} 3 (m_aptr stepped_back) (Some 3) 12287) as Hp.
  { split; [|split; reflexivity]. split; [|split; [discriminate|reflexivity]].
    split; reflexivity. }
  split; [exact Hp|].
  destruct (aptr_copy_points s _ stepped_back (Some 3) 12287 Hp) as (_ & _ & H).
  - vm_compute. congruence.
  - reflexivity.
  - rewrite Hs. lia.
  - rewrite Hs. unfold PAGE_SIZE. lia.
  - apply H. vm_compute. split; congruence.
Defined.

Lemma aptr_self_comparison_witness :
  ∃ s p, Aptr_ctor 65546 1 s = Ok (p, s) ∧ op_eq p p = false ∧ is_not_null p = false.
Proof.
  destruct small_library as (s & _ & Hok & Hn & Hb & _).
  destruct (aptr_self_comparison s 10 1 (small_geometry _ _ _ _ Hok)) as (p & H1 & H2 & _ & _ & H3).
  - lia.
  - rewrite Hb. lia.
  - rewrite Hb in H1. exists s, p. split; [exact H1|]. split; [exact H2|]. apply H3. unfold PAGE_SIZE. lia.
Defined.
