(* ===== verification/LibC.v ===== *)
(** * The C-style routines over the pool

    Models the routines at the end of [static_trusted/Aptr.cpp]:
    [memset_aptr], [memcpy_aptr], the two [memmove]s between the pool and
    ordinary memory, [memcmp_aptr_aptr], [memcmp_reg_aptr] and [strncmp_aptr].
    Ordinary memory is the list of bytes a pointer points to. *)

From S2P Require Import Prelude Memory Suvm Aptr.

Definition SUB_PAGE_SIZE : Z := PAGE_SIZE.

Definition move_by (v : Z) (p : Aptr) : Aptr := on_aptr (λ a, MOVE_APTR a v) p.

(** [*s] for a pointer into ordinary memory: past its end is undefined. *)
Definition reg_read {S} (b : list Z) (i : nat) : M S Z := defined (b !! i).

(** [memmove] out of and into ordinary memory. *)
Definition reg_take {S} (b : list Z) (i n : nat) : M S (list Z) :=
  if decide (i + n ≤ length b)%nat then mret (take n (drop i b)) else fail EUndef.
Definition reg_write {S} (b : list Z) (i : nat) (l : list Z) : M S (list Z) :=
  if decide (i + length l ≤ length b)%nat then mret (take i b ++ l ++ drop (i + length l) b)
  else fail EUndef.

Section libc.
Context `{Sgx} `{Bld : Build}.

(** [do { ... } while (--n != 0)], with [n] turns to go. *)
Fixpoint memset_loop (n : nat) (c : Z) (aptr : Aptr) : M suvm Aptr :=
  match n with
  | O => mret aptr
  | S n' =>
      r ← star aptr;
      store_prm r.1 (u8 c);;
      memset_loop n' c (move_by 1 r.2)
  end.

Definition memset_aptr (dst c n : Z) : M suvm Z :=
  if n =? 0 then mret dst
  else
    aptr ← Aptr_ctor dst n;
    aptr ← memset_loop (Z.to_nat n) c (set_hint true aptr);
    _ ← reset aptr;
    mret dst.

(** The right operand of the assignment is evaluated first. *)
Fixpoint memcpy_loop (n : nat) (dst src : Aptr) : M suvm (Aptr * Aptr) :=
  match n with
  | O => mret (dst, src)
  | S n' =>
      rs ← star src;
      v ← load_prm rs.1;
      rd ← star dst;
      store_prm rd.1 v;;
      memcpy_loop n' (move_by 1 rd.2) (move_by 1 rs.2)
  end.

Definition memcpy_aptr (dst0 src0 length : Z) : M suvm Z :=
  if (length =? 0) || (dst0 =? src0) then mret dst0
  else
    dst ← Aptr_ctor dst0 length;
    src ← Aptr_ctor src0 length;
    r ← memcpy_loop (Z.to_nat length) (set_hint true dst) src;
    _ ← reset r.2;
    _ ← reset r.1;
    mret dst0.

(** Returns at the first difference. *)
Fixpoint memcmp_loop (n : nat) (s1 s2 : Aptr) : M suvm (Z * Aptr * Aptr) :=
  match n with
  | O => mret (0, s1, s2)
  | S n' =>
      r1 ← star s1;
      u1 ← load_prm r1.1;
      r2 ← star s2;
      u2 ← load_prm r2.1;
      if negb (u1 =? u2) then mret (u1 - u2, r1.2, r2.2)
      else memcmp_loop n' (move_by 1 r1.2) (move_by 1 r2.2)
  end.

Definition memcmp_aptr_aptr (s1 s2 n : Z) : M suvm Z :=
  aptr_s1 ← Aptr_ctor s1 n;
  aptr_s2 ← Aptr_ctor s2 n;
  r ← memcmp_loop (Z.to_nat n) aptr_s1 aptr_s2;
  _ ← reset r.2;
  _ ← reset r.1.2;
  mret r.1.1.

(** [b] is the ordinary memory at [s1], read at index [i]. *)
Fixpoint memcmp_reg_loop (n : nat) (b : list Z) (i : nat) (s2 : Aptr) : M suvm (Z * Aptr) :=
  match n with
  | O => mret (0, s2)
  | S n' =>
      u1 ← reg_read b i;
      r2 ← star s2;
      u2 ← load_prm r2.1;
      if negb (u8 u1 =? u2) then mret (u8 u1 - u2, r2.2)
      else memcmp_reg_loop n' b (S i) (move_by 1 r2.2)
  end.

Definition memcmp_reg_aptr (s1 : list Z) (s2 n : Z) : M suvm Z :=
  aptr_s2 ← Aptr_ctor s2 n;
  r ← memcmp_reg_loop (Z.to_nat n) s1 0 aptr_s2;
  _ ← reset r.2;
  mret r.1.

(** [*val] is an [unsigned char] and [*s2] a [char]: both are promoted. *)
Fixpoint strncmp_loop (n : nat) (b : list Z) (i : nat) (aptr : Aptr) : M suvm (Z * Aptr) :=
  match n with
  | O => mret (0, aptr)
  | S n' =>
      r ← star aptr;
      val ← load_prm r.1;
      c ← reg_read b i;
      if negb (val =? i8 c) then mret (if val <? u8 c then -1 else 1, r.2)
      else if val =? 0 then mret (0, r.2)
      else strncmp_loop n' b (S i) (move_by 1 r.2)
  end.

Definition strncmp_aptr (s1 : Z) (s2 : list Z) (n : Z) : M suvm Z :=
  aptr ← Aptr_ctor s1 n;
  r ← strncmp_loop (Z.to_nat n) s2 0 aptr;
  _ ← reset r.2;
  mret r.1.

(** [while (ctr > 0)]: a page at a time into the ordinary memory [dst0]. *)
Fixpoint memmove_reg_loop (fuel : nat) (length ctr : Z) (dst0 : list Z) (src : Aptr)
    : M suvm (list Z * Aptr) :=
  match fuel with
  | O => fail EFuel
  | S fuel' =>
      if 0 <? ctr then
        r ← star src;
        let left := SUB_PAGE_SIZE - offset (m_aptr r.2) in
        let at_ := Z.to_nat (u64 (length - ctr)) in
        if left <? ctr then
          l ← load_block r.1 (Z.to_nat left);
          dst0 ← reg_write dst0 at_ l;
          memmove_reg_loop fuel' length (ctr - left) dst0 (move_by left r.2)
        else
          l ← load_block r.1 (Z.to_nat ctr);
          dst0 ← reg_write dst0 at_ l;
          memmove_reg_loop fuel' length (ctr - ctr) dst0 r.2
      else mret (dst0, src)
  end.

(** [src] is a reference: the caller's pointer moves. *)
Definition memmove_reg_aptr (dst0 : list Z) (src : Aptr) (length : Z) : M suvm (list Z * Aptr) :=
  let ctr := i32 length in
  memmove_reg_loop (S (Z.to_nat ctr)) length ctr dst0 src.

Fixpoint memmove_aptr_loop (fuel : nat) (length ctr : Z) (src0 : list Z) (dst : Aptr) : M suvm Aptr :=
  match fuel with
  | O => fail EFuel
  | S fuel' =>
      if 0 <? ctr then
        r ← star dst;
        let left := SUB_PAGE_SIZE - offset (m_aptr r.2) in
        let at_ := Z.to_nat (u64 (length - ctr)) in
        if left <? ctr then
          l ← reg_take src0 at_ (Z.to_nat left);
          store_block r.1 l;;
          memmove_aptr_loop fuel' length (ctr - left) src0 (move_by left r.2)
        else
          l ← reg_take src0 at_ (Z.to_nat ctr);
          store_block r.1 l;;
          memmove_aptr_loop fuel' length (ctr - ctr) src0 r.2
      else mret dst
  end.

(** [dst] is a copy: the caller's pointer stays. *)
Definition memmove_aptr_reg (dst0 : Aptr) (src0 : list Z) (length : Z) : M suvm unit :=
  let dst := set_hint true (do_copy dst0) in
  let ctr := i32 length in
  dst ← memmove_aptr_loop (S (Z.to_nat ctr)) length ctr src0 dst;
  _ ← reset dst;
  mret tt.

Definition memcpy_reg_aptr (dst0 : list Z) (src0 : Aptr) (length : Z) : M suvm (list Z * Aptr) :=
  memmove_reg_aptr dst0 src0 length.
Definition memcpy_aptr_reg (dst0 : Aptr) (src0 : list Z) (length : Z) : M suvm unit :=
  memmove_aptr_reg dst0 src0 length.
End libc.
