(* ===== verification/LibCThms.v ===== *)
(** * Theorems about the C-style routines

    Each against the plain bytes of the pool: what [memset] and the copies
    write, what the comparisons return, and that every reference taken on the
    way is given back. *)

From S2P Require Import Prelude Memory SyncUtils Ring Mem5 Suvm SuvmInv SuvmProofs SuvmThms Aptr LibC.
From S2P Require Import AptrThms.

#[local] Opaque EVICT_FUEL.
#[local] Opaque CACHE_CAPACITY.
#[local] Opaque PAGE_BYTES.

(** [V] holds the bytes [l] at [P]. *)
Definition holds_at (V : gmap Z (list Z)) (P : Z) (l : list Z) : Prop :=
  ∀ i x, l !! i = Some x → byte_at V (P + Z.of_nat i) = Some x.

(** Room for [k] more pointers over the pages in [L]. *)
Definition room_for (k : Z) (s : suvm) (L : list Z) : Prop :=
  (∀ p, refs p L + k < 256) ∧
  Z.of_nat (length L) + k < CACHE_CAPACITY - MAX_NUM_OF_THREADS_OPTIMIZATION.

(** The range of [n] bytes at [P] is in the pool, and addressable. *)
Definition range_in_pool (s : suvm) (P n : Z) : Prop :=
  0 ≤ P ∧ P + n ≤ npages s * PAGE_SIZE ∧ g_base_pool_ptr s + P + n < 2 ^ 63.

(** A pointer of the library at position [P], about to be used. *)
Definition cursor (C : gmap Z Z) (p : Aptr) (prev : option Z) (P : Z) : Prop :=
  points C (m_base_page_index p) (m_aptr p) prev P ∧ 0 ≤ m_base_page_index p.

(** The same, just dereferenced. *)
Definition settled (C : gmap Z Z) (p : Aptr) (P : Z) : Prop :=
  points C (m_base_page_index p) (m_aptr p) (Some (P `div` PAGE_SIZE)) P ∧
  0 ≤ m_base_page_index p ∧ offset (m_aptr p) = P `mod` PAGE_SIZE.

Lemma holds_cons V P x l : holds_at V P (x :: l) ↔ byte_at V P = Some x ∧ holds_at V (P + 1) l.
Proof.
  split.
  - intros H. split; [rewrite <- (H 0%nat x eq_refl); f_equal; lia|].
    intros i y Hy. rewrite <- (H (S i) y Hy). f_equal. lia.
  - intros [H1 H2] [|i] y Hy; simpl in Hy; [injection Hy as <-; rewrite <- H1; f_equal; lia|].
    rewrite <- (H2 i y Hy). f_equal. lia.
Qed.

Lemma holds_written V V' P Q l l' :
  written V V' P l → holds_at V Q l' →
  Q + Z.of_nat (length l') ≤ P ∨ P + Z.of_nat (length l) ≤ Q → holds_at V' Q l'.
Proof.
  intros [_ Hw _] H Hd i x Hx. apply Hw; [|by apply H]. apply lookup_lt_Some in Hx. lia.
Qed.

Lemma written_holds V V' P l : written V V' P l → u8 <$> l = l → holds_at V' P l.
Proof.
  intros [Hw _ _] Hu i x Hx. rewrite (Hw i x Hx). f_equal. pose proof Hx as Hx'.
  rewrite <- Hu, list_lookup_fmap, Hx in Hx'. simpl in Hx'. congruence.
Qed.

Lemma room_for_room s L p : room_for 1 s L → 0 ≤ p < npages s → room s L p.
Proof. intros [H1 H2] Hp. specialize (H1 p). split; [done|]. split; [lia|done]. Qed.

Lemma room_for_cons k s L p : room_for (k + 1) s L → room_for k s (p :: L).
Proof.
  intros [H1 H2]. split; [|simpl; lia]. intros q. specialize (H1 q). simpl. case_decide; lia.
Qed.

Lemma room_for_static k s s' L : room_for k s L → room_for k s' L.
Proof. done. Qed.

Lemma range_static s s' P n : same_static s s' → range_in_pool s P n → range_in_pool s' P n.
Proof.
  intros (E1 & E2 & _) (H1 & H2 & H3). unfold range_in_pool, npages. by rewrite E1, E2.
Qed.

Lemma range_sub s P n k m :
  range_in_pool s P n → 0 ≤ k → k + m ≤ n → range_in_pool s (P + k) m.
Proof. intros (H1 & H2 & H3) Hk Hm. split; [lia|]. split; lia. Qed.

Lemma range_first s P n : range_in_pool s P n → 1 ≤ n → range_in_pool s P 1.
Proof. intros (H1 & H2 & H3) Hn. split; [lia|]. split; lia. Qed.

Lemma range_small `{Sgx, HB : PoolBase} s C V L P n :
  suvm_ok s C V L → range_in_pool s P n → P + n ≤ 2 ^ 31.
Proof.
  intros [(U & K & D & Hinv) _] (H1 & H2 & H3).
  pose proof (pool_pages s (inv_geo _ _ _ _ _ _ _ _ _ _ Hinv)). lia.
Qed.

(** What remains of a range after its first byte. *)
Lemma range_next s s' P n :
  same_static s s' → range_in_pool s P (Z.of_nat (S n)) → range_in_pool s' (P + 1) (Z.of_nat n).
Proof.
  intros Hst Hr. apply (range_static s); [done|]. eapply range_sub; [exact Hr|lia|lia].
Qed.

Lemma suvm_ok_perm `{Sgx, HB : PoolBase} s C V L L' : L ≡ₚ L' → suvm_ok s C V L → suvm_ok s C V L'.
Proof.
  intros HP [(U & K & D & [I0 I1 I2 I3 I4 I5 I6 I7 I8 I9 I10 Iw I11 I12 I13 I14]) Hsz].
  assert (∀ p, refs p L' = refs p L) as Er.
  { intros p. clear -HP. induction HP; simpl; repeat case_decide; lia. }
  split; [|done]. exists U, K, D. constructor; try done.
  - intros p Hp. rewrite Er. by apply I9.
  - intros p Hp. apply I10. by rewrite HP.
Qed.

Section steps.
Context `{HS : Sgx, HB : PoolBase, HL : !SgxLaws}.

Lemma cursor_new s C V L P n :
  suvm_ok s C V L → range_in_pool s P n → 0 < n →
  ∃ p, (∀ B (f : Aptr → M suvm B), (Aptr_ctor (g_base_pool_ptr s + P) n ≫= f) s = f p s) ∧
    hint_write (m_aptr p) = false ∧ ∀ C' h, cursor C' (set_hint h p) None P.
Proof.
  intros [(U & K & D & Hinv) _] (H1 & H2 & H3) Hn.
  pose proof (inv_geo _ _ _ _ _ _ _ _ _ _ Hinv) as Hgeo. pose proof (pool_pages s Hgeo).
  destruct (position_split P) as [EP Hm].
  destruct (Aptr_ctor_ok s P n Hgeo) as (p & Hrun & Hpt & Hh & Hb & Hpg & Ho); [lia|lia|].
  exists p. split; [exact Hrun|]. split; [exact Hh|]. intros C' h. split; [exact (Hpt C')|].
  unfold PAGE_SIZE in *. simpl. lia.
Qed.

Lemma cursor_settled C p P : settled C p P → cursor C p (Some (P `div` PAGE_SIZE)) P.
Proof. by intros (H1 & H2 & H3). Qed.

(** Moving a settled pointer within or to the end of its page. *)
Lemma settled_move C p P v :
  settled C p P → 0 ≤ P → P + v < 2 ^ 43 → 0 ≤ v ≤ PAGE_SIZE →
  cursor C (move_by v p) (Some (P `div` PAGE_SIZE)) (P + v).
Proof.
  intros (H1 & H2 & H3) HP HPv Hv. destruct (position_split P) as [_ Hm]. unfold PAGE_SIZE in *.
  split; [|done]. apply points_move; [done|lia|lia|rewrite H3; lia|done].
Qed.

(** A pointer survives what another one does, as long as its page is held. *)
Lemma cursor_keep C C' p prev P :
  cursor C p prev P → (∀ q, prev = Some q → C' !! q = C !! q) → cursor C' p prev P.
Proof.
  intros (((Hl & Hn & Hp) & Ht) & Hb) Hk. split; [|done]. split; [|done]. split; [|done].
  destruct prev as [q|]; [|done]. destruct Hl as [E HC]. split; [done|]. by rewrite Hk.
Qed.

Lemma in_range_page s P n : range_in_pool s P n → 0 < n → 0 ≤ P `div` PAGE_SIZE < npages s.
Proof. intros (H1 & H2 & _) Hn. apply in_pool_page. split; lia. Qed.

(** One load. *)
Lemma step_load s C V L p prev P :
  suvm_ok s C V (option_list prev ++ L) → cursor C p prev P → hint_write (m_aptr p) = false →
  range_in_pool s P 1 → room_for 1 s L →
  ∃ s' C' p' x,
    (∀ B (f : Z → Aptr → M suvm B), (r ← star p; x ← load_prm r.1; f x r.2) s = f x p' s') ∧
    suvm_ok s' C' V (P `div` PAGE_SIZE :: L) ∧ settled C' p' P ∧ hint_write (m_aptr p') = false ∧
    0 ≤ x < 256 ∧ (∀ y, byte_at V P = Some y → x = y) ∧
    (∀ q, q ∈ L → C' !! q = C !! q) ∧ same_static s s'.
Proof.
  intros Hok (Hpt & Hb) Hh HP Hroom. destruct (position_split P) as [_ Hm].
  destruct (read_at s C V L _ _ prev P 1 Hok Hpt) as
    (s' & C' & V' & a' & l & Hrun & Hok' & _ & HV & Hpt' & Eo & Eh & Hlen & Hbyte & Hag & Hkeep & Hst);
    [by apply room_for_room, (in_range_page s P 1)|lia|].
  rewrite (HV Hh) in Hok'. destruct l as [|x [|]]; try done.
  exists s', C', (on_aptr (λ _, a') p), x. split.
  { intros B f. unfold star. rewrite bind_assoc.
    etransitivity; [|exact (Hrun B (λ l a, f (nth 0 l 0) (on_aptr (λ _, a) p)))].
    unfold mbind, M_bind. destruct (deref _ _ s) as [[r s1]|e]; [|done]. simpl.
    exact (load_one r.1 (λ x, f x (on_aptr (λ _, r.2) p)) s1). }
  split; [exact Hok'|]. split; [by split|]. split; [by simpl; rewrite Eh|].
  split; [apply Hbyte; set_solver|]. split; [|done].
  intros y Hy. apply (Hag 0%nat); [done|]. by rewrite Z.add_0_r.
Qed.

(** One store. *)
Lemma step_store s C V L p prev P v :
  suvm_ok s C V (option_list prev ++ L) → cursor C p prev P → hint_write (m_aptr p) = true →
  range_in_pool s P 1 → room_for 1 s L →
  ∃ s' C' V' p',
    (∀ B (f : Aptr → M suvm B), (r ← star p; store_prm r.1 v;; f r.2) s = f p' s') ∧
    suvm_ok s' C' V' (P `div` PAGE_SIZE :: L) ∧ settled C' p' P ∧ hint_write (m_aptr p') = true ∧
    written V V' P [v] ∧ (∀ q, q ∈ L → C' !! q = C !! q) ∧ same_static s s'.
Proof.
  intros Hok (Hpt & Hb) Hh HP Hroom. destruct (position_split P) as [_ Hm].
  destruct (write_at s C V L _ _ prev P [v] Hok Hpt) as
    (s' & C' & V' & a' & Hrun & Hok' & Hw & Hpt' & Eo & Eh & Hkeep & Hst);
    [by apply room_for_room, (in_range_page s P 1)|simpl; lia|done|].
  exists s', C', V', (on_aptr (λ _, a') p). split.
  { intros B f. unfold star. rewrite bind_assoc.
    etransitivity; [|exact (Hrun B (λ a, f (on_aptr (λ _, a) p)))].
    unfold mbind, M_bind. destruct (deref _ _ s) as [[r s1]|e]; [|done]. simpl.
    exact (store_one r.1 v (λ _, f (on_aptr (λ _, r.2) p)) s1). }
  by split_and!.
Qed.

Lemma settled_next s C V L C' p P n :
  suvm_ok s C V L → range_in_pool s P (Z.of_nat (S n)) → settled C' p P →
  cursor C' (move_by 1 p) (Some (P `div` PAGE_SIZE)) (P + 1).
Proof.
  intros Hok Hr Hs. pose proof (range_small s C V L P _ Hok Hr). destruct Hr as (H1 & _).
  apply settled_move; [done|lia|lia|unfold PAGE_SIZE; lia].
Qed.

Lemma release s C V L p prev P :
  suvm_ok s C V (option_list prev ++ L) → cursor C p prev P →
  ∃ s', (∃ p', ∀ B (f : Aptr → M suvm B), (reset p ≫= f) s = f p' s') ∧ suvm_ok s' C V L ∧
    same_static s s'.
Proof.
  intros Hok (((Hl & _) & _) & Hb).
  destruct (reset_ok s C V L p prev Hok Hl Hb) as (s' & p' & Hrun & Hok' & _ & _ & Hst).
  exists s'. split; [by exists p'|done].
Qed.

Lemma memset_loop_ok n c s C V L p prev P :
  suvm_ok s C V (option_list prev ++ L) → cursor C p prev P → hint_write (m_aptr p) = true →
  range_in_pool s P (Z.of_nat n) → room_for 1 s L →
  ∃ s' C' V' p' prev', (∀ B (f : Aptr → M suvm B), (memset_loop n c p ≫= f) s = f p' s') ∧
    suvm_ok s' C' V' (option_list prev' ++ L) ∧ cursor C' p' prev' (P + Z.of_nat n) ∧
    written V V' P (replicate n (u8 c)) ∧ same_static s s' ∧ (n = 0%nat → V' = V).
Proof.
  revert s C V p prev P. induction n as [|n IH]; intros s C V p prev P Hok Hc Hh Hr Hroom.
  - exists s, C, V, p, prev. rewrite Z.add_0_r. split_and!; try done. apply written_refl.
  - destruct (step_store s C V L p prev P (u8 c) Hok Hc Hh) as
      (s1 & C1 & V1 & p1 & Hrun1 & Hok1 & Hs1 & Hh1 & Hw1 & _ & Hst1);
      [by eapply range_first; [exact Hr|lia]|done|].
    destruct (IH s1 C1 V1 (move_by 1 p1) (Some (P `div` PAGE_SIZE)) (P + 1)) as
      (s2 & C2 & V2 & p2 & prev2 & Hrun2 & Hok2 & Hc2 & Hw2 & Hst2 & Hz); try done.
    { exact (settled_next s C V _ C1 p1 P n Hok Hr Hs1). }
    { by eapply range_next. }
    exists s2, C2, V2, p2, prev2. split; [|split; [exact Hok2|split; [|split; [|split]]]].
    + intros B f. cbn [memset_loop]. rewrite <- (Hrun2 B f).
      etransitivity; [|exact (Hrun1 B (λ p, memset_loop n c (move_by 1 p) ≫= f))].
      rewrite bind_assoc. unfold mbind, M_bind. destruct (star p s) as [[r s3]|]; [|done].
      by destruct (store_prm r.1 (u8 c) s3) as [[[] s4]|].
    + replace (P + Z.of_nat (S n)) with (P + 1 + Z.of_nat n) by lia. exact Hc2.
    + apply (written_app V V1 V2 P [u8 c] (replicate n (u8 c))); [|exact Hw1|exact Hw2].
      right. destruct n; [right; by apply Hz|by left].
    + by eapply same_static_trans.
    + done.
Qed.

(** C25. [memset_aptr] over any range of the pool, whatever pages it spans and
    whether they are cached: it returns its argument, exactly the bytes of the
    range are set to the low byte of [c], and no page stays held. *)
Theorem memset_aptr_correct s C V L P c n :
  suvm_ok s C V L → range_in_pool s P n → 0 ≤ n → room_for 1 s L →
  ∃ s' C' V', memset_aptr (g_base_pool_ptr s + P) c n s = Ok (g_base_pool_ptr s + P, s') ∧
    suvm_ok s' C' V' L ∧ written V V' P (replicate (Z.to_nat n) (u8 c)) ∧ same_static s s'.
Proof.
  intros Hok Hr Hn Hroom. unfold memset_aptr. destruct (Z.eqb_spec n 0) as [->|Hne].
  { exists s, C, V. split_and!; try done. apply written_refl. }
  destruct (cursor_new s C V L P n Hok Hr) as (p & Hrun & _ & Hc); [lia|].
  destruct (memset_loop_ok (Z.to_nat n) c s C V L (set_hint true p) None P) as
    (s1 & C1 & V1 & p1 & prev1 & Hrun1 & Hok1 & Hc1 & Hw1 & Hst1 & _); try done.
  { by rewrite Z2Nat.id. }
  destruct (release s1 C1 V1 L p1 prev1 _ Hok1 Hc1) as (s2 & (p2 & Hrun2) & Hok2 & Hst2).
  exists s2, C1, V1. split; [by rewrite Hrun, Hrun1, Hrun2|].
  split; [done|]. split; [done|by eapply same_static_trans].
Qed.
End steps.

(** ** A small library in use

    The state the instances of the theorems about pointers and the C-style
    routines share: a pool of 16 pages with four bytes written in page 1. *)

#[local] Opaque EVICT_FUEL.
#[local] Opaque CACHE_CAPACITY.
#[local] Opaque PAGE_BYTES.

Lemma small_room_for k s : k < 256 → room_for k s [].
Proof.
  intros Hk. split; [done|]. rewrite capacity. unfold MAX_NUM_OF_THREADS_OPTIMIZATION. simpl. lia.
Qed.

Lemma small_filled :
  ∃ s C V, suvm_ok s C V [] ∧ npages s = 16 ∧ g_base_pool_ptr s = 65536 ∧
    holds_at V 4476 [1; 2; 3; 4].
Proof.
  destruct small_library as (s & _ & Hok & Hn & Hb & _).
  destruct (write_elem_ok s ∅ ∅ [] 4464 400 4 3 [1; 2; 3; 4] Hok) as
    (s' & C' & V' & _ & Hok' & Hw & (E1 & E2 & _)); [lia|done|lia|lia|reflexivity| | | |].
  - change ((4464 + 3 * 4) `mod` PAGE_SIZE) with 380. unfold PAGE_SIZE. lia.
  - rewrite Hb. lia.
  - unfold room. rewrite Hn, capacity. split_and!; try lia; vm_compute; congruence.
  - exists s', C', V'. split; [exact Hok'|]. unfold npages in *. rewrite E2, E1. split; [done|].
    split; [done|]. intros i x Hi. pose proof (written_bytes _ _ _ _ Hw) as Hw'. rewrite <- (u8_id x);
      [exact (Hw' i x Hi)|].
    destruct i as [|[|[|[|]]]]; simpl in Hi; try discriminate; injection Hi as <-; lia.
Qed.

Lemma small_range s P n :
  npages s = 16 → g_base_pool_ptr s = 65536 → 0 ≤ P → P + n ≤ 65536 → range_in_pool s P n.
Proof.
  intros E1 E2 H1 H2. unfold range_in_pool. rewrite E1, E2. unfold PAGE_SIZE. lia.
Qed.

Lemma holds_app V P l1 l2 :
  holds_at V P (l1 ++ l2) ↔ holds_at V P l1 ∧ holds_at V (P + Z.of_nat (length l1)) l2.
Proof.
  revert P. induction l1 as [|x l1 IH]; intros P; simpl.
  - rewrite Z.add_0_r. split; [|by intros [_ H]]. intros H. split; [|done]. intros i x. by rewrite lookup_nil.
  - rewrite !holds_cons, IH. replace (P + 1 + Z.of_nat (length l1)) with (P + Z.of_nat (S (length l1))) by lia.
    tauto.
Qed.

(** 200 bytes over the end of page 0. *)
Lemma memset_aptr_correct_witness :
  ∃ s s' C' V', memset_aptr 69536 7 200 s = Ok (69536, s') ∧ suvm_ok s' C' V' [] ∧
    byte_at V' 4199 = Some 7.
Proof.
  destruct small_filled as (s & C & V & Hok & Hn & Hb & HV).
  destruct (memset_aptr_correct s C V [] 4000 7 200 Hok) as (s' & C' & V' & H & Hok' & Hw & _);
    [by apply small_range|lia|by apply small_room_for|].
  rewrite Hb in H. exists s, s', C', V'. split; [exact H|]. split; [exact Hok'|].
  exact (written_bytes _ _ _ _ Hw 199%nat 7 eq_refl).
Defined.
