(* ===== verification/AptrClient.v ===== *)
(** * Programs over pointers

    A program that makes pointers into the pool, copies and assigns them, moves
    them on, loads and stores through them and lets them go, in any order and
    with any aliasing.  It runs as it would on plain bytes: the cache, the
    faults, the evictions and the references cannot be told. *)

From S2P Require Import Prelude Memory SyncUtils Ring Mem5 Suvm SuvmInv SuvmProofs SuvmThms Aptr AptrThms.
From S2P Require Import LibC LibCThms.

#[local] Opaque EVICT_FUEL CACHE_CAPACITY PAGE_BYTES.

(** ** Programs *)

(** Variables are numbers; each is a C++ object of type [Aptr<char>]. *)
Inductive cmd : Type :=
  | New (x : nat) (P sz : Z)     (** [Aptr<char> x(pool + P, sz, 0);] *)
  | Copy (x y : nat)             (** [Aptr<char> x(y);] *)
  | Assign (x y : nat)           (** [x = y;] *)
  | Advance (x : nat) (n : Z)    (** [x += n;] *)
  | Load (x : nat)               (** prints [*x] *)
  | Store (x : nat) (v : Z)      (** [x.m_aptr.hint_write = 1; *x = v;] *)
  | Drop (x : nat).              (** [x] goes out of scope *)

Section run.
Context `{Sgx} `{Bld : Build}.

(** The paging layer and the objects in scope. *)
Definition store : Type := suvm * gmap nat Aptr.

Definition on_suvm {A} (m : M suvm A) : M store A := zoom fst (λ s st, (s, st.2)) m.
Definition var (x : nat) : M store Aptr := o ← gets (λ st, st.2 !! x); defined o.
Definition set_var (x : nat) (p : Aptr) : M store unit := modify (λ st, (st.1, <[x := p]> st.2)).
Definition drop_var (x : nat) : M store unit := modify (λ st, (st.1, delete x st.2)).

Definition run_cmd (c : cmd) : M store (list Z) :=
  match c with
  | New x P sz =>
      p ← on_suvm (base ← gets g_base_pool_ptr; Aptr_ctor (base + P) sz);
      set_var x p;; mret []
  | Copy x y => p ← var y; set_var x (do_copy p);; mret []
  | Assign x y =>
      p ← var x; q ← var y;
      r ← on_suvm (assign p (if decide (x = y) then None else Some q));
      set_var x r;; mret []
  | Advance x n => p ← var x; set_var x (plus_eq 1 n p);; mret []
  | Load x =>
      p ← var x;
      r ← on_suvm (r ← star p; v ← load_prm r.1; mret (v, r.2));
      set_var x r.2;; mret [r.1]
  | Store x v =>
      p ← var x;
      p' ← on_suvm (r ← star (set_hint true p); store_prm r.1 v;; mret r.2);
      set_var x p';; mret []
  | Drop x => p ← var x; _ ← on_suvm (reset p); drop_var x;; mret []
  end.

Fixpoint run_cmds (l : list cmd) : M store (list Z) :=
  match l with
  | [] => mret []
  | c :: l' => o ← run_cmd c; o' ← run_cmds l'; mret (o ++ o')
  end.
End run.

(** ** The same programs on plain bytes *)

(** A pointer is a position, or null; [top] is the size of the pool. An
    assignment of a pointer to itself makes it null: it is released before it is
    copied. The result [None]: the program does what C++ would not define either
    (a variable out of scope, a null pointer moved or dereferenced, a position
    out of the pool, a byte never written), or has 255 pointers already. *)
Definition flat : Type := gmap nat (option Z) * gmap Z Z.

Definition flat_cmd (top : Z) (c : cmd) (st : flat) : option (list Z * flat) :=
  let '(vars, mem) := st in
  match c with
  | New x P sz =>
      guard (vars !! x = None);; guard (0 ≤ P < top);; guard (size vars < 255)%nat;;
      Some ([], (<[x := Some P]> vars, mem))
  | Copy x y =>
      guard (vars !! x = None);; P ← vars !! y; guard (size vars < 255)%nat;;
      Some ([], (<[x := P]> vars, mem))
  | Assign x y =>
      _ ← vars !! x; P ← vars !! y;
      Some ([], (<[x := if decide (x = y) then None else P]> vars, mem))
  | Advance x n =>
      P ← mjoin (vars !! x); guard (0 ≤ n);; guard (P + n ≤ top);;
      Some ([], (<[x := Some (P + n)]> vars, mem))
  | Load x => P ← mjoin (vars !! x); guard (P < top);; v ← mem !! P; Some ([v], (vars, mem))
  | Store x v => P ← mjoin (vars !! x); guard (P < top);; Some ([], (vars, <[P := u8 v]> mem))
  | Drop x => _ ← vars !! x; Some ([], (delete x vars, mem))
  end.

Fixpoint flat_cmds (top : Z) (l : list cmd) (st : flat) : option (list Z * flat) :=
  match l with
  | [] => Some ([], st)
  | c :: l' =>
      r ← flat_cmd top c st;
      r' ← flat_cmds top l' r.2;
      Some (r.1 ++ r'.1, r'.2)
  end.

(** ** The relation *)

(** A variable: the object, the page it holds, the position it stands for if it
    is not null. *)
Definition handle : Type := Aptr * option Z * option Z.
Definition h_ptr (e : handle) : Aptr := e.1.1.
Definition h_page (e : handle) : option Z := e.1.2.
Definition h_pos (e : handle) : option Z := e.2.

(** The pages held. *)
Definition pages (H : gmap nat handle) : list Z := omap (λ e, h_page e.2) (map_to_list H).

Lemma pages_delete H x e : H !! x = Some e → pages H ≡ₚ option_list (h_page e) ++ pages (delete x H).
Proof.
  intros Hx. unfold pages. rewrite <- (map_to_list_delete H x e Hx). simpl. by destruct (h_page e).
Qed.

Lemma pages_insert H x e : pages (<[x := e]> H) ≡ₚ option_list (h_page e) ++ pages (delete x H).
Proof.
  rewrite <- insert_delete_eq. unfold pages. rewrite map_to_list_insert by apply lookup_delete_eq.
  simpl. by destruct (h_page e).
Qed.

Lemma pages_elem H x e q : H !! x = Some e → h_page e = Some q → q ∈ pages H.
Proof. intros Hx Hq. rewrite (pages_delete H x e Hx), Hq. set_solver. Qed.

Lemma pages_length H : (length (pages H) ≤ size H)%nat.
Proof.
  unfold pages. rewrite <- length_map_to_list. generalize (map_to_list H). intros l.
  induction l as [|e l IH]; csimpl; [lia|]. destruct (h_page e.2); csimpl; lia.
Qed.

Lemma pages_room H s : (size H < 255)%nat → room_for 1 s (pages H).
Proof.
  intros Hs. pose proof (pages_length H). split.
  - intros p. assert (∀ l, refs p l ≤ Z.of_nat (length l)) as Hr.
    { intros l. induction l as [|q l IH]; simpl; [lia|]. case_decide; lia. }
    specialize (Hr (pages H)). lia.
  - rewrite capacity. unfold MAX_NUM_OF_THREADS_OPTIMIZATION. simpl. lia.
Qed.

Section refinement.
Context `{HS : Sgx, HB : PoolBase, HL : !SgxLaws}.
Context (top : Z).

(** [j] counts the copies made so far: each adds a page to an offset. *)
Record live_ok (j : Z) (C : gmap Z Z) (p : Aptr) (prev : option Z) (P : Z) : Prop := {
  live_cursor : cursor C p prev P;
  live_range : 0 ≤ P ≤ top;
  live_offset : 0 ≤ offset (m_aptr p) ≤ P + PAGE_SIZE * (1 + j);
  live_unlinked : prev = None → PAGE_SIZE ≤ offset (m_aptr p)
}.
Definition handle_ok (j : Z) (C : gmap Z Z) (e : handle) : Prop :=
  match h_pos e with
  | Some P => live_ok j C (h_ptr e) (h_page e) P
  | None => m_base_page_index (h_ptr e) < 0 ∧ h_page e = None
  end.

Record pool_ok (s : suvm) : Prop := {
  pool_top : npages s * PAGE_SIZE = top;
  pool_addr : g_base_pool_ptr s + top < 2 ^ 63
}.

(** The bytes of the flat memory are the pool's. *)
Definition bytes_ok (V : gmap Z (list Z)) (mem : gmap Z Z) : Prop := ∀ Q v, mem !! Q = Some v → byte_at V Q = Some v.

Definition flat_rel (j : Z) (st : store) (fl : flat) : Prop :=
  ∃ C V H, suvm_ok st.1 C V (pages H) ∧ st.2 = h_ptr <$> H ∧ fl.1 = h_pos <$> H ∧
    map_Forall (λ _, handle_ok j C) H ∧ bytes_ok V fl.2 ∧ pool_ok st.1 ∧ (size H ≤ 255)%nat.

Lemma pool_static s s' : same_static s s' → pool_ok s → pool_ok s'.
Proof. intros (E1 & E2 & _) [H1 H2]. constructor; unfold npages; by rewrite ?E1, ?E2. Qed.

Lemma handle_more j C e : handle_ok j C e → handle_ok (j + 1) C e.
Proof.
  unfold handle_ok. destruct (h_pos e); [|done]. intros [H1 H2 H3 H4]. constructor; [done..| |done].
  unfold PAGE_SIZE in *. lia.
Qed.

Lemma handle_keep j C C' e :
  handle_ok j C e → (∀ q, h_page e = Some q → C' !! q = C !! q) → handle_ok j C' e.
Proof.
  unfold handle_ok. destruct (h_pos e); [|done]. intros [H1 H2 H3 H4] Hk. constructor; [by eapply cursor_keep|done..].
Qed.

(** One variable changes, or comes into scope; the others keep their pages. *)
Lemma rel_insert j H s' C C' V' x e mem' :
  suvm_ok s' C' V' (option_list (h_page e) ++ pages (delete x H)) → handle_ok j C' e →
  map_Forall (λ _, handle_ok j C) H → (∀ q, q ∈ pages (delete x H) → C' !! q = C !! q) →
  bytes_ok V' mem' → pool_ok s' → (size (<[x := e]> H) ≤ 255)%nat →
  flat_rel j (s', <[x := h_ptr e]> (h_ptr <$> H)) (<[x := h_pos e]> (h_pos <$> H), mem').
Proof.
  intros Hok He HH Hkeep Hb Hp Hsz. exists C', V', (<[x := e]> H). cbn [fst snd].
  split. { eapply suvm_ok_perm; [|exact Hok]. symmetry. apply pages_insert. }
  split; [by rewrite fmap_insert|]. split; [by rewrite fmap_insert|]. split; [|done].
  intros y e' [[-> ->]|[Hne Hy]]%lookup_insert_Some; [done|].
  eapply handle_keep; [by apply (HH y)|]. intros q Hq. apply Hkeep.
  apply (pages_elem _ y e'); [|done]. by rewrite lookup_delete_ne.
Qed.

Lemma size_insert_in (H : gmap nat handle) x (e e' : handle) : H !! x = Some e → size (<[x := e']> H) = size H.
Proof. intros Hx. rewrite map_size_insert, Hx. done. Qed.

Lemma size_delete_in (H : gmap nat handle) x e n :
  H !! x = Some e → (size H ≤ n)%nat → (size (delete x H) < n)%nat.
Proof.
  intros Hx Hn. rewrite <- (insert_delete_id H x e Hx), map_size_insert, lookup_delete_eq in Hn. simpl in Hn. lia.
Qed.

Lemma cps_run {S A} (m : M S A) s a s' : (∀ B (f : A → M S B), (m ≫= f) s = f a s') → m s = Ok (a, s').
Proof. intros Hm. rewrite <- (bind_ret_r m s). exact (Hm A mret). Qed.

Lemma var_run {B} (f : Aptr → M store B) (st : store) x p : st.2 !! x = Some p → (var x ≫= f) st = f p st.
Proof. intros Hx. unfold var. rewrite bind_assoc, bind_gets. by rewrite (bind_defined _ _ _ _ Hx). Qed.

Lemma on_suvm_run {A B} (m : M suvm A) (f : A → M store B) (st : store) a s' :
  m st.1 = Ok (a, s') → (on_suvm m ≫= f) st = f a (s', st.2).
Proof. intros Hm. unfold on_suvm. by rewrite (bind_zoom fst _ _ _ _ _ _ Hm). Qed.

(** A variable of the flat program and its handle. *)
Lemma flat_handle (H : gmap nat handle) x P : (h_pos <$> H : gmap nat (option Z)) !! x = Some P → ∃ e, H !! x = Some e ∧ h_pos e = P ∧
  (h_ptr <$> H : gmap nat Aptr) !! x = Some (h_ptr e).
Proof.
  rewrite lookup_fmap. destruct (H !! x) as [e|] eqn:E; [|done]. intros [= <-]. exists e.
  by rewrite lookup_fmap, E.
Qed.

Lemma flat_live (H : gmap nat handle) x P :
  mjoin ((h_pos <$> H : gmap nat (option Z)) !! x) = Some P → ∃ e, H !! x = Some e ∧ h_pos e = Some P.
Proof. rewrite lookup_fmap. destruct (H !! x) as [e|]; [|done]. cbn. intros E. by exists e. Qed.

Lemma pool_range s P : pool_ok s → 0 ≤ P < top → range_in_pool s P 1.
Proof. intros [H1 H2] HP. unfold range_in_pool. rewrite H1. lia. Qed.

Lemma handles_more j C (H : gmap nat handle) : map_Forall (λ _, handle_ok j C) H → map_Forall (λ _, handle_ok (j + 1) C) H.
Proof. intros HH x e Hx. apply handle_more, (HH x e Hx). Qed.

Section commands.
Context (j : Z) (s : suvm) (C : gmap Z Z) (V : gmap Z (list Z)) (H : gmap nat handle) (mem : gmap Z Z).
Context (Hok : suvm_ok s C V (pages H)) (HH : map_Forall (λ _, handle_ok j C) H) (Hb : bytes_ok V mem).
Context (Hp : pool_ok s) (Hsz : (size H ≤ 255)%nat) (Hj : 0 ≤ j) (Htop : top + PAGE_SIZE * (3 + j) < 2 ^ 31).

Notation st := (s, h_ptr <$> H).

(** What a command does, [fl'] being where the flat program goes. *)
Notation runs c o fl' := (∃ st', run_cmd c st = Ok (o, st') ∧ flat_rel (j + 1) st' fl').

Lemma new_ok x P sz :
  H !! x = None → 0 ≤ P < top → (size H < 255)%nat → runs (New x P sz) [] (<[x := Some P]> (h_pos <$> H), mem).
Proof.
  intros Hx HP Hs. destruct (position_split P) as [EP Hm]. pose proof (pool_addr s Hp).
  destruct (Aptr_ctor_ok s P sz) as (p & Hrun & Hpt & _ & Hbase & _ & Ho);
    [exact (suvm_geometry HB s C V _ Hok)|unfold PAGE_SIZE in *; lia|lia|].
  assert (delete x H = H) as Ed by (by apply delete_id).
  exists (s, <[x := p]> (h_ptr <$> H)). split.
  - cbn [run_cmd]. rewrite (on_suvm_run _ _ st p s); [done|]. cbn [fst]. rewrite bind_gets.
    by apply cps_run.
  - apply (rel_insert (j + 1) H s C C V x (p, None, Some P)); rewrite ?Ed; try done.
    + unfold handle_ok. cbn [h_ptr h_page h_pos fst snd]. constructor; [|lia| |]; rewrite ?Ho.
      * split; [apply Hpt|]. rewrite Hbase. apply Z.div_pos; unfold PAGE_SIZE; lia.
      * unfold PAGE_SIZE in *. lia.
      * intros _. lia.
    + by apply handles_more.
    + rewrite map_size_insert, Hx. lia.
Qed.

(** The handle of a copy. *)
Lemma copy_handle e C' : handle_ok j C e → handle_ok (j + 1) C' (do_copy (h_ptr e), None, h_pos e).
Proof.
  unfold handle_ok. cbn [h_ptr h_page h_pos fst snd]. destruct (h_pos e) as [P|] eqn:EP; [|by intros []].
  intros [[Hpt Hbase] H2 H3 H4].
  assert (offset (m_aptr (do_copy (h_ptr e))) = offset (m_aptr (h_ptr e)) + PAGE_SIZE) as Eo.
  { simpl. apply i32_id. unfold PAGE_SIZE in *. lia. }
  constructor; [|done| |]; rewrite ?Eo.
  - split; [|exact Hbase]. apply (do_copy_points C C' (h_ptr e) (h_page e)); [exact Hpt|unfold PAGE_SIZE in *; lia..].
  - unfold PAGE_SIZE in *. lia.
  - intros _. unfold PAGE_SIZE in *. lia.
Qed.

Lemma copy_ok x y e :
  H !! x = None → H !! y = Some e → (size H < 255)%nat → runs (Copy x y) [] (<[x := h_pos e]> (h_pos <$> H), mem).
Proof.
  intros Hx Hy Hs. exists (s, <[x := do_copy (h_ptr e)]> (h_ptr <$> H)). split.
  - cbn [run_cmd]. rewrite (var_run _ st y (h_ptr e)); [done|]. cbn [snd]. by rewrite lookup_fmap, Hy.
  - assert (delete x H = H) as Ed by (by apply delete_id).
    apply (rel_insert (j + 1) H s C C V x (do_copy (h_ptr e), None, h_pos e)); rewrite ?Ed; try done.
    + by apply copy_handle, (HH y).
    + by apply handles_more.
    + rewrite map_size_insert, Hx. lia.
Qed.

(** What a variable holds is released, null or not. *)
Lemma release_var x e :
  H !! x = Some e →
  ∃ s' p', (∀ B (f : Aptr → M suvm B), (reset (h_ptr e) ≫= f) s = f p' s') ∧ m_base_page_index p' = -1 ∧
    suvm_ok s' C V (pages (delete x H)) ∧ same_static s s'.
Proof.
  intros Hx. pose proof (HH x e Hx) as He. pose proof (suvm_ok_perm _ _ _ _ _ (pages_delete H x e Hx) Hok) as Hok'.
  unfold handle_ok in He. destruct (h_pos e) as [P|].
  - destruct He as [[[[Hl _] _] Hbase] _ _ _].
    destruct (reset_ok s C V _ (h_ptr e) (h_page e) Hok' Hl Hbase) as (s' & p' & Hrun & Hok2 & Eb & _ & Hst).
    by exists s', p'.
  - destruct He as [Hnull Hpage]. rewrite Hpage in Hok'. eexists s, _. split; [|split; [|split; [exact Hok'|by repeat split]]].
    + intros B f. unfold reset. by rewrite (proj2 (Z.ltb_lt _ _)), bind_ret by done.
    + done.
Qed.

Lemma assign_ok x y e e' :
  H !! x = Some e' → H !! y = Some e →
  runs (Assign x y) [] (<[x := if decide (x = y) then None else h_pos e]> (h_pos <$> H), mem).
Proof.
  intros Hx Hy. destruct (release_var x e' Hx) as (s' & p' & Hrun & Hb' & Hok' & Hst).
  set (src := if decide (x = y) then None else Some (h_ptr e)).
  exists (s', <[x := do_copy (default p' src)]> (h_ptr <$> H)). split.
  - cbn [run_cmd]. rewrite (var_run _ st x (h_ptr e')) by (cbn [snd]; by rewrite lookup_fmap, Hx).
    rewrite (var_run _ st y (h_ptr e)) by (cbn [snd]; by rewrite lookup_fmap, Hy).
    rewrite (on_suvm_run _ _ st (do_copy (default p' src)) s'); [done|]. unfold assign. cbn [fst]. by rewrite Hrun.
  - apply (rel_insert (j + 1) H s' C C V x (do_copy (default p' src), None, if decide (x = y) then None else h_pos e)); try done.
    + unfold src. destruct (decide (x = y)) as [_|_]; [|by apply copy_handle, (HH y)].
      split; [|done]. cbn [default h_ptr fst do_copy m_base_page_index]. simpl. lia.
    + by apply handles_more.
    + by eapply pool_static.
    + by rewrite (size_insert_in H x e').
Qed.

Lemma advance_ok x n e P :
  H !! x = Some e → h_pos e = Some P → 0 ≤ n → P + n ≤ top →
  runs (Advance x n) [] (<[x := Some (P + n)]> (h_pos <$> H), mem).
Proof.
  intros Hx EP Hn HP. pose proof (HH x e Hx) as He. unfold handle_ok in He. rewrite EP in He.
  destruct He as [[Hpt Hbase] H2 H3 H4].
  exists (s, <[x := plus_eq 1 n (h_ptr e)]> (h_ptr <$> H)). split.
  - cbn [run_cmd]. rewrite (var_run _ st x (h_ptr e)); [done|]. cbn [snd]. by rewrite lookup_fmap, Hx.
  - assert (plus_eq 1 n (h_ptr e) = on_aptr (λ a, MOVE_APTR a n) (h_ptr e)) as Em.
    { unfold plus_eq, move. rewrite Z.mul_1_r, (u64_id n), u64_id by (unfold PAGE_SIZE in *; lia). done. }
    assert (offset (m_aptr (plus_eq 1 n (h_ptr e))) = offset (m_aptr (h_ptr e)) + n) as Eo.
    { rewrite Em. simpl. apply i32_id. unfold PAGE_SIZE in *. lia. }
    apply (rel_insert (j + 1) H s C C V x (plus_eq 1 n (h_ptr e), h_page e, Some (P + n))); try done.
    + eapply suvm_ok_perm; [exact (pages_delete H x e Hx)|done].
    + unfold handle_ok. cbn [h_ptr h_page h_pos fst snd]. constructor; [|lia| |]; rewrite ?Eo.
      * rewrite Em. split; [|exact Hbase]. cbn [m_aptr on_aptr m_base_page_index].
        apply points_move; [exact Hpt|unfold PAGE_SIZE in *; lia..|].
        intros E. specialize (H4 E). apply not_true_iff_false. intros Ev. apply ISVALID_spec in Ev. unfold PAGE_SIZE in *. lia.
      * unfold PAGE_SIZE in *. lia.
      * intros E. specialize (H4 E). lia.
    + by apply handles_more.
    + by rewrite (size_insert_in H x e).
Qed.

(** The handle of a pointer just dereferenced. *)
Lemma settled_handle C' p P : settled C' p P → 0 ≤ P ≤ top → handle_ok (j + 1) C' (p, Some (P `div` PAGE_SIZE), Some P).
Proof.
  intros (H1 & H2 & H3) HP. destruct (position_split P) as [EP Hm].
  unfold handle_ok. cbn [h_ptr h_page h_pos fst snd]. constructor; [by split|done| |done]. rewrite H3.
  unfold PAGE_SIZE in *. lia.
Qed.

Lemma load_ok x e P v :
  H !! x = Some e → h_pos e = Some P → P < top → mem !! P = Some v → runs (Load x) [v] (h_pos <$> H, mem).
Proof.
  intros Hx EP HP Hv. pose proof (HH x e Hx) as He. unfold handle_ok in He. rewrite EP in He.
  destruct He as [[Hpt Hbase] H2 _ _]. destruct (position_split P) as [_ Hm].
  pose proof (pages_delete H x e Hx) as Hpg.
  assert (size (delete x H) < 255)%nat as Hs by (by eapply size_delete_in).
  destruct (read_at s C V (pages (delete x H)) (m_base_page_index (h_ptr e)) (m_aptr (h_ptr e)) (h_page e) P 1) as
    (s' & C' & V' & a' & l & Hrun & Hok' & Hw & _ & Hpt' & Eo & Eh & Hlen & Hbyte & Hag & Hkeep & Hst).
  { eapply suvm_ok_perm; [exact Hpg|done]. } { exact Hpt. }
  { apply room_for_room; [by apply pages_room|]. apply (in_range_page s _ 1); [apply pool_range; [done|lia]|lia]. }
  { lia. }
  destruct l as [|b [|]]; try done. set (p' := on_aptr (λ _, a') (h_ptr e)) in *.
  assert (b = v) as ->.
  { apply (Hag 0%nat b v); [done|]. rewrite Z.add_0_r. by apply Hb. }
  exists (s', <[x := p']> (h_ptr <$> H)). split.
  - cbn [run_cmd]. rewrite (var_run _ st x (h_ptr e)) by (cbn [snd]; by rewrite lookup_fmap, Hx).
    rewrite (on_suvm_run _ _ st (v, p') s'); [done|]. unfold star. cbn [fst]. rewrite bind_assoc.
    etransitivity; [|exact (Hrun _ (λ l a, mret (nth 0 l 0, on_aptr (λ _, a) (h_ptr e))))].
    unfold mbind at 1, M_bind at 1. destruct (deref _ _ s) as [[r s1]|] eqn:Ed; [|unfold mbind, M_bind; by rewrite Ed].
    rewrite (bind_Ok _ _ _ _ _ Ed), bind_ret. cbn [fst snd]. apply load_one.
  - assert (<[x := Some P]> (h_pos <$> H) = h_pos <$> H) as <-.
    { apply insert_id. by rewrite lookup_fmap, Hx, <- EP. }
    apply (rel_insert (j + 1) H s' C C' V' x (p', Some (P `div` PAGE_SIZE), Some P)); try done.
    + apply settled_handle; [by split|done].
    + by apply handles_more.
    + intros Q w HQ. eapply written_byte; [exact Hw|by apply Hb].
    + by eapply pool_static.
    + by rewrite (size_insert_in H x e).
Qed.

Lemma store_ok x e P v :
  H !! x = Some e → h_pos e = Some P → P < top → runs (Store x v) [] (h_pos <$> H, <[P := u8 v]> mem).
Proof.
  intros Hx EP HP. pose proof (HH x e Hx) as He. unfold handle_ok in He. rewrite EP in He.
  destruct He as [[Hpt Hbase] H2 _ _]. destruct (position_split P) as [_ Hm].
  pose proof (pages_delete H x e Hx) as Hpg.
  assert (size (delete x H) < 255)%nat as Hs by (by eapply size_delete_in).
  destruct (step_store s C V (pages (delete x H)) (set_hint true (h_ptr e)) (h_page e) P v) as
    (s' & C' & V' & p' & Hrun & Hok' & Hset & _ & Hw & Hkeep & Hst).
  { eapply suvm_ok_perm; [exact Hpg|done]. } { by split. } { done. } { apply pool_range; [done|lia]. } { by apply pages_room. }
  exists (s', <[x := p']> (h_ptr <$> H)). split.
  - cbn [run_cmd]. rewrite (var_run _ st x (h_ptr e)) by (cbn [snd]; by rewrite lookup_fmap, Hx).
    rewrite (on_suvm_run _ _ st p' s'); [done|]. cbn [fst]. exact (Hrun _ mret).
  - assert (<[x := Some P]> (h_pos <$> H) = h_pos <$> H) as <-.
    { apply insert_id. by rewrite lookup_fmap, Hx, <- EP. }
    apply (rel_insert (j + 1) H s' C C' V' x (p', Some (P `div` PAGE_SIZE), Some P)); try done.
    + by apply settled_handle.
    + by apply handles_more.
    + intros Q w [[<- <-]|[Hne HQ]]%lookup_insert_Some.
      * rewrite <- (Z.add_0_r P). exact (written_bytes _ _ _ _ Hw 0%nat v eq_refl).
      * apply (written_others _ _ _ _ Hw); [simpl; lia|by apply Hb].
    + by eapply pool_static.
    + by rewrite (size_insert_in H x e).
Qed.

Lemma drop_ok x e : H !! x = Some e → runs (Drop x) [] (delete x (h_pos <$> H), mem).
Proof.
  intros Hx. destruct (release_var x e Hx) as (s' & p' & Hrun & _ & Hok' & Hst).
  exists (s', delete x (h_ptr <$> H)). split.
  - cbn [run_cmd]. rewrite (var_run _ st x (h_ptr e)) by (cbn [snd]; by rewrite lookup_fmap, Hx).
    rewrite (on_suvm_run _ _ st p' s'); [done|]. cbn [fst]. by apply cps_run.
  - exists C, V, (delete x H). cbn [fst snd]. rewrite !fmap_delete. do 3 (split; [done|]).
    split; [apply map_Forall_delete, handles_more, HH|]. split; [done|]. split; [by eapply pool_static|].
    pose proof (size_delete_in H x e 255 Hx Hsz). lia.
Qed.
End commands.

Lemma cmd_ok j st fl c o fl' :
  flat_rel j st fl → 0 ≤ j → top + PAGE_SIZE * (3 + j) < 2 ^ 31 → flat_cmd top c fl = Some (o, fl') →
  ∃ st', run_cmd c st = Ok (o, st') ∧ flat_rel (j + 1) st' fl'.
Proof.
  destruct st as [s vars], fl as [fv mem]. intros (C & V & H & Hok & E1 & E2 & HH & Hb & Hp & Hsz) Hj Htop Hc.
  cbn [fst snd] in *. subst vars fv.
  assert (∀ x, (h_pos <$> H : gmap nat (option Z)) !! x = None → H !! x = None) as Hnone.
  { intros x. rewrite lookup_fmap. by destruct (H !! x). }
  assert (size (h_pos <$> H : gmap nat (option Z)) = size H) as Esz by apply map_size_fmap.
  destruct c as [x P sz|x y|x y|x n|x|x v|x]; cbn [flat_cmd] in Hc.
  3: { destruct ((h_pos <$> H) !! x) as [Px|] eqn:E1; [|done]. cbn [mbind option_bind] in Hc.
    destruct ((h_pos <$> H) !! y) as [Py|] eqn:E2; [|done]. cbn [mbind option_bind] in Hc. injection Hc as <- <-.
    apply flat_handle in E1 as (ex & Hx & _ & _), E2 as (ey & Hy & <- & _). by eapply assign_ok. }
  all: simplify_option_eq;
    repeat match goal with
    | E : mjoin ((h_pos <$> _ : gmap nat (option Z)) !! _) = Some _ |- _ => apply flat_live in E as (? & ? & ?)
    | E : (h_pos <$> _ : gmap nat (option Z)) !! _ = Some _ |- _ => apply flat_handle in E as (? & ? & ? & _)
    end; subst.
  - eapply new_ok; try eassumption; [by apply Hnone|lia].
  - eapply copy_ok; try eassumption; [by apply Hnone|lia].
  - by eapply advance_ok.
  - by eapply load_ok.
  - by eapply store_ok.
  - by eapply drop_ok.
Qed.

Lemma cmds_ok l : ∀ j st fl o fl',
  flat_rel j st fl → 0 ≤ j → top + PAGE_SIZE * (3 + j + Z.of_nat (length l)) < 2 ^ 31 →
  flat_cmds top l fl = Some (o, fl') →
  ∃ st', run_cmds l st = Ok (o, st') ∧ flat_rel (j + Z.of_nat (length l)) st' fl'.
Proof.
  induction l as [|c l IH]; intros j st fl o fl' Hr Hj Htop Hl; cbn [flat_cmds] in Hl.
  { injection Hl as <- <-. exists st. split; [done|]. by rewrite Z.add_0_r. }
  unfold PAGE_SIZE in *. cbn [length] in *.
  destruct (flat_cmd top c fl) as [[o1 fl1]|] eqn:E1; [|done]. cbn [mbind option_bind fst snd] in Hl.
  destruct (flat_cmds top l fl1) as [[o2 fl2]|] eqn:E2; [|done]. injection Hl as <- <-.
  destruct (cmd_ok j st fl c o1 fl1 Hr Hj) as (st1 & Hrun1 & Hr1); [unfold PAGE_SIZE; lia|done|].
  destruct (IH (j + 1) st1 fl1 o2 fl2 Hr1) as (st2 & Hrun2 & Hr2); [lia|lia|done|].
  exists st2. split.
  - cbn [run_cmds]. rewrite (bind_Ok _ _ _ _ _ Hrun1). by rewrite (bind_Ok _ _ _ _ _ Hrun2).
  - by replace (j + Z.of_nat (S (length l))) with (j + 1 + Z.of_nat (length l)) by lia.
Qed.
End refinement.

Section theorem.
Context `{HS : Sgx, HB : PoolBase, HL : !SgxLaws}.

(** C4. Programs over pointers run as on plain bytes. Take any program that
    makes, copies, assigns, advances, loads and stores through and drops
    pointers into the pool, with any aliasing, that means something on a plain
    array of bytes (no position out of the pool, no byte read that was never
    written, at most 255 pointers at a time), on a pool and a program small
    enough for the [int] offsets. A pointer assigned to itself is released before
    it is copied and becomes null, on the array as in the code; a null pointer
    may be copied, assigned, assigned to and dropped, but not moved or
    dereferenced. On the paging layer the program ends, prints
    exactly what it prints on the array, and leaves the array's bytes in the
    pool; when all its pointers are dropped no page is held. *)
Theorem pointer_programs_run_flat s C V l o vars mem :
  suvm_ok s C V [] → let top := npages s * PAGE_SIZE in
  top + PAGE_SIZE * (3 + Z.of_nat (length l)) < 2 ^ 31 → g_base_pool_ptr s + top < 2 ^ 63 →
  ∀ mem0, (∀ P v, mem0 !! P = Some v → byte_at V P = Some v) →
  flat_cmds top l (∅, mem0) = Some (o, (vars, mem)) →
  ∃ s' objs C' V' L, run_cmds l (s, ∅) = Ok (o, (s', objs)) ∧ dom objs = dom vars ∧
    suvm_ok s' C' V' L ∧ (∀ P v, mem !! P = Some v → byte_at V' P = Some v) ∧ (vars = ∅ → L = []).
Proof.
  intros Hok top Htop Haddr mem0 Hm Hl.
  destruct (cmds_ok top l 0 (s, ∅) (∅, mem0) o (vars, mem)) as ([s' objs] & Hrun & C' & V' & H & Hok' & Eo & Ev & _ & Hb & _);
    [|lia|by rewrite Z.add_0_r|done|].
  - exists C, V, ∅. cbn [fst snd]. rewrite !fmap_empty. split; [exact Hok|]. do 2 (split; [done|]).
    split; [apply map_Forall_empty|]. split; [exact Hm|]. split; [by constructor|].
    rewrite map_size_empty. lia.
  - cbn [fst snd] in *. subst objs vars. exists s', (h_ptr <$> H), C', V', (pages H). split; [exact Hrun|].
    split; [by rewrite !dom_fmap_L|]. split; [exact Hok'|]. split; [exact Hb|].
    intros E%fmap_empty_inv. by rewrite E.
Qed.
End theorem.

(** Two pointers to one byte over the end of a page: what is stored through one
    is loaded through the other; one of them is lost by assigning it to itself,
    and found again from the other. *)
Definition alias_program : list cmd :=
  [New 0 4095 10; Store 0 300; Copy 1 0; Advance 0 1; Store 0 7; Load 1; Assign 1 0; Load 1; Assign 0 0; Copy 2 0;
   Assign 0 1; Load 0; Drop 0; Drop 1; Drop 2].

Lemma pointer_programs_run_flat_witness :
  ∃ s s' objs C' V' L, run_cmds alias_program (s, ∅) = Ok ([44; 7; 7], (s', objs)) ∧ suvm_ok s' C' V' L ∧ L = [].
Proof.
  destruct small_library as (s & _ & Hok & Hn & Hb & _).
  destruct (pointer_programs_run_flat s ∅ ∅ alias_program [44; 7; 7] ∅ (<[4096 := 7]> (<[4095 := 44]> ∅)) Hok) with (mem0 := ∅ : gmap Z Z)
    as (s' & objs & C' & V' & L & H1 & _ & H2 & _ & H3).
  - rewrite Hn. vm_compute. reflexivity.
  - rewrite Hn, Hb. unfold PAGE_SIZE. lia.
  - intros P v Hv. by rewrite lookup_empty in Hv.
  - rewrite Hn. vm_compute. reflexivity.
  - exists s, s', objs, C', V', L. split; [exact H1|]. split; [exact H2|]. by apply H3.
Defined.
