(* ===== verification/LibCPairs.v ===== *)
(** * The C-style routines that walk two pointers

    [memcmp_aptr_aptr], [memcpy_aptr], and the comparisons of the pool with
    ordinary memory. *)

From S2P Require Import Prelude Memory SyncUtils Ring Mem5 Suvm SuvmInv SuvmProofs SuvmThms Aptr LibC.
From S2P Require Import LibCThms.

#[local] Opaque EVICT_FUEL.
#[local] Opaque CACHE_CAPACITY.
#[local] Opaque PAGE_BYTES.

(** What [memcmp] returns on two byte strings of one length. *)
Fixpoint memcmp_spec (l1 l2 : list Z) : Z :=
  match l1, l2 with
  | x :: l1', y :: l2' => if x =? y then memcmp_spec l1' l2' else x - y
  | _, _ => 0
  end.

Lemma memcmp_spec_zero l1 l2 : length l1 = length l2 → memcmp_spec l1 l2 = 0 ↔ l1 = l2.
Proof.
  revert l2. induction l1 as [|x l1 IH]; intros [|y l2] Hl; try done. simpl.
  destruct (Z.eqb_spec x y) as [->|Hne].
  - rewrite IH by (simpl in Hl; lia). split; [by intros ->|by intros [= ->]].
  - split; [lia|by intros [= -> ->]].
Qed.

(** The sign of the result is that of the first difference. *)
Lemma memcmp_spec_diff l x l1 y l2 :
  x ≠ y → memcmp_spec (l ++ x :: l1) (l ++ y :: l2) = x - y.
Proof.
  intros Hne. induction l as [|z l IH]; simpl; [by rewrite (proj2 (Z.eqb_neq x y))|].
  by rewrite Z.eqb_refl.
Qed.

Lemma room_for_opt k s L o : room_for (k + 1) s L → room_for k s (option_list o ++ L).
Proof.
  intros H. destruct o as [q|]; [by apply room_for_cons|]. destruct H as [H1 H2].
  split; [|simpl; lia]. intros p. specialize (H1 p). simpl. lia.
Qed.

(** Two cursors over the pages in [L]. *)
Definition two_cursors `{Sgx, HB : PoolBase} (s : suvm) (C : gmap Z Z) (V : gmap Z (list Z)) (L : list Z)
    (p1 : Aptr) (o1 : option Z) (P : Z) (p2 : Aptr) (o2 : option Z) (Q : Z) : Prop :=
  suvm_ok s C V (option_list o1 ++ option_list o2 ++ L) ∧ cursor C p1 o1 P ∧ cursor C p2 o2 Q.

Section pairs.
Context `{HS : Sgx, HB : PoolBase, HL : !SgxLaws}.

Lemma two_cursors_swap s C V L p1 o1 P p2 o2 Q :
  two_cursors s C V L p1 o1 P p2 o2 Q → two_cursors s C V L p2 o2 Q p1 o1 P.
Proof.
  intros (Hok & H1 & H2). split; [|done]. revert Hok. apply suvm_ok_perm.
  rewrite !app_assoc. by rewrite (Permutation_app_comm (option_list o1)).
Qed.

Lemma two_cursors_new s C V L P Q n :
  suvm_ok s C V L → range_in_pool s P n → range_in_pool s Q n → 0 < n →
  ∃ p1 p2,
    (∀ B (f : Aptr → Aptr → M suvm B),
      (p ← Aptr_ctor (g_base_pool_ptr s + P) n; q ← Aptr_ctor (g_base_pool_ptr s + Q) n; f p q) s =
        f p1 p2 s) ∧
    hint_write (m_aptr p1) = false ∧ hint_write (m_aptr p2) = false ∧
    ∀ h1 h2, two_cursors s C V L (set_hint h1 p1) None P (set_hint h2 p2) None Q.
Proof.
  intros Hok HP HQ Hn.
  destruct (cursor_new s C V L P n Hok HP Hn) as (p1 & Hrun1 & Hh1 & Hc1).
  destruct (cursor_new s C V L Q n Hok HQ Hn) as (p2 & Hrun2 & Hh2 & Hc2).
  exists p1, p2. split; [intros B f; by rewrite Hrun1, Hrun2|]. do 2 (split; [done|]).
  intros h1 h2. split; [exact Hok|]. split; [apply Hc1|apply Hc2].
Qed.

Lemma release_two s C V L p1 o1 P p2 o2 Q :
  two_cursors s C V L p1 o1 P p2 o2 Q →
  ∃ s', (∀ B (f : M suvm B), (_ ← reset p2; _ ← reset p1; f) s = f s') ∧ suvm_ok s' C V L ∧
    same_static s s'.
Proof.
  intros Hc. apply two_cursors_swap in Hc as (Hok & H2 & H1).
  destruct (release s C V _ p2 o2 Q Hok H2) as (s1 & (q2 & Hrun1) & Hok1 & Hst1).
  destruct (release s1 C V L p1 o1 P Hok1 H1) as (s2 & (q1 & Hrun2) & Hok2 & Hst2).
  exists s2. split; [intros B f; by rewrite Hrun1, Hrun2|]. split; [done|].
  by eapply same_static_trans.
Qed.

(** One load through the first of two cursors. *)
Lemma two_load s C V L p1 o1 P p2 o2 Q :
  two_cursors s C V L p1 o1 P p2 o2 Q → hint_write (m_aptr p1) = false →
  range_in_pool s P 1 → room_for 2 s L →
  ∃ s' C' p1' x,
    (∀ B (f : Z → Aptr → M suvm B), (r ← star p1; x ← load_prm r.1; f x r.2) s = f x p1' s') ∧
    two_cursors s' C' V L p1' (Some (P `div` PAGE_SIZE)) P p2 o2 Q ∧ settled C' p1' P ∧
    hint_write (m_aptr p1') = false ∧ 0 ≤ x < 256 ∧ (∀ y, byte_at V P = Some y → x = y) ∧
    (o2 = Some (Q `div` PAGE_SIZE) → settled C p2 Q → settled C' p2 Q) ∧ same_static s s'.
Proof.
  intros (Hok & H1 & H2) Hh HP Hroom.
  destruct (step_load s C V _ p1 o1 P Hok H1 Hh HP) as
    (s' & C' & p1' & x & Hrun & Hok' & Hs & Hh' & Hx & Hy & Hkeep & Hst); [by apply room_for_opt|].
  assert (∀ q, o2 = Some q → C' !! q = C !! q) as Hk by (intros q ->; apply Hkeep; set_solver).
  exists s', C', p1', x. split; [exact Hrun|]. split.
  { split; [exact Hok'|]. split; [by apply cursor_settled|by apply (cursor_keep C)]. }
  do 4 (split; [done|]). split; [|done]. intros Eo (((Hl & Hn & Hp) & Ht) & Hb).
  split; [|exact Hb]. split; [|exact Ht]. split; [|split; [done|exact Hp]].
  destruct Hl as [E HC]. split; [exact E|]. by rewrite Hk.
Qed.

(** One store through the first of two cursors. *)
Lemma two_store s C V L p1 o1 P p2 o2 Q v :
  two_cursors s C V L p1 o1 P p2 o2 Q → hint_write (m_aptr p1) = true →
  range_in_pool s P 1 → room_for 2 s L →
  ∃ s' C' V' p1',
    (∀ B (f : Aptr → M suvm B), (r ← star p1; store_prm r.1 v;; f r.2) s = f p1' s') ∧
    two_cursors s' C' V' L p1' (Some (P `div` PAGE_SIZE)) P p2 o2 Q ∧ settled C' p1' P ∧
    hint_write (m_aptr p1') = true ∧ written V V' P [v] ∧
    (o2 = Some (Q `div` PAGE_SIZE) → settled C p2 Q → settled C' p2 Q) ∧ same_static s s'.
Proof.
  intros (Hok & H1 & H2) Hh HP Hroom.
  destruct (step_store s C V _ p1 o1 P v Hok H1 Hh HP) as
    (s' & C' & V' & p1' & Hrun & Hok' & Hs & Hh' & Hw & Hkeep & Hst); [by apply room_for_opt|].
  assert (∀ q, o2 = Some q → C' !! q = C !! q) as Hk by (intros q ->; apply Hkeep; set_solver).
  exists s', C', V', p1'. split; [exact Hrun|]. split.
  { split; [exact Hok'|]. split; [by apply cursor_settled|by apply (cursor_keep C)]. }
  do 3 (split; [done|]). split; [|done]. intros Eo (((Hl & Hn & Hp) & Ht) & Hb).
  split; [|exact Hb]. split; [|exact Ht]. split; [|split; [done|exact Hp]].
  destruct Hl as [E HC]. split; [exact E|]. by rewrite Hk.
Qed.

(** Two settled pointers, each moved on by one byte. *)
Lemma two_next s C V L p1 P p2 Q n :
  two_cursors s C V L p1 (Some (P `div` PAGE_SIZE)) P p2 (Some (Q `div` PAGE_SIZE)) Q →
  settled C p1 P → settled C p2 Q →
  range_in_pool s P (Z.of_nat (S n)) → range_in_pool s Q (Z.of_nat (S n)) →
  two_cursors s C V L (move_by 1 p1) (Some (P `div` PAGE_SIZE)) (P + 1)
    (move_by 1 p2) (Some (Q `div` PAGE_SIZE)) (Q + 1).
Proof.
  intros (Hok & _ & _) H1 H2 HP HQ. split; [exact Hok|].
  split; eapply settled_next; eassumption.
Qed.

Lemma memcmp_loop_ok l1 : ∀ l2 s C V L p1 o1 P p2 o2 Q,
  length l2 = length l1 → holds_at V P l1 → holds_at V Q l2 →
  two_cursors s C V L p1 o1 P p2 o2 Q →
  hint_write (m_aptr p1) = false → hint_write (m_aptr p2) = false →
  range_in_pool s P (Z.of_nat (length l1)) → range_in_pool s Q (Z.of_nat (length l1)) →
  room_for 2 s L →
  ∃ s' C' p1' o1' P' p2' o2' Q',
    (∀ B (f : Z * Aptr * Aptr → M suvm B),
      (memcmp_loop (length l1) p1 p2 ≫= f) s = f (memcmp_spec l1 l2, p1', p2') s') ∧
    two_cursors s' C' V L p1' o1' P' p2' o2' Q' ∧ same_static s s'.
Proof.
  induction l1 as [|x l1 IH]; intros [|y l2] s C V L p1 o1 P p2 o2 Q Hlen HP HQ Hc Hh1 Hh2 R1 R2 Hroom;
    try done.
  { exists s, C, p1, o1, P, p2, o2, Q. by split_and!. }
  cbn [length] in R1, R2, Hlen. apply holds_cons in HP as [HPx HP]. apply holds_cons in HQ as [HQy HQ].
  destruct (two_load s C V L p1 o1 P p2 o2 Q Hc Hh1) as
    (s1 & C1 & q1 & x' & Hrun1 & Hc1 & Hs1 & Hh1' & _ & Hx & _ & Hst1);
    [by eapply range_first; [exact R1|lia]|done|]. apply Hx in HPx as ->.
  destruct (two_load s1 C1 V L p2 o2 Q q1 (Some (P `div` PAGE_SIZE)) P) as
    (s2 & C2 & q2 & y' & Hrun2 & Hc2 & Hs2 & Hh2' & _ & Hy & Hs1' & Hst2); try done.
  { by apply two_cursors_swap. }
  { eapply range_static; [exact Hst1|]. eapply range_first; [exact R2|lia]. }
  apply Hy in HQy as ->. specialize (Hs1' eq_refl Hs1). apply two_cursors_swap in Hc2.
  assert (same_static s s2) as Hst by (by eapply same_static_trans).
  assert (∀ B (f : Z * Aptr * Aptr → M suvm B),
    (memcmp_loop (S (length l1)) p1 p2 ≫= f) s =
      ((if negb (x =? y) then mret (x - y, q1, q2)
        else memcmp_loop (length l1) (move_by 1 q1) (move_by 1 q2)) ≫= f) s2) as Hrun.
  { intros B f. cbn [memcmp_loop].
    rewrite <- (Hrun2 B (λ y p, (if negb (x =? y) then mret (x - y, q1, p)
        else memcmp_loop (length l1) (move_by 1 q1) (move_by 1 p)) ≫= f)).
    rewrite <- (Hrun1 B (λ x q1, r ← star p2; y ← load_prm r.1;
        ((if negb (x =? y) then mret (x - y, q1, r.2)
        else memcmp_loop (length l1) (move_by 1 q1) (move_by 1 r.2)) ≫= f))).
    unfold mbind, M_bind. destruct (star p1 s) as [[r1 t1]|]; [|done].
    destruct (load_prm r1.1 t1) as [[u1 t2]|]; [|done]. destruct (star p2 t2) as [[r2 t3]|]; [|done].
    by destruct (load_prm r2.1 t3) as [[u2 t4]|]. }
  cbn [memcmp_spec]. destruct (Z.eqb_spec x y) as [->|Hne].
  - destruct (IH l2 s2 C2 V L (move_by 1 q1) (Some (P `div` PAGE_SIZE)) (P + 1)
      (move_by 1 q2) (Some (Q `div` PAGE_SIZE)) (Q + 1)) as
      (s3 & C3 & p1' & o1' & P' & p2' & o2' & Q' & Hrun3 & Hc3 & Hst3); try done.
    + simpl in Hlen. lia.
    + apply (two_next s2 C2 V L q1 P q2 Q (length l1)); try done; by apply (range_static s).
    + by apply (range_next s).
    + by apply (range_next s).
    + exists s3, C3, p1', o1', P', p2', o2', Q'. split; [|split; [done|by eapply same_static_trans]].
      intros B f. rewrite Hrun. apply Hrun3.
  - exists s2, C2, q1, (Some (P `div` PAGE_SIZE)), P, q2, (Some (Q `div` PAGE_SIZE)), Q.
    split; [|by split]. intros B f. rewrite Hrun. done.
Qed.

(** [memcmp_aptr_aptr] on two ranges of known contents: it returns what
    [memcmp] promises, 0 exactly when they are equal, else the difference of the
    first two bytes that differ; it changes no page and keeps none. *)
Theorem memcmp_aptr_aptr_correct s C V L P Q l1 l2 :
  suvm_ok s C V L → length l1 = length l2 → holds_at V P l1 → holds_at V Q l2 →
  range_in_pool s P (Z.of_nat (length l1)) → range_in_pool s Q (Z.of_nat (length l1)) →
  room_for 2 s L → l1 ≠ [] →
  ∃ s' C', memcmp_aptr_aptr (g_base_pool_ptr s + P) (g_base_pool_ptr s + Q)
      (Z.of_nat (length l1)) s = Ok (memcmp_spec l1 l2, s') ∧
    (memcmp_spec l1 l2 = 0 ↔ l1 = l2) ∧ suvm_ok s' C' V L.
Proof.
  intros Hok Hlen HP HQ R1 R2 Hroom Hne.
  assert (0 < Z.of_nat (length l1)) by (destruct l1; [done|simpl; lia]).
  destruct (two_cursors_new s C V L P Q _ Hok R1 R2) as (p1 & p2 & Hrun & Hh1 & Hh2 & Hc); [done|].
  destruct (memcmp_loop_ok l1 l2 s C V L (set_hint false p1) None P (set_hint false p2) None Q) as
    (s1 & C1 & q1 & o1 & P1 & q2 & o2 & Q1 & Hrun1 & Hc1 & Hst1); try done.
  destruct (release_two s1 C1 V L q1 o1 P1 q2 o2 Q1 Hc1) as (s2 & Hrun2 & Hok2 & Hst2).
  assert (∀ p, hint_write (m_aptr p) = false → set_hint false p = p) as Eh.
  { intros [[a b c d] m z] E. simpl in E. subst d. done. }
  rewrite (Eh p1 Hh1), (Eh p2 Hh2) in Hrun1.
  exists s2, C1. split; [|split; [by apply memcmp_spec_zero|done]].
  unfold memcmp_aptr_aptr. rewrite Nat2Z.id.
  etransitivity; [exact (Hrun Z (λ p q, r ← memcmp_loop (length l1) p q;
    _ ← reset r.2; _ ← reset r.1.2; mret r.1.1))|].
  rewrite Hrun1. simpl. apply Hrun2.
Qed.

Lemma set_hint_id p : hint_write (m_aptr p) = false → set_hint false p = p.
Proof. destruct p as [[a b c d] m z]. simpl. by intros ->. Qed.

(** Two ranges of [n] bytes that do not meet. *)
Definition apart (P Q n : Z) : Prop := P + n ≤ Q ∨ Q + n ≤ P.

Lemma memcpy_loop_ok l : ∀ s C V L pd od P ps os Q,
  holds_at V Q l → apart P Q (Z.of_nat (length l)) →
  two_cursors s C V L pd od P ps os Q →
  hint_write (m_aptr pd) = true → hint_write (m_aptr ps) = false →
  range_in_pool s P (Z.of_nat (length l)) → range_in_pool s Q (Z.of_nat (length l)) →
  room_for 2 s L →
  ∃ s' C' V' pd' od' P' ps' os' Q',
    (∀ B (f : Aptr * Aptr → M suvm B), (memcpy_loop (length l) pd ps ≫= f) s = f (pd', ps') s') ∧
    two_cursors s' C' V' L pd' od' P' ps' os' Q' ∧ written V V' P l ∧ same_static s s' ∧ (l = [] → V' = V).
Proof.
  induction l as [|x l IH]; intros s C V L pd od P ps os Q HQ Hap Hc Hhd Hhs R1 R2 Hroom.
  { exists s, C, V, pd, od, P, ps, os, Q. split_and!; try done. apply written_refl. }
  cbn [length] in R1, R2, Hap. unfold apart in Hap. apply holds_cons in HQ as [HQx HQ].
  destruct (two_load s C V L ps os Q pd od P) as
    (s1 & C1 & qs & x' & Hrun1 & Hc1 & Hs1 & Hhs' & _ & Hx & _ & Hst1); try done.
  { by apply two_cursors_swap. }
  { eapply range_first; [exact R2|lia]. }
  apply Hx in HQx as ->. apply two_cursors_swap in Hc1.
  destruct (two_store s1 C1 V L pd od P qs (Some (Q `div` PAGE_SIZE)) Q x Hc1 Hhd) as
    (s2 & C2 & V2 & qd & Hrun2 & Hc2 & Hs2 & Hhd' & Hw2 & Hs1' & Hst2); [|done|].
  { apply (range_static s); [done|]. eapply range_first; [exact R1|lia]. }
  specialize (Hs1' eq_refl Hs1).
  assert (same_static s s2) as Hst by (by eapply same_static_trans).
  destruct (IH s2 C2 V2 L (move_by 1 qd) (Some (P `div` PAGE_SIZE)) (P + 1)
    (move_by 1 qs) (Some (Q `div` PAGE_SIZE)) (Q + 1)) as
    (s3 & C3 & V3 & pd' & od' & P' & ps' & os' & Q' & Hrun3 & Hc3 & Hw3 & Hst3 & Hz); try done.
  { eapply holds_written; [exact Hw2|done|simpl; lia]. }
  { unfold apart. lia. }
  { apply (two_next s2 C2 V2 L qd P qs Q (length l)); try done; by apply (range_static s). }
  { by apply (range_next s). }
  { by apply (range_next s). }
  exists s3, C3, V3, pd', od', P', ps', os', Q'. split; [|split; [done|split; [|split]]].
  - intros B f. rewrite <- (Hrun3 B f). cbn [memcpy_loop length].
    rewrite <- (Hrun2 B (λ p, memcpy_loop (length l) (move_by 1 p) (move_by 1 qs) ≫= f)).
    rewrite <- (Hrun1 B (λ x q, r ← star pd; store_prm r.1 x;;
      memcpy_loop (length l) (move_by 1 r.2) (move_by 1 q) ≫= f)).
    unfold mbind, M_bind. destruct (star ps s) as [[r1 t1]|]; [|done].
    destruct (load_prm r1.1 t1) as [[u1 t2]|]; [|done]. destruct (star pd t2) as [[r2 t3]|]; [|done].
    by destruct (store_prm r2.1 u1 t3) as [[[] t4]|].
  - apply (written_app V V2 V3 P [x] l); [|exact Hw2|exact Hw3]. right. destruct l; [right; by apply Hz|by left].
  - by eapply same_static_trans.
  - done.
Qed.

(** C26. [memcpy_aptr] between two ranges of the pool that do not meet: the
    destination receives the source's bytes, nothing else changes, whatever
    pages are evicted on the way, and both pointers are released. *)
Theorem memcpy_aptr_correct s C V L P Q l :
  suvm_ok s C V L → holds_at V Q l → apart P Q (Z.of_nat (length l)) →
  range_in_pool s P (Z.of_nat (length l)) → range_in_pool s Q (Z.of_nat (length l)) →
  room_for 2 s L → l ≠ [] →
  ∃ s' C' V', memcpy_aptr (g_base_pool_ptr s + P) (g_base_pool_ptr s + Q)
      (Z.of_nat (length l)) s = Ok (g_base_pool_ptr s + P, s') ∧
    suvm_ok s' C' V' L ∧ written V V' P l.
Proof.
  intros Hok HQ Hap R1 R2 Hroom Hne.
  assert (0 < Z.of_nat (length l)) as Hpos by (destruct l; [done|simpl; lia]).
  unfold memcpy_aptr. rewrite (proj2 (Z.eqb_neq _ 0)) by lia.
  rewrite (proj2 (Z.eqb_neq _ _)) by (unfold apart in Hap; lia). cbn [orb].
  destruct (two_cursors_new s C V L P Q _ Hok R1 R2 Hpos) as (pd & ps & Hrun & Hh1 & Hh2 & Hc).
  destruct (memcpy_loop_ok l s C V L (set_hint true pd) None P (set_hint false ps) None Q) as
    (s1 & C1 & V1 & q1 & o1 & P1 & q2 & o2 & Q1 & Hrun1 & Hc1 & Hw1 & Hst1 & _); try done.
  destruct (release_two s1 C1 V1 L q1 o1 P1 q2 o2 Q1 Hc1) as (s2 & Hrun2 & Hok2 & Hst2).
  rewrite (set_hint_id ps Hh2) in Hrun1.
  exists s2, C1, V1. split; [|by split].
  rewrite Nat2Z.id.
  etransitivity; [exact (Hrun Z (λ p q, r ← memcpy_loop (length l) (set_hint true p) q;
    _ ← reset r.2; _ ← reset r.1; mret (g_base_pool_ptr s + P)))|].
  rewrite Hrun1. simpl. apply Hrun2.
Qed.

(** ** Against ordinary memory *)

Lemma reg_read_run {B} b i x (f : Z → M suvm B) s :
  b !! i = Some x → (reg_read b i ≫= f) s = f x s.
Proof. intros E. unfold reg_read. by rewrite (bind_defined _ _ _ _ E). Qed.

(** The comparison [strncmp_aptr] makes: the bytes of the pool as
    [unsigned char], those of ordinary memory as [char]. *)
Fixpoint strncmp_spec (l b : list Z) : Z :=
  match l, b with
  | x :: l', c :: b' =>
      if negb (x =? i8 c) then (if x <? u8 c then -1 else 1)
      else if x =? 0 then 0 else strncmp_spec l' b'
  | _, _ => 0
  end.

Lemma strncmp_loop_ok l : ∀ b i s C V L p o P,
  (i + length l ≤ length b)%nat → holds_at V P l →
  suvm_ok s C V (option_list o ++ L) → cursor C p o P → hint_write (m_aptr p) = false →
  range_in_pool s P (Z.of_nat (length l)) → room_for 1 s L →
  ∃ s' C' p' o' P',
    (∀ B (f : Z * Aptr → M suvm B),
      (strncmp_loop (length l) b i p ≫= f) s = f (strncmp_spec l (drop i b), p') s') ∧
    suvm_ok s' C' V (option_list o' ++ L) ∧ cursor C' p' o' P'.
Proof.
  induction l as [|x l IH]; intros b i s C V L p o P Hb HP Hok Hc Hh Hr Hroom.
  { exists s, C, p, o, P. split_and!; try done. }
  cbn [length] in Hr, Hb. apply holds_cons in HP as [HPx HP].
  destruct (lookup_lt_is_Some_2 b i) as [c Hc']; [lia|].
  destruct (step_load s C V L p o P Hok Hc Hh) as
    (s1 & C1 & q & x' & Hrun1 & Hok1 & Hs1 & Hh1 & _ & Hx & _ & Hst1);
    [by eapply range_first; [exact Hr|lia]|done|]. apply Hx in HPx as ->.
  assert (∀ B (f : Z * Aptr → M suvm B), (strncmp_loop (S (length l)) b i p ≫= f) s =
    ((if negb (x =? i8 c) then mret (if x <? u8 c then -1 else 1, q)
      else if x =? 0 then mret (0, q) else strncmp_loop (length l) b (S i) (move_by 1 q)) ≫= f) s1) as Hrun.
  { intros B f. rewrite <- (Hrun1 B (λ x q,
      (if negb (x =? i8 c) then mret (if x <? u8 c then -1 else 1, q)
      else if x =? 0 then mret (0, q) else strncmp_loop (length l) b (S i) (move_by 1 q)) ≫= f)).
    cbn [strncmp_loop]. unfold mbind, M_bind. destruct (star p s) as [[r1 t1]|]; [|done].
    destruct (load_prm r1.1 t1) as [[u1 t2]|]; [|done]. unfold reg_read. by rewrite Hc'. }
  rewrite (drop_S b c i Hc'). cbn [strncmp_spec length].
  destruct (negb (x =? i8 c)).
  { exists s1, C1, q, (Some (P `div` PAGE_SIZE)), P. split; [exact Hrun|].
    split; [done|by apply cursor_settled]. }
  destruct (x =? 0).
  { exists s1, C1, q, (Some (P `div` PAGE_SIZE)), P. split; [exact Hrun|].
    split; [done|by apply cursor_settled]. }
  destruct (IH b (S i) s1 C1 V L (move_by 1 q) (Some (P `div` PAGE_SIZE)) (P + 1)) as
    (s2 & C2 & p2 & o2 & P2 & Hrun2 & H2); try done.
  - lia.
  - exact (settled_next s C V _ C1 q P (length l) Hok Hr Hs1).
  - by apply (range_next s).
  - exists s2, C2, p2, o2, P2. split; [|done]. intros B f. rewrite Hrun. apply Hrun2.
Qed.

(** [strncmp_aptr] on a string of the pool and one of ordinary memory,
    both at least [n] long: it returns the comparison of the pool's bytes, taken
    unsigned, with the others, taken signed, ordered unsigned; so on 7-bit
    strings it is [strncmp] up to sign, and on equal strings with a byte above
    127 it reports a difference. No page changes or stays held. *)
Theorem strncmp_aptr_correct s C V L P l b :
  suvm_ok s C V L → (length l ≤ length b)%nat → holds_at V P l → l ≠ [] →
  range_in_pool s P (Z.of_nat (length l)) → room_for 1 s L →
  ∃ s' C', strncmp_aptr (g_base_pool_ptr s + P) b (Z.of_nat (length l)) s =
      Ok (strncmp_spec l b, s') ∧ suvm_ok s' C' V L ∧
    (Forall (λ c, 0 ≤ c < 128) (take (length l) b) → strncmp_spec l b = 0 →
       ∀ i x c, l !! i = Some x → b !! i = Some c → (∀ j, (j < i)%nat → l !! j ≠ Some 0) → x = c) ∧
    (∀ l1 x l2, l = l1 ++ x :: l2 → 128 ≤ x < 256 → Forall (λ y, 0 < y < 128) l1 →
       take (length l) b = l → strncmp_spec l b = 1).
Proof.
  intros Hok Hb HP Hne Hr Hroom.
  assert (0 < Z.of_nat (length l)) as Hpos by (destruct l; [done|simpl; lia]).
  destruct (cursor_new s C V L P _ Hok Hr Hpos) as (p & Hrun & Hh & Hc).
  destruct (strncmp_loop_ok l b 0 s C V L p None P) as
    (s1 & C1 & q & o & P1 & Hrun1 & Hok1 & Hc1); try done.
  { rewrite <- (set_hint_id p Hh). apply Hc. }
  destruct (release s1 C1 V L q o P1 Hok1 Hc1) as (s2 & (q2 & Hrun2) & Hok2 & _).
  exists s2, C1. split; [|split; [done|split]].
  - unfold strncmp_aptr. rewrite Nat2Z.id, Hrun, Hrun1. simpl. rewrite Hrun2, drop_0. done.
  - clear. revert b. induction l as [|y l IH]; intros [|d b] HF; simpl; try done.
    apply Forall_cons in HF as [Hd HF]. intros Hz [|i] x c Hx Hcb Hj; simpl in *.
    + injection Hx as ->. injection Hcb as ->. revert Hz.
      destruct (Z.eqb_spec x (i8 c)) as [E|]; simpl; [|by destruct (x <? u8 c)].
      intros _. rewrite E. unfold i8. rewrite Z.mod_small; lia.
    + revert Hz. destruct (Z.eqb_spec y (i8 d)) as [E|]; simpl; [|by destruct (y <? u8 d)].
      destruct (Z.eqb_spec y 0) as [->|]; [by destruct (Hj 0%nat ltac:(lia))|].
      intros Hz. eapply (IH b HF Hz); [exact Hx|exact Hcb|]. intros j Hlt. apply (Hj (S j)). lia.
  - clear. intros l1 x l2 -> Hx HF. revert b. induction l1 as [|y l1 IH]; intros [|d b]; try done; simpl.
    + intros [= -> _]. assert (i8 x = x - 256) as ->.
      { unfold i8. change (2 ^ 8) with 256. change (2 ^ 7) with 128.
        replace (x + 128) with (x - 128 + 1 * 256) by lia. rewrite Z.mod_add, Z.mod_small by lia. lia. }
      rewrite (proj2 (Z.eqb_neq _ _)) by lia. simpl. rewrite u8_id by lia.
      by rewrite (proj2 (Z.ltb_ge _ _)) by lia.
    + apply Forall_cons in HF as [Hy HF]. intros [= -> Hb].
      assert (i8 y = y) as -> by (unfold i8; rewrite Z.mod_small; lia).
      rewrite Z.eqb_refl, (proj2 (Z.eqb_neq y 0)) by lia. simpl. by apply IH.
Qed.
End pairs.

(** ** Instances *)

Lemma memcmp_aptr_aptr_correct_witness :
  ∃ s s', memcmp_aptr_aptr 70012 70014 2 s = Ok (-2, s').
Proof.
  destruct small_filled as (s & C & V & Hok & Hn & Hb & HV).
  apply (holds_app V 4476 [1; 2] [3; 4]) in HV as [HV1 HV2].
  destruct (memcmp_aptr_aptr_correct s C V [] 4476 4478 [1; 2] [3; 4] Hok) as (s' & C' & H & _);
    [reflexivity|exact HV1|exact HV2|by apply small_range|by apply small_range|by apply small_room_for|
     discriminate|].
  rewrite Hb in H. exists s, s'. exact H.
Defined.

Lemma memcpy_aptr_correct_witness :
  ∃ s s' C' V', memcpy_aptr 82000 70012 4 s = Ok (82000, s') ∧ suvm_ok s' C' V' [] ∧
    byte_at V' 16466 = Some 3.
Proof.
  destruct small_filled as (s & C & V & Hok & Hn & Hb & HV).
  destruct (memcpy_aptr_correct s C V [] 16464 4476 [1; 2; 3; 4] Hok HV) as (s' & C' & V' & H & Hok' & Hw);
    [unfold apart; simpl; lia|by apply small_range|by apply small_range|by apply small_room_for|
     discriminate|].
  rewrite Hb in H. exists s, s', C', V'. split; [exact H|]. split; [exact Hok'|].
  exact (written_bytes _ _ _ _ Hw 2%nat 3 eq_refl).
Defined.

Lemma strncmp_aptr_correct_witness :
  ∃ s s', strncmp_aptr 70012 [1; 2; 3; 5] 4 s = Ok (-1, s').
Proof.
  destruct small_filled as (s & C & V & Hok & Hn & Hb & HV).
  destruct (strncmp_aptr_correct s C V [] 4476 [1; 2; 3; 4] [1; 2; 3; 5] Hok) as (s' & C' & H & _);
    [simpl; lia|exact HV|discriminate|by apply small_range|by apply small_room_for|].
  rewrite Hb in H. exists s, s'. exact H.
Defined.
