(* ===== verification/LibCBlocks.v ===== *)
(** * The [memmove]s between the pool and ordinary memory

    A page at a time: the block copies of [memmove_reg_aptr] and
    [memmove_aptr_reg], and of the [memcpy]s that call them. *)

From S2P Require Import Prelude Memory SyncUtils Ring Mem5 Suvm SuvmInv SuvmProofs SuvmThms Aptr AptrThms LibC.
From S2P Require Import LibCThms.

#[local] Opaque EVICT_FUEL.
#[local] Opaque CACHE_CAPACITY.
#[local] Opaque PAGE_BYTES.

Section blocks.
Context `{HS : Sgx, HB : PoolBase, HL : !SgxLaws}.

(** [V'] is [V], perhaps with more pages of a range of [n] bytes tracked: what
    reading through a pointer with the write hint does. *)
Record kept (V V' : gmap Z (list Z)) (P n : Z) : Prop := {
  kept_bytes : ∀ Q x, byte_at V Q = Some x → byte_at V' Q = Some x;
  kept_pages : ∀ p, is_Some (V' !! p) → is_Some (V !! p) ∨ ∃ Q, P ≤ Q < P + n ∧ p = Q `div` PAGE_SIZE
}.

Lemma kept_refl V P n : kept V V P n.
Proof. split; [done|by left]. Qed.

Lemma kept_trans V V1 V2 P n Q m P' n' :
  kept V V1 P n → kept V1 V2 Q m → P' ≤ P → P + n ≤ P' + n' → P' ≤ Q → Q + m ≤ P' + n' → kept V V2 P' n'.
Proof.
  intros [A1 A2] [B1 B2] H1 H2 H3 H4. split; [auto|]. intros p Hp.
  destruct (B2 p Hp) as [Hp1|(R & HR & ->)]; [|right; exists R; split; [lia|done]].
  destruct (A2 p Hp1) as [|(R & HR & ->)]; [by left|]. right. exists R. split; [lia|done].
Qed.

Lemma kept_agrees V V' P n Q l : kept V V' P n → agrees V' Q l → agrees V Q l.
Proof. intros [H _] Ha i x y Hi Hy. eapply Ha; [exact Hi|]. by apply H. Qed.

(** A dereference, and every read within the page that may follow it. *)
Lemma step_read s C V L p prev P :
  suvm_ok s C V (option_list prev ++ L) → cursor C p prev P →
  range_in_pool s P 1 → room_for 1 s L →
  ∃ s' C' V' p' addr, star p s = Ok ((addr, p'), s') ∧
    suvm_ok s' C' V' (P `div` PAGE_SIZE :: L) ∧ settled C' p' P ∧ hint_write (m_aptr p') = hint_write (m_aptr p) ∧
    kept V V' P 1 ∧ (hint_write (m_aptr p) = false → V' = V) ∧ same_static s s' ∧
    (∀ m, P `mod` PAGE_SIZE + Z.of_nat m ≤ PAGE_SIZE →
       ∃ l, load_block addr m s' = Ok (l, s') ∧ length l = m ∧ agrees V' P l).
Proof.
  intros Hok (Hpt & Hb) HP Hroom. destruct (position_split P) as [EP Hm].
  destruct (deref_at s C V L _ _ prev P Hok Hpt) as
    (s' & C' & V' & a' & i & Hrun & Hok' & Hw & Hpt' & Eo & Eh & HC & Hir & Hkeep & Hst & Hd);
    [by apply room_for_room, (in_range_page s P 1)|].
  exists s', C', V', (on_aptr (λ _, a') p), (slot_addr s' i + P `mod` PAGE_SIZE).
  split; [exact (Hrun _ (λ r, mret (r.1, on_aptr (λ _, r.2) p)))|].
  split; [exact Hok'|]. split; [done|]. split; [done|]. split.
  { split; [intros Q x; by apply written_byte with (P := P)|]. intros q Hq.
    destruct (written_pages _ _ _ _ Hw q Hq) as [|(Q & HQ & ->)]; [by left|]. right. exists Q. simpl in HQ. split; [lia|done]. }
  split; [intros Eh'; rewrite Eh' in Hd; apply Hd|]. split; [done|]. intros m Hfit.
  exists (load_bytes (prm s') (slot_addr s' i + P `mod` PAGE_SIZE) m).
  split; [|split; [apply length_load_bytes|]].
  - unfold load_block. rewrite bind_gets. cbn [id]. by rewrite range_in_slab_ok by lia.
  - pose proof (read_agrees s' C' V' _ _ i (P `mod` PAGE_SIZE) m Hok' HC) as H.
    rewrite <- EP in H. apply H; lia.
Qed.

(** A dereference for writing, and every write within the page. *)
Lemma step_write s C V L p prev P :
  suvm_ok s C V (option_list prev ++ L) → cursor C p prev P → hint_write (m_aptr p) = true →
  range_in_pool s P 1 → room_for 1 s L →
  ∃ s' C' p' addr, star p s = Ok ((addr, p'), s') ∧ settled C' p' P ∧
    hint_write (m_aptr p') = true ∧ same_static s s' ∧
    (∀ l, P `mod` PAGE_SIZE + Z.of_nat (length l) ≤ PAGE_SIZE →
       ∃ s'' V'', store_block addr l s' = Ok (tt, s'') ∧
         suvm_ok s'' C' V'' (P `div` PAGE_SIZE :: L) ∧ written V V'' P l ∧ same_static s s'').
Proof.
  intros Hok (Hpt & Hb) Hh HP Hroom. destruct (position_split P) as [EP Hm].
  destruct (deref_at s C V L _ _ prev P Hok Hpt) as
    (s' & C' & V' & a' & i & Hrun & Hok' & Hw & Hpt' & Eo & Eh & HC & Hir & Hkeep & Hst & Hd);
    [by apply room_for_room, (in_range_page s P 1)|].
  rewrite Hh in Hd, Eh. destruct Hd as [HV Hd].
  exists s', C', (on_aptr (λ _, a') p), (slot_addr s' i + P `mod` PAGE_SIZE).
  split; [exact (Hrun _ (λ r, mret (r.1, on_aptr (λ _, r.2) p)))|].
  split; [done|]. split; [done|]. split; [done|]. intros l Hfit.
  destruct (write_written s' C' V' _ _ i (P `mod` PAGE_SIZE) l Hok' HC) as (V2 & Hok2 & Hw2);
    [lia|lia|exact Hd|exact HV|]. rewrite <- EP in Hw2.
  eexists _, V2. split; [|split; [exact Hok2|split; [|done]]].
  - unfold store_block. rewrite bind_gets. cbn [id]. by rewrite range_in_slab_ok by lia.
  - apply (written_app V V' V2 P [] l); [by left|exact Hw|]. simpl. by rewrite Z.add_0_r.
Qed.

(** How much of the page is left at a position. *)
Lemma left_of C p P :
  settled C p P → SUB_PAGE_SIZE - offset (m_aptr p) = PAGE_SIZE - P `mod` PAGE_SIZE ∧
  0 < PAGE_SIZE - P `mod` PAGE_SIZE ≤ PAGE_SIZE.
Proof.
  intros (_ & _ & ->). destruct (position_split P) as [_ Hm]. split; [done|]. lia.
Qed.

Lemma move_hint v p : hint_write (m_aptr (move_by v p)) = hint_write (m_aptr p).
Proof. done. Qed.

(** The ordinary buffer between two writes: the first [k] bytes are [l]. *)
Lemma reg_write_run {B} (f : list Z → M suvm B) b l l2 s :
  (length l + length l2 ≤ length b)%nat →
  (reg_write (l ++ drop (length l) b) (length l) l2 ≫= f) s =
    f ((l ++ l2) ++ drop (length (l ++ l2)) b) s.
Proof.
  intros Hlen. unfold reg_write. rewrite decide_True.
  - rewrite bind_ret. f_equal. rewrite take_app_length, drop_app_ge by lia.
    rewrite drop_drop, length_app, <- app_assoc. do 3 f_equal. lia.
  - rewrite length_app, length_drop. lia.
Qed.

Lemma reg_take_run {B} (f : list Z → M suvm B) b i n s :
  (i + n ≤ length b)%nat → (reg_take b i n ≫= f) s = f (take n (drop i b)) s.
Proof. intros Hlen. unfold reg_take. by rewrite decide_True. Qed.

Lemma memmove_reg_loop_ok fuel : ∀ s C V0 V L p o P P0 N l b ctr,
  N = Z.of_nat (length l) + ctr → 0 ≤ ctr → (Z.to_nat ctr < fuel)%nat →
  N < 2 ^ 31 → (Z.to_nat N ≤ length b)%nat → agrees V0 P l → kept V0 V P N →
  suvm_ok s C V (option_list o ++ L) → cursor C p o P0 → P ≤ P0 ≤ P + N →
  (0 < ctr → P0 = P + Z.of_nat (length l)) →
  range_in_pool s P N → room_for 1 s L →
  ∃ s' C' V' p' o' P' l',
    memmove_reg_loop fuel N ctr (l ++ drop (length l) b) p s =
      Ok ((l' ++ drop (length l') b, p'), s') ∧
    Z.of_nat (length l') = N ∧ agrees V0 P l' ∧ kept V0 V' P N ∧ (hint_write (m_aptr p) = false → V' = V) ∧
    suvm_ok s' C' V' (option_list o' ++ L) ∧ cursor C' p' o' P' ∧ P ≤ P' ≤ P + N ∧ same_static s s'.
Proof.
  induction fuel as [|fuel IH];
    intros s C V0 V L p o P P0 N l b ctr EN Hctr Hf HN Hb Hag Hk0 Hok Hc HP0 Hat Hr Hroom; [lia|].
  cbn [memmove_reg_loop]. destruct (Z.ltb_spec 0 ctr) as [Hpos|Hz].
  2: { exists s, C, V, p, o, P0, l. split; [done|]. split; [lia|]. done. }
  rewrite (Hat Hpos) in Hc, HP0. clear P0 Hat. set (k := Z.of_nat (length l)) in *.
  pose proof (range_small s C V _ P N Hok Hr) as Hsmall. pose proof (proj1 Hr) as HPpos.
  assert (range_in_pool s (P + k) 1) as Hr1 by (apply (range_sub s P N); [done|lia|lia]).
  destruct (step_read s C V L p o (P + k) Hok Hc Hr1 Hroom) as
    (s1 & C1 & V1 & p1 & addr & Hrun1 & Hok1 & Hs1 & Hh1 & Hk1 & HV1 & Hst1 & Hread).
  destruct (left_of C1 p1 _ Hs1) as [El Hl]. rewrite (bind_Ok _ _ _ _ _ Hrun1). cbn [fst snd].
  cbv zeta. rewrite El. set (left := PAGE_SIZE - (P + k) `mod` PAGE_SIZE) in *.
  assert (Z.to_nat (u64 (N - ctr)) = length l) as Eat by (rewrite u64_id by lia; lia).
  assert (∀ m q P1 o1, 0 ≤ m ≤ ctr → 0 < m → m ≤ left → cursor C1 q o1 P1 →
    o1 = Some ((P + k) `div` PAGE_SIZE) → P ≤ P1 ≤ P + N → (0 < ctr - m → P1 = P + k + m) →
    hint_write (m_aptr q) = hint_write (m_aptr p) →
    ∃ s' C' V' p' o' P' l',
      (l0 ← load_block addr (Z.to_nat m);
       dst0 ← reg_write (l ++ drop (length l) b) (Z.to_nat (u64 (N - ctr))) l0;
       memmove_reg_loop fuel N (ctr - m) dst0 q) s1 = Ok ((l' ++ drop (length l') b, p'), s') ∧
      Z.of_nat (length l') = N ∧ agrees V0 P l' ∧ kept V0 V' P N ∧ (hint_write (m_aptr p) = false → V' = V) ∧
      suvm_ok s' C' V' (option_list o' ++ L) ∧ cursor C' p' o' P' ∧ P ≤ P' ≤ P + N ∧ same_static s s') as Hchunk.
  { intros m q P1 o1 Hm Hm0 Hml Hq Eo HP1 Hnext Hhq.
    destruct (Hread (Z.to_nat m)) as (l2 & Hload & Hl2 & Hag2); [lia|].
    rewrite (bind_Ok _ _ _ _ _ Hload), Eat, reg_write_run by lia.
    assert (kept V0 V1 P N) as Hk by (eapply kept_trans; [exact Hk0|exact Hk1|lia..]).
    destruct (IH s1 C1 V0 V1 L q o1 P P1 N (l ++ l2) b (ctr - m))
      as (s' & C' & V' & p' & o' & P' & l' & Hrun & Hl' & Hag' & Hk' & HV' & Hok' & Hc' & HP' & Hst');
      try done; try lia; try (rewrite length_app; lia).
    - apply agrees_app; [done|]. by apply (kept_agrees _ _ _ _ _ _ Hk).
    - by rewrite Eo.
    - by apply (range_static s).
    - exists s', C', V', p', o', P', l'. split; [exact Hrun|]. split; [exact Hl'|]. split; [done|]. split; [done|].
      split; [intros E; rewrite (HV' ltac:(congruence)); auto|].
      split; [exact Hok'|]. split; [exact Hc'|]. split; [exact HP'|]. by eapply same_static_trans. }
  destruct (Z.ltb_spec left ctr).
  - apply (Hchunk left (move_by left p1) (P + k + left) (Some ((P + k) `div` PAGE_SIZE)));
      try done; try lia. apply settled_move; [done|unfold k in *; lia..].
  - apply (Hchunk ctr p1 (P + k) (Some ((P + k) `div` PAGE_SIZE))); try done; try lia.
    by apply cursor_settled.
Qed.

Lemma memmove_reg_any_ok s C V L p o P l b :
  suvm_ok s C V (option_list o ++ L) → cursor C p o P →
  holds_at V P l → (length l ≤ length b)%nat → Z.of_nat (length l) < 2 ^ 31 →
  range_in_pool s P (Z.of_nat (length l)) → room_for 1 s L →
  ∃ s' C' V' p' o' P',
    memmove_reg_aptr b p (Z.of_nat (length l)) s = Ok ((l ++ drop (length l) b, p'), s') ∧
    kept V V' P (Z.of_nat (length l)) ∧ (hint_write (m_aptr p) = false → V' = V) ∧
    suvm_ok s' C' V' (option_list o' ++ L) ∧ cursor C' p' o' P' ∧
    P ≤ P' ≤ P + Z.of_nat (length l) ∧ same_static s s'.
Proof.
  intros Hok Hc Hl Hb HN Hr Hroom. unfold memmove_reg_aptr. rewrite i32_id by lia.
  destruct (memmove_reg_loop_ok (S (length l)) s C V V L p o P P (Z.of_nat (length l)) [] b
    (Z.of_nat (length l))) as (s' & C' & V' & p' & o' & P' & l' & Hrun & Hl' & Hag & Hk & H); try done;
    try (simpl; lia); [apply kept_refl|].
  assert (l' = l) as -> by (apply (agrees_eq V P); [done|lia|exact Hl]).
  exists s', C', V', p', o', P'. split; [rewrite Nat2Z.id; exact Hrun|]. by split.
Qed.

Lemma memmove_reg_aptr_ok s C V L p o P l b :
  suvm_ok s C V (option_list o ++ L) → cursor C p o P → hint_write (m_aptr p) = false →
  holds_at V P l → (length l ≤ length b)%nat → Z.of_nat (length l) < 2 ^ 31 →
  range_in_pool s P (Z.of_nat (length l)) → room_for 1 s L →
  ∃ s' C' p' o' P',
    memmove_reg_aptr b p (Z.of_nat (length l)) s = Ok ((l ++ drop (length l) b, p'), s') ∧
    suvm_ok s' C' V (option_list o' ++ L) ∧ cursor C' p' o' P' ∧
    P ≤ P' ≤ P + Z.of_nat (length l) ∧ same_static s s'.
Proof.
  intros Hok Hc Hh Hl Hb HN Hr Hroom.
  destruct (memmove_reg_any_ok s C V L p o P l b) as (s' & C' & V' & p' & o' & P' & Hrun & _ & HV & H); try done.
  rewrite (HV Hh) in H. by exists s', C', p', o', P'.
Qed.

(** [memmove_reg_aptr], and so [memcpy_reg_aptr]: reading a range of the
    pool through a pointer into a buffer, over as many pages as it takes,
    leaves exactly the range's bytes in the front of the buffer and the rest of
    it alone. The caller's pointer is passed by reference and is left somewhere
    in the range, holding one page. *)
Theorem memmove_reg_aptr_correct s C V L p o P l b :
  suvm_ok s C V (option_list o ++ L) → cursor C p o P → hint_write (m_aptr p) = false →
  holds_at V P l → (length l ≤ length b)%nat → Z.of_nat (length l) < 2 ^ 31 →
  range_in_pool s P (Z.of_nat (length l)) → room_for 1 s L →
  ∃ s' C' p' o' P',
    memcpy_reg_aptr b p (Z.of_nat (length l)) s = Ok ((l ++ drop (length l) b, p'), s') ∧
    suvm_ok s' C' V (option_list o' ++ L) ∧ cursor C' p' o' P' ∧
    P ≤ P' ≤ P + Z.of_nat (length l).
Proof.
  intros Hok Hc Hh Hl Hb HN Hr Hroom.
  destruct (memmove_reg_aptr_ok s C V L p o P l b) as (s' & C' & p' & o' & P' & H1 & H2 & H3 & H4 & _); try done.
  by exists s', C', p', o', P'.
Qed.

Lemma memmove_aptr_loop_ok fuel : ∀ s C V L p o P P0 N k b ctr,
  N = Z.of_nat k + ctr → 0 ≤ ctr → (Z.to_nat ctr < fuel)%nat →
  N < 2 ^ 31 → N = Z.of_nat (length b) →
  suvm_ok s C V (option_list o ++ L) → cursor C p o P0 → P ≤ P0 ≤ P + N →
  (0 < ctr → P0 = P + Z.of_nat k) →
  hint_write (m_aptr p) = true → range_in_pool s P N → room_for 1 s L →
  ∃ s' C' V' p' o' P',
    memmove_aptr_loop fuel N ctr b p s = Ok (p', s') ∧
    suvm_ok s' C' V' (option_list o' ++ L) ∧ cursor C' p' o' P' ∧
    written V V' (P + Z.of_nat k) (drop k b) ∧ same_static s s' ∧ (ctr = 0 → V' = V).
Proof.
  induction fuel as [|fuel IH];
    intros s C V L p o P P0 N k b ctr EN Hctr Hf HN Hb Hok Hc HP0 Hat Hh Hr Hroom; [lia|].
  cbn [memmove_aptr_loop]. destruct (Z.ltb_spec 0 ctr) as [Hpos|Hz].
  2: { exists s, C, V, p, o, P0. split; [done|]. split; [done|]. split; [done|].
    rewrite drop_ge by lia. split; [apply written_refl|]. by split. }
  rewrite (Hat Hpos) in Hc, HP0. clear P0 Hat.
  pose proof (range_small s C V _ P N Hok Hr) as Hsmall. pose proof (proj1 Hr) as HPpos.
  assert (range_in_pool s (P + Z.of_nat k) 1) as Hr1 by (apply (range_sub s P N); [done|lia|lia]).
  destruct (step_write s C V L p o (P + Z.of_nat k) Hok Hc Hh Hr1 Hroom) as
    (s1 & C1 & p1 & addr & Hrun1 & Hs1 & Hh1 & Hst1 & Hwrite).
  destruct (left_of C1 p1 _ Hs1) as [El Hl]. rewrite (bind_Ok _ _ _ _ _ Hrun1). cbn [fst snd].
  cbv zeta. rewrite El. set (left := PAGE_SIZE - (P + Z.of_nat k) `mod` PAGE_SIZE) in *.
  assert (Z.to_nat (u64 (N - ctr)) = k) as Eat by (rewrite u64_id by lia; lia).
  assert (∀ m q P1, 0 < m ≤ ctr → m ≤ left → cursor C1 q (Some ((P + Z.of_nat k) `div` PAGE_SIZE)) P1 →
    P ≤ P1 ≤ P + N → (0 < ctr - m → P1 = P + Z.of_nat k + m) → hint_write (m_aptr q) = true →
    ∃ s' C' V' p' o' P',
      (l0 ← reg_take b (Z.to_nat (u64 (N - ctr))) (Z.to_nat m);
       store_block addr l0;; memmove_aptr_loop fuel N (ctr - m) b q) s1 = Ok (p', s') ∧
      suvm_ok s' C' V' (option_list o' ++ L) ∧ cursor C' p' o' P' ∧
      written V V' (P + Z.of_nat k) (drop k b) ∧ same_static s s' ∧ (ctr = 0 → V' = V)) as Hchunk.
  { intros m q P1 Hm Hml Hq HP1 Hnext Hhq. rewrite Eat, reg_take_run by lia.
    set (l0 := take (Z.to_nat m) (drop k b)).
    assert (length l0 = Z.to_nat m) as Hl0.
    { unfold l0. rewrite length_take, length_drop. lia. }
    destruct (Hwrite l0) as (s2 & V2 & Hstore & Hok2 & Hw2 & Hst2); [lia|].
    rewrite (bind_Ok _ _ _ _ _ Hstore).
    destruct (IH s2 C1 V2 L q (Some ((P + Z.of_nat k) `div` PAGE_SIZE)) P P1 N (k + Z.to_nat m)%nat b (ctr - m))
      as (s' & C' & V' & p' & o' & P' & Hrun & Hok' & Hc' & Hw' & Hst' & Hz); try done; try lia.
    { apply (range_static s); [by eapply same_static_trans|done]. }
    exists s', C', V', p', o', P'. split; [exact Hrun|]. split; [done|]. split; [done|].
    split; [|split; [by do 2 (eapply same_static_trans; [done|])|lia]].
    rewrite <- (take_drop (Z.to_nat m) (drop k b)), drop_drop. eapply written_app; [|exact Hw2|].
    { destruct (drop (k + Z.to_nat m) b) as [|x b'] eqn:E; [|by right; left]. right. right. apply Hz.
      apply (f_equal length) in E. rewrite length_drop in E. simpl in E. lia. }
    fold l0. rewrite Hl0. replace (P + Z.of_nat k + Z.of_nat (Z.to_nat m)) with
      (P + Z.of_nat (k + Z.to_nat m)) by lia. exact Hw'. }
  destruct (Z.ltb_spec left ctr).
  - apply (Hchunk left (move_by left p1) (P + Z.of_nat k + left)); try done; try lia.
    apply settled_move; [done|lia|lia|lia].
  - apply (Hchunk ctr p1 (P + Z.of_nat k)); try done; try lia. by apply cursor_settled.
Qed.

Lemma memmove_aptr_reg_ok s C V L p o P b :
  suvm_ok s C V L → points C (m_base_page_index p) (m_aptr p) o P →
  0 ≤ offset (m_aptr p) < 2 ^ 30 → 0 ≤ m_base_page_index p →
  Z.of_nat (length b) < 2 ^ 31 → range_in_pool s P (Z.of_nat (length b)) → room_for 1 s L →
  ∃ s' C' V', memmove_aptr_reg p b (Z.of_nat (length b)) s = Ok (tt, s') ∧
    suvm_ok s' C' V' L ∧ written V V' P b ∧ same_static s s'.
Proof.
  intros Hok Hpt Hoff Hb HN Hr Hroom. unfold memmove_aptr_reg. rewrite i32_id by lia.
  assert (cursor C (set_hint true (do_copy p)) None P) as Hc.
  { split; [|exact Hb]. apply (do_copy_points C C p o P Hpt); unfold PAGE_SIZE in *; lia. }
  destruct (memmove_aptr_loop_ok (S (length b)) s C V L (set_hint true (do_copy p)) None P P
    (Z.of_nat (length b)) 0 b (Z.of_nat (length b))) as
    (s1 & C1 & V1 & p1 & o1 & P1 & Hrun1 & Hok1 & Hc1 & Hw1 & Hst1 & _); try done; try lia.
  destruct (release s1 C1 V1 L p1 o1 P1 Hok1 Hc1) as (s2 & (p2 & Hrun2) & Hok2 & Hst2).
  exists s2, C1, V1. split; [|split; [done|split; [|by eapply same_static_trans]]].
  - rewrite Nat2Z.id, (bind_Ok _ _ _ _ _ Hrun1). apply Hrun2.
  - rewrite Z.add_0_r in Hw1. exact Hw1.
Qed.

End blocks.

(** ** Instances *)

Lemma memmove_reg_aptr_correct_witness :
  ∃ s s' p p', memcpy_reg_aptr [0; 0; 0; 0; 9] p 4 s = Ok (([1; 2; 3; 4; 9], p'), s').
Proof.
  destruct small_filled as (s & C & V & Hok & Hn & Hb & HV).
  destruct (cursor_new s C V [] 4476 4 Hok) as (p & _ & Hh & Hc); [by apply small_range|lia|].
  destruct (memmove_reg_aptr_correct s C V [] (set_hint false p) None 4476 [1; 2; 3; 4] [0; 0; 0; 0; 9] Hok)
    as (s' & C' & p' & o' & P' & H & _);
    [apply Hc|reflexivity|exact HV|simpl; lia|simpl; lia|by apply small_range|by apply small_room_for|].
  exists s, s', (set_hint false p), p'. exact H.
Defined.

