(* ===== verification/Microbench.v ===== *)
(** * The read and write benchmark

    Models [suvm_read_write_sample]: the enclave's [microbenchmarks/memset.cpp]
    with its entry points in [samples.cpp] (as it is built, with an array of
    pointers and the sanity checks), and the untrusted program's
    [untrusted/memset.cpp].  What [sgx_read_rand] returns, what a fresh array on
    the stack holds and whether [malloc] succeeds are arguments. *)

From S2P Require Import Prelude CString Memory SyncUtils Ring Mem5 Suvm Aptr LibC.

#[local] Opaque memsys5Malloc.

(** [sizeof(Aptr<int>)] *)
Definition SIZEOF_APTR : Z := 40.
(** [int priv[4096]] *)
Definition PRIV_INTS : nat := 4096.
#[global] Arguments PRIV_INTS : simpl never.

(** The globals.  The array of pointers lies in a block of the pool of its own;
    the model keeps its elements. *)
Record bench := mkBench {
  lib : suvm;
  g_aptr_arr : list Aptr;
  g_reg_arr : list (list Z);
  g_acc : Z;
  timestamp : Z
}.

Definition set_lib (b : bench) (s : suvm) : bench :=
  mkBench s (g_aptr_arr b) (g_reg_arr b) (g_acc b) (timestamp b).
Definition set_aptrs (l : list Aptr) (b : bench) : bench :=
  mkBench (lib b) l (g_reg_arr b) (g_acc b) (timestamp b).
Definition set_regs (l : list (list Z)) (b : bench) : bench :=
  mkBench (lib b) (g_aptr_arr b) l (g_acc b) (timestamp b).
(** [__sync_fetch_and_add(timestamp, 1)] on a [long]. *)
Definition tick (b : bench) : bench :=
  mkBench (lib b) (g_aptr_arr b) (g_reg_arr b) (g_acc b) (i64 (timestamp b + 1)).

Definition on_lib {A} (m : M suvm A) : M bench A := zoom lib (λ s b, set_lib b s) m.

(** ** Loops over an array of [int]s *)

(** [for (int j = 0; j < item_size; j++) t[j] = v(j);] *)
Fixpoint fill_loop {S} (n j : nat) (v : Z → Z) (t : list Z) : M S (list Z) :=
  match n with
  | O => mret t
  | S n' =>
      if decide (j < length t)%nat
      then fill_loop n' (Datatypes.S j) v (<[j := v (Z.of_nat j)]> t) else fail EUndef
  end.

(** [for (...) if (t[j] != v(j)) checksum += 1;]: both sides are [unsigned]. *)
Fixpoint checksum_loop {S} (n j : nat) (v : Z → Z) (t : list Z) (checksum : Z) : M S Z :=
  match n with
  | O => mret checksum
  | S n' =>
      x ← defined (t !! j);
      checksum_loop n' (Datatypes.S j) v t
        (if u32 x =? u32 (v (Z.of_nat j)) then checksum else i64 (checksum + 1))
  end.

(** [for (...) if (t[j] != v(j)) ASSERT(0);] *)
Fixpoint sanity_loop {S} (n j : nat) (v : Z → Z) (t : list Z) : M S unit :=
  match n with
  | O => mret tt
  | S n' =>
      x ← defined (t !! j);
      massert (u32 x =? u32 (v (Z.of_nat j)));;
      sanity_loop n' (Datatypes.S j) v t
  end.

(** [i*item_size+j] for an [int i], and for an [unsigned i] stored in an [int]. *)
Definition int_val (i item_size j : Z) : Z := i32 (i32 (i * item_size) + j).
Definition uint_val (i item_size j : Z) : Z := i32 (u32 (u32 (i * item_size) + j)).

(** [sgx_read_rand((unsigned char * )&i, sizeof(i)); i %= arr_size;] *)
Definition pick (r arr_size : Z) : M bench Z :=
  if u32 arr_size =? 0 then fail EUndef else mret (u32 r `mod` u32 arr_size).

(** ** An array in ordinary memory *)

Fixpoint regular_alloc_loop (n : nat) (i item_size : Z) (malloc : nat → bool) (uninit : list Z) : M bench unit :=
  match n with
  | O => mret tt
  | S n' =>
      massert (malloc (Z.to_nat i));;
      t ← fill_loop (Z.to_nat item_size) 0 (int_val i item_size) uninit;
      modify (λ b, set_regs (g_reg_arr b ++ [t]) b);;
      regular_alloc_loop n' (i + 1) item_size malloc uninit
  end.

Definition preprocess_memset_regular (arr_ok : bool) (malloc : nat → bool) (arr_size item_size : Z) : M bench Z :=
  massert arr_ok;;
  modify (set_regs []);;
  regular_alloc_loop (Z.to_nat arr_size) 0 item_size malloc (replicate (Z.to_nat item_size) 0);;
  mret 0.

(** [memmove] of [item_size] [int]s to the front of an array. *)
Definition move_ints (dst src : list Z) (item_size : Z) : M bench (list Z) :=
  let n := Z.to_nat item_size in
  if decide (0 ≤ item_size ∧ (n ≤ length dst)%nat ∧ (n ≤ length src)%nat)
  then mret (take n src ++ drop n dst) else fail EUndef.

Definition memset_regular_step (arr_size item_size test_read test_write : Z) (r : Z) (priv : list Z) : M bench unit :=
  i ← pick r arr_size;
  arr ← gets g_reg_arr;
  p ← defined (arr !! Z.to_nat i);
  r ← (if test_read =? 0 then mret (priv, 0)
       else
         priv ← move_ints priv p item_size;
         checksum ← checksum_loop (Z.to_nat item_size) 0 (uint_val i item_size) priv 0;
         mret (priv, checksum));
  (if test_write =? 0 then mret tt
   else
     priv ← fill_loop (Z.to_nat item_size) 0 (uint_val i item_size) r.1;
     p ← move_ints p priv item_size;
     modify (λ b, set_regs (<[Z.to_nat i := p]> (g_reg_arr b)) b));;
  massert (r.2 =? 0);;
  modify tick.

(** [for (int x = 0; x < avg_times; x++)], over the numbers drawn. *)
Fixpoint bench_loop (step : Z → M bench unit) (n x : nat) (rand : nat → Z) : M bench unit :=
  match n with
  | O => mret tt
  | S n' => step (rand x);; bench_loop step n' (S x) rand
  end.

Definition memset_regular (arr_size item_size test_read test_write avg_times : Z) (rand : nat → Z)
  (priv : list Z) : M bench Z :=
  bench_loop (λ r, memset_regular_step arr_size item_size test_read test_write r priv)
    (Z.to_nat avg_times) 0 rand;;
  gets g_acc.

(** ** An array behind the paging layer *)

(** [init()] *)
Definition init (p : Aptr) : Aptr := mkAptrC (m_aptr p) (-1) 0.

Section aptr.
Context `{Sgx}.

(** The array of blocks, in ordinary memory. *)
Fixpoint block_loop (n : nat) (item_size : Z) (mem_array : list Z) : M suvm (list Z) :=
  match n with
  | O => mret mem_array
  | S n' =>
      tmpmem ← on_pool (memsys5Malloc (i32 (u64 (item_size * 4))));
      massert (negb (tmpmem =? 0));;
      block_loop n' item_size (mem_array ++ [tmpmem])
  end.

(** The values of an item, one [int] at a time. *)
Fixpoint item_loop (n : nat) (j : Z) (v : Z → Z) (ap : Aptr) : M suvm Aptr :=
  match n with
  | O => mret ap
  | S n' =>
      r ← star ap;
      store_block r.1 (bytes_of_int (v j));;
      item_loop n' (j + 1) v (on_aptr (λ a, MOVE_APTR a 4) r.2)
  end.

Fixpoint items_loop (n : nat) (i item_size : Z) (mem_array : list Z) : M bench unit :=
  match n with
  | O => mret tt
  | S n' =>
      m ← defined (mem_array !! Z.to_nat i);
      ap ← on_lib (Aptr_ctor m (u64 (item_size * 4)));
      let ap := set_hint true ap in
      arr ← gets g_aptr_arr;
      g ← defined (arr !! Z.to_nat i);
      g ← on_lib (assign (init g) (Some ap));
      modify (λ b, set_aptrs (<[Z.to_nat i := g]> (g_aptr_arr b)) b);;
      ap ← on_lib (item_loop (Z.to_nat item_size) 0 (int_val i item_size) ap);
      modify (λ b, set_aptrs (alter (set_hint false) (Z.to_nat i) (g_aptr_arr b)) b);;
      on_lib (reset ap);;
      items_loop n' (i + 1) item_size mem_array
  end.

(** [uninit] is what the block for the pointers holds, [array_ok] whether the
    unchecked [malloc] of [mem_array] succeeds. *)
Definition preprocess_memset_aptr (uninit : Aptr) (array_ok : bool) (arr_size item_size : Z) : M bench Z :=
  g ← on_lib (on_pool (memsys5Malloc (i32 (u64 (arr_size * SIZEOF_APTR)))));
  massert (negb (g =? 0));;
  modify (set_aptrs (replicate (Z.to_nat arr_size) uninit));;
  (if array_ok || (arr_size <=? 0) then mret tt else fail EUndef);;
  mem_array ← on_lib (block_loop (Z.to_nat arr_size) item_size []);
  items_loop (Z.to_nat arr_size) 0 item_size mem_array;;
  mret 0.

(** [if (test_write) { ... }]: the pointer and the array after it. *)
Definition write_test (i item_size test_write : Z) (ap : Aptr) (priv : list Z) : M bench (Aptr * list Z) :=
  if test_write =? 0 then mret (ap, priv)
  else
    priv ← fill_loop (Z.to_nat item_size) 0 (uint_val i item_size) priv;
    let ap := set_hint true ap in
    on_lib (memcpy_aptr_reg ap (bytes_of_ints priv) (u64 (4 * item_size)));;
    mret (ap, priv).

(** [if (test_read) { ... }], which moves the pointer. *)
Definition read_test (i item_size test_read : Z) (ap : Aptr) (priv : list Z) : M bench Aptr :=
  if test_read =? 0 then mret ap
  else
    q ← on_lib (memcpy_reg_aptr (bytes_of_ints priv) ap (u64 (4 * item_size)));
    sanity_loop (Z.to_nat item_size) 0 (uint_val i item_size) (ints_of_bytes q.1);;
    mret q.2.

Definition memset_aptr_step (arr_size item_size test_read test_write : Z) (r : Z) (priv : list Z) : M bench unit :=
  i ← pick r arr_size;
  arr ← gets g_aptr_arr;
  g ← defined (arr !! Z.to_nat i);
  w ← write_test i item_size test_write (do_copy g) priv;
  ap ← read_test i item_size test_read w.1 w.2;
  modify tick;;
  _ ← on_lib (reset ap);
  mret tt.

Definition memset_aptr (arr_size item_size test_read test_write avg_times : Z) (rand : nat → Z)
  (priv : list Z) : M bench Z :=
  bench_loop (λ r, memset_aptr_step arr_size item_size test_read test_write r priv)
    (Z.to_nat avg_times) 0 rand;;
  mret 0.

(** ** The entry points, whose first two arguments are the other way round *)

Definition ecall_preprocess_reg (arr_ok : bool) (malloc : nat → bool) (item_size arr_size : Z) : M bench Z :=
  preprocess_memset_regular arr_ok malloc arr_size item_size.
Definition ecall_preprocess_aptr (uninit : Aptr) (array_ok : bool) (item_size arr_size : Z) : M bench Z :=
  preprocess_memset_aptr uninit array_ok arr_size item_size.
Definition ecall_process_reg (item_size arr_size test_read test_write avg_times : Z) (rand : nat → Z)
  (priv : list Z) : M bench Z :=
  memset_regular arr_size item_size test_read test_write avg_times rand priv.
Definition ecall_process_aptr (item_size arr_size test_read test_write avg_times : Z) (rand : nat → Z)
  (priv : list Z) : M bench Z :=
  memset_aptr arr_size item_size test_read test_write avg_times rand priv.
End aptr.

(** ** The untrusted program's own array *)

Record native := mkNative { seed : Z; buf1 : list (list Z); acc : Z }.

(** An integer product as a [double]: 53 bits, half to even. *)
Definition round_double (z : Z) : Z :=
  let e := Z.max 0 (Z.log2 z - 52) in
  let u := 2 ^ e in
  let q := z / u in
  let r := z mod u in
  (if (2 * r <? u) || ((2 * r =? u) && Z.even q) then q else q + 1) * u.

Definition next_seed (s : Z) : Z :=
  let m z := Z.land z 0xffffffff in
  let s := m (s + 0x7ed55d16 + Z.shiftl s 12) in
  let s := m (Z.lxor (Z.lxor s 0xc761c23c) (Z.shiftr s 19)) in
  let s := m (s + 0x165667b1 + Z.shiftl s 5) in
  let s := m (Z.lxor (s + 0xd3a2646c) (Z.shiftl s 9)) in
  let s := m (s + 0xfd7046c5 + Z.shiftl s 3) in
  m (Z.lxor (Z.lxor s 0xb55a4f09) (Z.shiftr s 16)).

(** [nextDouble(max)] as its caller takes it: cut to a [long]. The division by
    [2^28] is exact. *)
Definition nextDouble (max : Z) : M native Z :=
  modify (λ s, mkNative (next_seed (seed s)) (buf1 s) (acc s));;
  d ← gets seed;
  mret (round_double (max * Z.land d 0xfffffff) / 0x10000000).

(** The first [seed] is what [rand()] gives. *)
Definition preprocess_native (rand arr_size item_size : Z) : M native Z :=
  modify (λ s, mkNative rand (replicate (Z.to_nat arr_size) (replicate (Z.to_nat item_size) 5)) (acc s));;
  mret 0.

(** [while (it < item_size)] over the item [i]. *)
Fixpoint native_loop (n : nat) (i j : nat) (test_read test_write : Z) : M native unit :=
  match n with
  | O => mret tt
  | S n' =>
      b ← gets buf1;
      it ← defined (b !! i);
      x ← defined (it !! j);
      (if test_read =? 0 then mret tt else modify (λ s, mkNative (seed s) (buf1 s) (i32 (acc s + x))));;
      (if test_write =? 0 then mret tt else modify (λ s, mkNative (seed s) (alter (<[j := 3]>) i (buf1 s)) (acc s)));;
      native_loop n' i (S j) test_read test_write
  end.

Fixpoint native_times (x : nat) (arr_size item_size test_read test_write : Z) : M native unit :=
  match x with
  | O => mret tt
  | S x' =>
      i ← nextDouble arr_size;
      b ← gets buf1;
      _ ← defined (if i <? 0 then None else b !! Z.to_nat i);
      native_loop (Z.to_nat item_size) (Z.to_nat i) 0 test_read test_write;;
      native_times x' arr_size item_size test_read test_write
  end.

Definition process_native (arr_size item_size test_read test_write avg_times : Z) : M native Z :=
  native_times (Z.to_nat avg_times) arr_size item_size test_read test_write;;
  gets acc.
