(* ===== verification/MicrobenchThms.v ===== *)
(** * Theorems about the read and write benchmark

    The benchmark checks every item it reads.  With a pool that has room for the
    array, and items of a page or more that fit the buffer on the stack, no
    check ever fails, whichever items are drawn and whichever pages are evicted
    and brought back in between. *)

From S2P Require Import Prelude CString Memory SyncUtils Ring Mem5 Mem5Inv Mem5Proofs Mem5Init Mem5Spec.
From S2P Require Import Suvm SuvmInv SuvmProofs SuvmThms Aptr AptrThms LibC LibCThms LibCBlocks.
From S2P Require Import Microbench.

#[local] Opaque EVICT_FUEL CACHE_CAPACITY PAGE_BYTES memsys5Malloc PRIV_INTS.

(** ** The values of an item *)

Lemma uint_int i n j : uint_val i n j = int_val i n j.
Proof. unfold uint_val, int_val, u32, i32. Z.div_mod_to_equations. lia. Qed.

(** What item [i] holds. *)
Definition item_ints (i item_size : Z) : list Z := int_val i item_size <$> seqZ 0 item_size.

Lemma length_item i n : length (item_ints i n) = Z.to_nat n.
Proof. unfold item_ints. by rewrite length_fmap, length_seqZ. Qed.

Lemma lookup_item i n k : (k < Z.to_nat n)%nat → item_ints i n !! k = Some (int_val i n (Z.of_nat k)).
Proof. intros Hk. unfold item_ints. rewrite list_lookup_fmap, lookup_seqZ_lt by lia. done. Qed.

Lemma int_val_i32 i n j : i32 (int_val i n j) = int_val i n j.
Proof. apply i32_i32. Qed.

Lemma item_ints_i32 i n : i32 <$> item_ints i n = item_ints i n.
Proof.
  unfold item_ints. rewrite <- list_fmap_compose. apply list_fmap_ext. intros k x _. apply int_val_i32.
Qed.

(** ** The loops *)

Lemma int_fill_loop_ok {S} n v (t : list Z) (s : S) : ∀ j,
  (j + n ≤ length t)%nat →
  fill_loop n j v t s = Ok (take j t ++ (v <$> seqZ (Z.of_nat j) (Z.of_nat n)) ++ drop (j + n) t, s).
Proof.
  revert t. induction n as [|n IH]; intros t j Hlen; cbn [fill_loop].
  - rewrite Nat.add_0_r. change (v <$> _) with (@nil Z). by rewrite app_nil_l, take_drop.
  - rewrite decide_True by lia. rewrite IH by (rewrite length_insert; lia). do 2 f_equal.
    rewrite (seqZ_cons (Z.of_nat j)) by lia. cbn [fmap list_fmap].
    rewrite (take_S_r _ _ (v (Z.of_nat j))) by (apply list_lookup_insert_eq; lia).
    rewrite take_insert_ge, drop_insert_lt by lia. rewrite <- app_assoc. cbn [app].
    replace (Z.pred (Z.of_nat (Datatypes.S n))) with (Z.of_nat n) by lia.
    replace (Z.succ (Z.of_nat j)) with (Z.of_nat (Datatypes.S j)) by lia.
    by replace (j + Datatypes.S n)%nat with (Datatypes.S j + n)%nat by lia.
Qed.

(** The item's values at the front of an array. *)
Lemma fill_item {S} i n (t : list Z) (s : S) :
  0 ≤ n → (Z.to_nat n ≤ length t)%nat →
  fill_loop (Z.to_nat n) 0 (int_val i n) t s = Ok (item_ints i n ++ drop (Z.to_nat n) t, s).
Proof. intros Hn Hlen. rewrite int_fill_loop_ok by lia. rewrite Z2Nat.id by lia. done. Qed.

Lemma checksum_loop_ok {S} n v (t : list Z) c (s : S) : ∀ j,
  (∀ k, (j ≤ k < j + n)%nat → t !! k = Some (v (Z.of_nat k))) → checksum_loop n j v t c s = Ok (c, s).
Proof.
  induction n as [|n IH]; intros j Ht; cbn [checksum_loop]; [done|].
  rewrite (Ht j) by lia. cbn [defined]. rewrite bind_ret, Z.eqb_refl. apply IH. intros k Hk. apply Ht. lia.
Qed.

Lemma sanity_loop_ok {S} n v (t : list Z) (s : S) : ∀ j,
  (∀ k, (j ≤ k < j + n)%nat → t !! k = Some (v (Z.of_nat k))) → sanity_loop n j v t s = Ok (tt, s).
Proof.
  induction n as [|n IH]; intros j Ht; cbn [sanity_loop]; [done|].
  rewrite (Ht j) by lia. cbn [defined]. rewrite bind_ret, bind_assert by apply Z.eqb_refl.
  apply IH. intros k Hk. apply Ht. lia.
Qed.

Lemma fill_loop_ext {S} n v w t (s : S) j : (∀ x, v x = w x) → fill_loop n j v t s = fill_loop n j w t s.
Proof.
  intros H. revert t j. induction n as [|n IH]; intros t j; cbn [fill_loop]; [done|].
  case_decide; [|done]. rewrite H. apply IH.
Qed.

Lemma fill_item_u {S} i n (t : list Z) (s : S) :
  0 ≤ n → (Z.to_nat n ≤ length t)%nat →
  fill_loop (Z.to_nat n) 0 (uint_val i n) t s = Ok (item_ints i n ++ drop (Z.to_nat n) t, s).
Proof. rewrite (fill_loop_ext _ _ (int_val i n)) by apply uint_int. apply fill_item. Qed.

(** The item as read back, at the front of an array. *)
Lemma item_front i n t k :
  (k < Z.to_nat n)%nat → (item_ints i n ++ t) !! k = Some (uint_val i n (Z.of_nat k)).
Proof.
  intros Hk. rewrite lookup_app_l by (rewrite length_item; lia). by rewrite lookup_item, uint_int.
Qed.

Lemma pick_ok r n b :
  0 < n < 2 ^ 31 → ∃ i, pick r n b = Ok (i, b) ∧ 0 ≤ i < n.
Proof.
  intros Hn. unfold pick. rewrite u32_id by lia. rewrite (proj2 (Z.eqb_neq _ _)) by lia.
  exists (u32 r mod n). split; [done|]. apply Z.mod_pos_bound. lia.
Qed.

(** ** In ordinary memory *)

Definition items (arr_size item_size : Z) : list (list Z) :=
  (λ i, item_ints i item_size) <$> seqZ 0 arr_size.

Lemma regular_alloc_ok n i item_size malloc t b :
  (∀ k, malloc k = true) → 0 ≤ item_size → length t = Z.to_nat item_size →
  regular_alloc_loop n i item_size malloc t b =
    Ok (tt, set_regs (g_reg_arr b ++ ((λ i, item_ints i item_size) <$> seqZ i (Z.of_nat n))) b).
Proof.
  intros Hm Hi Ht. revert i b. induction n as [|n IH]; intros i b; cbn [regular_alloc_loop].
  - cbn. rewrite app_nil_r. by destruct b.
  - rewrite bind_assert by done. erewrite bind_Ok by (apply fill_item; lia). rewrite bind_modify, IH.
    rewrite drop_ge, app_nil_r by lia. rewrite (seqZ_cons i) by lia. cbn [fmap list_fmap g_reg_arr set_regs].
    rewrite <- app_assoc. replace (Z.pred (Z.of_nat (S n))) with (Z.of_nat n) by lia. done.
Qed.

Lemma lookup_items arr_size item_size i :
  0 ≤ i < arr_size → items arr_size item_size !! Z.to_nat i = Some (item_ints i item_size).
Proof.
  intros Hi. unfold items. rewrite list_lookup_fmap, lookup_seqZ_lt by lia. simpl. do 2 f_equal. lia.
Qed.

(** A run keeps what each step keeps, and counts the steps. *)
Lemma bench_loop_ok (I : bench → Prop) step :
  (∀ r b, I b → ∃ b', step r b = Ok (tt, b') ∧ I b' ∧ timestamp b' = i64 (timestamp b + 1)) →
  ∀ n x rand b, I b →
  ∃ b', bench_loop step n x rand b = Ok (tt, b') ∧ I b' ∧
    i64 (timestamp b') = i64 (timestamp b + Z.of_nat n).
Proof.
  intros Hstep n. induction n as [|n IH]; intros x rand b Hb; cbn [bench_loop].
  - exists b. split; [done|]. split; [done|]. f_equal. lia.
  - destruct (Hstep (rand x) b Hb) as (b1 & Hrun1 & Hb1 & Ht1). rewrite (bind_Ok _ _ _ _ _ Hrun1).
    destruct (IH (S x) rand b1 Hb1) as (b2 & Hrun2 & Hb2 & Ht2). exists b2. split; [done|]. split; [done|].
    rewrite Ht2, Ht1. unfold i64. Z.div_mod_to_equations. lia.
Qed.

Lemma move_ints_ok dst src n b :
  0 ≤ n → (Z.to_nat n ≤ length dst)%nat → (Z.to_nat n ≤ length src)%nat →
  move_ints dst src n b = Ok (take (Z.to_nat n) src ++ drop (Z.to_nat n) dst, b).
Proof. intros H1 H2 H3. unfold move_ints. by rewrite decide_True. Qed.

Lemma regular_step_ok arr_size item_size test_read test_write r priv b :
  0 < arr_size < 2 ^ 31 → 0 ≤ item_size → (Z.to_nat item_size ≤ length priv)%nat →
  g_reg_arr b = items arr_size item_size →
  memset_regular_step arr_size item_size test_read test_write r priv b = Ok (tt, tick b).
Proof.
  intros Ha Hi Hp Hb. unfold memset_regular_step. destruct (pick_ok r arr_size b Ha) as (i & Hpick & Hir).
  rewrite (bind_Ok _ _ _ _ _ Hpick), bind_gets, Hb, lookup_items by done. cbn [defined]. rewrite bind_ret.
  pose proof (length_item i item_size) as Hlen. set (n := Z.to_nat item_size) in *.
  erewrite (bind_Ok _ _ b ((if test_read =? 0 then priv else item_ints i item_size ++ drop n priv), 0) b).
  2: { destruct (test_read =? 0); [done|]. rewrite (bind_Ok _ _ _ _ _ (move_ints_ok priv (item_ints i item_size) item_size b Hi Hp ltac:(lia))).
    rewrite take_ge by lia. erewrite bind_Ok; [done|]. apply checksum_loop_ok. intros k Hk.
    apply item_front. lia. }
  cbn [fst snd]. erewrite (bind_Ok _ _ b tt b).
  { by rewrite bind_assert. }
  destruct (test_write =? 0); [done|].
  assert (∃ w, (if test_read =? 0 then priv else item_ints i item_size ++ drop n priv) = w ∧ (n ≤ length w)%nat) as (w & -> & Hw).
  { eexists. split; [done|]. destruct (test_read =? 0); [done|]. rewrite length_app. lia. }
  rewrite (bind_Ok _ _ _ _ _ (fill_item_u i item_size w b Hi Hw)).
  erewrite bind_Ok by (apply move_ints_ok; rewrite ?length_app, ?length_item; lia).
  rewrite take_app_le, take_ge, drop_ge, app_nil_r by (rewrite ?length_item; lia).
  unfold modify. do 2 f_equal. rewrite Hb, list_insert_id by (by apply lookup_items). rewrite <- Hb. by destruct b.
Qed.

(** The array in ordinary memory. *)
Definition regular_ok (arr_size item_size : Z) (b : bench) : Prop := g_reg_arr b = items arr_size item_size.

(** [preprocess_memset_regular] where [malloc] succeeds, and any number of runs
    of [memset_regular]: the checksum is always 0. *)
Theorem regular_benchmark_sane b malloc arr_size item_size test_read test_write avg_times rand priv :
  (∀ k, malloc k = true) → 0 < arr_size < 2 ^ 31 → 0 ≤ item_size → (Z.to_nat item_size ≤ length priv)%nat →
  ∃ b1 b2, ecall_preprocess_reg true malloc item_size arr_size b = Ok (0, b1) ∧
    ecall_process_reg item_size arr_size test_read test_write avg_times rand priv b1 = Ok (g_acc b2, b2) ∧
    regular_ok arr_size item_size b2 ∧
    i64 (timestamp b2) = i64 (timestamp b + Z.of_nat (Z.to_nat avg_times)).
Proof.
  intros Hm Ha Hi Hp. set (b1 := set_regs (items arr_size item_size) b).
  destruct (bench_loop_ok (regular_ok arr_size item_size)
    (λ r, memset_regular_step arr_size item_size test_read test_write r priv)) with
    (n := Z.to_nat avg_times) (x := 0%nat) (rand := rand) (b := b1) as (b2 & Hrun & Hb2 & Ht).
  - intros r b0 Hb0. exists (tick b0). split; [by apply regular_step_ok|]. by split.
  - done.
  - exists b1, b2. split; [|split; [|by split]].
    + unfold ecall_preprocess_reg, preprocess_memset_regular. rewrite bind_assert, bind_modify by done.
      erewrite bind_Ok by (apply regular_alloc_ok; [done|done|apply length_replicate]).
      unfold b1, items. rewrite Z2Nat.id by lia. done.
    + unfold ecall_process_reg, memset_regular. by rewrite (bind_Ok _ _ _ _ _ Hrun).
Qed.

(** ** Behind the paging layer *)

Lemma on_lib_run {A B} (m : M suvm A) (f : A → M bench B) b a s :
  m (lib b) = Ok (a, s) → (on_lib m ≫= f) b = f a (set_lib b s).
Proof. apply (bind_zoom lib (λ s b, set_lib b s)). Qed.

Lemma on_lib_cps {A B} (m : M suvm A) (f : A → M bench B) b a s :
  (∀ B (g : A → M suvm B), (m ≫= g) (lib b) = g a s) → (on_lib m ≫= f) b = f a (set_lib b s).
Proof.
  intros H. apply on_lib_run. rewrite <- (H A (λ a s, Ok (a, s))). unfold mbind, M_bind.
  by destruct (m (lib b)) as [[]|].
Qed.

(** Copying out of the front of a longer buffer. *)
Lemma reg_take_front {S} b m i n (s : S) r : reg_take (take m b) i n s = Ok r → reg_take b i n s = Ok r.
Proof.
  unfold reg_take. rewrite length_take. case_decide; [|done]. rewrite decide_True by lia.
  rewrite <- (take_drop m b) at 2. by rewrite drop_app_le, take_app_le by (rewrite ?length_drop, ?length_take; lia).
Qed.

Lemma memmove_aptr_front `{Sgx} fuel : ∀ N ctr b m p s r,
  memmove_aptr_loop fuel N ctr (take m b) p s = Ok r → memmove_aptr_loop fuel N ctr b p s = Ok r.
Proof.
  induction fuel as [|fuel IH]; intros N ctr b m p s r; cbn [memmove_aptr_loop]; [done|].
  destruct (0 <? ctr); [|done]. destruct r as [q s'].
  intros (x & s1 & Hrun1 & Hrest)%bind_Ok_inv. rewrite (bind_Ok _ _ _ _ _ Hrun1). cbv zeta in *.
  destruct (_ <? ctr); apply bind_Ok_inv in Hrest as (l & s2 & Ht & Hrest);
    rewrite (bind_Ok _ _ _ _ _ (reg_take_front _ _ _ _ _ _ Ht));
    apply bind_Ok_inv in Hrest as (u & s3 & Hst & Hrest); rewrite (bind_Ok _ _ _ _ _ Hst);
    by eapply IH.
Qed.

Lemma memcpy_front `{Sgx} p b n s r :
  memmove_aptr_reg p (take n b) (Z.of_nat n) s = Ok (tt, r) → memcpy_aptr_reg p b (Z.of_nat n) s = Ok (tt, r).
Proof.
  unfold memcpy_aptr_reg, memmove_aptr_reg. cbv zeta. intros (q & s1 & Hrun & Hrest)%bind_Ok_inv.
  by rewrite (bind_Ok _ _ _ _ _ (memmove_aptr_front _ _ _ _ _ _ _ _ Hrun)).
Qed.

(** ** Items as bytes *)

Definition item_bytes (i item_size : Z) : list Z := bytes_of_ints (item_ints i item_size).

Lemma length_item_bytes i n : 0 ≤ n → Z.of_nat (length (item_bytes i n)) = 4 * n.
Proof. intros Hn. unfold item_bytes. rewrite length_bytes_of_ints, length_item. lia. Qed.

Lemma bytes_of_ints_app l1 l2 : bytes_of_ints (l1 ++ l2) = bytes_of_ints l1 ++ bytes_of_ints l2.
Proof. induction l1 as [|v l1 IH]; [done|]. cbn [app bytes_of_ints]. by rewrite IH. Qed.

Lemma ints_bytes_app l r : ints_of_bytes (bytes_of_ints l ++ r) = (i32 <$> l) ++ ints_of_bytes r.
Proof.
  induction l as [|v l IH]; [done|]. cbn [bytes_of_ints bytes_of_int app ints_of_bytes fmap list_fmap].
  by rewrite int_bytes, IH.
Qed.

Section aptr.
Context `{HS : Sgx, HL : !SgxLaws}.

(** Writing an item one [int] at a time. An [int] never straddles two pages. *)
Lemma item_loop_ok `{HB : PoolBase} n v : ∀ s C V L p o P j,
  suvm_ok s C V (option_list o ++ L) → cursor C p o P → hint_write (m_aptr p) = true →
  range_in_pool s P (4 * Z.of_nat n) → (4 | P) → room_for 1 s L →
  ∃ s' C' V' p' o' P', item_loop n j v p s = Ok (p', s') ∧
    suvm_ok s' C' V' (option_list o' ++ L) ∧ cursor C' p' o' P' ∧
    written V V' P (bytes_of_ints (v <$> seqZ j (Z.of_nat n))) ∧ same_static s s' ∧ (n = 0%nat → V' = V).
Proof.
  induction n as [|n IH]; intros s C V L p o P j Hok Hc Hh Hr H4 Hroom; cbn [item_loop].
  - exists s, C, V, p, o, P. do 3 (split; [done|]). split; [apply written_refl|done].
  - pose proof (range_small s C V _ P _ Hok Hr) as Hsmall. destruct H4 as [w ->].
    destruct (step_write s C V L p o (w * 4) Hok Hc Hh) as (s1 & C1 & p1 & addr & Hrun1 & Hs1 & Hh1 & Hst1 & Hwrite);
      [apply (range_sub s (w * 4) _ 0 1) in Hr; [by rewrite Z.add_0_r in Hr|lia|lia]|done|].
    assert ((w * 4) `mod` PAGE_SIZE + 4 ≤ PAGE_SIZE) as Hfit.
    { unfold PAGE_SIZE. Z.div_mod_to_equations. lia. }
    destruct (Hwrite (bytes_of_int (v j)) Hfit) as (s2 & V2 & Hstore & Hok2 & Hw2 & Hst2).
    rewrite (bind_Ok _ _ _ _ _ Hrun1), (bind_Ok _ _ _ _ _ Hstore). cbn [fst snd].
    change (on_aptr (λ a, MOVE_APTR a 4) p1) with (move_by 4 p1).
    destruct Hr as (Hr0 & Hr1 & Hr2).
    destruct (IH s2 C1 V2 L (move_by 4 p1) (Some ((w * 4) `div` PAGE_SIZE)) (w * 4 + 4) (j + 1))
      as (s3 & C3 & V3 & p3 & o3 & P3 & Hrun3 & Hok3 & Hc3 & Hw3 & Hst3 & Hn3).
    + exact Hok2.
    + apply settled_move; [done|lia|lia|unfold PAGE_SIZE; lia].
    + done.
    + apply (range_static s); [by eapply same_static_trans|]. apply (range_sub s (w * 4) (4 * Z.of_nat (S n)) 4); [done|lia|lia].
    + exists (w + 1). lia.
    + done.
    + exists s3, C3, V3, p3, o3, P3. split; [exact Hrun3|]. split; [done|]. split; [done|].
      split; [|split; [by do 2 (eapply same_static_trans; [done|])|done]].
      rewrite (seqZ_cons j) by lia. cbn [fmap list_fmap bytes_of_ints].
      replace (Z.pred (Z.of_nat (S n))) with (Z.of_nat n) by lia. eapply written_app; [|exact Hw2|exact Hw3].
      destruct n as [|n]; [right; right; by apply Hn3|right; left]. rewrite (seqZ_cons (Z.succ j)) by lia. done.
Qed.

(** A pointer as the benchmark keeps it: made for a block and copied, never used
    itself. *)
Definition made (q : Aptr) (P : Z) : Prop :=
  (∀ C, points C (m_base_page_index q) (m_aptr q) None P) ∧ 0 ≤ m_base_page_index q ∧
  hint_write (m_aptr q) = false ∧ 0 ≤ offset (m_aptr q) ≤ 3 * PAGE_SIZE.

Lemma set_hint_same p h : hint_write (m_aptr p) = h → set_hint h p = p.
Proof. by destruct p as [[] ? ?]; intros <-. Qed.

(** A copy of a pointer not used holds nothing, and points where it does. *)
Lemma copy_made q P h :
  made q P → (∀ C, cursor C (set_hint h (do_copy q)) None P) ∧ hint_write (m_aptr (do_copy q)) = false ∧
    offset (m_aptr (do_copy q)) = offset (m_aptr q) + PAGE_SIZE.
Proof.
  intros (Hpt & Hb & Hh & Ho). split; [|split; [done|]].
  - intros C. split; [|done]. exact (do_copy_points ∅ C q None P (Hpt ∅) ltac:(unfold PAGE_SIZE in *; lia)
      ltac:(unfold PAGE_SIZE in *; lia) ltac:(unfold PAGE_SIZE in *; lia)).
  - simpl. apply i32_id. unfold PAGE_SIZE in *. lia.
Qed.

(** ** The blocks *)

(** The allocator has handed out the blocks [l], each of [2 ^ k] atoms. *)
Definition allotted (B : gmap Z Z) (k : Z) (l : list Z) : Prop := NoDup l ∧ ∀ i, i ∈ l → B !! i = Some k.

Lemma allotted_snoc B k l i : allotted B k l → B !! i = None → allotted (<[i := k]> B) k (l ++ [i]).
Proof.
  intros [Hnd Hl] Hi. split.
  - apply NoDup_app. split; [done|]. split; [|apply NoDup_singleton]. intros x Hx ->%list_elem_of_singleton.
    rewrite (Hl i Hx) in Hi. done.
  - intros j [Hj| ->%list_elem_of_singleton]%elem_of_app; [|apply lookup_insert_eq].
    rewrite lookup_insert_ne; [by apply Hl|]. intros <-. rewrite (Hl i Hj) in Hi. done.
Qed.

Lemma window_fresh A n k j : 0 ≤ k → free_window A n k j → A !! j = None ∨ ∃ k', A !! j = Some k' ∧ k' < 0.
Proof.
  intros Hk (_ & _ & _ & Hd). destruct (A !! j) as [k'|] eqn:E; [|by left]. right. exists k'. split; [done|].
  pose proof (pow2_pos k Hk). destruct (Z.lt_ge_cases k' 0) as [|Hge]; [done|].
  pose proof (pow2_pos k' Hge). specialize (Hd j k' E). lia.
Qed.

(** One block of the pool, before anything is paged. *)
Lemma take_block (h : heap) s B n :
  suvm_ok (HB := h) s ∅ ∅ [] → owns h B → pool_layout s → 0 < n ≤ 2 ^ 30 →
  let k := log_size 16 n in
  (∃ j, free_window B (nBlock (mem5 (pool s))) k j) →
  ∃ i h', on_pool (memsys5Malloc n) s = Ok (g_base_pool_ptr s + 16 * i, set_pool s h') ∧
    g_base_pool_ptr s + 16 * i ≠ 0 ∧ B !! i = None ∧ (2 ^ k | i) ∧
    suvm_ok (HB := h') (set_pool s h') ∅ ∅ [] ∧ owns h' (<[i := k]> B) ∧ pool_layout (set_pool s h') ∧
    nBlock (mem5 h') = nBlock (mem5 (pool s)).
Proof.
  intros Hok Ho Hl Hn k [j Hj].
  assert (in_blocks s B ∅) as Hin by (intros p [b Hb]; by rewrite lookup_empty in Hb).
  destruct (paging_malloc h s ∅ ∅ [] B n Hok Ho Hin Hn) as [[_ Hno]|(i & h' & Hrun & Hw & Ho' & Hok' & _ & Hgeo)];
    [by rewrite (lay_atom _ Hl) in Hno; destruct (Hno j)|].
  rewrite (lay_atom _ Hl) in Hw, Ho'. fold k in Hw, Ho'.
  assert (0 ≤ k) as Hk by (unfold k, log_size; lia).
  exists i, h'. rewrite (layout_addr s i Hl) in Hrun. destruct (lay_ptr _ Hl) as [Hpos _].
  split; [unfold on_pool, zoom; by rewrite Hrun|]. split; [destruct Hw; lia|]. split.
  { destruct (window_fresh B _ k i Hk Hw) as [|(k' & Hk' & Hneg)]; [done|].
    pose proof (owns_range h B i k' Ho Hk'). lia. }
  split; [apply Hw|]. do 2 (split; [done|]). split; [by apply layout_geo|]. by destruct Hgeo as (_ & -> & _).
Qed.

Lemma block_loop_ok item_size n : ∀ (h : heap) s B W l,
  let k := log_size 16 (4 * item_size) in
  suvm_ok (HB := h) s ∅ ∅ [] → owns h B → pool_layout s → 0 < item_size → 4 * item_size ≤ 2 ^ 30 →
  covers B k W → Z.of_nat (size W) + Z.of_nat n ≤ nBlock (mem5 (pool s)) / 2 ^ k → allotted B k l →
  ∃ (h' : heap) s' B' l', let at_ := λ i, g_base_pool_ptr s + 16 * i in
    block_loop n item_size (at_ <$> l) s = Ok (at_ <$> l ++ l', s') ∧ length l' = n ∧
    suvm_ok (HB := h') s' ∅ ∅ [] ∧ owns h' B' ∧ pool_layout s' ∧ allotted B' k (l ++ l') ∧
    g_base_pool_ptr s' = g_base_pool_ptr s.
Proof.
  induction n as [|n IH]; intros h s B W l k Hok Ho Hl Hpos Hmax HW Hroom Hall; cbn [block_loop].
  - exists h, s, B, []. cbv zeta. rewrite app_nil_r. by split_and!.
  - assert (0 ≤ k) as Hk by (unfold k, log_size; lia).
    destruct (take_block h s B (4 * item_size) Hok Ho Hl) as
      (i & h1 & Hrun & Hne & HBi & Hdiv & Hok1 & Ho1 & Hl1 & Hnb); [lia| |].
    { apply (covers_window _ _ _ W Hk HW). lia. }
    fold k in Hdiv, Ho1.
    destruct (IH h1 (set_pool s h1) (<[i := k]> B) ({[i / 2 ^ k]} ∪ W) (l ++ [i]))
      as (h2 & s2 & B2 & l2 & Hrun2 & Hlen & Hok2 & Ho2 & Hl2 & Hall2 & Hb2); try done.
    + by apply covers_insert.
    + cbn [pool set_pool]. rewrite Hnb. rewrite size_union_alt, size_singleton.
      pose proof (subseteq_size (W ∖ {[i / 2 ^ k]}) W ltac:(set_solver)). fold k. lia.
    + by apply allotted_snoc.
    + exists h2, s2, B2, (i :: l2). cbv zeta. replace (i32 (u64 (item_size * 4))) with (4 * item_size).
      2: { rewrite u64_id, i32_id by lia. lia. }
      rewrite (bind_Ok _ _ _ _ _ Hrun), bind_assert by (by apply negb_true_iff, Z.eqb_neq).
      cbv zeta in Hrun2. change (g_base_pool_ptr (set_pool s h1)) with (g_base_pool_ptr s) in *.
      rewrite fmap_app in Hrun2. rewrite (cons_middle i l l2), app_assoc.
      split; [exact Hrun2|]. split; [simpl; lia|]. done.
Qed.

(** ** The items *)

(** Item [i] is in the [i]th of the blocks, which are apart from each other. *)
Record placed (s : suvm) (item_size : Z) (blocks : list Z) : Prop := {
  pl_range : ∀ i a, blocks !! i = Some a → range_in_pool s (16 * a) (4 * item_size) ∧ 16 * a < 2 ^ 31;
  pl_apart : ∀ i j a a', i ≠ j → blocks !! i = Some a → blocks !! j = Some a' →
    16 * a + 4 * item_size ≤ 16 * a' ∨ 16 * a' + 4 * item_size ≤ 16 * a;
  pl_ptr : g_base_pool_ptr s + 2 ^ 31 ≤ 2 ^ 63
}.

(** The first [m] items hold their values, and the array points to them. *)
Definition items_at (V : gmap Z (list Z)) (item_size : Z) (blocks : list Z) (arr : list Aptr) (m : nat) : Prop :=
  ∀ i a, (i < m)%nat → blocks !! i = Some a →
    holds_at V (16 * a) (item_bytes (Z.of_nat i) item_size) ∧ ∃ q, arr !! i = Some q ∧ made q (16 * a).

Lemma placed_static s s' n l : same_static s s' → placed s n l → placed s' n l.
Proof.
  intros Hst [H1 H2 H3]. pose proof Hst as (E & _). constructor; [|exact H2|by rewrite E].
  intros i a Hi. destruct (H1 i a Hi). split; [by apply (range_static s)|done].
Qed.

Lemma allotted_placed (h : heap) s C V B n l :
  let k := log_size 16 (4 * n) in
  suvm_ok (HB := h) s C V [] → pool_layout s → owns h B → 0 < 4 * n ≤ 2 ^ 30 → allotted B k l → placed s n l.
Proof.
  intros k [(U & K & D & Hinv) _] [_ _ Hr Hint [Hp1 Hp2]] (fl & bl & Hi & <- & _) Hn [Hnd Hall].
  pose proof (inv_mem5 _ _ _ _ _ _ _ _ _ _ Hinv) as Em. change (@pool_base h) with h in Em. rewrite Em in *.
  destruct (log_size_spec 4 (4 * n) ltac:(lia) Hn) as (Hk & _ & Hfit & _).
  change (log_size (2 ^ 4) (4 * n)) with k in Hk, Hfit. rewrite Z.pow_add_r in Hfit by lia.
  change (2 ^ 4) with 16 in Hfit. pose proof (pow2_pos k Hk). clearbody k.
  assert (∀ i a, l !! i = Some a → 0 ≤ a ∧ (2 ^ k | a) ∧ a + 2 ^ k ≤ nBlock (mem5 h)) as Hwf.
  { intros i a Ha. apply list_elem_of_lookup_2 in Ha. apply Hall, outstanding_lookup in Ha.
    destruct (inv_wf _ _ _ _ _ _ _ Hi Ha) as (_ & H0 & Hd & Hb & _). done. }
  unfold PAGE_SIZE in *. constructor.
  - intros i a Ha. destruct (Hwf i a Ha) as (H0 & _ & Hb). split; [|lia]. unfold range_in_pool, PAGE_SIZE. lia.
  - intros i j a a' Hij Ha Ha'. destruct (Hwf i a Ha) as (_ & [q ->] & _). destruct (Hwf j a' Ha') as (_ & [q' ->] & _).
    assert (q ≠ q') as Hq by (intros ->; apply Hij; by eapply NoDup_lookup). nia.
  - lia.
Qed.

(** An item written anew leaves all of them as they are. *)
Lemma items_written V V' s n l arr m i a :
  placed s n l → 0 ≤ n → l !! i = Some a → written V V' (16 * a) (item_bytes (Z.of_nat i) n) →
  items_at V n l arr m → items_at V' n l arr m.
Proof.
  intros Hp Hn Ha Hw Hit j a' Hj Ha'. destruct (Hit j a' Hj Ha') as [Hh Hq]. split; [|done].
  destruct (decide (j = i)) as [->|Hne].
  - rewrite Ha in Ha'. injection Ha' as <-. eapply written_holds; [exact Hw|]. apply u8_bytes_of_ints.
  - eapply holds_written; [exact Hw|exact Hh|]. rewrite !length_item_bytes by done.
    by destruct (pl_apart _ _ _ Hp j i a' a Hne Ha' Ha); [left|right].
Qed.

Lemma items_kept V V' n l arr m P k : kept V V' P k → items_at V n l arr m → items_at V' n l arr m.
Proof.
  intros [Hb _] Hit j a Hj Ha. destruct (Hit j a Hj Ha) as [Hh Hq]. split; [|done]. intros i x Hx. by apply Hb, Hh.
Qed.

(** The pointer made for a block, as it is put in the array. *)
Lemma new_made s n l i a size :
  geometry s → placed s n l → l !! i = Some a →
  ∃ p, (∀ B (f : Aptr → M suvm B), (Aptr_ctor (g_base_pool_ptr s + 16 * a) size ≫= f) s = f p s) ∧
    (∀ C, cursor C (set_hint true p) None (16 * a)) ∧ made (set_hint false (do_copy (set_hint true p))) (16 * a).
Proof.
  intros Hg [Hr _ Hp] Ha. destruct (Hr i a Ha) as [(H0 & _ & _) Hlt].
  destruct (Aptr_ctor_ok s (16 * a) size Hg) as (p & Hrun & Hpt & _ & Hb & _ & Ho); [lia|lia|].
  assert (0 ≤ m_base_page_index p) as Hb0 by (rewrite Hb; apply Z.div_pos; [lia|unfold PAGE_SIZE; lia]).
  exists p. split; [exact Hrun|]. split; [intros C; split; [exact (Hpt C)|exact Hb0]|].
  destruct (position_split (16 * a)) as [_ Hm]. unfold PAGE_SIZE in *.
  split; [|split; [exact Hb0|split; [done|]]].
  - intros C. exact (do_copy_points C C (set_hint true p) None (16 * a) (Hpt C) ltac:(simpl; lia)
      ltac:(simpl; unfold PAGE_SIZE; lia) ltac:(simpl; unfold PAGE_SIZE; lia)).
  - simpl. unfold PAGE_SIZE. rewrite i32_id; lia.
Qed.

Lemma items_loop_ok (h : heap) item_size blocks n : ∀ i b C V,
  0 ≤ item_size → 4 * item_size ≤ 2 ^ 30 →
  suvm_ok (HB := h) (lib b) C V [] → placed (lib b) item_size blocks → length blocks = (i + n)%nat →
  length (g_aptr_arr b) = length blocks → items_at V item_size blocks (g_aptr_arr b) i →
  ∃ b' C' V', items_loop n (Z.of_nat i) item_size ((λ a, g_base_pool_ptr (lib b) + 16 * a) <$> blocks) b = Ok (tt, b') ∧
    suvm_ok (HB := h) (lib b') C' V' [] ∧ placed (lib b') item_size blocks ∧
    length (g_aptr_arr b') = length blocks ∧ items_at V' item_size blocks (g_aptr_arr b') (length blocks) ∧
    timestamp b' = timestamp b.
Proof.
  induction n as [|n IH]; intros i b C V Hn0 Hmax Hok Hp Hlen Harr Hit; cbn [items_loop].
  - exists b, C, V. rewrite Hlen, Nat.add_0_r in *. by split_and!.
  - destruct (lookup_lt_is_Some_2 blocks i) as [a Ha]; [lia|].
    destruct (lookup_lt_is_Some_2 (g_aptr_arr b) i) as [g Hg]; [lia|].
    destruct (new_made (lib b) item_size blocks i a (u64 (item_size * 4)) (suvm_geometry _ _ _ _ _ Hok) Hp Ha)
      as (p & Hctor & Hcur & Hmade).
    destruct (pl_range _ _ _ Hp i a Ha) as [Hr _].
    destruct (item_loop_ok (HB := h) (Z.to_nat item_size) (int_val (Z.of_nat i) item_size) (lib b) C V []
      (set_hint true p) None (16 * a) 0 Hok (Hcur C)) as
      (s1 & C1 & V1 & p1 & o1 & P1 & Hrun1 & Hok1 & Hc1 & Hw1 & Hst1 & _).
    { done. } { by rewrite Z2Nat.id. } { exists (4 * a). lia. } { by apply small_room_for. }
    destruct (release (HB := h) s1 C1 V1 [] p1 o1 P1 Hok1 Hc1) as (s2 & (p2 & Hrun2) & Hok2 & Hst2).
    rewrite list_lookup_fmap, Nat2Z.id, Ha. cbn [fmap option_fmap option_map defined]. rewrite bind_ret.
    rewrite (on_lib_cps _ _ b p (lib b)) by (intros B f; apply Hctor). cbv zeta.
    replace (set_lib b (lib b)) with b by by destruct b. rewrite bind_gets, Hg. cbn [defined]. rewrite bind_ret.
    rewrite (on_lib_run _ _ b (do_copy (set_hint true p)) (lib b)) by done.
    replace (set_lib b (lib b)) with b by by destruct b. rewrite bind_modify.
    erewrite on_lib_run by exact Hrun1. rewrite bind_modify.
    erewrite on_lib_cps by (intros B f; apply Hrun2).
    set (arr := alter (set_hint false) i (<[i:=do_copy (set_hint true p)]> (g_aptr_arr b))).
    assert (length arr = length blocks) as Harr' by (unfold arr; by rewrite length_alter, length_insert).
    assert (arr !! i = Some (set_hint false (do_copy (set_hint true p)))) as Hi.
    { unfold arr. by rewrite list_lookup_alter_eq, list_lookup_insert_eq by lia. }
    assert (same_static (lib b) s2) as Hst by (by eapply same_static_trans).
    pose proof Hst as (Eb & _). pose proof (placed_static _ _ _ _ Hst Hp) as Hp2.
    rewrite Z2Nat.id in Hw1 by done.
    destruct (IH (S i) (mkBench s2 arr (g_reg_arr b) (g_acc b) (timestamp b)) C1 V1) as (b' & C' & V' & Hrun & H);
      [done|done|exact Hok2|exact Hp2|lia|exact Harr'| |].
    + intros j a' Hj Ha'. destruct (decide (j = i)) as [->|Hne].
      * rewrite Ha in Ha'. injection Ha' as <-. split; [|by exists (set_hint false (do_copy (set_hint true p)))].
        eapply written_holds; [exact Hw1|apply u8_bytes_of_ints].
      * destruct (items_written V V1 _ _ _ _ i i a Hp Hn0 Ha Hw1 Hit j a' ltac:(lia) Ha') as [Hh (q & Hq & Hm)].
        split; [done|]. exists q. split; [|done]. cbn [g_aptr_arr]. unfold arr.
        by rewrite list_lookup_alter_ne, list_lookup_insert_ne by done.
    + exists b', C', V'. split; [|exact H]. cbn [lib] in Hrun. rewrite Eb in Hrun.
      replace (Z.of_nat i + 1) with (Z.of_nat (S i)) by lia. exact Hrun.
Qed.

(** ** The array of pointers *)

(** The items hold their values, in memory or encrypted, and the array points to
    them. *)
Definition aptr_ok (arr_size item_size : Z) (b : bench) : Prop :=
  ∃ (h : heap) C V blocks, suvm_ok (HB := h) (lib b) C V [] ∧ placed (lib b) item_size blocks ∧
    Z.of_nat (length blocks) = arr_size ∧ items_at V item_size blocks (g_aptr_arr b) (length blocks).

(** Room in the pool for the array's block and the items'. *)
Definition room_for_array (arr_size item_size : Z) (s : suvm) : Prop :=
  let k := log_size 16 (4 * item_size) in
  Z.max 1 (2 ^ (log_size 16 (SIZEOF_APTR * arr_size) - k)) + arr_size ≤ nBlock (mem5 (pool s)) / 2 ^ k.

Lemma array_window arr_size item_size s :
  room_for_array arr_size item_size s → 0 < arr_size →
  ∃ j, free_window ∅ (nBlock (mem5 (pool s))) (log_size 16 (SIZEOF_APTR * arr_size)) j.
Proof.
  unfold room_for_array. set (k := log_size 16 (4 * item_size)). set (ka := log_size 16 (SIZEOF_APTR * arr_size)).
  assert (0 ≤ k) as Hk by (unfold k, log_size; lia). assert (0 ≤ ka) as Hka by (unfold ka, log_size; lia).
  clearbody k ka. set (n := nBlock _). clearbody n. intros Hroom Ha.
  apply (covers_window ∅ n ka ∅ Hka); [by intros i l w Hi; rewrite lookup_empty in Hi|].
  rewrite size_empty. pose proof (pow2_pos k Hk) as Hpk. pose proof (pow2_pos ka Hka) as Hpa.
  apply Z.div_str_pos. split; [done|].
  pose proof (Z.mul_div_le n (2 ^ k) Hpk). destruct (Z.le_gt_cases k ka) as [Hle|Hgt].
  - assert (2 ^ ka = 2 ^ k * 2 ^ (ka - k)) as -> by (rewrite <- Z.pow_add_r by lia; f_equal; lia). nia.
  - pose proof (Z.pow_le_mono_r 2 ka k ltac:(lia) ltac:(lia)). nia.
Qed.

Lemma preprocess_ok uninit arr_size item_size b :
  pool_ready (lib b) → 0 < item_size → 4 * item_size ≤ 2 ^ 30 → 0 < arr_size → SIZEOF_APTR * arr_size ≤ 2 ^ 30 →
  room_for_array arr_size item_size (lib b) →
  ∃ b', preprocess_memset_aptr uninit true arr_size item_size b = Ok (0, b') ∧ aptr_ok arr_size item_size b' ∧
    timestamp b' = timestamp b.
Proof.
  intros [Hok Ho Hl] Hn Hmax Ha Hamax Hroom. pose proof (array_window _ _ _ Hroom Ha) as Hw.
  unfold SIZEOF_APTR in *.
  destruct (take_block (pool (lib b)) (lib b) ∅ (40 * arr_size) Hok Ho Hl ltac:(lia) Hw) as
    (i & h1 & Hrun & Hne & _ & Hdiv & Hok1 & Ho1 & Hl1 & Hnb).
  unfold room_for_array in Hroom. unfold SIZEOF_APTR in Hroom.
  destruct (covers_block i (log_size 16 (40 * arr_size)) (log_size 16 (4 * item_size))) as (W & HW & Hsz);
    [unfold log_size; lia|unfold log_size; lia|done|]. rewrite <- insert_empty in HW.
  destruct (block_loop_ok item_size (Z.to_nat arr_size) h1 _ _ W [] Hok1 Ho1 Hl1 Hn Hmax HW) as
    (h2 & s2 & B2 & l2 & Hrun2 & Hlen & Hok2 & Ho2 & Hl2 & Hall & Eb).
  { cbn [pool set_pool]. rewrite Hnb, Z2Nat.id by lia. lia. }
  { split; [constructor|]. intros x Hx. by apply elem_of_nil in Hx. }
  cbv zeta in Hrun2. cbn [app fmap list_fmap] in Hrun2, Hall.
  change (g_base_pool_ptr (set_pool (lib b) h1)) with (g_base_pool_ptr (lib b)) in *.
  destruct (items_loop_ok h2 item_size l2 (Z.to_nat arr_size) 0
    (mkBench s2 (replicate (Z.to_nat arr_size) uninit) (g_reg_arr b) (g_acc b) (timestamp b)) ∅ ∅)
    as (b' & C' & V' & Hrun3 & Hok3 & Hp3 & Harr3 & Hit3 & Ht3); try done; try lia.
  - apply (allotted_placed h2 s2 ∅ ∅ B2); [done|done|done|lia|done].
  - cbn [g_aptr_arr]. by rewrite length_replicate.
  - intros j a Hj. lia.
  - exists b'. split; [|split; [|exact Ht3]].
    + unfold preprocess_memset_aptr, SIZEOF_APTR.
      replace (i32 (u64 (arr_size * 40))) with (40 * arr_size) by (rewrite u64_id, i32_id by lia; lia).
      rewrite (on_lib_run _ _ b _ _ Hrun), bind_assert by (by apply negb_true_iff, Z.eqb_neq).
      rewrite bind_modify. erewrite (bind_Ok _ _ _ tt) by reflexivity.
      erewrite on_lib_run by exact Hrun2. cbn [lib] in Hrun3. rewrite Eb in Hrun3.
      by rewrite (bind_Ok _ _ _ _ _ Hrun3).
    + exists h2, C', V', l2. split; [done|]. split; [done|]. split; [lia|done].
Qed.

(** Writing an item through a copy of its pointer. *)
Lemma write_item (h : heap) s C V item_size blocks arr m i a q priv :
  suvm_ok (HB := h) s C V [] → placed s item_size blocks → 0 ≤ item_size → 4 * item_size < 2 ^ 31 →
  blocks !! i = Some a → made q (16 * a) → items_at V item_size blocks arr m →
  ∃ s' C' V', memcpy_aptr_reg (set_hint true (do_copy q))
      (bytes_of_ints (item_ints (Z.of_nat i) item_size ++ priv)) (4 * item_size) s = Ok (tt, s') ∧
    suvm_ok (HB := h) s' C' V' [] ∧ same_static s s' ∧ items_at V' item_size blocks arr m.
Proof.
  intros Hok Hp Hn Hmax Ha Hq Hit. destruct (pl_range _ _ _ Hp i a Ha) as [Hr _].
  destruct (copy_made q (16 * a) true Hq) as (Hcur & _ & Eo). destruct (Hcur C) as [Hpt Hb].
  pose proof (length_item_bytes (Z.of_nat i) item_size Hn) as Hlen. destruct Hq as (_ & _ & _ & Hoff).
  destruct (memmove_aptr_reg_ok (HB := h) s C V [] (set_hint true (do_copy q)) None (16 * a)
    (item_bytes (Z.of_nat i) item_size) Hok Hpt) as (s' & C' & V' & Hrun & Hok' & Hw & Hst).
  - change (offset (m_aptr (set_hint true (do_copy q)))) with (offset (m_aptr (do_copy q))).
    rewrite Eo. unfold PAGE_SIZE in *. lia.
  - exact Hb.
  - by rewrite Hlen.
  - by rewrite Hlen.
  - by apply small_room_for.
  - exists s', C', V'. split; [|split; [done|split; [done|by eapply items_written]]].
    rewrite <- Hlen. apply memcpy_front. rewrite bytes_of_ints_app. fold (item_bytes (Z.of_nat i) item_size).
    by rewrite take_app_length.
Qed.

(** Reading it, with or without the write hint. *)
Lemma read_item (h : heap) s C V item_size blocks arr m i a p priv :
  suvm_ok (HB := h) s C V [] → placed s item_size blocks → 0 ≤ item_size → 4 * item_size < 2 ^ 31 →
  blocks !! i = Some a → cursor C p None (16 * a) → items_at V item_size blocks arr m → (i < m)%nat →
  (Z.to_nat item_size ≤ length priv)%nat →
  ∃ s' C' V' p' o' P' rest,
    memcpy_reg_aptr (bytes_of_ints priv) p (4 * item_size) s = Ok ((item_bytes (Z.of_nat i) item_size ++ rest, p'), s') ∧
    suvm_ok (HB := h) s' C' V' (option_list o') ∧ cursor C' p' o' P' ∧ same_static s s' ∧
    items_at V' item_size blocks arr m.
Proof.
  intros Hok Hp Hn Hmax Ha Hc Hit Hi Hpriv. destruct (pl_range _ _ _ Hp i a Ha) as [Hr _].
  destruct (Hit i a Hi Ha) as [Hh _].
  pose proof (length_item_bytes (Z.of_nat i) item_size Hn) as Hlen.
  destruct (memmove_reg_any_ok (HB := h) s C V [] p None (16 * a) (item_bytes (Z.of_nat i) item_size)
    (bytes_of_ints priv) Hok Hc Hh) as (s' & C' & V' & p' & o' & P' & Hrun & Hk & _ & Hok' & Hc' & _ & Hst).
  - pose proof (length_bytes_of_ints priv). lia.
  - by rewrite Hlen.
  - by rewrite Hlen.
  - by apply small_room_for.
  - rewrite Hlen in Hrun. eexists s', C', V', p', o', P', _. split; [exact Hrun|].
    rewrite app_nil_r in Hok'. split; [done|]. split; [done|]. split; [done|]. by eapply items_kept.
Qed.

Lemma write_test_ok (h : heap) b C V item_size blocks m i j a q priv test_write :
  suvm_ok (HB := h) (lib b) C V [] → placed (lib b) item_size blocks → 0 ≤ item_size → 4 * item_size < 2 ^ 31 →
  Z.of_nat j = i → blocks !! j = Some a → made q (16 * a) → items_at V item_size blocks (g_aptr_arr b) m →
  (Z.to_nat item_size ≤ length priv)%nat →
  ∃ s' C' V' w, write_test i item_size test_write (do_copy q) priv b =
      Ok ((set_hint (negb (test_write =? 0)) (do_copy q), w), set_lib b s') ∧
    (Z.to_nat item_size ≤ length w)%nat ∧ suvm_ok (HB := h) s' C' V' [] ∧ placed s' item_size blocks ∧
    items_at V' item_size blocks (g_aptr_arr b) m.
Proof.
  intros Hok Hp Hn Hmax Ej Ha Hm Hit Hpriv. unfold write_test. rewrite u64_id by lia. destruct (test_write =? 0).
  - exists (lib b), C, V, priv. destruct Hm as (_ & _ & Hh & _).
    replace (set_lib b (lib b)) with b by by destruct b. cbn [negb]. by rewrite set_hint_same.
  - destruct (write_item h (lib b) C V item_size blocks (g_aptr_arr b) m j a q (drop (Z.to_nat item_size) priv)
      Hok Hp Hn Hmax Ha Hm Hit) as (s1 & C1 & V1 & Hrun & Hok1 & Hst & Hit1). rewrite Ej in Hrun.
    eexists s1, C1, V1, _. split; [|split; [|split; [exact Hok1|split; [by apply (placed_static (lib b))|done]]]].
    + rewrite (bind_Ok _ _ _ _ _ (fill_item_u i item_size priv b Hn Hpriv)). cbv zeta.
      by rewrite (on_lib_run _ _ b _ _ Hrun).
    + rewrite length_app, length_item. lia.
Qed.

Lemma read_test_ok (h : heap) b C V item_size blocks m i j a ap priv test_read :
  suvm_ok (HB := h) (lib b) C V [] → placed (lib b) item_size blocks → 0 ≤ item_size → 4 * item_size < 2 ^ 31 →
  Z.of_nat j = i → blocks !! j = Some a → (∀ C, cursor C ap None (16 * a)) →
  items_at V item_size blocks (g_aptr_arr b) m → (j < m)%nat → (Z.to_nat item_size ≤ length priv)%nat →
  ∃ s' C' V' p' o' P', read_test i item_size test_read ap priv b = Ok (p', set_lib b s') ∧
    suvm_ok (HB := h) s' C' V' (option_list o') ∧ cursor C' p' o' P' ∧ placed s' item_size blocks ∧
    items_at V' item_size blocks (g_aptr_arr b) m.
Proof.
  intros Hok Hp Hn Hmax Ej Ha Hcur Hit Hj Hpriv. unfold read_test. rewrite u64_id by lia. destruct (test_read =? 0).
  - exists (lib b), C, V, ap, None, (16 * a). replace (set_lib b (lib b)) with b by by destruct b. by split_and!.
  - destruct (read_item h (lib b) C V item_size blocks (g_aptr_arr b) m j a ap priv Hok Hp Hn Hmax Ha (Hcur C) Hit)
      as (s2 & C2 & V2 & p' & o' & P' & rest & Hrun & Hok2 & Hc2 & Hst & Hit2); [lia|done|]. rewrite Ej in Hrun.
    exists s2, C2, V2, p', o', P'.
    split; [|split; [done|split; [done|split; [by apply (placed_static (lib b))|done]]]].
    erewrite on_lib_run by exact Hrun. cbn [fst snd]. unfold item_bytes. rewrite ints_bytes_app, item_ints_i32.
    erewrite bind_Ok; [done|]. apply sanity_loop_ok. intros k Hk. apply item_front. lia.
Qed.

Lemma aptr_step_ok arr_size item_size test_read test_write r priv b :
  aptr_ok arr_size item_size b → 0 < arr_size < 2 ^ 31 → 0 ≤ item_size → 4 * item_size < 2 ^ 31 →
  (Z.to_nat item_size ≤ length priv)%nat →
  ∃ b', memset_aptr_step arr_size item_size test_read test_write r priv b = Ok (tt, b') ∧
    aptr_ok arr_size item_size b' ∧ timestamp b' = i64 (timestamp b + 1).
Proof.
  intros (h & C & V & blocks & Hok & Hp & Hlen & Hit) Ha Hn Hmax Hpriv. unfold memset_aptr_step.
  destruct (pick_ok r arr_size b Ha) as (i & Hpick & Hir). rewrite (bind_Ok _ _ _ _ _ Hpick), bind_gets.
  set (j := Z.to_nat i). assert (Z.of_nat j = i) as Ej by (unfold j; lia).
  destruct (lookup_lt_is_Some_2 blocks j) as [a Hba]; [lia|].
  destruct (Hit j a ltac:(lia) Hba) as [_ (q & Hq & Hm)]. rewrite Hq. cbn [defined]. rewrite bind_ret.
  destruct (write_test_ok h b C V item_size blocks (length blocks) i j a q priv test_write)
    as (s1 & C1 & V1 & w & Hwrite & Hw & Hok1 & Hp1 & Hit1); [done..|].
  rewrite (bind_Ok _ _ _ _ _ Hwrite). cbn [fst snd].
  destruct (copy_made q (16 * a) (negb (test_write =? 0)) Hm) as (Hcur & _ & _).
  destruct (read_test_ok h (set_lib b s1) C1 V1 item_size blocks (length blocks) i j a _ w test_read Hok1 Hp1 Hn Hmax
    Ej Hba Hcur Hit1) as (s2 & C2 & V2 & p' & o' & P' & Hread & Hok2 & Hc2 & Hp2 & Hit2); [lia|done|].
  rewrite (bind_Ok _ _ _ _ _ Hread), bind_modify. rewrite <- (app_nil_r (option_list o')) in Hok2.
  destruct (release (HB := h) s2 C2 V2 [] p' o' P' Hok2 Hc2) as (s3 & (p3 & Hrun3) & Hok3 & Hst3).
  erewrite on_lib_cps by (intros B f; apply Hrun3). eexists. split; [reflexivity|]. split; [|done].
  exists h, C2, V2, blocks. split; [exact Hok3|]. split; [by apply (placed_static s2)|]. done.
Qed.

(** A call of the benchmark: what it tests, how often, the numbers drawn and the
    array on the stack. *)
Record call := mkCall {
  c_read : Z; c_write : Z; c_times : Z; c_rand : nat → Z; c_priv : list Z
}.
Definition run_call (arr_size item_size : Z) (c : call) : M bench Z :=
  ecall_process_aptr item_size arr_size (c_read c) (c_write c) (c_times c) (c_rand c) (c_priv c).

Lemma calls_ok arr_size item_size calls : ∀ b,
  aptr_ok arr_size item_size b → 0 < arr_size < 2 ^ 31 → 0 ≤ item_size ≤ Z.of_nat PRIV_INTS →
  Forall (λ c, length (c_priv c) = PRIV_INTS) calls →
  ∃ b', mapM (run_call arr_size item_size) calls b = Ok ((λ _, 0) <$> calls, b') ∧ aptr_ok arr_size item_size b' ∧
    i64 (timestamp b') = i64 (timestamp b + foldr (λ c n, Z.of_nat (Z.to_nat (c_times c)) + n) 0 calls).
Proof.
  intros b Hb Ha Hn Hcalls. assert (Z.of_nat PRIV_INTS = 4096) as Epriv by (vm_compute; reflexivity).
  revert b Hb. induction Hcalls as [|c calls Hc Hcalls IH]; intros b Hb.
  - exists b. split; [done|]. split; [done|]. cbn. by rewrite Z.add_0_r.
  - destruct (bench_loop_ok (aptr_ok arr_size item_size)
      (λ r, memset_aptr_step arr_size item_size (c_read c) (c_write c) r (c_priv c))) with
      (n := Z.to_nat (c_times c)) (x := 0%nat) (rand := c_rand c) (b := b) as (b1 & Hrun & Hb1 & Ht); [|done|].
    { intros r b0 Hb0. apply aptr_step_ok; try done; lia. }
    destruct (IH b1 Hb1) as (b2 & Hrun2 & Hb2 & Ht2). exists b2. split; [|split; [done|]].
    + assert (run_call arr_size item_size c b = Ok (0, b1)) as Hc1.
      { unfold run_call, ecall_process_aptr, memset_aptr. by rewrite (bind_Ok _ _ _ _ _ Hrun). }
      cbn [mapM fmap list_fmap]. by rewrite (bind_Ok _ _ _ _ _ Hc1), (bind_Ok _ _ _ _ _ Hrun2).
    + cbn [foldr]. rewrite Ht2. clear -Ht. unfold i64 in *. Z.div_mod_to_equations. lia.
Qed.

(** C27. The benchmark behind the paging layer, from end to end: the array of
    pointers and the items are allotted from a fresh pool and filled, and items
    drawn at random are read, written or both, in any number of calls of any
    length. Whatever is drawn and whatever is evicted in between, no sanity check
    fails, every call returns 0, and the counter the untrusted threads watch
    advances once per item. Items are of a page or more, so that none shares a
    page with the pointers, and fit the buffer on the stack. *)
Theorem aptr_benchmark_sane b uninit arr_size item_size calls :
  pool_ready (lib b) → 1024 ≤ item_size ≤ Z.of_nat PRIV_INTS → 0 < arr_size →
  SIZEOF_APTR * arr_size ≤ 2 ^ 30 → room_for_array arr_size item_size (lib b) →
  Forall (λ c, length (c_priv c) = PRIV_INTS) calls →
  ∃ b1 b2, ecall_preprocess_aptr uninit true item_size arr_size b = Ok (0, b1) ∧
    mapM (run_call arr_size item_size) calls b1 = Ok ((λ _, 0) <$> calls, b2) ∧
    aptr_ok arr_size item_size b2 ∧
    i64 (timestamp b2) = i64 (timestamp b + foldr (λ c n, Z.of_nat (Z.to_nat (c_times c)) + n) 0 calls).
Proof.
  intros Hs Hn Ha Hamax Hroom Hcalls. assert (Z.of_nat PRIV_INTS = 4096) as Epriv by (vm_compute; reflexivity).
  destruct (preprocess_ok uninit arr_size item_size b Hs) as (b1 & Hrun1 & Hb1 & Ht1); [lia|lia|done|done|done|].
  destruct (calls_ok arr_size item_size calls b1 Hb1) as (b2 & Hrun2 & Hb2 & Ht2);
    [unfold SIZEOF_APTR in *; lia|lia|done|].
  exists b1, b2. rewrite Ht1 in Ht2. by split_and!.
Qed.
End aptr.

(** ** The untrusted program's array *)

Lemma round_double_bounds z :
  0 ≤ z → let e := Z.max 0 (Z.log2 z - 52) in
  0 ≤ round_double z ∧ 2 * round_double z ≤ 2 * z + 2 ^ e ∧ (e = 0 → round_double z = z).
Proof.
  intros Hz e. unfold round_double. fold e. pose proof (pow2_pos e ltac:(lia)) as Hu.
  pose proof (Z.div_mod z (2 ^ e) ltac:(lia)) as Hd. pose proof (Z.mod_pos_bound z (2 ^ e) Hu) as Hm.
  pose proof (Z.div_pos z (2 ^ e) Hz Hu). set (q := z / 2 ^ e) in *. set (r := z mod 2 ^ e) in *.
  destruct (Z.ltb_spec (2 * r) (2 ^ e)) as [|Hge]; cbn [orb].
  - split; [nia|]. split; [nia|]. intros E. rewrite E in *. change (2 ^ 0) with 1 in *. lia.
  - assert (e ≠ 0) as He by (intros E; rewrite E in *; change (2 ^ 0) with 1 in *; lia).
    destruct ((2 * r =? 2 ^ e) && Z.even q) eqn:Eq.
    + split; [nia|]. split; [nia|done].
    + split; [nia|]. split; [nia|done].
Qed.

(** The item drawn is of the array, although the product is rounded. *)
Lemma next_item max d :
  0 < max < 2 ^ 31 → 0 ≤ d < 2 ^ 28 → 0 ≤ round_double (max * d) / 0x10000000 < max.
Proof.
  intros Hmax Hd. assert (0 ≤ max * d) as Hz by nia. change 0x10000000 with (2 ^ 28).
  destruct (round_double_bounds (max * d) Hz) as (H0 & Hup & Hex).
  set (e := Z.max 0 (Z.log2 (max * d) - 52)) in *. split; [by apply Z.div_pos|].
  apply Z.div_lt_upper_bound; [done|]. destruct (Z.eq_dec e 0) as [He|He].
  - rewrite (Hex He). nia.
  - assert (2 ^ e * 2 ^ 52 ≤ max * d) as Hlow.
    { rewrite <- Z.pow_add_r by (unfold e; lia). assert (0 < max * d) as Hpos.
      { destruct (Z.eq_dec (max * d) 0) as [E|]; [|lia]. unfold e in He. rewrite E in He. done. }
      etransitivity; [|apply (Z.log2_spec _ Hpos)]. apply Z.pow_le_mono_r; [lia|]. unfold e. lia. }
    assert (2 ^ e < max) by nia. nia.
Qed.

(** The array as it was allocated: so many items of so many bytes, each 5 or,
    written, 3. *)
Definition native_ok (arr_size item_size : Z) (s : native) : Prop :=
  Z.of_nat (length (buf1 s)) = arr_size ∧
  Forall (λ it, Z.of_nat (length it) = item_size ∧ Forall (λ x, x = 5 ∨ x = 3) it) (buf1 s).

Lemma native_loop_ok arr_size item_size i test_read test_write n : ∀ j s,
  native_ok arr_size item_size s → (i < length (buf1 s))%nat → Z.of_nat (j + n) = item_size →
  ∃ s', native_loop n i j test_read test_write s = Ok (tt, s') ∧ native_ok arr_size item_size s' ∧ seed s' = seed s ∧
    (test_write = 0 → buf1 s' = buf1 s).
Proof.
  induction n as [|n IH]; intros j s [Hlen Hall] Hi Hj; cbn [native_loop]; [by exists s|].
  destruct (lookup_lt_is_Some_2 _ _ Hi) as [it Hit]. pose proof (Forall_lookup_1 _ _ _ _ Hall Hit) as [Hl Hx].
  destruct (lookup_lt_is_Some_2 it j) as [x Hxj]; [lia|].
  rewrite bind_gets, Hit. cbn [defined]. rewrite bind_ret, Hxj. cbn [defined]. rewrite bind_ret.
  set (s1 := if test_read =? 0 then s else mkNative (seed s) (buf1 s) (i32 (acc s + x))).
  erewrite (bind_Ok _ _ s tt s1) by (unfold s1; by destruct (test_read =? 0)).
  assert (buf1 s1 = buf1 s) as Eb by (unfold s1; by destruct (test_read =? 0)).
  assert (seed s1 = seed s) as Es by (unfold s1; by destruct (test_read =? 0)). clearbody s1.
  set (s2 := if test_write =? 0 then s1 else mkNative (seed s1) (alter (<[j:=3]>) i (buf1 s1)) (acc s1)).
  erewrite (bind_Ok _ _ s1 tt s2) by (unfold s2; by destruct (test_write =? 0)).
  destruct (IH (S j) s2) as (s' & Hrun & Hok & Es' & Hb').
  - unfold s2. destruct (test_write =? 0); [by split; rewrite Eb|]. split; cbn [buf1]; rewrite ?length_alter, Eb; [done|].
    apply Forall_alter; [exact Hall|]. intros it' Hit' [Hl' Hx']. rewrite length_insert. split; [done|].
    apply Forall_insert; [done|by right].
  - unfold s2. destruct (test_write =? 0); cbn [buf1]; rewrite ?length_alter, Eb; done.
  - lia.
  - exists s'. split; [done|]. split; [done|]. split; [rewrite Es'; unfold s2; by destruct (test_write =? 0)|].
    intros Hw. rewrite (Hb' Hw). unfold s2. by rewrite Hw.
Qed.

(** [process_native] stays in its array, whatever the generator gives. *)
Lemma native_times_ok arr_size item_size test_read test_write x : ∀ s,
  0 < arr_size < 2 ^ 31 → native_ok arr_size item_size s →
  ∃ s', native_times x arr_size item_size test_read test_write s = Ok (tt, s') ∧ native_ok arr_size item_size s' ∧
    (test_write = 0 → buf1 s' = buf1 s).
Proof.
  induction x as [|x IH]; intros s Ha Hs; cbn [native_times]; [by exists s|].
  unfold nextDouble. rewrite bind_assoc, bind_modify, bind_assoc, bind_gets, bind_ret. cbn [seed].
  assert (0 ≤ Z.land (next_seed (seed s)) 0xfffffff < 2 ^ 28) as Hd.
  { change 0xfffffff with (Z.ones 28). rewrite Z.land_ones by lia. by apply Z.mod_pos_bound. }
  pose proof (next_item arr_size _ Ha Hd) as Hi. set (i := round_double _ / _) in *. clearbody i.
  rewrite bind_gets, (proj2 (Z.ltb_ge _ _)) by lia. cbn [buf1]. destruct Hs as [Hlen Hall].
  destruct (lookup_lt_is_Some_2 (buf1 s) (Z.to_nat i)) as [it Hit]; [lia|]. rewrite Hit. cbn [defined]. rewrite bind_ret.
  destruct (Forall_lookup_1 _ _ _ _ Hall Hit) as [Hl _].
  destruct (native_loop_ok arr_size item_size (Z.to_nat i) test_read test_write (Z.to_nat item_size) 0
    (mkNative (next_seed (seed s)) (buf1 s) (acc s))) as (s1 & Hrun1 & Hok1 & _ & Hb1);
    [done|cbn [buf1]; lia|lia|].
  rewrite (bind_Ok _ _ _ _ _ Hrun1). destruct (IH s1 Ha Hok1) as (s2 & Hrun2 & Hok2 & Hb2).
  exists s2. split; [done|]. split; [done|]. intros Hw. rewrite (Hb2 Hw). by apply Hb1.
Qed.

Theorem native_benchmark_in_bounds s rand arr_size item_size test_read test_write avg_times :
  0 < arr_size < 2 ^ 31 → 0 ≤ item_size →
  ∃ s1 s2, preprocess_native rand arr_size item_size s = Ok (0, s1) ∧
    process_native arr_size item_size test_read test_write avg_times s1 = Ok (acc s2, s2) ∧
    native_ok arr_size item_size s2 ∧ (test_write = 0 → buf1 s2 = buf1 s1).
Proof.
  intros Ha Hn. eexists. destruct (native_times_ok arr_size item_size test_read test_write (Z.to_nat avg_times)
    (mkNative rand (replicate (Z.to_nat arr_size) (replicate (Z.to_nat item_size) 5)) (acc s)) Ha)
    as (s2 & Hrun & Hok & Hb).
  { split; cbn [buf1]; [rewrite length_replicate; lia|]. apply Forall_replicate. rewrite length_replicate.
    split; [lia|]. apply Forall_replicate. by left. }
  exists s2. split; [reflexivity|]. split; [|done]. unfold process_native. by rewrite (bind_Ok _ _ _ _ _ Hrun).
Qed.

(** ** Instances *)

Definition raw_pointer : Aptr := mkAptrC (mkAptr DUMMY 7 7 true) 7 7.

Lemma aptr_benchmark_sane_witness :
  ∃ s b1 b2, initialize_aptr 65536 1048576 true true 8200 0 blank = Ok (0, s) ∧
    ecall_preprocess_aptr raw_pointer true 1024 5 (mkBench s [] [] 0 0) = Ok (0, b1) ∧
    mapM (run_call 5 1024) [mkCall 1 1 3 Z.of_nat (replicate PRIV_INTS 9); mkCall 1 0 4 Z.of_nat (replicate PRIV_INTS 9)] b1 =
      Ok ([0; 0], b2) ∧ i64 (timestamp b2) = 7.
Proof.
  destruct (initialize_ready blank 65536 1048576 8200) as (s & Hrun & Hs & Hnb).
  - split; [reflexivity|]. split; reflexivity.
  - split; [|split; [lia|split; vm_compute; congruence]].
    split; [reflexivity|]. split; [vm_compute; congruence|]. split; vm_compute; congruence.
  - unfold PAGE_SIZE. lia.
  - destruct (aptr_benchmark_sane (mkBench s [] [] 0 0) raw_pointer 5 1024
      [mkCall 1 1 3 Z.of_nat (replicate PRIV_INTS 9); mkCall 1 0 4 Z.of_nat (replicate PRIV_INTS 9)])
      as (b1 & b2 & H1 & H2 & _ & H3).
    + exact Hs.
    + split; vm_compute; congruence.
    + lia.
    + vm_compute; congruence.
    + unfold room_for_array. cbn [lib]. rewrite Hnb. vm_compute. congruence.
    + constructor; [apply length_replicate|]. constructor; [apply length_replicate|constructor].
    + exists s, b1, b2. split; [exact Hrun|]. split; [exact H1|]. split; [exact H2|exact H3].
Defined.
