(* ===== verification/Rpc.v ===== *)
(** * Exit-less calls out of the enclave

    Models [static_trusted/rpc_ocall.cpp] and [untrusted/rpc_worker.cpp] with
    [common/request.h]: a call writes a request into untrusted memory taken from
    the buddy allocator, queues it, and spins on a word of the request until the
    worker thread, which polls the queue, has made the call and cleared it.

    Also [untrusted/init_services.cpp] and [static_trusted/lib_services.cpp]:
    how the parts are put together.  The bridge functions of the call table are
    generated code; what is modelled is which are called, on which buffer. *)

From S2P Require Import Prelude Memory SyncUtils Ring Mem5 Queue Suvm.

(** What the SGX SDK and pthreads give. *)
Class SgxStatus := {
  SGX_SUCCESS : Z;
  SGX_ERROR_OCALL_NOT_ALLOWED : Z;
  sgx_status_distinct : SGX_ERROR_OCALL_NOT_ALLOWED ≠ SGX_SUCCESS
}.

(** ** State *)

(** [struct request]: offsets of the fields on x86-64. *)
Definition sizeof_request : Z := 24.
Definition off_ocall_index : Z := 0.
Definition off_buffer : Z := 8.
Definition off_is_done : Z := 16.

(** 64-bit pointers in memory. *)
Definition load_ptr (m : memory) (a : Z) : Z :=
  u32 (load32 m a) + 2 ^ 32 * u32 (load32 m (a + 4)).
Definition store_ptr (m : memory) (a v : Z) : memory :=
  store32 (store32 m a v) (a + 4) (v / 2 ^ 32).

Record rpc := mkRpc {
  rpc_heap : heap;               (* the pool the requests live in *)
  rpc_queue : option Queue;      (* the queue object, while it is allocated *)
  exit_request : bool;
  nr_ocall : option Z;           (* ocall_table: how many entries, once set *)
  g_swap_thread_work : bool;
  calls : list (Z * Z)           (* the bridges called so far: index, buffer *)
}.

Definition set_heap (h : heap) (s : rpc) : rpc :=
  mkRpc h (rpc_queue s) (exit_request s) (nr_ocall s) (g_swap_thread_work s) (calls s).
Definition set_queue (q : option Queue) (s : rpc) : rpc :=
  mkRpc (rpc_heap s) q (exit_request s) (nr_ocall s) (g_swap_thread_work s) (calls s).
Definition set_exit (b : bool) (s : rpc) : rpc :=
  mkRpc (rpc_heap s) (rpc_queue s) b (nr_ocall s) (g_swap_thread_work s) (calls s).
Definition set_table (n : option Z) (s : rpc) : rpc :=
  mkRpc (rpc_heap s) (rpc_queue s) (exit_request s) n (g_swap_thread_work s) (calls s).
Definition set_swap (b : bool) (s : rpc) : rpc :=
  mkRpc (rpc_heap s) (rpc_queue s) (exit_request s) (nr_ocall s) b (calls s).
Definition log_call (c : Z * Z) (s : rpc) : rpc :=
  mkRpc (rpc_heap s) (rpc_queue s) (exit_request s) (nr_ocall s) (g_swap_thread_work s) (calls s ++ [c]).

Definition on_heap {A} (m : M heap A) : M rpc A := zoom rpc_heap set_heap m.
(** A method call on the queue object. *)
Definition on_queue {A} (m : M Queue A) : M rpc A := λ s,
  match rpc_queue s with
  | None => Err EUndef
  | Some q => zoom (λ _, q) (λ q, set_queue (Some q)) m s
  end.
(** [spin_lock] and [spin_unlock] on the [is_done] word of a request. *)
Definition on_is_done {A} (req : Z) (m : M Z A) : M rpc A :=
  on_heap (zoom (λ h, load32 (ram h) (req + off_is_done))
    (λ w, set_ram (λ r, store32 r (req + off_is_done) w)) m).

(** ** The enclave's side *)

(** [set_rpc_queue] stores the pointer the worker gave. *)
Definition set_rpc_queue (queue : Queue) : M rpc Z :=
  modify (set_queue (Some queue));; mret 0.

(** The three stores into the fresh request. *)
Definition fill_request (req index ms : Z) (m : memory) : memory :=
  store32 (store_ptr (store32 m (req + off_ocall_index) index) (req + off_buffer) ms)
    (req + off_is_done) 1.

Section rpc.
Context `{SgxStatus}.

(** [others] is what the other threads do between the insertion and the wait. *)
Definition rpc_ocall (others : M rpc unit) (index ms : Z) : M rpc Z :=
  req ← on_heap (memsys5Malloc sizeof_request);
  if req =? 0 then mret SGX_ERROR_OCALL_NOT_ALLOWED
  else
    on_heap (modify (set_ram (fill_request req index ms)));;
    _ ← on_queue (enqueue req);
    others;;
    on_is_done req spin_lock;;
    on_heap (memsys5Free req);;
    mret SGX_SUCCESS.
End rpc.

(** ** The worker's side *)

Definition set_ocall_table (n : Z) : M rpc unit :=
  t ← gets nr_ocall;
  match t with
  | None => modify (set_table (Some n))
  | Some _ => mret tt
  end.

(** [(&ocall_table->table)[index]] and the call through it. *)
Definition call_bridge (index buffer : Z) : M rpc unit :=
  t ← gets nr_ocall;
  match t with
  | Some n => if (0 <=? index) && (index <? n) then modify (log_call (index, buffer)) else fail EUndef
  | None => fail EUndef
  end.

Definition do_work (req : Z) : M rpc Z :=
  index ← gets (λ s, load32 (ram (rpc_heap s)) (req + off_ocall_index));
  if index =? -1 then
    modify (set_swap true);;
    on_is_done req spin_unlock;;
    mret 0
  else
    buffer ← gets (λ s, load_ptr (ram (rpc_heap s)) (req + off_buffer));
    call_bridge index buffer;;
    on_is_done req spin_unlock;;
    mret 0.

(** [n] turns of [rpc_thread]'s loop, or fewer if it is asked to exit. *)
Fixpoint rpc_thread (n : nat) : M rpc unit :=
  match n with
  | O => mret tt
  | S n' =>
      e ← gets exit_request;
      if (e : bool) then mret tt
      else
        req ← on_queue dequeue;
        (if req =? 0 then mret 0 else do_work req);;
        rpc_thread n'
  end.

(** [garbage] is the memory the queue's lock word is made of; [created] says
    whether [pthread_create] succeeded. *)
Definition start_rpc_worker (start_rpc_thread created : bool) (garbage : Z) : M rpc (option Queue) :=
  let rpc_queue := Queue_ctor garbage in
  modify (set_exit false);;
  if start_rpc_thread && negb created then mret None
  else modify (set_queue (Some rpc_queue));; mret (Some rpc_queue).

Definition close_rpc_worker : M rpc Z :=
  modify (set_exit true);;
  modify (set_queue None);;
  mret 0.

(** One turn of [swap_thread] once it is woken: the flag is cleared and the
    call into the enclave, [remove_entries_pcache], does nothing. *)
Definition remove_entries_pcache (num_entries : Z) : M rpc unit := mret tt.
Definition ecall_erase_aptr_pcache (num_entries : Z) : M rpc unit := remove_entries_pcache num_entries.
Definition swap_turn : M rpc bool :=
  w ← gets g_swap_thread_work;
  if (w : bool) then
    modify (set_swap false);;
    ecall_erase_aptr_pcache (-1);;
    mret true
  else mret false.

(** ** Putting it together *)

(** What the enclave keeps: the paging layer and the queue it was given. *)
Record enclave := mkEnclave { en_suvm : suvm; en_queue : option Queue }.

Section lib.
Context `{Sgx} `{SgxStatus}.

Definition ecall_lib_initialize (pool_ptr pool_size : Z) (queue : option Queue)
    (has_ptr_to_pin has_size_to_pin : bool) (slab_ptr garbage : Z) : M enclave Z :=
  match queue with
  | None => mret (-1)
  | Some q =>
      if pool_ptr =? 0 then mret (-1)
      else
        modify (λ e, mkEnclave (en_suvm e) (Some q));;
        let result := 0 in
        r ← zoom en_suvm (λ s e, mkEnclave s (en_queue e))
              (initialize_aptr pool_ptr pool_size has_ptr_to_pin has_size_to_pin slab_ptr garbage);
        mret (Z.land result r)
  end.

(** [size_t pool_size = 2l *(1l << 30l)] *)
Definition LIB_POOL_SIZE : Z := 2 * Z.shiftl 1 30.

(** The pointer -1 that [mmap] fails with. *)
Definition MAP_FAILED : Z := 2 ^ 64 - 1.

(** [pool_ptr] is what [malloc] returns, [status] what the SDK's call into the
    enclave does. *)
Definition initialize_lib (start_rpc_thread created : bool) (pool_ptr status slab_ptr : Z)
    (g_queue g_ring : Z) : M (rpc * enclave) Z :=
  massert (negb ((pool_ptr =? 0) || (pool_ptr =? MAP_FAILED)));;
  modify (λ s, (set_swap false s.1, s.2));;
  queue ← zoom fst (λ r s, (r, s.2)) (start_rpc_worker start_rpc_thread created g_queue);
  if negb (status =? SGX_SUCCESS) then mret (-1)
  else
    zoom snd (λ e s, (s.1, e))
      (ecall_lib_initialize pool_ptr LIB_POOL_SIZE queue true true slab_ptr g_ring).

Definition cleanup_lib : M (rpc * enclave) Z :=
  _ ← zoom fst (λ r s, (r, s.2)) close_rpc_worker;
  mret 0.
End lib.
