(* ===== verification/RpcThms.v ===== *)
(** * Theorems about exit-less calls

    One call from end to end over the allocator and the queue, and the
    initialisation of the whole library. *)

From S2P Require Import Prelude Memory SyncUtils Ring Blocks Mem5 Mem5Inv Mem5Proofs Mem5Init Mem5Spec Queue.
From S2P Require Import Mem5Thms Suvm SuvmInv SuvmProofs SuvmThms Rpc.
#[local] Opaque LOOP_FUEL.
#[local] Opaque CACHE_CAPACITY.

(** ** Pointers and requests in memory *)

Lemma u64_split v : u32 v + 2 ^ 32 * u32 (v / 2 ^ 32) = u64 v.
Proof. unfold u32, u64. Z.div_mod_to_equations. lia. Qed.

Lemma load_ptr_store_ptr m a v : load_ptr (store_ptr m a v) a = u64 v.
Proof.
  unfold load_ptr, store_ptr. rewrite load32_store32_eq, load32_store32_ne by lia.
  by rewrite load32_store32_eq, !u32_i32, u64_split.
Qed.

Lemma load_ptr_store32_ne m a v b :
  b + 8 ≤ a ∨ a + 4 ≤ b → load_ptr (store32 m a v) b = load_ptr m b.
Proof. intros. unfold load_ptr. by rewrite !load32_store32_ne by lia. Qed.

Lemma request_fields m req index ms :
  load32 (fill_request req index ms m) (req + off_ocall_index) = i32 index ∧
  load_ptr (fill_request req index ms m) (req + off_buffer) = u64 ms ∧
  load32 (fill_request req index ms m) (req + off_is_done) = 1.
Proof.
  unfold fill_request, off_ocall_index, off_buffer, off_is_done. split_and!.
  - unfold store_ptr. rewrite !load32_store32_ne by lia. by rewrite load32_store32_eq.
  - rewrite load_ptr_store32_ne by lia. apply load_ptr_store_ptr.
  - by rewrite load32_store32_eq.
Qed.

Lemma owns_store32 s A i k a v :
  owns s A → A !! i = Some k → addr_of (mem5 s) i ≤ a →
  a + 4 ≤ addr_of (mem5 s) i + szAtom (mem5 s) * 2 ^ k →
  owns (set_ram (λ m, store32 m a v) s) A.
Proof.
  intros Ho Hi Ha Hb.
  assert (∀ s b w, mem5 s = mem5 s → owns s A → addr_of (mem5 s) i ≤ b < addr_of (mem5 s) i + szAtom (mem5 s) * 2 ^ k →
    owns (set_ram (λ m, wr8 m b w) s) A) as H.
  { intros s' b w _ Ho' Hb'. by apply (owns_write _ _ i k). }
  pose proof (H s a v eq_refl Ho ltac:(lia)) as H1.
  pose proof (H _ (a + 1) (v / 2 ^ 8) eq_refl H1 ltac:(simpl; lia)) as H2.
  pose proof (H _ (a + 2) (v / 2 ^ 16) eq_refl H2 ltac:(simpl; lia)) as H3.
  exact (H _ (a + 3) (v / 2 ^ 24) eq_refl H3 ltac:(simpl; lia)).
Qed.

Lemma owns_fill s A i k index ms :
  owns s A → A !! i = Some k → sizeof_request ≤ szAtom (mem5 s) * 2 ^ k →
  owns (set_ram (fill_request (addr_of (mem5 s) i) index ms) s) A.
Proof.
  intros Ho Hi Hsz. unfold sizeof_request in Hsz. set (r := addr_of (mem5 s) i).
  pose proof (owns_store32 s A i k (r + off_ocall_index) index Ho Hi) as H1.
  unfold off_ocall_index in *. specialize (H1 ltac:(lia) ltac:(lia)).
  pose proof (owns_store32 _ A i k (r + off_buffer) ms H1 Hi) as H2.
  unfold off_buffer in *. specialize (H2 ltac:(simpl; lia) ltac:(simpl; lia)).
  pose proof (owns_store32 _ A i k (r + 8 + 4) (ms / 2 ^ 32) H2 Hi) as H3.
  specialize (H3 ltac:(simpl; lia) ltac:(simpl; lia)).
  pose proof (owns_store32 _ A i k (r + off_is_done) 1 H3 Hi) as H4.
  unfold off_is_done in *. exact (H4 ltac:(simpl; lia) ltac:(simpl; lia)).
Qed.

(** ** Runs *)

Lemma on_heap_run {A B} (m : M heap A) (f : A → M rpc B) s a h :
  m (rpc_heap s) = Ok (a, h) → (on_heap m ≫= f) s = f a (set_heap h s).
Proof. intros E. unfold on_heap. by erewrite (bind_zoom rpc_heap _ _ _ _ _ _ E). Qed.

Lemma on_queue_run {A B} (m : M Queue A) (f : A → M rpc B) s q a q' :
  rpc_queue s = Some q → m q = Ok (a, q') → (on_queue m ≫= f) s = f a (set_queue (Some q') s).
Proof. intros Eq E. unfold on_queue, mbind, M_bind. rewrite Eq. unfold zoom. by rewrite E. Qed.

(** With nothing queued the worker polls. *)
Lemma rpc_thread_idle n s q :
  rpc_queue s = Some q → holds q [] → rpc_thread n s = Ok (tt, s).
Proof.
  intros Eq Hq. induction n as [|n IH]; [done|]. cbn [rpc_thread]. rewrite bind_gets.
  destruct (exit_request s); [done|].
  rewrite (on_queue_run _ _ s q _ _ Eq (dequeue_empty q Hq)). cbn [Z.eqb]. rewrite bind_ret.
  destruct s. simpl in Eq. subst. exact IH.
Qed.

Section rpc.
Context `{SgxStatus}.

(** A request of the enclave, in its block. *)
Definition request_at (h : heap) (req index ms : Z) : Prop :=
  load32 (ram h) (req + off_ocall_index) = index ∧ load_ptr (ram h) (req + off_buffer) = ms ∧
  load32 (ram h) (req + off_is_done) = 1.

(** What [do_work] does to a request of the call table. *)
Lemma do_work_ok s req index ms n :
  request_at (rpc_heap s) req index ms → index ≠ -1 → nr_ocall s = Some n → 0 ≤ index < n →
  do_work req s = Ok (0, log_call (index, ms)
    (set_heap (set_ram (λ m, store32 m (req + off_is_done) 0) (rpc_heap s)) s)).
Proof.
  intros (H1 & H2 & H3) Hne Hn Hi. unfold do_work. rewrite bind_gets, H1.
  rewrite (proj2 (Z.eqb_neq index (-1))) by done. rewrite bind_gets, H2. unfold call_bridge.
  rewrite bind_assoc, bind_gets, Hn.
  rewrite (proj2 (Z.leb_le _ _)), (proj2 (Z.ltb_lt _ _)) by lia. cbn [andb].
  rewrite bind_modify. done.
Qed.

(** The worker's first turns after the request was queued. *)
Lemma rpc_thread_serves s q req index ms n k :
  rpc_queue s = Some q → holds q [req] → exit_request s = false → req ≠ 0 →
  request_at (rpc_heap s) req index ms → index ≠ -1 → nr_ocall s = Some n → 0 ≤ index < n →
  ∃ q', rpc_thread (S k) s = Ok (tt, set_queue (Some q') (log_call (index, ms)
      (set_heap (set_ram (λ m, store32 m (req + off_is_done) 0) (rpc_heap s)) s))) ∧ holds q' [].
Proof.
  intros Eq Hq Hex Hreq Hr Hne Hn Hi. destruct (dequeue_ok q req [] Hq) as (q' & Hrun & Hq' & _).
  exists q'. split; [|done]. cbn [rpc_thread]. rewrite bind_gets, Hex.
  rewrite (on_queue_run _ _ s q _ _ Eq Hrun). rewrite (proj2 (Z.eqb_neq req 0)) by done.
  rewrite (bind_Ok _ _ _ _ _ (do_work_ok (set_queue (Some q') s) req index ms n Hr Hne Hn Hi)).
  by rewrite (rpc_thread_idle k _ q').
Qed.

(** There is room for one more request. *)
Definition request_room (s : rpc) (A : gmap Z Z) : Prop :=
  ∃ j, free_window A (nBlock (mem5 (rpc_heap s))) (log_size (szAtom (mem5 (rpc_heap s))) sizeof_request) j.

(** The enclave's half up to the wait: the request is in its block, queued. *)
Lemma rpc_ocall_queued s q A index ms :
  owns (rpc_heap s) A → rpc_queue s = Some q → holds q [] → rear q < 2 ^ 31 - 1 →
  - 2 ^ 31 ≤ index < 2 ^ 31 → 0 ≤ ms < 2 ^ 64 →
  ((∀ others, rpc_ocall others index ms s = Ok (SGX_ERROR_OCALL_NOT_ALLOWED, s)) ∧ ¬ request_room s A) ∨
  request_room s A ∧ ∃ h q' i k, let req := addr_of (mem5 h) i in
    (∀ others, rpc_ocall others index ms s =
      (others;; on_is_done req spin_lock;; on_heap (memsys5Free req);; mret SGX_SUCCESS)
        (set_queue (Some q') (set_heap h s))) ∧
    owns h (<[i := k]> A) ∧ A !! i = None ∧ request_at h req index ms ∧ holds q' [req] ∧ req ≠ 0 ∧
    sizeof_request ≤ szAtom (mem5 h) * 2 ^ k.
Proof.
  intros Ho Eq Hq Hrear Hidx Hms.
  destruct (malloc_cases (rpc_heap s) A sizeof_request Ho) as
    [[Hm Hnone]|(i & h1 & Hm & Ho1 & Hw & (G1 & G2 & G3 & G4) & _)]; [unfold sizeof_request; lia| |].
  { left. split; [|intros [j Hj]; exact (Hnone j Hj)]. intros others. unfold rpc_ocall. rewrite (on_heap_run _ _ s 0 (rpc_heap s) Hm). by destruct s. }
  right. split; [by exists i|]. set (k := log_size (szAtom (mem5 (rpc_heap s))) sizeof_request) in *.
  assert (A !! i = None) as Hfresh.
  { eapply free_window_fresh; [exact Ho| |exact Hw]. unfold k, log_size. lia. }
  assert ((<[i := k]> A) !! i = Some k) as Hi by apply lookup_insert_eq.
  destruct (owns_range h1 _ i k Ho1 Hi) as (_ & _ & Hlo & _ & Hpos & _).
  assert (sizeof_request ≤ szAtom (mem5 h1) * 2 ^ k) as Hsz.
  { destruct Ho as (fl & bl & Hinv & _). rewrite G1.
    apply (round_loop_run sizeof_request _ (inv_geom _ _ _ _ Hinv)). unfold sizeof_request. lia. }
  set (req := addr_of (mem5 (rpc_heap s)) i) in *.
  assert (addr_of (mem5 h1) i = req) as Ereq by (unfold req, addr_of; by rewrite G1, G3).
  set (h2 := set_ram (fill_request req index ms) h1).
  destruct (enqueue_ok q [] req Hq) as (q' & Henq & Hq' & _); [unfold queue_size; simpl; lia|lia|].
  exists h2, q', i, k. cbv zeta. change (addr_of (mem5 h2) i) with (addr_of (mem5 h1) i).
  rewrite Ereq. destruct (request_fields (ram h1) req index ms) as (F1 & F2 & F3).
  split; [|split; [|split; [done|split; [|split; [done|split; [lia|done]]]]]].
  - intros others. unfold rpc_ocall. rewrite (on_heap_run _ _ s _ _ Hm).
    rewrite (proj2 (Z.eqb_neq req 0)) by lia.
    rewrite (on_heap_run _ _ (set_heap h1 s) tt h2) by done.
    by rewrite (on_queue_run _ _ (set_heap h2 (set_heap h1 s)) q _ _ Eq Henq).
  - pose proof (owns_fill h1 _ i k index ms Ho1 Hi Hsz) as Hfill. rewrite Ereq in Hfill. exact Hfill.
  - split_and!; simpl; [by rewrite F1, i32_id by lia|by rewrite F2, u64_id by lia|done].
Qed.

(** C30. A call with the worker running. When the allocator has room for the
    request and the worker gets at least one turn, [rpc_ocall] returns success,
    the bridge of the given index has been called exactly once, on the given
    buffer, the queue is empty again and the request's block is back with the
    allocator; when there is no room, and only then, it returns the error without
    having done anything. *)
Theorem rpc_ocall_served s q A n k index ms :
  owns (rpc_heap s) A → rpc_queue s = Some q → holds q [] → rear q < 2 ^ 31 - 1 →
  exit_request s = false → nr_ocall s = Some n → 0 ≤ index < n → index < 2 ^ 31 → 0 ≤ ms < 2 ^ 64 →
  (request_room s A → ∃ s' q', rpc_ocall (rpc_thread (S k)) index ms s = Ok (SGX_SUCCESS, s') ∧
    calls s' = calls s ++ [(index, ms)] ∧ owns (rpc_heap s') A ∧
    rpc_queue s' = Some q' ∧ holds q' [] ∧ exit_request s' = false ∧ nr_ocall s' = Some n) ∧
  (¬ request_room s A → rpc_ocall (rpc_thread (S k)) index ms s = Ok (SGX_ERROR_OCALL_NOT_ALLOWED, s)).
Proof.
  intros Ho Eq Hq Hrear Hex Hn Hidx Hi32 Hms.
  destruct (rpc_ocall_queued s q A index ms) as
    [[Hfail Hno]|[Hroom (h & q1 & i & kk & Hrun & Ho1 & Hfresh & Hreq & Hq1 & Hne & Hsz)]];
    [done..|lia|lia| |]; [by split|split; [intros _|done]]. cbv zeta in *. set (req := addr_of (mem5 h) i) in *.
  destruct (rpc_thread_serves (set_queue (Some q1) (set_heap h s)) q1 req index ms n k)
    as (q2 & Hserve & Hq2); try done; [lia|].
  rewrite Hrun, (bind_Ok _ _ _ _ _ Hserve). cbn [rpc_heap set_queue set_heap].
  set (h2 := set_ram (λ m, store32 m (req + off_is_done) 0) h).
  set (h3 := set_ram (λ m, store32 m (req + off_is_done) 1) h2).
  assert (owns h3 (<[i := kk]> A)) as Ho3.
  { unfold sizeof_request in Hsz.
    apply (owns_store32 h2 _ i kk); [apply (owns_store32 h _ i kk)| | |]; try done;
      try apply lookup_insert_eq; fold req; unfold off_is_done; simpl; fold req; lia. }
  destruct (free_ok h3 _ i kk Ho3) as (h4 & Hfree & Ho4 & _); [apply lookup_insert_eq|].
  change (addr_of (mem5 h3) i) with req in Hfree.
  rewrite delete_insert_id in Ho4 by done.
  eexists _, q2. split.
  - unfold on_is_done. erewrite on_heap_run.
    2: { cbn [rpc_heap set_queue log_call set_heap]. unfold zoom, spin_lock.
         cbn [ram set_ram h2]. rewrite load32_store32_eq. reflexivity. }
    fold h2. erewrite on_heap_run; [reflexivity|]. exact Hfree.
  - done.
Qed.

(** What the worker does when it takes no request: it gets no turn, or
    [close_rpc_worker] has set [exit_request] before its turns. *)
Inductive idle_worker : M rpc unit → Prop :=
  | no_turn : idle_worker (mret tt)
  | told_to_exit k : idle_worker (modify (set_exit true);; rpc_thread k).

Lemma idle_run w s : idle_worker w → ∃ e, w s = Ok (tt, set_exit e s).
Proof.
  destruct 1 as [|k]; [exists (exit_request s); by destruct s|]. exists true. rewrite bind_modify. by destruct k.
Qed.

(** C31. A call that nobody serves does not return. If the worker never gets a
    turn, or [close_rpc_worker] has set [exit_request] before it takes the
    request, [rpc_ocall] reaches its wait with the request in the queue and no
    bridge called, and the word it waits on is never cleared: it spins for ever.
    After [close_rpc_worker] has freed the queue a call touches freed memory. *)
Theorem rpc_ocall_unserved s q A w index ms :
  owns (rpc_heap s) A → rpc_queue s = Some q → holds q [] → rear q < 2 ^ 31 - 1 →
  - 2 ^ 31 ≤ index < 2 ^ 31 → 0 ≤ ms < 2 ^ 64 → request_room s A → idle_worker w →
  (∃ req q' s', (∀ after, rpc_ocall (w;; after) index ms s =
      (after;; on_is_done req spin_lock;; on_heap (memsys5Free req);; mret SGX_SUCCESS) s') ∧
    calls s' = calls s ∧ rpc_queue s' = Some q' ∧ holds q' [req] ∧ request_at (rpc_heap s') req index ms ∧
    on_is_done req spin_lock s' = Err ESpin) ∧
  rpc_ocall w index ms s = Err ESpin ∧
  (∃ s', close_rpc_worker s = Ok (0, s') ∧ rpc_ocall (mret tt) index ms s' = Err EUndef).
Proof.
  intros Ho Eq Hq Hrear Hidx Hms Hroom Hw.
  destruct (rpc_ocall_queued s q A index ms) as
    [[_ Hno]|[_ (h & q1 & i & k & Hrun & _ & _ & Hreq & Hq1 & Hne & _)]]; [done..|].
  cbv zeta in *. set (req := addr_of (mem5 h) i) in *.
  destruct (idle_run w (set_queue (Some q1) (set_heap h s)) Hw) as [e Hidle].
  set (s' := set_exit e (set_queue (Some q1) (set_heap h s))) in *.
  assert (on_is_done req spin_lock s' = Err ESpin) as Hspin.
  { destruct Hreq as (_ & _ & Hdone). unfold on_is_done, on_heap, zoom. cbn [rpc_heap s' set_exit set_queue set_heap].
    by rewrite Hdone. }
  split; [|split].
  - exists req, q1, s'. split; [|done]. intros after. rewrite Hrun, bind_assoc. by rewrite (bind_Ok _ _ _ _ _ Hidle).
  - rewrite Hrun, (bind_Ok _ _ _ _ _ Hidle). by apply bind_Err.
  - exists (set_queue None (set_exit true s)). split; [done|]. unfold rpc_ocall.
    destruct (malloc_cases (rpc_heap s) A sizeof_request Ho) as
      [[_ Hnone]|(j & h1 & Hm & _ & (Hj & _) & _)]; [done|by destruct Hroom as [j Hj%Hnone]|].
    rewrite (on_heap_run _ _ _ (addr_of (mem5 (rpc_heap s)) j) h1) by exact Hm.
    rewrite (proj2 (Z.eqb_neq _ 0)); [done|]. destruct Ho as (fl & bl & Hinv & _). unfold addr_of.
    pose proof (inv_geom _ _ _ _ Hinv) as Hg. pose proof (geom_atom_pos _ Hg). pose proof (geom_pool _ Hg). nia.
Qed.
End rpc.

(** ** Initialisation of the library *)

Lemma lib_pool_fits ptr : 0 < ptr → pool_fits ptr LIB_POOL_SIZE.
Proof.
  intros Hp. split; [done|]. split; [vm_compute; congruence|].
  split; [vm_compute; congruence|vm_compute; reflexivity].
Qed.

(** The library's own pool of two gigabytes. *)
Lemma lib_library_fits ptr_pool :
  0 < ptr_pool → ptr_pool + 2 ^ 31 ≤ 2 ^ 63 → library_fits ptr_pool LIB_POOL_SIZE.
Proof.
  intros H1 H2. split; [by apply lib_pool_fits|]. split; [done|].
  split; [vm_compute; congruence|]. vm_compute. reflexivity.
Qed.

Section lib.
Context `{HS : Sgx} `{SgxStatus}.

(** C32. [initialize_lib]: without a pool (what [malloc] gave is NULL or the
    pointer -1) it aborts. With a pool, the worker thread up, zeroed memory under
    the two rings and the call into the enclave succeeding, it returns 0 and the
    enclave has a pool of 2^19 pages, none with contents, every slot free, the
    whole pool with the allocator, and the worker's own queue, empty; if the
    thread cannot be created or the call into the enclave fails it returns -1
    and the enclave is as it was. *)
Theorem initialize_lib_correct r e start created ptr status slab :
  fresh (en_suvm e) → 0 ≤ ptr → PAGE_SIZE ≤ slab < 2 ^ 62 →
  let run := initialize_lib start created ptr status slab 0 0 (r, e) in
  (ptr = 0 ∨ ptr = MAP_FAILED → run = Err EAbort) ∧
  (0 < ptr → ptr ≠ MAP_FAILED → start = true ∧ created = false ∨ status ≠ SGX_SUCCESS →
     ∃ r', run = Ok (-1, (r', e))) ∧
  (0 < ptr → ptr ≠ MAP_FAILED → ¬ (start = true ∧ created = false) → status = SGX_SUCCESS →
     ∃ r' e' q, run = Ok (0, (r', e')) ∧ suvm_ok (HB := pool (en_suvm e')) (en_suvm e') ∅ ∅ [] ∧
       npages (en_suvm e') = 2 ^ 19 ∧ owns (pool (en_suvm e')) ∅ ∧
       en_queue e' = Some q ∧ rpc_queue r' = Some q ∧ holds q [] ∧ exit_request r' = false).
Proof.
  intros Hf Hp0 Hslab run. unfold run, initialize_lib.
  destruct (decide (ptr = 0 ∨ ptr = MAP_FAILED)) as [Hno|Hno].
  { split; [intros _|by split; intros ? ?; destruct Hno; lia]. apply bind_Err. unfold massert.
    replace (_ || _) with true; [done|]. symmetry. apply orb_true_iff. by rewrite !Z.eqb_eq. }
  split; [done|]. assert (ptr ≠ 0 ∧ ptr ≠ MAP_FAILED) as [Hn0 HnM] by tauto. assert (0 < ptr) as Hp by lia.
  rewrite bind_assert by (by rewrite (proj2 (Z.eqb_neq ptr 0)), (proj2 (Z.eqb_neq ptr _))).
  rewrite bind_modify. cbn [fst snd].
  cut (∀ P Q : Prop, P ∧ Q → (0 < ptr → ptr ≠ MAP_FAILED → P) ∧ (0 < ptr → ptr ≠ MAP_FAILED → Q)); [|tauto].
  intros Hcut. apply Hcut. clear Hcut.
  unfold start_rpc_worker. destruct (start && negb created) eqn:Est.
  - apply andb_true_iff in Est as [-> ->%negb_true_iff]. split; [|intros []; done]. intros _.
    destruct (Z.eqb_spec status SGX_SUCCESS); eexists; reflexivity.
  - assert (¬ (start = true ∧ created = false)) as Hst by (intros [-> ->]; done).
    destruct (Z.eqb_spec status SGX_SUCCESS) as [Es|Es]; (split; [intros Hor|intros _ Hs]).
    + destruct Hor; [by destruct Hst|done].
    + destruct (initialize_ok (en_suvm e) ptr LIB_POOL_SIZE slab Hf (lib_pool_fits ptr Hp) Hslab)
        as (s' & Hrun & Hok & Hown & Hn & _).
      eexists (set_queue (Some (Queue_ctor 0)) (set_exit false (set_swap false r))),
        (mkEnclave s' (Some (Queue_ctor 0))), (Queue_ctor 0).
      split.
      { unfold mbind, M_bind, zoom, modify, mret, M_ret. cbn [fst snd negb].
        unfold ecall_lib_initialize. rewrite (proj2 (Z.eqb_neq ptr 0)) by lia.
        unfold mbind, M_bind, zoom, modify, mret, M_ret. cbn [en_suvm en_queue].
        rewrite Hrun. reflexivity. }
      split; [exact Hok|]. split; [exact Hn|]. split; [exact Hown|]. do 2 (split; [done|]).
      split; [apply Queue_ctor_holds|done].
    + eexists. reflexivity.
    + done.
Qed.
End lib.

(** ** Instances *)

#[export] Instance toy_status : SgxStatus.
Proof. by refine {| SGX_SUCCESS := 0; SGX_ERROR_OCALL_NOT_ALLOWED := 0x1007 |}. Defined.

(** A pool of 300 bytes, an empty queue and a table of four calls. *)
Definition rpc0 : rpc := mkRpc pool0 (Some (Queue_ctor 0)) false (Some 4) false [].

Lemma rpc0_room : request_room rpc0 ∅.
Proof.
  exists 0. split; [lia|]. split; [by exists 0|]. split; [vm_compute; congruence|].
  intros i k. rewrite lookup_empty. discriminate.
Qed.

Lemma rpc_ocall_served_witness :
  ∃ s', rpc_ocall (rpc_thread 2) 3 777 rpc0 = Ok (SGX_SUCCESS, s') ∧ calls s' = [(3, 777)].
Proof.
  destruct (rpc_ocall_served rpc0 (Queue_ctor 0) ∅ 4 1 3 777 (proj1 pool0_owns) eq_refl Queue_ctor_holds)
    as [H _]; try reflexivity; try lia.
  destruct (H rpc0_room) as (s' & q' & H1 & Hc & _). exists s'. split; [exact H1|exact Hc].
Defined.

Lemma rpc_ocall_unserved_witness :
  rpc_ocall (modify (set_exit true);; rpc_thread 5) 3 777 rpc0 = Err ESpin ∧
  ∃ req s', calls s' = [] ∧ on_is_done req spin_lock s' = Err ESpin.
Proof.
  destruct (rpc_ocall_unserved rpc0 (Queue_ctor 0) ∅ (modify (set_exit true);; rpc_thread 5) 3 777
    (proj1 pool0_owns) eq_refl Queue_ctor_holds) as ((req & q' & s' & _ & H1 & _ & _ & _ & H2) & H3 & _);
    [reflexivity|lia|lia|exact rpc0_room|constructor|].
  split; [exact H3|]. exists req, s'. split; [exact H1|exact H2].
Defined.

Lemma initialize_lib_correct_witness :
  ∃ r r' e', initialize_lib true true 65536 SGX_SUCCESS 8200 0 0 (r, mkEnclave blank None) = Ok (0, (r', e')) ∧
    npages (en_suvm e') = 524288.
Proof.
  destruct (initialize_lib_correct rpc0 (mkEnclave blank None) true true 65536 SGX_SUCCESS 8200) as (_ & _ & H).
  - split; [reflexivity|]. split; reflexivity.
  - lia.
  - unfold PAGE_SIZE. lia.
  - destruct H as (r' & e' & q & H & _ & Hn & _); [reflexivity|discriminate|by intros []|reflexivity|].
    exists rpc0, r', e'. split; [exact H|exact Hn].
Defined.
