(* ===== verification/Tests.v ===== *)
(** * The library's tests

    Models [suvm_samples]: the tests of the allocator ([mem_tester.cpp]) and of
    pointers ([Aptr_tester.cpp]) that run in an enclave, and the call that runs
    them ([samples.cpp]).  The tests of files ([rpc_tester.cpp]) are not called.
    A test returns whether it passed; [res &= b] is [res && b], with [b] computed
    all the same. *)

From Stdlib Require Import String.
From S2P Require Import Prelude CString Memory SyncUtils Ring Mem5 Suvm Aptr.

#[local] Open Scope Z_scope.

(** ** The allocator *)

Definition test_memsys5Malloc : M heap bool :=
  ptr ← memsys5Malloc 64;
  let res := negb (ptr =? 0) in
  memsys5Free ptr;;
  mret res.

Definition test_memsys5Roundup : M heap bool :=
  ptr ← memsys5Malloc 64;
  let res := negb (ptr =? 0) in
  x ← memsys5Roundup 128;
  let res := res && negb (x =? 0) in
  memsys5Free ptr;;
  mret res.

Definition test_memsys5Size : M heap bool :=
  ptr ← memsys5Malloc 64;
  let res := negb (ptr =? 0) in
  x ← memsys5Size ptr;
  let res := res && (x =? 64) in
  memsys5Free ptr;;
  mret res.

(** [((__int64_t)ptr - (__int64_t)base_ptr) / 4096], cut to an [int]. *)
Definition page_index (base_ptr ptr : Z) : Z := i32 (Z.quot (i64 (ptr - base_ptr)) 4096).

(** The third pointer is tested three times, and the last two never. *)
Definition test_page_alignment (base_ptr : Z) : M heap bool :=
  ptr1 ← memsys5Malloc 64;
  let res := negb (ptr1 =? 0) in
  ptr2 ← memsys5Malloc 64;
  let res := res && negb (ptr2 =? 0) in
  ptr3 ← memsys5Malloc 4096;
  let res := res && negb (ptr3 =? 0) in
  ptr4 ← memsys5Malloc 256;
  let res := res && negb (ptr3 =? 0) in
  ptr5 ← memsys5Malloc 3776;
  let res := res && negb (ptr3 =? 0) in
  let p1_page_index := page_index base_ptr ptr1 in
  let p2_page_index := page_index base_ptr ptr2 in
  let p3_page_index := page_index base_ptr ptr3 in
  let p4_page_index := page_index base_ptr ptr4 in
  let p5_page_index := page_index base_ptr ptr5 in
  let res := res && (p1_page_index =? p2_page_index) in
  let res := res && negb (p3_page_index =? p2_page_index) in
  let res := res && (p4_page_index =? p2_page_index) in
  let res := res && negb (p5_page_index =? p2_page_index) in
  let res := res && negb (p5_page_index =? p3_page_index) in
  memsys5Free ptr1;;
  memsys5Free ptr2;;
  memsys5Free ptr3;;
  memsys5Free ptr4;;
  memsys5Free ptr5;;
  mret res.

(** ** Pointers to [int] *)

Definition INT_SIZE : Z := 4.
(** [memsys5Malloc(n*sizeof(int))] *)
Definition alloc_ints (n : Z) : M suvm Z := on_pool (memsys5Malloc (i32 (u64 (n * INT_SIZE)))).
Definition free_ints (p : Z) : M suvm unit := on_pool (memsys5Free p).

(** [m_aptr.prm_ptr != NULL]: it is the address of [DUMMY] or of an element of
    the array of slots. *)
Definition prm_ptr_set (p : Aptr) : bool := (prm_ptr (m_aptr p) =? DUMMY) || (0 <=? prm_ptr (m_aptr p)).

(** The [int] at an address of the enclave. *)
Definition load_int_at `{Bld : Build} (addr : Z) : M suvm Z :=
  l ← load_block addr 4;
  mret (int_of_bytes (nth 0 l 0) (nth 1 l 0) (nth 2 l 0) (nth 3 l 0)).
Definition store_int_at `{Bld : Build} (addr v : Z) : M suvm unit := store_block addr (bytes_of_int v).

Section tests.
Context `{Sgx} `{Bld : Build}.

(** [*ptr], read and written. *)
Definition load_int (p : Aptr) : M suvm (Z * Aptr) :=
  r ← star p; v ← load_int_at r.1; mret (v, r.2).
Definition store_int (p : Aptr) (v : Z) : M suvm Aptr :=
  r ← star p; store_int_at r.1 v;; mret r.2.

Definition test_Aptr_create : M suvm bool :=
  tmp_ptr ← alloc_ints 64;
  ptr ← Aptr_ctor tmp_ptr 64;
  let res := 0 <? m_base_page_index ptr in
  free_ints tmp_ptr;;
  _ ← reset ptr;
  mret res.

Definition test_Aptr_destroy : M suvm bool :=
  tmp_ptr ← alloc_ints 64;
  ptr ← Aptr_ctor tmp_ptr 64;
  let res := 0 <? m_base_page_index ptr in
  _ ← reset ptr;
  free_ints tmp_ptr;;
  mret res.

Definition test_Aptr_dereference : M suvm bool :=
  tmp_ptr ← alloc_ints 64;
  ptr ← Aptr_ctor tmp_ptr 64;
  let res := 0 <? m_base_page_index ptr in
  ptr ← store_int ptr 1;
  let res := res && prm_ptr_set ptr in
  r ← load_int ptr;
  let res := res && (r.1 =? 1) in
  free_ints tmp_ptr;;
  _ ← reset r.2;
  mret res.

Definition test_Aptr_operator_add : M suvm bool :=
  tmp_ptr ← alloc_ints 64;
  ptr ← Aptr_ctor tmp_ptr 64;
  let res := 0 <? m_base_page_index ptr in
  ptr ← store_int ptr 1;
  let res := res && prm_ptr_set ptr in
  r ← load_int ptr;
  let res := res && (r.1 =? 1) in
  let old_page_offset := offset (m_aptr r.2) in
  let ptr := incr INT_SIZE r.2 in
  let res := res && prm_ptr_set ptr in
  let res := res && (i32 (offset (m_aptr ptr) - old_page_offset) =? INT_SIZE) in
  r ← load_int ptr;
  let res := res && negb (r.1 =? 1) in
  free_ints tmp_ptr;;
  _ ← reset r.2;
  mret res.

Definition test_Aptr_operator_sub : M suvm bool :=
  tmp_ptr ← alloc_ints 64;
  ptr ← Aptr_ctor tmp_ptr 64;
  let res := 0 <? m_base_page_index ptr in
  ptr ← store_int ptr 1;
  let res := res && prm_ptr_set ptr in
  r ← load_int ptr;
  let res := res && (r.1 =? 1) in
  let old_page_offset := offset (m_aptr r.2) in
  let ptr := incr INT_SIZE r.2 in
  let res := res && prm_ptr_set ptr in
  let res := res && (i32 (offset (m_aptr ptr) - old_page_offset) =? INT_SIZE) in
  r ← load_int ptr;
  let res := res && negb (r.1 =? 1) in
  let ptr := decr INT_SIZE r.2 in
  let res := res && prm_ptr_set ptr in
  let res := res && (i32 (offset (m_aptr ptr) - old_page_offset) =? 0) in
  r ← load_int ptr;
  let res := res && (r.1 =? 1) in
  free_ints tmp_ptr;;
  _ ← reset r.2;
  mret res.

Definition test_Aptr_double_dereference : M suvm bool :=
  tmp_ptr ← alloc_ints 64;
  ptr ← Aptr_ctor tmp_ptr 64;
  ptr ← store_int ptr 1;
  r ← load_int ptr;
  let res := r.1 =? 1 in
  r ← load_int r.2;
  let res := res && (r.1 =? 1) in
  free_ints tmp_ptr;;
  _ ← reset r.2;
  mret res.

Definition test_Aptr_dereference_add_dereference_no_overflow : M suvm bool := mret true.

(** What follows the first [return] is never reached: the block stays. *)
Definition test_Aptr_dereference_add_dereference_with_overflow : M suvm bool :=
  tmp_ptr ← alloc_ints 1500;
  ptr ← Aptr_ctor tmp_ptr 1500;
  ptr ← store_int ptr 1;
  r ← load_int ptr;
  let res := r.1 =? 1 in
  let ptr := plus_eq INT_SIZE 1025 r.2 in
  let res := res && prm_ptr_set ptr in
  let res := res && (PAGE_SIZE <? offset (m_aptr ptr)) in
  _ ← reset ptr;
  mret res.

Definition test_Aptr_dereference_add_dereference_with_underflow : M suvm bool :=
  tmp_ptr ← alloc_ints 1500;
  ptr ← Aptr_ctor tmp_ptr 1500;
  ptr ← store_int ptr 2;
  r ← load_int ptr;
  let res := r.1 =? 2 in
  let ptr := plus_eq INT_SIZE 1025 r.2 in
  let res := res && prm_ptr_set ptr in
  let res := res && (PAGE_SIZE <? offset (m_aptr ptr)) in
  ptr ← store_int ptr 1;
  r ← load_int ptr;
  let res := res && (r.1 =? 1) in
  let res := res && prm_ptr_set r.2 in
  let ptr := minus_eq INT_SIZE 10 r.2 in
  let res := res && prm_ptr_set ptr in
  let res := res && (offset (m_aptr ptr) <? 0) in
  let ptr := minus_eq INT_SIZE 1015 ptr in
  let res := res && prm_ptr_set ptr in
  let res := res && (offset (m_aptr ptr) <? 0) in
  r ← load_int ptr;
  let res := res && (r.1 =? 2) in
  let res := res && prm_ptr_set r.2 in
  free_ints tmp_ptr;;
  _ ← reset r.2;
  mret res.

(** The pointers are destroyed in the reverse order. *)
Definition test_assignment_operation : M suvm bool :=
  tmp_ptr1 ← alloc_ints 64;
  tmp_ptr2 ← alloc_ints 32;
  ptr1 ← Aptr_ctor tmp_ptr1 64;
  ptr1 ← store_int ptr1 1;
  r1 ← load_int ptr1;
  let res := r1.1 =? 1 in
  ptr2 ← Aptr_ctor tmp_ptr2 32;
  ptr2 ← store_int ptr2 2;
  r2 ← load_int ptr2;
  let res := res && (r2.1 =? 2) in
  let res := res && (prm_ptr (m_aptr r1.2) =? prm_ptr (m_aptr r2.2)) in
  ptr2 ← assign r2.2 (Some r1.2);
  let res := res && op_eq ptr2 r1.2 in
  r2 ← load_int ptr2;
  let res := res && (r2.1 =? 1) in
  free_ints tmp_ptr1;;
  free_ints tmp_ptr2;;
  _ ← reset r2.2;
  _ ← reset r1.2;
  mret res.

(** [for (int i=0;i<1024;i++) val[i] = f(i);] *)
Fixpoint fill_ints (n : nat) (i : Z) (f : Z → Z) (val : Z) : M suvm unit :=
  match n with
  | O => mret tt
  | S n' => store_int_at (val + INT_SIZE * i) (f i);; fill_ints n' (i + 1) f val
  end.
(** [for (int i=0;i<1024;i++) res &= val[i] == i;] *)
Fixpoint check_ints (n : nat) (i val : Z) (res : bool) : M suvm bool :=
  match n with
  | O => mret res
  | S n' => v ← load_int_at (val + INT_SIZE * i); check_ints n' (i + 1) val (res && (v =? i))
  end.

Definition test_evict_due_to_unlinked_state : M suvm bool :=
  tmp_ptr1 ← alloc_ints 1024;
  tmp_ptr2 ← alloc_ints 1024;
  ptr1 ← Aptr_ctor tmp_ptr1 1024;
  r1 ← star (set_hint true ptr1);
  fill_ints 1024 0 (λ i, i) r1.1;;
  _ ← reset r1.2;
  ptr2 ← Aptr_ctor tmp_ptr2 1024;
  r2 ← star ptr2;
  fill_ints 1024 0 (λ _, 0) r2.1;;
  _ ← reset r2.2;
  ptr1 ← Aptr_ctor tmp_ptr1 1024;
  r1 ← star ptr1;
  res ← check_ints 1024 0 r1.1 true;
  _ ← reset r1.2;
  free_ints tmp_ptr1;;
  free_ints tmp_ptr2;;
  mret res.

(** ** Running them *)

(** [res = test(); total_res &= res; if (!res) printf(...)]: the tests reported
    so far, and [total_res]. *)
Definition run_test (name : String.string) (test : M suvm bool) (r : list String.string * bool)
    : M suvm (list String.string * bool) :=
  res ← test;
  mret (if (res : bool) then r.1 else r.1 ++ [name], r.2 && res).

(** The tests printed as failed, and the value returned. *)
Definition ecall_samples_sample (pool_ptr : Z) : M suvm (list String.string * Z) :=
  r ← run_test "test_memsys5Malloc" (on_pool test_memsys5Malloc) ([], true);
  r ← run_test "test_memsys5Roundup" (on_pool test_memsys5Roundup) r;
  r ← run_test "test_memsys5Size" (on_pool test_memsys5Size) r;
  r ← run_test "test_page_alignment" (on_pool (test_page_alignment pool_ptr)) r;
  r ← run_test "test_Aptr_create" test_Aptr_create r;
  r ← run_test "test_Aptr_destroy" test_Aptr_destroy r;
  r ← run_test "test_Aptr_dereference" test_Aptr_dereference r;
  r ← run_test "test_Aptr_operator_add" test_Aptr_operator_add r;
  r ← run_test "test_Aptr_operator_sub" test_Aptr_operator_sub r;
  r ← run_test "test_Aptr_double_dereference" test_Aptr_double_dereference r;
  r ← run_test "test_Aptr_dereference_add_dereference_no_overflow"
        test_Aptr_dereference_add_dereference_no_overflow r;
  r ← run_test "test_Aptr_dereference_add_dereference_with_overflow"
        test_Aptr_dereference_add_dereference_with_overflow r;
  r ← run_test "test_Aptr_dereference_add_dereference_with_underflow"
        test_Aptr_dereference_add_dereference_with_underflow r;
  r ← run_test "test_assignment_operation" test_assignment_operation r;
  r ← run_test "test_evict_due_to_unlinked_state" test_evict_due_to_unlinked_state r;
  mret (r.1, if (r.2 : bool) then 0 else 1).
End tests.
