(* ===== verification/TestsThms.v ===== *)
(** * The library passes its tests

    On the pool the library allocates, whatever the cipher and wherever the pool
    is: each test returns true.  The tests of the allocator look at where blocks
    lie, so that is worked out first: the smallest free block that is large
    enough is cut, and which one that is can be computed. *)

From Stdlib Require Import String.
From S2P Require Import Prelude CString Memory SyncUtils Ring Mem5 Mem5Inv Mem5Proofs Mem5Init Mem5Spec.
From S2P Require Import Suvm SuvmInv SuvmProofs SuvmThms Aptr AptrThms LibC LibCThms Rpc RpcThms Tests.

#[local] Open Scope Z_scope.

(** ** Where a block is cut *)

Definition window_of (x k : Z) : Z := x / 2 ^ k * 2 ^ k.

Definition free_windowb (A : list (Z * Z)) (n k j : Z) : bool :=
  (0 <=? j) && (j mod 2 ^ k =? 0) && (j + 2 ^ k <=? n) &&
  forallb (λ b, (b.1 + 2 ^ b.2 <=? j) || (j + 2 ^ k <=? b.1)) A.

Lemma window_of_spec x k : 0 ≤ k → (2 ^ k | window_of x k) ∧ window_of x k ≤ x < window_of x k + 2 ^ k.
Proof.
  intros Hk. pose proof (pow2_pos k Hk). unfold window_of. split; [by exists (x / 2 ^ k)|].
  pose proof (Z.div_mod x (2 ^ k)). pose proof (Z.mod_pos_bound x (2 ^ k)). lia.
Qed.
Lemma window_of_unique x k j : 0 ≤ k → (2 ^ k | j) → j ≤ x < j + 2 ^ k → j = window_of x k.
Proof.
  intros Hk [q ->] Hx. pose proof (pow2_pos k Hk). unfold window_of. f_equal.
  apply (Z.div_unique _ _ _ (x - q * 2 ^ k)); lia.
Qed.

Lemma free_windowb_spec A n k j :
  0 ≤ k → free_windowb (map_to_list A) n k j = true ↔ free_window A n k j.
Proof.
  intros Hk. pose proof (pow2_pos k Hk). unfold free_windowb, free_window.
  rewrite !andb_true_iff, !Z.leb_le, Z.eqb_eq, forallb_forall, Z.mod_divide by lia.
  split; [intros [[[H0 Hd] Hn] Hf]|intros (H0 & Hd & Hn & Hf)]; split_and!; try done.
  - intros i l Hi. apply elem_of_map_to_list, list_elem_of_In in Hi. specialize (Hf _ Hi). simpl in Hf.
    apply orb_true_iff in Hf as [?%Z.leb_le|?%Z.leb_le]; [by left|by right].
  - intros [i l] Hi%list_elem_of_In%elem_of_map_to_list. simpl. apply orb_true_iff. rewrite !Z.leb_le. by apply Hf.
Qed.

(** The windows of [2^k] atoms beside which something is taken, or the pool
    ends. *)
Definition candidates (A : list (Z * Z)) (n k : Z) : list Z :=
  flat_map (λ x, [window_of x (k + 1); window_of x (k + 1) + 2 ^ k]) (n :: A.*1).
Definition whole_at (A : list (Z * Z)) (n k : Z) : list Z :=
  filter (λ j, free_windowb A n k j && negb (free_windowb A n (k + 1) (window_of j (k + 1))) = true) (candidates A n k).

(** The block to cut for [2^k] atoms, where there is one smallest. *)
Fixpoint place (fuel : nat) (A : list (Z * Z)) (n k : Z) : option Z :=
  match fuel with
  | O => None
  | S fuel' =>
      match whole_at A n k with
      | [] => place fuel' A n (k + 1)
      | j :: l => if forallb (Z.eqb j) l then Some j else None
      end
  end.

Definition aligned (A : gmap Z Z) : Prop := ∀ i l, A !! i = Some l → 0 ≤ l ∧ (2 ^ l | i).

Lemma owns_aligned s A : owns s A → aligned A.
Proof.
  intros (fl & bl & Hinv & <- & _) i l Hi. apply outstanding_lookup in Hi.
  destruct (inv_wf _ _ _ _ _ _ _ Hinv Hi) as (? & _ & ? & _). split; [lia|done].
Qed.

(** The half of a window its other half completes. *)
Lemma half_of_window j k : 0 ≤ k → (2 ^ k | j) → j = window_of j (k + 1) ∨ j = window_of j (k + 1) + 2 ^ k.
Proof.
  intros Hk Hj. pose proof (pow2_pos k Hk) as Hp. destruct (window_of_spec j (k + 1)) as [[w Hw] Hr]; [lia|].
  rewrite Hw, Z.pow_add_r in * by lia. change (2 ^ 1) with 2 in *. destruct Hj as [q ->].
  assert (w * 2 ≤ q < w * 2 + 2) as Hq by nia.
  assert (q = w * 2 ∨ q = w * 2 + 1) as [->| ->] by lia; [left|right]; lia.
Qed.

Lemma whole_candidate A n k j :
  aligned A → 0 ≤ k → whole_window A n k j → j ∈ whole_at (map_to_list A) n k.
Proof.
  intros HA Hk [Hj Hmax]. pose proof Hj as (H0 & Hd & Hn & Hf). pose proof (pow2_pos k Hk) as Hp.
  destruct (window_of_spec j (k + 1)) as [Hdw Hw]; [lia|]. set (w := window_of j (k + 1)) in *.
  assert (¬ free_window A n (k + 1) w) as Hnot by (by apply Hmax).
  apply list_elem_of_filter. split.
  - fold w. apply andb_true_iff. split; [by apply free_windowb_spec|]. apply negb_true_iff, not_true_iff_false.
    intros E. apply Hnot. by apply free_windowb_spec in E; [|lia].
  - assert (∀ x, x ∈ n :: (map_to_list A).*1 → window_of x (k + 1) = w → j ∈ candidates (map_to_list A) n k) as Hin.
    { intros x Hx E. unfold candidates. apply list_elem_of_In, in_flat_map. exists x. split; [by apply list_elem_of_In|].
      rewrite E. destruct (half_of_window j k Hk Hd) as [->| ->]; fold w; simpl; auto. }
    assert (∀ x, w ≤ x < w + 2 ^ (k + 1) → window_of x (k + 1) = w) as Hwin.
    { intros x Hx. symmetry. apply window_of_unique; [lia|done|done]. }
    rewrite Z.pow_add_r in * by lia. change (2 ^ 1) with 2 in *.
    assert (j + 2 ^ k ≤ w + 2 ^ k * 2) as Hend.
    { destruct (half_of_window j k Hk Hd) as [E|E]; fold w in E; lia. }
    destruct (decide (n < w + 2 ^ k * 2)) as [Hlt|Hge].
    { apply (Hin n); [set_solver|]. apply Hwin. lia. }
    destruct (decide (Exists (λ b, ¬ (b.1 + 2 ^ b.2 ≤ w ∨ w + 2 ^ k * 2 ≤ b.1)) (map_to_list A))) as [Hex|Hall].
    + apply Exists_exists in Hex as ([i l] & Hi & Hno). simpl in Hno. pose proof Hi as Hi'. apply elem_of_map_to_list in Hi.
      destruct (HA i l Hi) as [Hl Hdi].
      apply (Hin i); [apply elem_of_cons; right; apply list_elem_of_fmap; by exists (i, l)|]. apply Hwin.
      split; [|lia]. destruct (decide (w ≤ i)) as [|Hlt]; [done|]. exfalso. pose proof (pow2_pos l Hl).
      destruct (decide (l ≤ k)) as [Hlk|Hlk].
      * assert (i + 2 ^ l ≤ w); [|lia]. assert (2 ^ l | w) as Hlw.
        { etransitivity; [|exact Hdw]. exists (2 ^ (k - l) * 2).
          assert (2 ^ k = 2 ^ (k - l) * 2 ^ l) by (rewrite <- Z.pow_add_r by lia; f_equal; lia). lia. }
        replace w with (i + (w - i)) by lia. apply aligned_end; [done|done|done| |lia]. by apply Z.divide_sub_r.
      * assert (w + 2 ^ k * 2 ≤ i + 2 ^ l); [|destruct (Hf i l Hi); lia].
        assert (2 ^ k * 2 | 2 ^ l) as Hkl.
        { exists (2 ^ (l - (k + 1))). assert (2 ^ l = 2 ^ (l - (k + 1)) * 2 ^ (k + 1)) as -> by (rewrite <- Z.pow_add_r by lia; f_equal; lia).
          by rewrite Z.pow_add_r by lia. }
        apply aligned_end; [lia|by etransitivity|done|done|lia].
    + exfalso. apply Hnot. split_and!.
      * unfold w, window_of. apply Z.mul_nonneg_nonneg; [apply Z.div_pos; lia|lia].
      * by rewrite Z.pow_add_r by lia.
      * rewrite Z.pow_add_r by lia. lia.
      * intros i l Hi. rewrite Z.pow_add_r by lia. change (2 ^ 1) with 2.
        destruct (decide (i + 2 ^ l ≤ w ∨ w + 2 ^ k * 2 ≤ i)) as [|Hno]; [done|]. exfalso. apply Hall, Exists_exists.
        exists (i, l). split; [by apply elem_of_map_to_list|done].
Qed.

Lemma candidate_whole A n k j : 0 ≤ k → j ∈ whole_at (map_to_list A) n k → whole_window A n k j.
Proof.
  intros Hk [E _]%list_elem_of_filter. apply andb_true_iff in E as [E1 E2]. apply free_windowb_spec in E1; [|done].
  split; [done|]. intros j' Hj' Hfree. apply negb_true_iff, not_true_iff_false in E2. apply E2.
  apply free_windowb_spec; [lia|]. rewrite <- (window_of_unique j (k + 1) j'); [done|lia|apply Hfree|done].
Qed.

Lemma place_level fuel A n : ∀ k i, place fuel A n k = Some i →
  ∃ kb, k ≤ kb < k + Z.of_nat fuel ∧ i ∈ whole_at A n kb ∧ (∀ j, j ∈ whole_at A n kb → j = i) ∧
    ∀ k', k ≤ k' < kb → whole_at A n k' = [].
Proof.
  induction fuel as [|fuel IH]; intros k i; [done|]. cbn [place]. destruct (whole_at A n k) as [|j l] eqn:E.
  - intros (kb & Hkb & Hi & Hu & Hlow)%IH. exists kb. split_and!; [lia|lia|done|done|].
    intros k' Hk'. destruct (decide (k' = k)) as [->|]; [done|]. apply Hlow. lia.
  - destruct (forallb (Z.eqb j) l) eqn:Eall; [|done]. intros [= ->]. rewrite forallb_forall in Eall.
    exists k. rewrite E. split_and!; [lia|lia|set_solver| |lia].
    intros x [->|Hx]%elem_of_cons; [done|]. symmetry. by apply Z.eqb_eq, Eall, list_elem_of_In.
Qed.

Lemma place_spec fuel s A n k i :
  owns s A → 0 < n ≤ 2 ^ 30 → log_size (szAtom (mem5 s)) n = k → k + Z.of_nat fuel ≤ LOGMAX →
  place fuel (map_to_list A) (nBlock (mem5 s)) k = Some i →
  ∃ s', memsys5Malloc n s = Ok (addr_of (mem5 s) i, s') ∧ owns s' (<[i := k]> A) ∧
    free_window A (nBlock (mem5 s)) k i ∧ same_geo (mem5 s) (mem5 s').
Proof.
  intros Ho Hn Ek Hfuel Hplace. apply place_level in Hplace as (kb & Hkb & Hi & Hu & Hlow).
  pose proof (owns_aligned s A Ho) as HA. assert (0 ≤ k) as Hk by (subst k; unfold log_size; lia).
  pose proof (candidate_whole A _ kb i ltac:(lia) Hi) as Hw.
  destruct (malloc_best_fit s A n Ho Hn) as [[_ Hnone]|(i' & s' & kb' & Hrun & Ho' & Hfw & Hgeo & _ & Hk1 & Hk2 & Hw' & Hlow')];
    rewrite Ek in *.
  - exfalso. destruct Hw as [Hw _]. apply (Hnone i), (sub_window _ _ _ kb i); [done|done| |lia|].
    + destruct Hw as (_ & Hd & _). etransitivity; [apply (pow2_divide k kb); lia|exact Hd].
    + pose proof (pow2_le k kb ltac:(lia)). lia.
  - assert (kb' = kb) as ->.
    { destruct (Z.lt_trichotomy kb' kb) as [Hlt|[|Hgt]]; [|done|].
      - exfalso. assert (i' ∈ whole_at (map_to_list A) (nBlock (mem5 s)) kb') as Hin
          by (apply whole_candidate; [done|lia|apply Hw'; lia]).
        rewrite Hlow in Hin by lia. by apply elem_of_nil in Hin.
      - exfalso. by apply (Hlow' kb i); [lia|]. }
    rewrite <- (Hu i'); [by exists s'|]. apply whole_candidate; [done|lia|apply Hw'; lia].
Qed.

(** ** The library's pool *)

(** 2 GB in atoms of 16 bytes with a control byte each. *)
Definition lib_blocks : Z := 126322567.
Lemma lib_blocks_eq : pool_blocks LIB_POOL_SIZE MN_REQ = lib_blocks.
Proof. reflexivity. Qed.

Record heap_at (base : Z) (h : heap) (A : gmap Z Z) : Prop := {
  at_owns : owns h A;
  at_atom : szAtom (mem5 h) = 16;
  at_blocks : nBlock (mem5 h) = lib_blocks;
  at_pool : zPool (mem5 h) = base;
  at_base : 0 < base < 2 ^ 63
}.

Lemma heap_at_geo base h h' A A' :
  heap_at base h A → owns h' A' → same_geo (mem5 h) (mem5 h') → heap_at base h' A'.
Proof. intros [_ H1 H2 H3 H4] Ho (E1 & E2 & E3 & _). by constructor; rewrite ?E1, ?E2, ?E3. Qed.

Lemma malloc_at base h A n k i :
  heap_at base h A → 0 < n ≤ 2 ^ 30 → log_size 16 n = k → k ≤ 10 → place 20 (map_to_list A) lib_blocks k = Some i →
  ∃ h', memsys5Malloc n h = Ok (base + 16 * i, h') ∧ heap_at base h' (<[i := k]> A) ∧ A !! i = None ∧ 0 ≤ i ∧
    i + 2 ^ k ≤ lib_blocks.
Proof.
  intros Hh Hn Ek Hk Hp. pose proof Hh as [Ho E1 E2 E3 E4].
  destruct (place_spec 20 h A n k i) as (h' & Hrun & Ho' & Hw & Hgeo); [done|done|by rewrite E1|unfold LOGMAX; lia|by rewrite E2|].
  exists h'. split_and!; [|by eapply heap_at_geo| | |].
  - rewrite Hrun. unfold addr_of. by rewrite E1, E3, Z.mul_comm.
  - rewrite E2 in Hw. apply (free_window_fresh h A k i Ho); [subst k; unfold log_size; lia|by rewrite E2].
  - apply Hw.
  - rewrite <- E2. apply Hw.
Qed.

Lemma free_at base h A i k :
  heap_at base h A → A !! i = Some k →
  ∃ h', memsys5Free (base + 16 * i) h = Ok (tt, h') ∧ heap_at base h' (delete i A).
Proof.
  intros Hh Hi. pose proof Hh as [Ho E1 E2 E3 E4].
  destruct (free_ok h A i k Ho Hi) as (h' & Hrun & Ho' & Hgeo & _).
  exists h'. split; [|by eapply heap_at_geo]. rewrite <- Hrun. unfold addr_of. by rewrite E1, E3, Z.mul_comm.
Qed.

(** ** The tests of the allocator *)

Lemma nonnull base h A i : heap_at base h A → 0 ≤ i → negb (base + 16 * i =? 0) = true.
Proof. intros [_ _ _ _ ?] Hi. apply negb_true_iff, Z.eqb_neq. lia. Qed.

Lemma roundup_at base h A n :
  heap_at base h A → 0 < n ≤ 2 ^ 30 → memsys5Roundup n h = Ok (16 * 2 ^ log_size 16 n, h).
Proof.
  intros [(fl & bl & Hinv & _) E1 _ _ _] Hn. unfold memsys5Roundup. rewrite (proj2 (Z.ltb_ge _ _)) by lia.
  rewrite bind_gets. destruct (round_loop_run n h (inv_geom _ _ _ _ Hinv) Hn) as [Hrun _].
  rewrite (bind_Ok _ _ _ _ _ Hrun), E1. reflexivity.
Qed.

Lemma size_at base h A i k :
  heap_at base h A → A !! i = Some k → memsys5Size (base + 16 * i) h = Ok (16 * 2 ^ k, h).
Proof.
  intros [Ho E1 E2 E3 E4] Hi. pose proof (size_ok h A i k Ho Hi) as Hrun. unfold addr_of in Hrun.
  by rewrite E1, E3, (Z.mul_comm i) in Hrun.
Qed.

(** One call of the allocator, the map of blocks computed: the block [i] of
    [2^k] atoms is cut, or freed. *)
Ltac alloc i k :=
  lazymatch goal with
  | H : heap_at ?b ?h ?A |- context [(memsys5Malloc ?n ≫= _) ?h] =>
      let h' := fresh "h" in let Hr := fresh "Hrun" in let Hh := fresh "Hh" in
      destruct (malloc_at b h A n k i H) as (h' & Hr & Hh & _);
        [lia|reflexivity|lia|vm_compute; reflexivity|];
      rewrite (bind_Ok _ _ _ _ _ Hr); clear Hr; cbv zeta
  end.
Ltac release i k :=
  lazymatch goal with
  | H : heap_at ?b ?h ?A |- context [(memsys5Free _ ≫= _) ?h] =>
      let h' := fresh "h" in let Hr := fresh "Hrun" in let Hh := fresh "Hh" in
      destruct (free_at b h A i k H) as (h' & Hr & Hh); [reflexivity|];
      rewrite (bind_Ok _ _ _ _ _ Hr); clear Hr
  end.
(** The conditions, once the addresses are known. *)
Ltac verdict :=
  lazymatch goal with
  | H : heap_at ?b ?h _ |- context [mret ?r ?h] =>
      exists h; split; [|exact H]; unfold mret, M_ret; do 2 f_equal
  end.

Definition passes (base : Z) (test : M heap bool) : Prop :=
  ∀ h, heap_at base h ∅ → ∃ h', test h = Ok (true, h') ∧ heap_at base h' ∅.

Lemma test_malloc_passes base : passes base test_memsys5Malloc.
Proof.
  intros h Hh. unfold test_memsys5Malloc. alloc 126322560 2. release 126322560 2. verdict.
  by apply (nonnull base h _ _ Hh).
Qed.

Lemma test_roundup_passes base : passes base test_memsys5Roundup.
Proof.
  intros h Hh. unfold test_memsys5Roundup. alloc 126322560 2.
  rewrite (bind_Ok _ _ _ _ _ (roundup_at base _ _ 128 Hh0 ltac:(lia))). release 126322560 2. verdict.
  rewrite (nonnull base h _ _ Hh) by lia. reflexivity.
Qed.

Lemma test_size_passes base : passes base test_memsys5Size.
Proof.
  intros h Hh. unfold test_memsys5Size. alloc 126322560 2.
  rewrite (bind_Ok _ _ _ _ _ (size_at base _ _ 126322560 2 Hh0 eq_refl)). release 126322560 2. verdict.
  rewrite (nonnull base h _ _ Hh) by lia. reflexivity.
Qed.

Lemma page_index_at base i : 0 ≤ i < lib_blocks → page_index base (base + 16 * i) = i / 256.
Proof.
  unfold lib_blocks. intros Hi. unfold page_index. replace (base + 16 * i - base) with (16 * i) by lia.
  rewrite i64_id by lia. rewrite Z.quot_div_nonneg by lia. change 4096 with (16 * 256).
  rewrite Z.div_mul_cancel_l by lia. apply i32_id. Z.div_mod_to_equations. lia.
Qed.

Lemma test_alignment_passes base : passes base (test_page_alignment base).
Proof.
  intros h Hh. unfold test_page_alignment.
  alloc 126322560 2. alloc 126322432 2. alloc 126322176 8. alloc 126322448 4. alloc 126321664 8.
  release 126322560 2. release 126322432 2. release 126322176 8. release 126322448 4. release 126321664 8. verdict.
  rewrite !(nonnull base h _ _ Hh) by lia. rewrite !page_index_at by (unfold lib_blocks; lia). reflexivity.
Qed.

(** ** Flat memory

    Until the cache is full nothing is evicted, and the pool seen through the
    cache is flat memory, pages that are not cached yet reading as zeros: also
    for stores without the write hint, which an eviction would lose. *)

#[local] Opaque EVICT_FUEL CACHE_CAPACITY PAGE_BYTES.

Section untracked.
Context `{HS : Sgx, HB : PoolBase}.

(** A cached page whose contents are not tracked may change. *)
Lemma untracked_write s C V L p i m :
  suvm_ok s C V L → C !! p = Some i → V !! p = None →
  (∀ a, a < slot_addr s i ∨ slot_addr s i + PAGE_SIZE ≤ a → rd8 m a = rd8 (prm s) a) →
  suvm_ok (set_prm s m) C V L.
Proof.
  intros [(U & K & D & Hinv) Hsz] Hp HV Hm. split; [|done]. exists U, K, D.
  destruct Hinv as [[G1 G2 G3] I1 I2 I3 I4 I5 I6 I7 I8 I9 I10 Iw I11 I12 I13 I14].
  constructor; try done. intros q b Hq. specialize (I11 q b Hq).
  destruct (C !! q) as [j|] eqn:Eq; [|done]. destruct I11 as [H1 H2]. split; [|done].
  rewrite <- H1. unfold slot_bytes. apply load_bytes_ext. intros a Ha. simpl. apply Hm.
  rewrite page_bytes in Ha. assert (i ≠ j) as Hne.
  { intros ->. assert (p = q) by (by eapply I5). congruence. }
  change (slot_addr (set_prm s m) j) with (slot_addr s j) in Ha. destruct (slot_disjoint s i j Hne); lia.
Qed.
End untracked.

(** The byte at position [P], zero where its page is not cached. *)
Definition view (s : suvm) (C : gmap Z Z) (P : Z) : Z :=
  match C !! (P / PAGE_SIZE) with
  | Some i => rd8 (prm s) (slot_addr s i + P mod PAGE_SIZE)
  | None => 0
  end.

(** The pages the tests touch. *)
Definition test_pages : gset Z := {[493440; 493441; 493444; 493446; 493447]}.

Section flat.
Context `{HS : Sgx, HL : !SgxLaws} (bs : Z).

(** Pages [C] are cached, blocks [A] are given out, the pool reads as [m], and
    pointers hold the pages [L]. *)
Record flat (s : suvm) (C A : gmap Z Z) (m : Z → Z) (L : list Z) : Prop := {
  flat_ok : suvm_ok (HB := pool s) s C ∅ L;
  flat_heap : heap_at bs (pool s) A;
  flat_pages : npages s = 524288;
  flat_ptr : bs + 2 ^ 31 ≤ 2 ^ 63;
  flat_few : dom C ⊆ test_pages;
  flat_zero : ∀ i o, 0 ≤ i < CACHE_CAPACITY → (∀ p, C !! p ≠ Some i) → 0 ≤ o < PAGE_SIZE →
    rd8 (prm s) (slot_addr s i + o) = 0;
  flat_view : ∀ P, view s C P = m P;
  flat_base : g_base_pool_ptr s = bs
}.

(** A pointer to position [P], at offset [o] of the page it is linked to. *)
Record ptr_at (C : gmap Z Z) (p : Aptr) (prev : option Z) (P o : Z) : Prop := {
  at_points : points C (m_base_page_index p) (m_aptr p) prev P;
  at_index : 0 ≤ m_base_page_index p;
  at_hint : hint_write (m_aptr p) = false;
  at_offset : offset (m_aptr p) = o
}.

Lemma points_more C C' base a prev P : points C base a prev P → C ⊆ C' → points C' base a prev P.
Proof.
  intros ((Hl & Hn & Hp) & Ht) HC. split; [|done]. split; [|done]. destruct prev as [q|]; [|done].
  destruct Hl as [E Hq]. split; [done|]. by eapply lookup_weaken.
Qed.
Lemma ptr_more C C' p prev P o : ptr_at C p prev P o → C ⊆ C' → ptr_at C' p prev P o.
Proof. intros [H1 H2 H3 H4] HC. constructor; [by eapply points_more|done..]. Qed.

Lemma few_cached (C : gmap Z Z) : dom C ⊆ test_pages → Z.of_nat (size C) ≤ 5.
Proof.
  intros H%subseteq_size. rewrite size_dom in H. change (size test_pages) with 5%nat in H. lia.
Qed.

Lemma refs_length p L : refs p L ≤ Z.of_nat (length L).
Proof. induction L as [|q L IH]; simpl; [lia|]. case_decide; lia. Qed.

(** The invariant of a state reached by the paging layer is that of its own
    pool. *)
Lemma flat_renew (h : heap) s C L A :
  suvm_ok (HB := h) s C ∅ L → heap_at bs h A → suvm_ok (HB := pool s) s C ∅ L ∧ heap_at bs (pool s) A.
Proof.
  intros Hok Hh. assert (in_blocks s A ∅) as Hin by (intros p [b Hb]; by rewrite lookup_empty in Hb).
  pose proof (paging_owns h s C ∅ L A Hok (at_owns _ _ _ Hh) Hin) as Ho. split.
  - replace s with (set_pool s (pool s)) at 2 by (by destruct s). apply (rebase h); [done|].
    intros p a [b Hb]. by rewrite lookup_empty in Hb.
  - destruct Hok as [(U & K & D & Hinv) _]. pose proof (inv_mem5 _ _ _ _ _ _ _ _ _ _ Hinv) as Em.
    change (@pool_base h) with h in Em. destruct Hh as [_ H1 H2 H3 H4]. by constructor; rewrite ?Em.
Qed.

(** A dereference brings the page in, and neither memory nor what else is cached
    changes. *)
Lemma flat_fault s C A m L p prev P o :
  flat s C A m (option_list prev ++ L) → ptr_at C p prev P o → P / PAGE_SIZE ∈ test_pages →
  (length L ≤ 5)%nat →
  ∃ s' C' a' i, (∀ B (f : aptr_t → M suvm B),
      ((if ISVALID (offset (m_aptr p)) then mret (m_aptr p) else page_fault (m_aptr p) (m_base_page_index p)) ≫= f) s = f a' s') ∧
    flat s' C' A m (P / PAGE_SIZE :: L) ∧ C ⊆ C' ∧
    ptr_at C' (on_aptr (λ _, a') p) (Some (P / PAGE_SIZE)) P (P mod PAGE_SIZE) ∧
    C' !! (P / PAGE_SIZE) = Some i ∧ prm_ptr a' = i ∧ same_static s s'.
Proof.
  intros [Hok Hh Hn Hptr Hfew Hz Hv HB] [Hpt Hb Hw Ho] HP HlenL. set (q := P / PAGE_SIZE) in *.
  pose proof capacity as Ecap. pose proof (few_cached C Hfew) as Hsize.
  assert (0 ≤ q < npages s) as Hq by (unfold test_pages in HP; set_unfold in HP; lia).
  assert (refs q L < 255) as Hrefs by (pose proof (refs_length q L); lia).
  destruct (ISVALID (offset (m_aptr p))) eqn:Ev.
  - destruct Hpt as ((Hl & Hnone & Hpage) & Ht & Hto). destruct prev as [x|]; [|specialize (Hnone eq_refl); congruence].
    destruct (valid_target (m_base_page_index p) (m_aptr p) Ev Hpage) as [E1 E2]. destruct Hl as [Ex HC].
    assert (x = q) as -> by (unfold q; congruence).
    exists s, C, (m_aptr p), (prm_ptr (m_aptr p)). split_and!; try done. constructor; try done. simpl. congruence.
  - destruct Hok as [(U & K & D & Hinv) Hsz]. pose proof Hpt as ((Hl & Hnone & Hpage) & Ht & Hto).
    destruct (page_fault_ok (HB := pool s) s C U K D ∅ L (m_base_page_index p) (m_aptr p) prev q Hinv Hl)
      as (s' & C' & U' & K' & D' & a' & Hrun & Hinv' & HC' & Epg & Eoff & Eh & Hsz' & _ & Hst & Hquiet);
      [exact (eq_sym Ht)|done|done|unfold MAX_NUM_OF_THREADS_OPTIMIZATION; lia|
       unfold MAX_NUM_OF_THREADS_OPTIMIZATION; lia|].
    destruct Hquiet as (Em & Hsub & Hothers); [by rewrite lookup_empty|unfold MAX_NUM_OF_THREADS_OPTIMIZATION; lia|].
    pose proof Hst as (Eb & Es & Esl & _).
    destruct (flat_renew (pool s) s' C' (q :: L) A) as [Hok' Hh'];
      [split; [by exists U', K', D'|done]|done|].
    assert (∀ i, slot_addr s' i = slot_addr s i) as Eslot by (intros i; unfold slot_addr; by rewrite Esl).
    assert (∀ i, C !! q = None → C' !! q = Some i → ∀ p, C !! p ≠ Some i) as Hnew.
    { intros i Hnq Hi r Hr. assert (r = q) as ->; [|congruence].
      apply (inv_inj _ _ _ _ _ _ _ _ _ _ Hinv' r q i); [|done]. by eapply lookup_weaken. }
    exists s', C', a', (prm_ptr a'). split; [exact Hrun|]. split; [|split; [done|split; [|done]]].
    + constructor; rewrite ?Eb, ?Em; try done.
      * unfold npages in *. by rewrite Es.
      * intros r. rewrite elem_of_dom. destruct (decide (r = q)) as [->|Hne]; [done|].
        rewrite Hothers by done. intros Hr. by apply Hfew, elem_of_dom.
      * intros i j Hi Hnot Hj. rewrite Eslot. apply Hz; [done| |done]. intros r Hr. apply (Hnot r). by eapply lookup_weaken.
      * intros Q. rewrite <- Hv. unfold view. rewrite Em. destruct (C !! (Q / PAGE_SIZE)) as [i|] eqn:EQ.
        { rewrite (lookup_weaken _ _ _ _ EQ Hsub). by rewrite Eslot. }
        destruct (decide (Q / PAGE_SIZE = q)) as [Eq|Hne]; [|by rewrite Hothers, EQ].
        rewrite Eq in *. rewrite HC', Eslot. apply Hz; [|by apply Hnew|apply position_split].
        by destruct (inv_cached _ _ _ _ _ _ _ _ _ _ Hinv' q _ HC').
    + assert (ISVALID (offset a') = true) as Ev'.
      { apply ISVALID_spec. rewrite Eoff. apply (target_offset_range (m_aptr p)). }
      assert (i32 (page a') = page a') as Hpage' by (rewrite Epg; apply i32_i32).
      destruct (valid_target (m_base_page_index p) a' Ev' Hpage') as [E1 E2].
      assert (target_page (m_base_page_index p) a' = q) as Et by (rewrite E1, Epg; exact Ht).
      assert (offset a' = P mod PAGE_SIZE) as Eo by (rewrite Eoff; exact Hto).
      constructor; simpl; [|done|by rewrite Eh|done].
      split; [split; [split; [by rewrite <- E1|done]|split; done]|]. split; [done|by rewrite E2].
Qed.

(** *** Integers in flat memory *)

Lemma flat_star {B} s C A m L p prev P o (f : Z * Aptr → M suvm B) :
  flat s C A m (option_list prev ++ L) → ptr_at C p prev P o → P / PAGE_SIZE ∈ test_pages →
  (length L ≤ 5)%nat →
  ∃ s' C' p' i, (star p ≫= f) s = f (slot_addr s' i + P mod PAGE_SIZE, p') s' ∧
    flat s' C' A m (P / PAGE_SIZE :: L) ∧ C ⊆ C' ∧ ptr_at C' p' (Some (P / PAGE_SIZE)) P (P mod PAGE_SIZE) ∧
    C' !! (P / PAGE_SIZE) = Some i ∧ prm_ptr (m_aptr p') = i ∧ same_static s s' ∧
    m_base_page_index p' = m_base_page_index p.
Proof.
  intros Hf Hp HP HlenL. destruct (flat_fault s C A m L p prev P o Hf Hp HP HlenL)
    as (s' & C' & a' & i & Hrun & Hf' & Hsub & Hp' & HC & Ei & Hst).
  exists s', C', (on_aptr (λ _, a') p), i. split; [|done].
  destruct (flat_ok _ _ _ _ _ Hf') as [(U & K & D & Hinv) _]. pose proof (inv_geo _ _ _ _ _ _ _ _ _ _ Hinv) as Hgeo.
  destruct (inv_cached _ _ _ _ _ _ _ _ _ _ Hinv _ i HC) as [_ Hir]. destruct Hp' as [_ _ Hh Ho]. simpl in Hh, Ho.
  unfold star, deref. rewrite ?bind_assoc, Hrun. rewrite ?bind_assoc.
  rewrite Ei, (read_slot_run _ s' i _ (proj1 Hir) (inv_arr _ _ _ _ _ _ _ _ _ _ Hinv i Hir)).
  rewrite Hh, ?bind_assoc, !bind_ret. by rewrite slot_val_clean, Ho by done.
Qed.

Definition peek (m : Z → Z) (P : Z) : Z := int_of_bytes (m P) (m (P + 1)) (m (P + 2)) (m (P + 3)).
Definition poke_int (m : Z → Z) (P v Q : Z) : Z :=
  if decide (P ≤ Q < P + 4) then nth (Z.to_nat (Q - P)) (bytes_of_int v) 0 else m Q.

Lemma peek_poke m P v : peek (poke_int m P v) P = i32 v.
Proof.
  unfold peek, poke_int. rewrite !decide_True by lia. rewrite <- int_bytes.
  replace (P - P) with 0 by lia. replace (P + 1 - P) with 1 by lia.
  replace (P + 2 - P) with 2 by lia. replace (P + 3 - P) with 3 by lia. reflexivity.
Qed.
Lemma peek_poke_ne m P v Q : Q + 4 ≤ P ∨ P + 4 ≤ Q → peek (poke_int m P v) Q = peek m Q.
Proof. intros H. unfold peek, poke_int. by rewrite !decide_False by lia. Qed.

Lemma same_page P j : P mod PAGE_SIZE + j < PAGE_SIZE → 0 ≤ j →
  (P + j) / PAGE_SIZE = P / PAGE_SIZE ∧ (P + j) mod PAGE_SIZE = P mod PAGE_SIZE + j.
Proof. unfold PAGE_SIZE. intros Hj H0. Z.div_mod_to_equations. lia. Qed.

(** What a slot holds is what the pool reads as. *)
Lemma flat_byte s C A m L P i j :
  flat s C A m L → C !! (P / PAGE_SIZE) = Some i → 0 ≤ j → P mod PAGE_SIZE + j < PAGE_SIZE →
  rd8 (prm s) (slot_addr s i + P mod PAGE_SIZE + j) = m (P + j).
Proof.
  intros Hf HC Hj Hp. destruct (same_page P j Hp Hj) as [E1 E2]. rewrite <- (flat_view _ _ _ _ _ Hf).
  unfold view. rewrite E1, HC, E2. f_equal. lia.
Qed.

Lemma flat_slab s C A m L i P n :
  flat s C A m L → C !! (P / PAGE_SIZE) = Some i → P mod PAGE_SIZE + n ≤ PAGE_SIZE →
  range_in_slab s (slot_addr s i + P mod PAGE_SIZE) n = true.
Proof.
  intros Hf HC Hn. destruct (flat_ok _ _ _ _ _ Hf) as [(U & K & D & Hinv) _].
  destruct (inv_cached _ _ _ _ _ _ _ _ _ _ Hinv _ i HC) as [_ Hir].
  apply range_in_slab_ok; [done|apply position_split|done].
Qed.

Lemma flat_load {B} s C A m L p prev P o (f : Z * Aptr → M suvm B) :
  flat s C A m (option_list prev ++ L) → ptr_at C p prev P o → P / PAGE_SIZE ∈ test_pages →
  (length L ≤ 5)%nat → P mod PAGE_SIZE + 4 ≤ PAGE_SIZE →
  ∃ s' C' p', (load_int p ≫= f) s = f (peek m P, p') s' ∧
    flat s' C' A m (P / PAGE_SIZE :: L) ∧ C ⊆ C' ∧ ptr_at C' p' (Some (P / PAGE_SIZE)) P (P mod PAGE_SIZE) ∧
    C' !! (P / PAGE_SIZE) = Some (prm_ptr (m_aptr p')) ∧ same_static s s' ∧
    m_base_page_index p' = m_base_page_index p.
Proof.
  intros Hf Hp HP HlenL Hn. unfold load_int.
  destruct (flat_star s C A m L p prev P o (λ r, v ← load_int_at r.1; mret (v, r.2)) Hf Hp HP HlenL)
    as (s' & C' & p' & i & Hrun & Hf' & Hsub & Hp' & HC & Ei & Hst & Hidx).
  exists s', C', p'. rewrite Ei. split; [|done].
  eapply bind_Ok. rewrite Hrun. unfold load_int_at, load_block. rewrite ?bind_assoc, bind_gets. cbn [id fst snd].
  rewrite (flat_slab s' C' A m _ i P (Z.of_nat 4) Hf' HC) by lia. rewrite bind_ret.
  cbn [load_bytes nth]. unfold peek, mret, M_ret. do 3 f_equal.
  pose proof (flat_byte s' C' A m _ P i 0 Hf' HC ltac:(lia) ltac:(lia)) as H0. rewrite !Z.add_0_r in H0.
  rewrite <- !Z.add_assoc. change (1 + 1) with 2. change (1 + 2) with 3. rewrite !Z.add_assoc, H0.
  by rewrite !(flat_byte s' C' A m _ P i) by (done || lia).
Qed.

Lemma rd8_store_int mm a v j :
  0 ≤ j < 4 → rd8 (store_bytes mm a (bytes_of_int v)) (a + j) = nth (Z.to_nat j) (bytes_of_int v) 0.
Proof.
  intros Hj. pose proof (load_store_bytes_eq mm a (bytes_of_int v)) as E.
  assert (load_bytes (store_bytes mm a (bytes_of_int v)) a (length (bytes_of_int v)) !! Z.to_nat j =
    (u8 <$> bytes_of_int v) !! Z.to_nat j) as E2 by (by rewrite E).
  rewrite lookup_load_bytes, Z2Nat.id in E2 by (simpl; lia).
  assert (j = 0 ∨ j = 1 ∨ j = 2 ∨ j = 3) as [->|[->|[->| ->]]] by lia; simpl in E2 |- *;
    injection E2 as ->; apply u8_u8.
Qed.

Lemma flat_store {B} s C A m L p prev P o v (f : Aptr → M suvm B) :
  flat s C A m (option_list prev ++ L) → ptr_at C p prev P o → P / PAGE_SIZE ∈ test_pages →
  (length L ≤ 5)%nat → P mod PAGE_SIZE + 4 ≤ PAGE_SIZE →
  ∃ s' C' p', (store_int p v ≫= f) s = f p' s' ∧
    flat s' C' A (poke_int m P v) (P / PAGE_SIZE :: L) ∧ C ⊆ C' ∧
    ptr_at C' p' (Some (P / PAGE_SIZE)) P (P mod PAGE_SIZE) ∧
    C' !! (P / PAGE_SIZE) = Some (prm_ptr (m_aptr p')) ∧ same_static s s' ∧
    m_base_page_index p' = m_base_page_index p.
Proof.
  intros Hf Hp HP HlenL Hn. unfold store_int.
  destruct (flat_star s C A m L p prev P o (λ r, store_int_at r.1 v;; mret r.2) Hf Hp HP HlenL)
    as (s' & C' & p' & i & Hrun & Hf' & Hsub & Hp' & HC & Ei & Hst & Hidx).
  set (ad := slot_addr s' i + P mod PAGE_SIZE) in *.
  set (s2 := set_prm s' (store_bytes (prm s') ad (bytes_of_int v))).
  exists s2, C', p'. rewrite Ei. split.
  { eapply bind_Ok. rewrite Hrun. unfold store_int_at, store_block. rewrite ?bind_assoc, bind_gets. cbn [id fst snd].
    change (Z.of_nat (length (bytes_of_int v))) with 4.
    unfold ad. rewrite (flat_slab s' C' A m _ i P 4 Hf' HC) by lia. rewrite bind_modify. reflexivity. }
  split; [|done]. destruct Hf' as [Hok Hh Hpg Hptr Hfew Hz Hv HB].
  assert (∀ b, b < ad ∨ ad + 4 ≤ b → rd8 (prm s2) b = rd8 (prm s') b) as Hne.
  { intros b Hb. change (prm s2) with (store_bytes (prm s') ad (bytes_of_int v)).
    apply rd8_store_bytes_ne. cbn [length bytes_of_int]. lia. }
  destruct (position_split P) as [EP Hm].
  assert (∀ j, i ≠ j → ∀ x, 0 ≤ x < PAGE_SIZE → rd8 (prm s2) (slot_addr s' j + x) = rd8 (prm s') (slot_addr s' j + x)) as Hslot.
  { intros j Hj x Hx. apply Hne. unfold ad. destruct (slot_disjoint s' i j Hj); lia. }
  constructor; try done.
  - apply (untracked_write s' C' ∅ _ (P / PAGE_SIZE) i); [done|done|by rewrite lookup_empty|].
    intros b Hb. apply Hne. unfold ad. lia.
  - intros j x Hj Hnot Hx. change (slot_addr s2 j) with (slot_addr s' j).
    rewrite Hslot; [by apply Hz| |done]. intros ->. by apply (Hnot (P / PAGE_SIZE)).
  - intros Q. unfold poke_int. destruct (position_split Q) as [EQ HmQ]. case_decide as Hd.
    + destruct (same_page P (Q - P)) as [E1 E2]; [lia|lia|]. replace (P + (Q - P)) with Q in * by lia.
      unfold view. rewrite E1, HC, E2. change (slot_addr s2 i) with (slot_addr s' i). rewrite Z.add_assoc. fold ad.
      change (prm s2) with (store_bytes (prm s') ad (bytes_of_int v)). apply rd8_store_int. lia.
    + rewrite <- Hv. unfold view. destruct (C' !! (Q / PAGE_SIZE)) as [j|] eqn:Ej; [|done].
      change (slot_addr s2 j) with (slot_addr s' j). destruct (decide (i = j)) as [<-|Hij]; [|by apply Hslot].
      apply Hne. assert (Q / PAGE_SIZE = P / PAGE_SIZE) as E.
      { destruct Hok as [(U & K & D & Hinv) _]. by apply (inv_inj _ _ _ _ _ _ _ _ _ _ Hinv _ _ i). }
      unfold ad. rewrite E in EQ. lia.
Qed.

(** *** The other steps *)

Lemma flat_pool s C A A' m L h :
  flat s C A m L → heap_at bs h A' → flat (set_pool s h) C A' m L.
Proof.
  intros [Hok Hh Hn Hptr Hfew Hz Hv HB] Hh'. constructor; try done. apply (rebase (pool s)); [done|].
  intros p a [b Hb]. by rewrite lookup_empty in Hb.
Qed.

Lemma flat_on_pool {A B} s C A0 A' m L (r : M heap A) x h (f : A → M suvm B) :
  flat s C A0 m L → r (pool s) = Ok (x, h) → heap_at bs h A' →
  (on_pool r ≫= f) s = f x (set_pool s h) ∧ flat (set_pool s h) C A' m L.
Proof. intros Hf Hrun Hh. split; [|by eapply flat_pool]. unfold on_pool. by rewrite (bind_zoom _ _ _ _ _ _ _ Hrun). Qed.

Lemma flat_alloc {B} s C A m L n i k (f : Z → M suvm B) :
  flat s C A m L → 0 < n ≤ 1500 → log_size 16 (n * 4) = k → k ≤ 10 → place 20 (map_to_list A) lib_blocks k = Some i →
  ∃ s', (alloc_ints n ≫= f) s = f (bs + 16 * i) s' ∧ flat s' C (<[i := k]> A) m L ∧ same_static s s'.
Proof.
  intros Hf Hn Ek Hk Hp. destruct (malloc_at _ _ A (n * 4) k i (flat_heap _ _ _ _ _ Hf)) as (h & Hrun & Hh & _);
    [lia|done|done|done|].
  assert (i32 (u64 (n * INT_SIZE)) = n * 4) as E by (unfold INT_SIZE; rewrite u64_id, i32_id by lia; done).
  destruct (flat_on_pool s C A (<[i := k]> A) m L (memsys5Malloc (i32 (u64 (n * INT_SIZE)))) (bs + 16 * i) h f Hf) as [Hr Hf'];
    [by rewrite E|exact Hh|]. by exists (set_pool s h).
Qed.

Lemma flat_free {B} s C A m L i k (f : unit → M suvm B) :
  flat s C A m L → A !! i = Some k →
  ∃ s', (free_ints (bs + 16 * i) ≫= f) s = f tt s' ∧ flat s' C (delete i A) m L ∧ same_static s s'.
Proof.
  intros Hf Hi. destruct (free_at _ _ A i k (flat_heap _ _ _ _ _ Hf) Hi) as (h & Hrun & Hh).
  destruct (flat_on_pool s C A (delete i A) m L _ tt h f Hf Hrun Hh) as [Hr Hf']. by exists (set_pool s h).
Qed.

Lemma flat_ctor {B} s C A m L P size (f : Aptr → M suvm B) :
  flat s C A m L → 0 ≤ P < 2 ^ 31 →
  ∃ p, (Aptr_ctor (bs + P) size ≫= f) s = f p s ∧
    ptr_at C p None P (P mod PAGE_SIZE + PAGE_SIZE) ∧ m_base_page_index p = P / PAGE_SIZE.
Proof.
  intros [Hok _ _ Hptr _ _ _ <-] HP.
  destruct (Aptr_ctor_ok s P size) as (p & Hrun & Hpt & Hh & Hb & _ & Ho); [|done|lia|].
  { destruct Hok as [(U & K & D & Hinv) _]. apply Hinv. }
  exists p. split; [apply Hrun|]. split; [|done]. constructor; [apply Hpt| |done|done].
  rewrite Hb. apply Z.div_pos; [lia|reflexivity].
Qed.

Lemma flat_reset {B} s C A m L p prev P o (f : Aptr → M suvm B) :
  flat s C A m (option_list prev ++ L) → ptr_at C p prev P o →
  ∃ s' p', (reset p ≫= f) s = f p' s' ∧ flat s' C A m L ∧ same_static s s'.
Proof.
  intros [Hok Hh Hn Hptr Hfew Hz Hv HB] [((Hl & _) & _) Hb _ _]. destruct Hok as [(U & K & D & Hinv) Hsz].
  destruct (unlink_ok (HB := pool s) s C U K D ∅ L _ _ prev Hinv Hl) as (s' & v & Hread & Hdec & Hinv' & Hst & Em).
  pose proof Hst as (Eb & Es & Esl & _).
  destruct (flat_renew (pool s) s' C L A) as [Hok' Hh']; [split; [by exists U, K, D|done]|done|].
  eexists s', _. split; [|split; [|done]].
  - unfold reset. rewrite (proj2 (Z.ltb_ge _ _)) by lia. by rewrite ?bind_assoc, Hread, ?bind_assoc, Hdec.
  - constructor; rewrite ?Eb, ?Em; try done.
    + unfold npages in *. by rewrite Es.
    + intros i o' Hi Hnot Ho'. unfold slot_addr. rewrite Esl. by apply Hz.
    + intros Q. rewrite <- Hv. unfold view, slot_addr. by rewrite Em, Esl.
Qed.

Lemma move_bytes n p : move INT_SIZE n p = on_aptr (λ a, MOVE_APTR a (4 * n)) p.
Proof.
  unfold move, on_aptr, MOVE_APTR, set_offset, INT_SIZE. f_equal. f_equal.
  rewrite <- (i32_add_r _ (u64 _)), <- (i32_add_r _ (4 * n)). do 2 f_equal.
  unfold i32, u64. f_equal. Z.div_mod_to_equations. lia.
Qed.

Lemma ptr_move C p q P o n :
  ptr_at C p (Some q) P o → 0 ≤ P < 2 ^ 31 → 0 ≤ P + 4 * n < 2 ^ 31 → - 2 ^ 31 ≤ o + 4 * n < 2 ^ 31 →
  ptr_at C (move INT_SIZE n p) (Some q) (P + 4 * n) (o + 4 * n).
Proof.
  intros [Hpt Hb Hh Ho] HP HP' Ho'. rewrite move_bytes. constructor; [|done|done|].
  - apply points_move; [done|lia|lia|by rewrite Ho|done].
  - cbn [on_aptr m_aptr MOVE_APTR set_offset offset]. rewrite Ho. by apply i32_id.
Qed.

Lemma ptr_set s C A m L p prev P o : flat s C A m L → ptr_at C p prev P o → prm_ptr_set p = true.
Proof.
  intros [[(U & K & D & Hinv) _] _ _ _ _ _ _ _] [((Hl & _) & _) _ _ _]. unfold prm_ptr_set. destruct prev as [q|].
  - destruct Hl as [_ Hq]. apply (inv_cached _ _ _ _ _ _ _ _ _ _ Hinv) in Hq. rewrite orb_true_iff, Z.leb_le. right. lia.
  - simpl in Hl. by rewrite Hl.
Qed.

(** ** The tests of pointers *)

(** The first block of 64 [int]s, and what its second [int] has to be. *)
Definition first_int : Z := 16 * 126322432.
Definition calm (m : Z → Z) : Prop := peek m (first_int + 4 * 1) = 0.

(** A test that passes, and leaves the blocks [A']. *)
Definition passes_from (A A' : gmap Z Z) (test : M suvm bool) : Prop :=
  ∀ s C m, flat s C A m [] → calm m →
  ∃ s' C' m', test s = Ok (true, s') ∧ flat s' C' A' m' [] ∧ calm m'.

Lemma calm_poke m P v : calm m → first_int + 8 ≤ P ∨ P + 4 ≤ first_int + 4 → calm (poke_int m P v).
Proof. intros Hm HP. unfold calm. rewrite peek_poke_ne by lia. exact Hm. Qed.
End flat.

(** *** One step of a test each

    The state is the one of the hypothesis [flat], the pointer's position that
    of its hypothesis [ptr_at]. *)

Ltac closed := vm_compute; repeat split; congruence.
Ltac rest_of prev L :=
  lazymatch prev with None => L | Some _ => lazymatch L with _ :: ?L' => L' end end.
Ltac t_alloc i k :=
  lazymatch goal with
  | Hf : flat ?b ?s ?C ?A ?m ?L |- context [(alloc_ints ?n ≫= ?f) ?s] =>
      let s' := fresh "s" in let Hr := fresh "Hr" in let Hf' := fresh "Hf" in
      destruct (flat_alloc b s C A m L n i k f Hf) as (s' & Hr & Hf' & _);
        [lia|reflexivity|lia|vm_compute; reflexivity|];
      rewrite Hr; clear Hr Hf
  end.
Ltac t_ctor :=
  lazymatch goal with
  | Hf : flat ?b ?s ?C ?A ?m ?L |- context [(Aptr_ctor (?b + ?P) ?n ≫= ?f) ?s] =>
      let p := fresh "p" in let Hr := fresh "Hr" in let Hp := fresh "Hp" in let Hi := fresh "Hi" in
      destruct (flat_ctor b s C A m L P n f Hf) as (p & Hr & Hp & Hi); [lia|];
      rewrite Hr; clear Hr; cbv zeta; rewrite ?Hi
  end.
Ltac t_facts :=
  repeat match goal with
  | Hf : flat ?b ?s ?C ?A ?m ?L, Hp : ptr_at ?C ?p ?prev ?P ?o |- context [prm_ptr_set ?p] =>
      rewrite (ptr_set b s C A m L p prev P o Hf Hp)
  | Hp : ptr_at ?C ?p ?prev ?P ?o |- context [offset (m_aptr ?p)] => rewrite (at_offset C p prev P o Hp)
  end.
Ltac t_load :=
  lazymatch goal with
  | Hf : flat ?b ?s ?C ?A ?m ?L, Hp : ptr_at ?C ?p ?prev ?P ?o |- context [(load_int ?p ≫= ?f) ?s] =>
      let L' := rest_of prev L in
      let s' := fresh "s" in let C' := fresh "C" in let p' := fresh "p" in
      let Hr := fresh "Hr" in let Hf' := fresh "Hf" in let Hs := fresh "Hs" in let Hp' := fresh "Hp" in
      let HC := fresh "HC" in let Hi := fresh "Hi" in
      destruct (flat_load b s C A m L' p prev P o f Hf Hp) as (s' & C' & p' & Hr & Hf' & Hs & Hp' & HC & _ & Hi);
        [closed|simpl; lia|closed|];
      rewrite Hr; clear Hr Hf Hp; cbv zeta; cbn [fst snd]; t_facts
  end.
Ltac t_store :=
  lazymatch goal with
  | Hf : flat ?b ?s ?C ?A ?m ?L, Hp : ptr_at ?C ?p ?prev ?P ?o |- context [(store_int ?p ?v ≫= ?f) ?s] =>
      let L' := rest_of prev L in
      let s' := fresh "s" in let C' := fresh "C" in let p' := fresh "p" in
      let Hr := fresh "Hr" in let Hf' := fresh "Hf" in let Hs := fresh "Hs" in let Hp' := fresh "Hp" in
      let HC := fresh "HC" in let Hi := fresh "Hi" in
      destruct (flat_store b s C A m L' p prev P o v f Hf Hp) as (s' & C' & p' & Hr & Hf' & Hs & Hp' & HC & _ & Hi);
        [closed|simpl; lia|closed|];
      rewrite Hr; clear Hr Hf Hp; cbv zeta; t_facts
  end.
Ltac t_move n :=
  lazymatch goal with
  | Hp : ptr_at ?C ?p (Some ?q) ?P ?o |- context [move INT_SIZE n ?p] =>
      let Hp' := fresh "Hp" in
      pose proof (ptr_move C p q P o n Hp ltac:(closed) ltac:(closed) ltac:(closed)) as Hp'; t_facts; clear Hp
  end.
Ltac t_free i k :=
  lazymatch goal with
  | Hf : flat ?b ?s ?C ?A ?m ?L |- context [(free_ints _ ≫= ?f) ?s] =>
      let s' := fresh "s" in let Hr := fresh "Hr" in let Hf' := fresh "Hf" in
      destruct (flat_free b s C A m L i k f Hf) as (s' & Hr & Hf' & _); [reflexivity|];
      rewrite Hr; clear Hr Hf
  end.
Ltac t_reset :=
  lazymatch goal with
  | Hf : flat ?b ?s ?C ?A ?m ?L, Hp : ptr_at ?C ?p ?prev ?P ?o |- context [(reset ?p ≫= ?f) ?s] =>
      let L' := rest_of prev L in
      let s' := fresh "s" in let p' := fresh "p" in let Hr := fresh "Hr" in let Hf' := fresh "Hf" in
      destruct (flat_reset b s C A m L' p prev P o f Hf Hp) as (s' & p' & Hr & Hf' & _);
      rewrite Hr; clear Hr Hf Hp
  end.
Ltac t_done :=
  lazymatch goal with
  | Hf : flat ?b ?s ?C ?A ?m ?L |- context [mret ?r ?s] =>
      exists s, C, m; split; [|split; [exact Hf|]]; [unfold mret, M_ret; do 2 f_equal|]
  end.

Section tests.
Context `{HS : Sgx, HL : !SgxLaws} (bs : Z).

Lemma test_create_passes : passes_from bs ∅ ∅ test_Aptr_create.
Proof.
  intros s C m Hf Hm. unfold test_Aptr_create. t_alloc 126322432 4. t_ctor. t_free 126322432 4. t_reset. t_done; done.
Qed.

Lemma test_destroy_passes : passes_from bs ∅ ∅ test_Aptr_destroy.
Proof.
  intros s C m Hf Hm. unfold test_Aptr_destroy. t_alloc 126322432 4. t_ctor. t_reset. t_free 126322432 4. t_done; done.
Qed.

Lemma test_dereference_passes : passes_from bs ∅ ∅ test_Aptr_dereference.
Proof.
  intros s C m Hf Hm. unfold test_Aptr_dereference. t_alloc 126322432 4. t_ctor. t_store. t_load.
  t_free 126322432 4. t_reset. t_done.
  apply calm_poke; [done|]. unfold first_int. lia.
Qed.

Lemma test_add_passes : passes_from bs ∅ ∅ test_Aptr_operator_add.
Proof.
  intros s C m Hf Hm. unfold test_Aptr_operator_add, incr. t_alloc 126322432 4. t_ctor. t_store. t_load.
  t_move 1. t_load. t_free 126322432 4. t_reset. t_done.
  - rewrite peek_poke, peek_poke_ne by lia. fold first_int. by rewrite Hm.
  - apply calm_poke; [done|]. unfold first_int. lia.
Qed.

Lemma test_sub_passes : passes_from bs ∅ ∅ test_Aptr_operator_sub.
Proof.
  intros s C m Hf Hm. unfold test_Aptr_operator_sub, incr, decr. t_alloc 126322432 4. t_ctor. t_store. t_load.
  t_move 1. t_load. t_move (-1). t_load. t_free 126322432 4. t_reset. t_done.
  - rewrite peek_poke, peek_poke_ne by lia. fold first_int. by rewrite Hm.
  - apply calm_poke; [done|]. unfold first_int. lia.
Qed.

Lemma test_double_passes : passes_from bs ∅ ∅ test_Aptr_double_dereference.
Proof.
  intros s C m Hf Hm. unfold test_Aptr_double_dereference. t_alloc 126322432 4. t_ctor. t_store. t_load. t_load.
  t_free 126322432 4. t_reset. t_done.
  apply calm_poke; [done|]. unfold first_int. lia.
Qed.

(** The block of the first of the two stays allocated. *)
Definition leaked : gmap Z Z := <[126321664 := 9]> ∅.

Lemma test_overflow_passes : passes_from bs ∅ leaked test_Aptr_dereference_add_dereference_with_overflow.
Proof.
  intros s C m Hf Hm. unfold test_Aptr_dereference_add_dereference_with_overflow, plus_eq.
  t_alloc 126321664 9. t_ctor. t_store. t_load. t_move 1025. t_reset. t_done.
  apply calm_poke; [done|]. unfold first_int. lia.
Qed.

Lemma test_underflow_passes : passes_from bs leaked leaked test_Aptr_dereference_add_dereference_with_underflow.
Proof.
  intros s C m Hf Hm. unfold test_Aptr_dereference_add_dereference_with_underflow, plus_eq, minus_eq.
  t_alloc 126320640 9. t_ctor. t_store. t_load. t_move 1025. t_store. t_load. t_move (Z.opp 10). t_move (Z.opp 1015). t_load.
  t_free 126320640 9. t_reset. t_done.
  do 2 (apply calm_poke; [|unfold first_int; lia]). done.
Qed.

(** A copy of a pointer linked at the start of its page compares equal to it. *)
Lemma copy_equal C p P :
  ptr_at C p (Some (P / PAGE_SIZE)) P 0 → m_base_page_index p = P / PAGE_SIZE → 0 ≤ P < 2 ^ 31 →
  ptr_at C (do_copy p) None P PAGE_SIZE ∧ op_eq (do_copy p) p = true.
Proof.
  intros [Hpt Hb Hh Ho] Eb HP. pose proof Hpt as ((_ & _ & Hpage) & Ht & _).
  assert (page (m_aptr p) = 0) as Epg.
  { destruct (target_eq (m_base_page_index p) (m_aptr p)) as [E _]. rewrite E, Ho, Eb in Ht. clear -Ht Hpage HP.
    rewrite <- Hpage in Ht. rewrite Z.add_0_r, i32_add_r in Ht. rewrite <- Hpage. revert Ht. clear Hpage.
    unfold i32, PAGE_SIZE. generalize (page (m_aptr p)). intros g Ht. Z.div_mod_to_equations. lia. }
  split.
  - constructor; [|exact Hb|exact Hh|].
    + apply (do_copy_points C C p (Some (P / PAGE_SIZE))); [done|rewrite Ho; unfold PAGE_SIZE; lia..].
    + simpl. by rewrite Ho.
  - unfold op_eq. cbn [do_copy m_aptr m_base_page_index offset page]. rewrite Ho, Epg, Z.eqb_refl. reflexivity.
Qed.

Lemma test_assignment_passes : passes_from bs leaked leaked test_assignment_operation.
Proof.
  intros s C m Hf Hm. unfold test_assignment_operation, assign. t_alloc 126322432 4. t_alloc 126322448 3.
  t_ctor. t_store. t_load. t_ctor. t_store.
  pose proof (ptr_more _ _ _ _ _ _ Hp Hs1) as Hq. t_load. pose proof (ptr_more _ _ _ _ _ _ Hq Hs2) as Hq'.
  rewrite ?bind_assoc. t_reset. rewrite bind_ret. cbn [from_option id]. clear Hq.
  destruct (copy_equal C3 p1 (16 * 126322432)) as [Hd Heq]; [exact Hq'|congruence|lia|].
  t_load. pose proof (ptr_more _ _ _ _ _ _ Hq' Hs3) as Hq. t_free 126322432 4. t_free 126322448 3. t_reset. t_reset. t_done.
  - rewrite Heq, !peek_poke, peek_poke_ne, peek_poke by lia.
    assert (prm_ptr (m_aptr p1) = prm_ptr (m_aptr p4)) as ->; [|by rewrite (Z.eqb_refl (prm_ptr _))].
    pose proof (lookup_weaken _ _ _ _ (lookup_weaken _ _ _ _ HC0 Hs1) Hs2) as E.
    change (16 * 126322448 / PAGE_SIZE) with (16 * 126322432 / PAGE_SIZE) in HC2. congruence.
  - do 2 (apply calm_poke; [|unfold first_int; lia]). done.
Qed.
End tests.

(** ** The test of eviction

    A page filled through the write hint is tracked from there on: whatever is
    evicted since, a dereference finds it again.  The page filled without the
    hint is not, and the test does not read it. *)

Section loops.
Context `{HS : Sgx, HB : PoolBase}.

Lemma store_int_list m a v l : store_bytes m a (bytes_of_int v ++ l) = store_bytes (store_bytes m a (bytes_of_int v)) (a + 4) l.
Proof. cbn [bytes_of_int app store_bytes]. f_equal. lia. Qed.

Lemma fill_run f i n : ∀ k s, 0 ≤ i < CACHE_CAPACITY → 0 ≤ k → 4 * (k + Z.of_nat n) ≤ PAGE_SIZE →
  fill_ints n k f (slot_addr s i) s =
  Ok (tt, set_prm s (store_bytes (prm s) (slot_addr s i + 4 * k) (bytes_of_ints (f <$> seqZ k (Z.of_nat n))))).
Proof.
  induction n as [|n IH]; intros k s Hi Hk Hn; [by destruct s|]. cbn [fill_ints].
  rewrite seqZ_cons by lia. rewrite fmap_cons. cbn [bytes_of_ints].
  unfold store_int_at, store_block. rewrite ?bind_assoc, bind_gets. cbn [id].
  change (Z.of_nat (length (bytes_of_int (f k)))) with 4. unfold INT_SIZE. rewrite range_in_slab_ok by (done || lia).
  rewrite bind_modify, store_int_list. set (s1 := set_prm s _).
  change (slot_addr s i) with (slot_addr s1 i). rewrite IH by (done || lia).
  replace (Z.pred (Z.of_nat (S n))) with (Z.of_nat n) by lia. change (Z.succ k) with (k + 1). do 3 f_equal.
  change (slot_addr s1 i) with (slot_addr s i). subst s1. cbn [prm set_prm]. f_equal. lia.
Qed.

Lemma check_run s i n : ∀ k res, 0 ≤ i < CACHE_CAPACITY → 0 ≤ k → 4 * (k + Z.of_nat n) ≤ PAGE_SIZE →
  ints_of_bytes (load_bytes (prm s) (slot_addr s i + 4 * k) (4 * n)) = i32 <$> seqZ k (Z.of_nat n) →
  check_ints n k (slot_addr s i) res s = Ok (res, s).
Proof.
  induction n as [|n IH]; intros k res Hi Hk Hn E; [done|]. cbn [check_ints].
  rewrite seqZ_cons in E by lia. rewrite fmap_cons in E. replace (4 * S n)%nat with (S (S (S (S (4 * n))))) in E by lia.
  cbn [load_bytes ints_of_bytes] in E. injection E as E1 E2.
  unfold load_int_at, load_block. rewrite ?bind_assoc, bind_gets. cbn [id]. unfold INT_SIZE.
  rewrite range_in_slab_ok by (done || lia). rewrite !bind_ret. cbn [load_bytes nth]. rewrite E1.
  rewrite i32_id by (unfold PAGE_SIZE in *; lia). rewrite Z.eqb_refl, andb_true_r. apply IH; [done|lia|lia|].
  replace (Z.pred (Z.of_nat (S n))) with (Z.of_nat n) in E2 by lia. change (Z.succ k) with (k + 1) in E2.
  rewrite <- E2. do 2 f_equal. lia.
Qed.
End loops.

Section evict.
Context `{HS : Sgx, HB : PoolBase, HL : !SgxLaws}.

(** A page of [int]s. *)
Definition ints_page (f : Z → Z) : list Z := bytes_of_ints (f <$> seqZ 0 (Z.of_nat 1024)).

Lemma length_ints_page f : length (ints_page f) = PAGE_BYTES.
Proof.
  pose proof (length_bytes_of_ints (f <$> seqZ 0 (Z.of_nat 1024))) as H. rewrite length_fmap, length_seqZ in H.
  apply Nat2Z.inj. unfold ints_page. rewrite H, page_bytes. reflexivity.
Qed.

(** The dereference of a pointer to the start of a page that holds none yet. *)
Lemma star_page s C V p P :
  suvm_ok s C V [] → points C (m_base_page_index p) (m_aptr p) None P → P mod PAGE_SIZE = 0 →
  room s [] (P / PAGE_SIZE) →
  ∃ s' C' V' p' i, (∀ B (f : Z * Aptr → M suvm B), (star p ≫= f) s = f (slot_addr s' i, p') s') ∧
    suvm_ok s' C' V' [P / PAGE_SIZE] ∧ link_ok C' (m_base_page_index p') (m_aptr p') (Some (P / PAGE_SIZE)) ∧
    m_base_page_index p' = m_base_page_index p ∧ C' !! (P / PAGE_SIZE) = Some i ∧ 0 ≤ i < CACHE_CAPACITY ∧
    (∀ q, is_Some (V' !! q) → is_Some (V !! q) ∨ q = P / PAGE_SIZE) ∧ same_static s s' ∧
    (if hint_write (m_aptr p)
     then V' !! (P / PAGE_SIZE) = Some (slot_bytes s' i) ∧ epc_arr s' !! i = Some (slot_val s' i true)
     else V' = V ∧ ∀ b, V !! (P / PAGE_SIZE) = Some b → slot_bytes s' i = b).
Proof.
  intros Hok Hpt HP Hroom. destruct (deref_at s C V [] (m_base_page_index p) (m_aptr p) None P Hok Hpt Hroom)
    as (s' & C' & V' & a' & i & Hrun & Hok' & Hw & Hpt' & _ & _ & HC & Hi & _ & Hst & Hd).
  exists s', C', V', (on_aptr (λ _, a') p), i. split.
  { intros B f. unfold star. rewrite bind_assoc, Hrun, HP, Z.add_0_r. by rewrite bind_ret. }
  split; [exact Hok'|]. split; [apply Hpt'|]. do 3 (split; [done|]). split; [|done].
  intros q Hq. destruct (written_pages _ _ _ _ Hw q Hq) as [|(Q & HQ & ->)]; [by left|right].
  simpl in HQ. f_equal. lia.
Qed.

(** A pointer is made, its page filled, and the pointer destroyed. *)
Lemma fill_page_hinted s C V P n f :
  suvm_ok s C V [] → 0 ≤ P < 2 ^ 31 → g_base_pool_ptr s + P < 2 ^ 63 → P mod PAGE_SIZE = 0 → room s [] (P / PAGE_SIZE) →
  ∃ s' C' V', (∀ B (g : M suvm B), (ptr ← Aptr_ctor (g_base_pool_ptr s + P) n; r ← star (set_hint true ptr);
      fill_ints 1024 0 f r.1;; _ ← reset r.2; g) s = g s') ∧
    suvm_ok s' C' V' [] ∧ V' !! (P / PAGE_SIZE) = Some (ints_page f) ∧
    (∀ q, is_Some (V' !! q) → is_Some (V !! q) ∨ q = P / PAGE_SIZE) ∧ same_static s s'.
Proof.
  intros Hok HP Hptr Hm Hroom. assert (geometry s) as Hgeo by (destruct Hok as [(U & K & D & Hinv) _]; apply Hinv).
  destruct (Aptr_ctor_ok s P n Hgeo HP Hptr) as (p & Hctor & Hpt & Hh & Hb & _).
  destruct (star_page s C V (set_hint true p) P Hok (Hpt C) Hm Hroom)
    as (s1 & C1 & V1 & p1 & i & Hstar & Hok1 & Hl & Eb & HC & Hi & HV & Hst & Hd). destruct Hd as [HV1 Hd].
  destruct (write_written s1 C1 V1 _ _ i 0 (ints_page f) Hok1 HC) as (V2 & Hok2 & Hw);
    [lia|rewrite length_ints_page, page_bytes; lia|done|done|].
  destruct (reset_ok _ C1 V2 [] p1 (Some (P / PAGE_SIZE)) Hok2 Hl) as (s3 & p3 & Hreset & Hok3 & _ & _ & Hst3).
  { rewrite Eb. cbn [set_hint on_aptr m_base_page_index]. rewrite Hb. apply Z.div_pos; [lia|reflexivity]. }
  exists s3, C1, V2. split; [|split; [exact Hok3|split; [|split; [|by eapply same_static_trans]]]].
  - intros B g. rewrite Hctor, Hstar. cbn [fst snd].
    rewrite (bind_Ok _ _ _ _ _ (fill_run f i 1024 0 s1 Hi ltac:(lia) ltac:(unfold PAGE_SIZE; lia))). apply Hreset.
  - assert (is_Some (V2 !! (P / PAGE_SIZE))) as [b E].
    { pose proof (written_bytes _ _ _ _ Hw 0 (u8 (f 0)) eq_refl) as E.
      rewrite Z.add_0_r, byte_at_split in E by (unfold PAGE_SIZE; lia).
      destruct (V2 !! (P / PAGE_SIZE)); [by eexists|done]. }
    destruct Hok2 as [(U & K & D & Hinv) _]. pose proof (inv_bytes _ _ _ _ _ _ _ _ _ _ Hinv _ b E) as Hbytes.
    rewrite HC in Hbytes. destruct Hbytes as [Hbytes _]. rewrite E, <- Hbytes. unfold slot_bytes. cbn [prm set_prm].
    rewrite <- (length_ints_page f). change (slot_addr (set_prm s1 _) i) with (slot_addr s1 i). rewrite Z.add_0_r.
    rewrite load_store_bytes_eq. f_equal. apply u8_bytes_of_ints.
  - intros q Hq. destruct (written_pages _ _ _ _ Hw q Hq) as [|(Q & HQ & ->)]; [by apply HV|right].
    rewrite length_ints_page, page_bytes in HQ. unfold PAGE_SIZE in *. Z.div_mod_to_equations. lia.
Qed.

(** Without the hint the page is not tracked. *)
Lemma fill_page s C V P n f :
  suvm_ok s C V [] → 0 ≤ P < 2 ^ 31 → g_base_pool_ptr s + P < 2 ^ 63 → P mod PAGE_SIZE = 0 → room s [] (P / PAGE_SIZE) →
  V !! (P / PAGE_SIZE) = None →
  ∃ s' C', (∀ B (g : M suvm B), (ptr ← Aptr_ctor (g_base_pool_ptr s + P) n; r ← star ptr;
      fill_ints 1024 0 f r.1;; _ ← reset r.2; g) s = g s') ∧
    suvm_ok s' C' V [] ∧ same_static s s'.
Proof.
  intros Hok HP Hptr Hm Hroom HVn. assert (geometry s) as Hgeo by (destruct Hok as [(U & K & D & Hinv) _]; apply Hinv).
  destruct (Aptr_ctor_ok s P n Hgeo HP Hptr) as (p & Hctor & Hpt & Hh & Hb & _).
  destruct (star_page s C V p P Hok (Hpt C) Hm Hroom)
    as (s1 & C1 & V1 & p1 & i & Hstar & Hok1 & Hl & Eb & HC & Hi & _ & Hst & Hd).
  rewrite Hh in Hd. destruct Hd as [-> _].
  set (m := store_bytes (prm s1) (slot_addr s1 i + 4 * 0) (ints_page f)).
  assert (suvm_ok (set_prm s1 m) C1 V [P / PAGE_SIZE]) as Hok2.
  { apply (untracked_write s1 C1 V _ (P / PAGE_SIZE) i); [done..|]. intros a Ha. apply rd8_store_bytes_ne.
    rewrite length_ints_page, page_bytes. lia. }
  destruct (reset_ok _ C1 V [] p1 (Some (P / PAGE_SIZE)) Hok2 Hl) as (s3 & p3 & Hreset & Hok3 & _ & _ & Hst3).
  { rewrite Eb, Hb. apply Z.div_pos; [lia|reflexivity]. }
  exists s3, C1. split; [|split; [exact Hok3|by eapply same_static_trans]].
  intros B g. rewrite Hctor, Hstar. cbn [fst snd].
  rewrite (bind_Ok _ _ _ _ _ (fill_run f i 1024 0 s1 Hi ltac:(lia) ltac:(unfold PAGE_SIZE; lia))). apply Hreset.
Qed.

(** A tracked page is read back. *)
Lemma check_page s C V P n :
  suvm_ok s C V [] → 0 ≤ P < 2 ^ 31 → g_base_pool_ptr s + P < 2 ^ 63 → P mod PAGE_SIZE = 0 → room s [] (P / PAGE_SIZE) →
  V !! (P / PAGE_SIZE) = Some (ints_page (λ i, i)) →
  ∃ s' C', (∀ B (g : bool → M suvm B), (ptr ← Aptr_ctor (g_base_pool_ptr s + P) n; r ← star ptr;
      res ← check_ints 1024 0 r.1 true; _ ← reset r.2; g res) s = g true s') ∧
    suvm_ok s' C' V [] ∧ same_static s s'.
Proof.
  intros Hok HP Hptr Hm Hroom HV. assert (geometry s) as Hgeo by (destruct Hok as [(U & K & D & Hinv) _]; apply Hinv).
  destruct (Aptr_ctor_ok s P n Hgeo HP Hptr) as (p & Hctor & Hpt & Hh & Hb & _).
  destruct (star_page s C V p P Hok (Hpt C) Hm Hroom)
    as (s1 & C1 & V1 & p1 & i & Hstar & Hok1 & Hl & Eb & HC & Hi & _ & Hst & Hd).
  rewrite Hh in Hd. destruct Hd as [-> Hbytes]. specialize (Hbytes _ HV).
  destruct (reset_ok _ C1 V [] p1 (Some (P / PAGE_SIZE)) Hok1 Hl) as (s3 & p3 & Hreset & Hok3 & _ & _ & Hst3).
  { rewrite Eb, Hb. apply Z.div_pos; [lia|reflexivity]. }
  exists s3, C1. split; [|split; [exact Hok3|by eapply same_static_trans]].
  intros B g. rewrite Hctor, Hstar. cbn [fst snd].
  assert (check_ints 1024 0 (slot_addr s1 i) true s1 = Ok (true, s1)) as E.
  { apply check_run; [done|lia|unfold PAGE_SIZE; lia|]. rewrite Z.mul_0_r, Z.add_0_r.
    unfold slot_bytes in Hbytes. change (4 * 1024)%nat with PAGE_BYTES. rewrite Hbytes. unfold ints_page.
    rewrite ints_bytes. f_equal. }
  rewrite (bind_Ok _ _ _ _ _ E). apply Hreset.
Qed.
End evict.

Section all.
Context `{HS : Sgx, HL : !SgxLaws} (bs : Z).

(** Blocks survive the paging of the pages of one of them. *)
Lemma heap_paged h A s C V q i k :
  heap_at bs h A → suvm_ok (HB := h) s C V [] → g_base_pool_ptr s = bs → A !! i = Some k →
  (∀ r, is_Some (V !! r) → r = q) → 16 * i ≤ q * PAGE_SIZE → q * PAGE_SIZE + PAGE_SIZE ≤ 16 * i + 16 * 2 ^ k →
  heap_at bs (pool s) A.
Proof.
  intros Hh Hok Hb Hi HV H1 H2. pose proof Hh as [Ho E1 E2 E3 E4].
  assert (mem5 (pool s) = mem5 h) as Em.
  { destruct Hok as [(U & K & D & Hinv) _]. exact (inv_mem5 _ _ _ _ _ _ _ _ _ _ Hinv). }
  constructor; rewrite ?Em; try done. apply (paging_owns h s C V []); [done|done|].
  intros r Hr%HV. subst r. exists i, k. split; [done|]. intros a Ha. unfold in_page in Ha. unfold in_block, addr_of.
  rewrite Em, E1, E3. rewrite Hb in Ha. lia.
Qed.

Lemma free_step {B} s A i k (f : unit → M suvm B) :
  heap_at bs (pool s) A → A !! i = Some k →
  ∃ s', (free_ints (bs + 16 * i) ≫= f) s = f tt s' ∧ heap_at bs (pool s') (delete i A).
Proof.
  intros Hh Hi. destruct (free_at _ _ A i k Hh Hi) as (h & Hrun & Hh'). exists (set_pool s h). split; [|done].
  unfold free_ints, on_pool. by rewrite (bind_zoom _ _ _ _ _ _ _ Hrun).
Qed.

Lemma test_evict_passes s C m :
  flat bs s C leaked m [] → ∃ s', test_evict_due_to_unlinked_state s = Ok (true, s').
Proof.
  intros Hf. unfold test_evict_due_to_unlinked_state. t_alloc 126322176 8. t_alloc 126320640 8.
  destruct Hf as [Hok Hh Hn Hptr _ _ _ Eb]. pose proof Hok as [(U & K & D & Hinv) _].
  assert (∀ s', same_static s1 s' → ∀ p, 0 ≤ p < 524288 → room s' [] p) as Hroom.
  { intros s' (_ & Es & _) p Hp. unfold room, npages in *. rewrite Es, Hn. simpl. split_and!; [lia|lia|lia|].
    pose proof capacity. unfold MAX_NUM_OF_THREADS_OPTIMIZATION. lia. }
  rewrite <- Eb.
  destruct (fill_page_hinted (HB := pool s1) s1 C ∅ (16 * 126322176) 1024 (λ i, i) Hok)
    as (s2 & C2 & V2 & Hr2 & Hok2 & HV2 & Hdom & Hst2); [lia|lia|reflexivity|by apply Hroom|].
  rewrite Hr2. clear Hr2. rewrite <- (proj1 Hst2).
  assert (∀ q, is_Some (V2 !! q) → q = 16 * 126322176 / PAGE_SIZE) as Hone.
  { intros q [H|H]%Hdom; [|done]. rewrite lookup_empty in H. by destruct H. }
  destruct (fill_page (HB := pool s1) s2 C2 V2 (16 * 126320640) 1024 (λ _, 0) Hok2)
    as (s3 & C3 & Hr3 & Hok3 & Hst3); [lia|rewrite (proj1 Hst2); lia|reflexivity|by apply Hroom| |].
  { apply eq_None_not_Some. intros H%Hone. vm_compute in H. discriminate H. }
  rewrite Hr3. clear Hr3. pose proof (same_static_trans _ _ _ Hst2 Hst3) as Hst. rewrite <- (proj1 Hst3).
  destruct (check_page (HB := pool s1) s3 C3 V2 (16 * 126322176) 1024 Hok3)
    as (s4 & C4 & Hr4 & Hok4 & Hst4); [lia|rewrite (proj1 Hst); lia|reflexivity|by apply Hroom|done|].
  rewrite Hr4. clear Hr4. pose proof (same_static_trans _ _ _ Hst Hst4) as Hst5.
  rewrite (proj1 Hst3), (proj1 Hst2), Eb.
  assert (heap_at bs (pool s4) (<[126320640:=8]> (<[126322176:=8]> leaked))) as Hh4.
  { apply (heap_paged (pool s1) _ s4 C4 V2 (16 * 126322176 / PAGE_SIZE) 126322176 8); try done.
    by rewrite (proj1 Hst5). }
  destruct (free_step s4 _ 126322176 8 (λ _, free_ints (bs + 16 * 126320640);; mret true) Hh4 eq_refl) as (s5 & Hr5 & Hh5).
  rewrite Hr5. destruct (free_step s5 _ 126320640 8 (λ _, mret true) Hh5 eq_refl) as (s6 & Hr6 & _).
  exists s6. exact Hr6.
Qed.

(** *** All of them *)

Lemma run_passed {B} name test r s s' (f : list string * bool → M suvm B) :
  test s = Ok (true, s') → r.2 = true → (run_test name test r ≫= f) s = f (r.1, true) s'.
Proof.
  intros Ht Hr. unfold run_test. rewrite bind_assoc, (bind_Ok _ _ _ _ _ Ht), bind_ret, Hr. reflexivity.
Qed.

Lemma pool_passes s C m test :
  passes bs test → flat bs s C ∅ m [] → ∃ s', on_pool test s = Ok (true, s') ∧ flat bs s' C ∅ m [].
Proof.
  intros Ht Hf. destruct (Ht _ (flat_heap _ _ _ _ _ _ Hf)) as (h & Hrun & Hh). exists (set_pool s h).
  split; [|by eapply flat_pool]. unfold on_pool, zoom. by rewrite Hrun.
Qed.

Lemma initialize_flat s slab_ptr :
  fresh s → 0 < bs → bs + 2 ^ 31 ≤ 2 ^ 63 → PAGE_SIZE ≤ slab_ptr < 2 ^ 62 → (∀ a, rd8 (prm s) a = 0) →
  ∃ s', initialize_aptr bs LIB_POOL_SIZE true true slab_ptr 0 s = Ok (0, s') ∧ flat bs s' ∅ ∅ (λ _, 0) [].
Proof.
  intros Hs Hb Hptr Hslab Hz.
  destruct (initialize_ok s bs LIB_POOL_SIZE slab_ptr Hs (lib_pool_fits bs Hb) Hslab)
    as (s' & Hrun & Hok & Hown & Hn & _ & Eb & _).
  destruct (initialize_run s bs LIB_POOL_SIZE slab_ptr Hs (lib_pool_fits bs Hb)) as
    (s2 & E & Hrun2 & _ & _ & _ & _ & _ & _ & _ & _ & _ & _ & _ & Ha & Hnb & Hzp & Hprm); [lia|].
  rewrite Hrun in Hrun2. injection Hrun2 as <-. exists s'. split; [exact Hrun|]. constructor.
  - exact Hok.
  - constructor; [exact Hown|exact Ha|by rewrite Hnb, lib_blocks_eq|exact Hzp|lia].
  - rewrite Hn. reflexivity.
  - exact Hptr.
  - rewrite dom_empty_L. set_solver.
  - intros i o _ _ _. by rewrite Hprm.
  - done.
  - exact Eb.
Qed.
End all.

(** One call of [run_test], by the lemma that the test passes. *)
Ltac t_passed Hlem :=
  lazymatch goal with
  | Hf : flat ?b ?s ?C ?A ?m [], Hm : calm ?m |- _ =>
      let s' := fresh "s" in let C' := fresh "C" in let m' := fresh "m" in
      let Ht := fresh "Ht" in let Hf' := fresh "Hf" in let Hm' := fresh "Hm" in
      destruct (Hlem s C m Hf Hm) as (s' & C' & m' & Ht & Hf' & Hm');
      rewrite (run_passed _ _ _ _ _ _ Ht) by reflexivity; clear Ht Hf Hm
  end.
Ltac p_passed Hlem :=
  lazymatch goal with
  | Hf : flat ?b ?s ?C ?A ?m [] |- _ =>
      let s' := fresh "s" in let Ht := fresh "Ht" in let Hf' := fresh "Hf" in
      destruct (pool_passes b s C m _ (Hlem b) Hf) as (s' & Ht & Hf');
      rewrite (run_passed _ _ _ _ _ _ Ht) by reflexivity; clear Ht Hf
  end.

(** C29. The library passes its tests: on the pool of two gigabytes it allocates,
    wherever that lies, with enclave memory zero to begin with, and whatever the
    cipher, the call that runs the tests prints none as failed and returns 0. *)
Theorem library_tests_pass `{HS : Sgx, HL : !SgxLaws} s ptr slab_ptr :
  fresh s → 0 < ptr → ptr + 2 ^ 31 ≤ 2 ^ 63 → PAGE_SIZE ≤ slab_ptr < 2 ^ 62 → (∀ a, rd8 (prm s) a = 0) →
  ∃ s1 s2, initialize_aptr ptr LIB_POOL_SIZE true true slab_ptr 0 s = Ok (0, s1) ∧
    ecall_samples_sample ptr s1 = Ok (([], 0), s2).
Proof.
  intros Hs Hb Hptr Hslab Hz. destruct (initialize_flat ptr s slab_ptr Hs Hb Hptr Hslab Hz) as (s1 & Hrun & Hf).
  assert (calm (λ _, 0)) as Hm by reflexivity. exists s1. unfold ecall_samples_sample.
  p_passed test_malloc_passes. p_passed test_roundup_passes. p_passed test_size_passes. p_passed test_alignment_passes.
  t_passed (test_create_passes ptr). t_passed (test_destroy_passes ptr). t_passed (test_dereference_passes ptr).
  t_passed (test_add_passes ptr). t_passed (test_sub_passes ptr). t_passed (test_double_passes ptr).
  match goal with |- context [(run_test _ _ _ ≫= _) ?st] =>
    rewrite (run_passed _ test_Aptr_dereference_add_dereference_no_overflow _ st st _ eq_refl) by reflexivity end.
  t_passed (test_overflow_passes ptr). t_passed (test_underflow_passes ptr). t_passed (test_assignment_passes ptr).
  match goal with H : flat _ _ _ _ _ _ |- _ => destruct (test_evict_passes ptr _ _ _ H) as [send Ht] end.
  exists send. split; [exact Hrun|].
  rewrite (run_passed _ _ _ _ _ _ Ht) by reflexivity. reflexivity.
Qed.

#[local] Existing Instances toy_sgx toy_laws.

Lemma library_tests_pass_witness :
  ∃ s1 s2, initialize_aptr 65536 LIB_POOL_SIZE true true 8200 0 blank = Ok (0, s1) ∧
    ecall_samples_sample 65536 s1 = Ok (([], 0), s2).
Proof.
  apply library_tests_pass.
  - split; [reflexivity|]. split; reflexivity.
  - lia.
  - lia.
  - unfold PAGE_SIZE. lia.
  - intros a. unfold rd8. cbn [blank prm]. rewrite lookup_empty. reflexivity.
Defined.
