(* ===== verification/Launch.v ===== *)
(** * Starting an enclave

    [initialize_enclave] and [print_error_message], which every untrusted program
    of the repository has a copy of: the launch token saved by an earlier start
    is read from a file in the user's home directory, the SDK's loader is called
    with it, and the token is saved where the loader changed it.  The loader, the
    user's record and what the file system permits are parameters, and so is the
    directory the process is in, which the [main] of every sample but
    [suvm_read_write_sample] sets to that of its own executable. *)

From Stdlib Require Import String Ascii.
From S2P Require Import Prelude CString Rpc.

(** ** What the host gives *)

(** The characters of a literal. *)
Fixpoint chars (s : string) : list Z :=
  match s with
  | EmptyString => []
  | String c s' => Z.of_N (N_of_ascii c) :: chars s'
  end.
Definition newline : list Z := [10].
Definition quote : list Z := [34].

(** Status codes of the SDK. *)
Class SgxErrors := {
  sgx_status :: SgxStatus;
  SGX_ERROR_UNEXPECTED : Z;
  SGX_ERROR_INVALID_PARAMETER : Z;
  SGX_ERROR_OUT_OF_MEMORY : Z;
  SGX_ERROR_ENCLAVE_LOST : Z;
  SGX_ERROR_INVALID_ENCLAVE : Z;
  SGX_ERROR_INVALID_ENCLAVE_ID : Z;
  SGX_ERROR_INVALID_SIGNATURE : Z;
  SGX_ERROR_OUT_OF_EPC : Z;
  SGX_ERROR_NO_DEVICE : Z;
  SGX_ERROR_MEMORY_MAP_CONFLICT : Z;
  SGX_ERROR_INVALID_METADATA : Z;
  SGX_ERROR_DEVICE_BUSY : Z;
  SGX_ERROR_INVALID_VERSION : Z;
  SGX_ERROR_INVALID_ATTRIBUTE : Z;
  SGX_ERROR_ENCLAVE_FILE_ACCESS : Z;
  SGX_ERROR_NDEBUG_ENCLAVE : Z;
  sgx_errors_distinct : NoDup [SGX_SUCCESS; SGX_ERROR_UNEXPECTED; SGX_ERROR_INVALID_PARAMETER;
    SGX_ERROR_OUT_OF_MEMORY; SGX_ERROR_ENCLAVE_LOST; SGX_ERROR_INVALID_ENCLAVE;
    SGX_ERROR_INVALID_ENCLAVE_ID; SGX_ERROR_INVALID_SIGNATURE; SGX_ERROR_OUT_OF_EPC;
    SGX_ERROR_NO_DEVICE; SGX_ERROR_MEMORY_MAP_CONFLICT; SGX_ERROR_INVALID_METADATA;
    SGX_ERROR_DEVICE_BUSY; SGX_ERROR_INVALID_VERSION; SGX_ERROR_INVALID_ATTRIBUTE;
    SGX_ERROR_ENCLAVE_FILE_ACCESS; SGX_ERROR_NDEBUG_ENCLAVE]
}.

(** What [sgx_create_enclave] returns and writes through its pointers. *)
Record created := mkCreated { ret : Z; updated : Z; token_out : list Z; eid : Z }.

(** A call of the loader: the enclave's file and the token it is given. *)
Notation load_call := (list Z * list Z)%type.

Class Host := {
  (** [sgx_create_enclave], after the calls made so far. *)
  sgx_create_enclave : list load_call → list Z → list Z → created;
  (** The directory of [getpwuid(getuid())], which may be no record. *)
  pw_dir : option (option (list Z));
  (** [SHGetFolderPathA] for the application data, where it succeeds. *)
  local_appdata : option (list Z);
  (** Files the process may open for reading, for writing, and the bytes that
      a write to them stores. *)
  may_read : list Z → bool;
  may_write : list Z → bool;
  room : list Z → nat
}.

(** A token is an array: its length does not change. *)
Class HostLaws `{Host} := {
  token_length calls file token : length (token_out (sgx_create_enclave calls file token)) = length token
}.

(** ** State *)

Record world := mkWorld {
  files : gmap (list Z) (list Z);
  out : list Z;                   (* what was printed *)
  global_eid : Z;
  calls : list load_call          (* of the loader *)
}.

(** Files are kept by their whole path; a path that does not start with [/] is
    from the directory the process is in. *)
Definition resolve (cwd path : list Z) : list Z :=
  match path with
  | 47 :: _ => path
  | _ => cwd ++ chars "/" ++ path
  end.

Definition set_file (path bytes : list Z) (w : world) : world :=
  mkWorld (<[path := bytes]> (files w)) (out w) (global_eid w) (calls w).
Definition printf (s : list Z) : M world unit :=
  modify (λ w, mkWorld (files w) (out w ++ s) (global_eid w) (calls w)).

(** An open file stands at its beginning. *)
Inductive mode : Type := Reading | Writing.

Definition sizeof_token : nat := 1024.
(** [FILENAME_MAX] of the C library. *)
Definition MAX_PATH : nat := 4096.
#[global] Arguments sizeof_token : simpl never.
#[global] Arguments MAX_PATH : simpl never.

Section launch.
Context `{SgxErrors, Host}.

(** [fopen(path, "rb")] and [fopen(path, "wb")]. *)
Definition fopen_rb (path : list Z) : M world (option mode) :=
  f ← gets (λ w, files w !! path);
  mret (match f with Some _ => if may_read path then Some Reading else None | None => None end).
Definition fopen_wb (path : list Z) : M world (option mode) :=
  if may_write path then modify (set_file path []);; mret (Some Writing) else mret None.

(** [fread(token, 1, n, fp)]: what was read; a file open for writing gives
    nothing. *)
Definition fread (path : list Z) (fp : mode) (n : nat) : M world (list Z) :=
  match fp with
  | Reading => f ← gets (λ w, files w !! path); mret (take n (default [] f))
  | Writing => mret []
  end.

(** [fwrite(bytes, 1, n, fp)] to an empty file: how much was written. *)
Definition fwrite (path bytes : list Z) : M world nat :=
  let done := take (room path) bytes in
  modify (set_file path done);; mret (length done).

(** ** [print_error_message] *)

Record errlist_entry := mkEntry { err : Z; msg : string; sug : option string }.

Definition sgx_errlist : list errlist_entry := [
  mkEntry SGX_ERROR_UNEXPECTED "Unexpected error occurred." None;
  mkEntry SGX_ERROR_INVALID_PARAMETER "Invalid parameter." None;
  mkEntry SGX_ERROR_OUT_OF_MEMORY "Out of memory." None;
  mkEntry SGX_ERROR_ENCLAVE_LOST "Power transition occurred."
    (Some ("Please refer to the sample " ++ String "034" "PowerTransition" ++ String "034" " for details.")%string);
  mkEntry SGX_ERROR_INVALID_ENCLAVE "Invalid enclave image." None;
  mkEntry SGX_ERROR_INVALID_ENCLAVE_ID "Invalid enclave identification." None;
  mkEntry SGX_ERROR_INVALID_SIGNATURE "Invalid enclave signature." None;
  mkEntry SGX_ERROR_OUT_OF_EPC "Out of EPC memory." None;
  mkEntry SGX_ERROR_NO_DEVICE "Invalid SGX device."
    (Some "Please make sure SGX module is enabled in the BIOS, and install SGX driver afterwards."%string);
  mkEntry SGX_ERROR_MEMORY_MAP_CONFLICT "Memory map conflicted." None;
  mkEntry SGX_ERROR_INVALID_METADATA "Invalid enclave metadata." None;
  mkEntry SGX_ERROR_DEVICE_BUSY "SGX device was busy." None;
  mkEntry SGX_ERROR_INVALID_VERSION "Enclave version was invalid." None;
  mkEntry SGX_ERROR_INVALID_ATTRIBUTE "Enclave was not authorized." None;
  mkEntry SGX_ERROR_ENCLAVE_FILE_ACCESS "Can't open enclave file." None].

(** [%x] of an [unsigned]. *)
Fixpoint hex_digits (fuel : nat) (v : Z) (acc : list Z) : list Z :=
  match fuel with
  | O => acc
  | S f =>
      let d := v mod 16 in
      let acc := (if d <? 10 then 48 + d else 87 + d) :: acc in
      if v <? 16 then acc else hex_digits f (v / 16) acc
  end.
Definition hex (v : Z) : list Z := hex_digits 8 (u32 v) [].

(** [for (idx = 0; idx < ttl; idx++)]: where the loop stops. *)
Fixpoint errlist_loop (l : list errlist_entry) (idx : nat) (status : Z) : M world nat :=
  match l with
  | [] => mret idx
  | e :: l' =>
      if status =? err e then
        (match sug e with
         | Some s => printf (chars "Info: " ++ chars s ++ newline)
         | None => mret tt
         end);;
        printf (chars "Error: " ++ chars (msg e) ++ newline);;
        mret idx
      else errlist_loop l' (S idx) status
  end.

(** [unexpected] is what is printed for any other status. *)
Definition print_error_in (errlist : list errlist_entry) (unexpected : Z → list Z) (status : Z) : M world unit :=
  idx ← errlist_loop errlist 0 status;
  if (idx =? length errlist)%nat then printf (unexpected status) else mret tt.

Definition print_error_message (status : Z) : M world unit :=
  print_error_in sgx_errlist
    (λ status, chars "Error: Unexpected error occurred 0x" ++ hex status ++ chars "." ++ newline) status.

(** ** The token's file *)

(** [strncpy] and [strncat] into a buffer; past its end is undefined. *)
Definition strncpy_to (buf src : list Z) (n : nat) : option (list Z) :=
  d ← strncpy n src;
  if decide (length d ≤ length buf)%nat then Some (d ++ drop (length d) buf) else None.

(** The first [n] characters of a string, or all of it. *)
Fixpoint cstrn (n : nat) (b : list Z) : option (list Z) :=
  match n, b with
  | O, _ => Some []
  | S _, [] => None
  | S n', c :: b' => if c =? 0 then Some [] else (c ::.) <$> cstrn n' b'
  end.
Definition strncat (buf src : list Z) (n : nat) : option (list Z) :=
  d ← cstr buf;
  s ← cstrn n src;
  if decide (length (d ++ s) < length buf)%nat
  then Some ((d ++ s) ++ 0 :: drop (S (length (d ++ s))) buf) else None.

(** A literal with its terminator. *)
Definition literal (s : string) : list Z := chars s ++ [0].

Section program.
(** The directory the process is in, the names each program has its own of, and
    its [print_error_message]. *)
Context (cwd : list Z) (ENCLAVE_FILENAME TOKEN_FILENAME : string) (print_error : Z → M world unit).

Notation sizeof_name := (length (literal TOKEN_FILENAME)).

(** [token_path], composed in a buffer of [MAX_PATH] bytes. *)
Definition compose_path : option (list Z) :=
  home_dir ← pw_dir;
  let token_path := replicate MAX_PATH 0 in
  let fallback := strncpy_to token_path (literal TOKEN_FILENAME) sizeof_name in
  match home_dir with
  | None => fallback
  | Some home_dir =>
      home ← cstr home_dir;
      if decide (length home + 1 + sizeof_name + 1 ≤ MAX_PATH)%nat then
        token_path ← strncpy_to token_path home_dir (length home);
        token_path ← strncat token_path (literal "/") 1;
        strncat token_path (literal TOKEN_FILENAME) (sizeof_name + 1)
      else fallback
  end.

Definition warn (what : string) (path : list Z) : M world unit :=
  printf (chars what ++ quote ++ path ++ quote ++ chars "." ++ newline).

(** Step 1: opens the file, and reads the token from it. *)
Definition open_token (path : list Z) : M world (option mode) :=
  fp ← fopen_rb (resolve cwd path);
  match fp with
  | Some _ => mret fp
  | None =>
      fp ← fopen_wb (resolve cwd path);
      (match fp with
       | None => warn "Warning: Failed to create/open the launch token file " path
       | Some _ => mret tt
       end);;
      mret fp
  end.

Definition read_token (path : list Z) (fp : option mode) : M world (list Z) :=
  let token := replicate sizeof_token 0 in
  match fp with
  | None => mret token
  | Some fp =>
      read ← fread (resolve cwd path) fp sizeof_token;
      let read_num := length read in
      let token := read ++ drop read_num token in
      if negb (read_num =? 0)%nat && negb (read_num =? sizeof_token)%nat then
        warn "Warning: Invalid launch token read from " path;;
        mret (replicate sizeof_token 0)
      else mret token
  end.

(** Step 2: the loader; the status is 0 or one of the SDK's. *)
Definition load (file token : list Z) : M world created :=
  r ← gets (λ w, sgx_create_enclave (calls w) file token);
  modify (λ w, mkWorld (files w) (out w) (if ret r =? SGX_SUCCESS then eid r else global_eid w)
    (calls w ++ [(file, token)]));;
  mret r.

(** Step 3: saves a token that was updated. *)
Definition save_token (path token : list Z) : M world unit :=
  fp ← fopen_wb (resolve cwd path);
  match fp with
  | None => mret tt
  | Some _ =>
      write_num ← fwrite (resolve cwd path) token;
      if (write_num =? sizeof_token)%nat then mret tt
      else warn "Warning: Failed to save launch token to " path
  end.

Definition initialize_enclave : M world Z :=
  token_path ← defined compose_path;
  path ← defined (cstr token_path);
  fp ← open_token path;
  token ← read_token path fp;
  r ← load (resolve cwd (chars ENCLAVE_FILENAME)) token;
  if negb (ret r =? SGX_SUCCESS) then
    print_error (ret r);;
    mret (-1)
  else
    match fp with
    | None => mret 0
    | Some _ => if updated r =? 0 then mret 0 else save_token path (token_out r);; mret 0
    end.
End program.

(** ** The programs *)

(** [suvm_samples], [suvm_read_write_sample], [parameter_server_suvm] and the face
    verification server have the same text and the same names. *)
Definition samples_initialize_enclave (cwd : list Z) : M world Z :=
  initialize_enclave cwd "samples.signed.so" "enclave.token" print_error_message.

Definition rw_errlist : list errlist_entry := sgx_errlist.
Definition rw_print_error_message : Z → M world unit := print_error_message.
Definition rw_initialize_enclave (cwd : list Z) : M world Z :=
  initialize_enclave cwd "samples.signed.so" "enclave.token" rw_print_error_message.

Definition param_suvm_errlist : list errlist_entry := sgx_errlist.
Definition param_suvm_print_error_message : Z → M world unit := print_error_message.
Definition param_suvm_initialize_enclave (cwd : list Z) : M world Z :=
  initialize_enclave cwd "samples.signed.so" "enclave.token" param_suvm_print_error_message.

Definition face_errlist : list errlist_entry := sgx_errlist.
Definition face_print_error_message : Z → M world unit := print_error_message.
Definition face_initialize_enclave (cwd : list Z) : M world Z :=
  initialize_enclave cwd "samples.signed.so" "enclave.token" face_print_error_message.

(** The parameter server does not print the status it does not know. *)
Definition direct_errlist : list errlist_entry := sgx_errlist.
Definition direct_print_error_message (status : Z) : M world unit :=
  print_error_in direct_errlist (λ _, chars "Error: Unexpected error occurred." ++ newline) status.
Definition direct_initialize_enclave (cwd : list Z) : M world Z :=
  initialize_enclave cwd "direct.signed.so" "enclave.token" direct_print_error_message.
End launch.
