(* ===== verification/LaunchThms.v ===== *)
(** * Starting an enclave: theorems

    What [initialize_enclave] does to the host, in one equation; the token that
    one start saves is the one the next start gives the loader. *)

From Stdlib Require Import String Ascii.
From S2P Require Import Prelude CString Rpc Launch.

(** ** Strings in buffers *)

Lemma strncpy_to_prefix buf s rest :
  0 ∉ s → (length s ≤ length buf)%nat → strncpy_to buf (s ++ 0 :: rest) (length s) = Some (s ++ drop (length s) buf).
Proof.
  intros Hs Hl. unfold strncpy_to. rewrite (strncpy_long _ _ s) by (by (apply cstr_terminated || lia)).
  rewrite firstn_all. simpl. by rewrite decide_True.
Qed.

Lemma strncpy_terminated s n : 0 ∉ s → (length s ≤ n)%nat → strncpy n (s ++ [0]) = Some (s ++ replicate (n - length s) 0).
Proof.
  revert n. induction s as [|c s IH]; intros n Hs Hn; simpl.
  - rewrite Nat.sub_0_r. by destruct n.
  - apply not_elem_of_cons in Hs as [Hc Hs]. destruct n as [|n]; simpl in *; [lia|].
    rewrite (proj2 (Z.eqb_neq c 0)) by congruence. by rewrite IH by (done || lia).
Qed.

Lemma cstrn_all n s rest : 0 ∉ s → (length s ≤ n)%nat → cstrn n (s ++ 0 :: rest) = Some s.
Proof.
  revert n. induction s as [|c s IH]; intros n Hs Hn; [by destruct n|].
  apply not_elem_of_cons in Hs as [Hc Hs]. destruct n as [|n]; simpl in *; [lia|].
  rewrite (proj2 (Z.eqb_neq c 0)) by congruence. by rewrite IH by (done || lia).
Qed.

(** A string in a zeroed buffer of [n] bytes. *)
Definition buffered (n : nat) (s : list Z) : list Z := s ++ replicate (n - length s) 0.

Lemma buffered_cstr n s : 0 ∉ s → (length s < n)%nat → cstr (buffered n s) = Some s.
Proof.
  intros Hs Hn. unfold buffered. replace (n - length s)%nat with (S (n - length s - 1)) by lia. by apply cstr_terminated.
Qed.

Lemma length_buffered n s : (length s ≤ n)%nat → length (buffered n s) = n.
Proof. intros. unfold buffered. rewrite length_app, length_replicate. lia. Qed.

Lemma strncat_buffered n s t k :
  0 ∉ s → 0 ∉ t → (length t ≤ k)%nat → (length s + length t < n)%nat →
  strncat (buffered n s) (t ++ [0]) k = Some (buffered n (s ++ t)).
Proof.
  intros Hs Ht Hk Hn. unfold strncat. rewrite buffered_cstr by (done || lia). simpl.
  rewrite cstrn_all by done. simpl. rewrite length_buffered, decide_True by (rewrite ?length_app; lia).
  f_equal. unfold buffered. rewrite length_app. rewrite <- (app_assoc s t).
  rewrite drop_app, skipn_all2 by lia. rewrite drop_replicate. simpl. rewrite <- !app_assoc. do 2 f_equal.
  replace (n - (length s + length t))%nat with (S (n - length s - (S (length s + length t) - length s))) by lia. done.
Qed.

Lemma buffered_nil n : buffered n [] = replicate n 0.
Proof. unfold buffered. simpl. by rewrite Nat.sub_0_r. Qed.

Lemma strncpy_to_buffered n s rest :
  0 ∉ s → (length s ≤ n)%nat → strncpy_to (replicate n 0) (s ++ 0 :: rest) (length s) = Some (buffered n s).
Proof.
  intros Hs Hn. rewrite strncpy_to_prefix by (rewrite ?length_replicate; done). by rewrite drop_replicate.
Qed.

Lemma strncpy_to_literal n s :
  0 ∉ chars s → (length (chars s) < n)%nat →
  strncpy_to (replicate n 0) (literal s) (length (literal s)) = Some (buffered n (chars s)).
Proof.
  intros Hs Hn. unfold strncpy_to, literal, buffered.
  assert (length (chars s ++ [0]) = S (length (chars s))) as El by (rewrite length_app; cbn [length]; lia).
  rewrite strncpy_terminated by (done || lia). cbn [mbind option_bind]. rewrite El.
  replace (S (length (chars s)) - length (chars s))%nat with 1%nat by lia.
  rewrite length_app, length_replicate, decide_True, <- app_assoc by (rewrite length_replicate; lia). f_equal. f_equal.
  rewrite drop_replicate. by replace (n - length (chars s))%nat with (S (n - (length (chars s) + 1))) by lia.
Qed.

Lemma max_path : (256 < MAX_PATH)%nat.
Proof. unfold MAX_PATH. lia. Qed.
Lemma token_positive : (0 < sizeof_token)%nat.
Proof. unfold sizeof_token. lia. Qed.
#[local] Opaque MAX_PATH sizeof_token.

(** ** One start *)

Ltac run_io :=
  unfold warn, printf, set_file, mbind, M_bind, gets, modify, mret, M_ret;
  cbn [files out global_eid calls].

Section launch.
Context `{HostLaws} `{!SgxErrors}.

Section program.
Context (cwd : list Z) (ENCLAVE TOKEN : string) (print_error : Z → M world unit) (text : Z → list Z).
Context (Hprint : ∀ st w, print_error st w = printf (text st) w).
Context (HT : 0 ∉ chars TOKEN) (HTl : (length (chars TOKEN) < 256)%nat).

(** The name of the user's directory, where there is one. *)
Definition home : option (list Z) := b ← pw_dir; h ← b; cstr h.

(** [getpwuid] found the user, and the directory is a string or none. *)
Definition user_known : Prop := pw_dir = Some None ∨ ∃ b, pw_dir = Some (Some b) ∧ is_Some (cstr b).

(** The path of the token's file, whole or from the current directory. *)
Definition token_file : list Z :=
  match home with
  | Some h => if decide (length h + length (chars TOKEN) + 3 ≤ MAX_PATH)%nat
              then h ++ chars "/" ++ chars TOKEN else chars TOKEN
  | None => chars TOKEN
  end.

(** The path never overflows its buffer. *)
Lemma compose_path_ok :
  user_known → ∃ buf, compose_path TOKEN = Some buf ∧ length buf = MAX_PATH ∧ cstr buf = Some token_file.
Proof.
  pose proof max_path as HM.
  assert (∃ buf, Some (buffered MAX_PATH (chars TOKEN)) = Some buf ∧ length buf = MAX_PATH ∧ cstr buf = Some (chars TOKEN)) as Hfall.
  { eexists. split; [reflexivity|]. split; [apply length_buffered; lia|apply buffered_cstr; [done|lia]]. }
  unfold compose_path, token_file, home. intros [-> | (b & -> & [h Hh])]; cbn [mbind option_bind]; rewrite strncpy_to_literal by (done || lia); [done|].
  rewrite Hh. cbn [mbind option_bind]. assert (length (literal TOKEN) = S (length (chars TOKEN))) as El
    by (unfold literal; rewrite length_app; simpl; lia).
  destruct (decide (length h + 1 + length (literal TOKEN) + 1 ≤ MAX_PATH)%nat) as [Hfit|Hno].
  - rewrite decide_True by lia. apply cstr_spec in Hh as [Hh [rest ->]].
    rewrite strncpy_to_buffered by (done || lia). cbn [mbind option_bind].
    change (literal "/") with (chars "/" ++ [0]).
    assert (0 ∉ chars "/") as Hsl by (by intros [=]%list_elem_of_singleton).
    rewrite strncat_buffered by (done || (cbn [chars length]; lia)).
    cbn [mbind option_bind]. unfold literal at 1.
    assert (0 ∉ h ++ chars "/") as Hs by (by intros [?|?]%elem_of_app).
    rewrite strncat_buffered by (rewrite ?length_app in *; simpl in *; (done || lia)).
    eexists. split; [reflexivity|]. rewrite <- app_assoc. split; [apply length_buffered; rewrite !length_app; simpl; lia|].
    apply buffered_cstr; [|rewrite !length_app; simpl; lia]. rewrite app_assoc. intros [?|?]%elem_of_app; done.
  - rewrite decide_False by lia. done.
Qed.

Definition readable (w : world) (file : list Z) : bool :=
  match files w !! file with Some _ => may_read file | None => false end.

(** The token the file holds: a whole one, or none. *)
Definition held (bytes : list Z) : list Z :=
  if decide (sizeof_token ≤ length bytes)%nat then take sizeof_token bytes else replicate sizeof_token 0.
Definition saved (w : world) (file : list Z) : list Z :=
  if readable w file then held (default [] (files w !! file)) else replicate sizeof_token 0.

Definition warning (what : string) (path : list Z) : list Z :=
  chars what ++ quote ++ path ++ quote ++ chars "." ++ newline.

(** What a start does to the host, by the answer of the loader; [file] is the
    whole path of the token's file, [path] the one that is printed. *)
Definition enclave_file : list Z := resolve cwd (chars ENCLAVE).
Definition answer (w : world) (file : list Z) : created :=
  sgx_create_enclave (calls w) enclave_file (saved w file).
Definition loaded (w : world) (file : list Z) : bool := ret (answer w file) =? SGX_SUCCESS.
Definition saves (w : world) (file : list Z) : bool :=
  loaded w file && negb (updated (answer w file) =? 0) && may_write file.

Definition opened_files (w : world) (file : list Z) : gmap (list Z) (list Z) :=
  if readable w file then files w else if may_write file then <[file := []]> (files w) else files w.
Definition files_after (w : world) (file : list Z) : gmap (list Z) (list Z) :=
  if saves w file then <[file := take (room file) (token_out (answer w file))]> (files w) else opened_files w file.

Definition open_message (w : world) (file path : list Z) : list Z :=
  if readable w file || may_write file then [] else warning "Warning: Failed to create/open the launch token file " path.
Definition read_message (w : world) (file path : list Z) : list Z :=
  let n := length (default [] (files w !! file)) in
  if readable w file && bool_decide (0 < n < sizeof_token)%nat
  then warning "Warning: Invalid launch token read from " path else [].
Definition end_message (w : world) (file path : list Z) : list Z :=
  if loaded w file then
    if saves w file && bool_decide (room file < sizeof_token)%nat
    then warning "Warning: Failed to save launch token to " path else []
  else text (ret (answer w file)).

Definition started (w : world) (path : list Z) : world :=
  let file := resolve cwd path in
  mkWorld (files_after w file)
    (out w ++ open_message w file path ++ read_message w file path ++ end_message w file path)
    (if loaded w file then eid (answer w file) else global_eid w)
    (calls w ++ [(enclave_file, saved w file)]).

Lemma saved_length w path : length (saved w path) = sizeof_token.
Proof using H0.
  clear HT HTl Hprint.
  unfold saved, held. destruct (readable _ _); [|apply length_replicate]. case_decide; [|apply length_replicate].
  rewrite length_take. lia.
Qed.

Lemma open_token_ok w path :
  let file := resolve cwd path in
  open_token cwd path w = Ok (if readable w file then Some Reading else if may_write file then Some Writing else None,
    mkWorld (opened_files w file) (out w ++ open_message w file path) (global_eid w) (calls w)).
Proof.
  cbv zeta. unfold open_token, fopen_rb, fopen_wb, opened_files, open_message, readable. generalize (resolve cwd path). intros file.
  destruct w as [F o e c]. run_io.
  destruct (F !! file) as [b|]; [destruct (may_read file)|]; cbn [orb]; [by rewrite app_nil_r|..];
    run_io; destruct (may_write file); run_io; cbn [orb]; by rewrite ?app_nil_r.
Qed.

Lemma read_token_ok w path :
  let file := resolve cwd path in
  read_token cwd path (if readable w file then Some Reading else if may_write file then Some Writing else None)
    (mkWorld (opened_files w file) (out w ++ open_message w file path) (global_eid w) (calls w)) =
  Ok (saved w file, mkWorld (opened_files w file) (out w ++ open_message w file path ++ read_message w file path) (global_eid w) (calls w)).
Proof.
  cbv zeta. unfold read_token, saved, read_message, opened_files. set (file := resolve cwd path). destruct (readable w file) eqn:Er; simpl.
  - unfold fread. rewrite bind_assoc, bind_gets, bind_ret. simpl. set (b := default [] (files w !! file)).
    unfold held. rewrite length_take.
    destruct (decide (sizeof_token ≤ length b)%nat) as [Hl|Hl].
    + rewrite Nat.min_l, Nat.eqb_refl, andb_false_r by done. rewrite drop_replicate, Nat.sub_diag, app_nil_r.
      rewrite bool_decide_false by lia. by rewrite app_nil_r.
    + rewrite Nat.min_r by lia. rewrite (proj2 (Nat.eqb_neq (length b) sizeof_token)), andb_true_r by lia.
      destruct (Nat.eqb_spec (length b) 0) as [E|E]; simpl.
      * rewrite bool_decide_false by lia. apply nil_length_inv in E. rewrite E, firstn_nil. cbn [length drop app]. by rewrite app_nil_r.
      * rewrite bool_decide_true by lia. unfold warn. unfold printf. rewrite bind_modify. simpl. by rewrite <- app_assoc.
  - rewrite !app_nil_r. destruct (may_write file); [|done]. simpl. done.
Qed.

(** The equation of [initialize_enclave]. *)
Lemma initialize_enclave_eq w :
  user_known →
  initialize_enclave cwd ENCLAVE TOKEN print_error w =
    Ok (if loaded w (resolve cwd token_file) then 0 else -1, started w token_file).
Proof.
  intros Hu. destruct (compose_path_ok Hu) as (buf & Ep & _ & Eb). unfold initialize_enclave.
  rewrite (bind_defined _ buf), (bind_defined _ token_file) by done. set (path := token_file).
  rewrite (bind_Ok _ _ _ _ _ (open_token_ok w path)), (bind_Ok _ _ _ _ _ (read_token_ok w path)).
  set (file := resolve cwd path) in *. unfold load. rewrite bind_assoc, bind_gets, bind_assoc, bind_modify, bind_ret. cbn [calls files out global_eid].
  change (sgx_create_enclave _ _ _) with (answer w file).
  unfold started. fold file. unfold files_after, end_message, saves. change (ret (answer w file) =? SGX_SUCCESS) with (loaded w file).
  destruct (loaded w file) eqn:El; cbn [negb andb].
  - destruct (updated (answer w file) =? 0) eqn:Eu; cbn [negb andb].
    { rewrite !app_nil_r. by destruct (readable w file), (may_write file). }
    assert (length (token_out (answer w file)) = sizeof_token) as Htl
      by (unfold answer; rewrite token_length; apply saved_length).
    unfold save_token. fold file. unfold fopen_wb, fwrite, opened_files. destruct (may_write file) eqn:Ew.
    + assert ((if readable w file then Some Reading else Some Writing) ≠ None) as Hfp by (by destruct (readable w file)).
      destruct (if readable w file then Some Reading else Some Writing) as [fp|]; [|done].
      rewrite !bind_assoc, bind_modify, !bind_ret, !bind_assoc, bind_modify, bind_ret. unfold set_file. cbn [files out global_eid calls].
      assert (<[file:=take (room file) (token_out (answer w file))]>
        (<[file:=[]]> (if readable w file then files w else <[file:=[]]> (files w))) =
        <[file:=take (room file) (token_out (answer w file))]> (files w)) as Ef.
      { destruct (readable w file); by rewrite ?insert_insert_eq. }
      rewrite length_take, Htl. destruct (decide (room file < sizeof_token)%nat) as [Hr|Hr].
      * rewrite Nat.min_l, (proj2 (Nat.eqb_neq _ _)), bool_decide_true by lia. unfold warn, printf. rewrite bind_modify. simpl.
        rewrite Ef. by rewrite <- !app_assoc.
      * rewrite Nat.min_r, Nat.eqb_refl, bool_decide_false by lia. simpl. rewrite Ef. by rewrite app_nil_r.
    + destruct (readable w file); rewrite ?bind_ret, !app_nil_r; done.
  - rewrite (bind_Ok _ _ _ tt (mkWorld (opened_files w file)
      ((out w ++ open_message w file path ++ read_message w file path) ++ text (ret (answer w file))) (global_eid w)
      (calls w ++ [(enclave_file, saved w file)]))) by (by rewrite Hprint). simpl. by rewrite <- !app_assoc.
Qed.

(** The token the next start finds. *)
Lemma saved_next w path :
  let file := resolve cwd path in
  saved (started w path) file =
    if saves w file && may_read file then
      if decide (sizeof_token ≤ room file)%nat then token_out (answer w file) else replicate sizeof_token 0
    else if saves w file then replicate sizeof_token 0 else saved w file.
Proof using H0.
  clear HT HTl Hprint.
  cbv zeta. set (file := resolve cwd path). pose proof token_positive. unfold saved, readable. unfold started. fold file. cbn [files]. unfold files_after.
  destruct (saves w file) eqn:Es; cbn [andb].
  - rewrite lookup_insert_eq. destruct (may_read file); [|done]. cbn [default]. unfold held.
    assert (length (token_out (answer w file)) = sizeof_token) as Htl
      by (unfold answer; rewrite token_length; apply saved_length).
    cbn [from_option id]. rewrite length_take, Htl. destruct (decide (sizeof_token ≤ room file)%nat) as [Hr|Hr].
    + rewrite decide_True by lia. rewrite firstn_firstn, firstn_all2 by lia. done.
    + rewrite decide_False by lia. done.
  - unfold opened_files, readable. destruct (files w !! file) as [b|] eqn:Ef.
    + destruct (may_read file) eqn:Er; [by rewrite Ef|]. destruct (may_write file).
      * rewrite lookup_insert_eq. done.
      * by rewrite Ef.
    + destruct (may_write file).
      * rewrite lookup_insert_eq. destruct (may_read file); [|done]. unfold held. simpl.
        by rewrite decide_False by lia.
      * by rewrite Ef.
Qed.
(** Another file is left alone. *)
Lemma saved_elsewhere w path file : file ≠ resolve cwd path → saved (started w path) file = saved w file.
Proof using H0.
  clear HT HTl Hprint. intros Hne. unfold saved, readable, started. cbn [files]. unfold files_after, opened_files.
  destruct (saves w _); [by rewrite lookup_insert_ne by done|]. destruct (readable w _); [done|].
  destruct (may_write _); by rewrite ?lookup_insert_ne by done.
Qed.
End program.
End launch.

(** ** Error messages *)

Section messages.
Context `{Host} `{!SgxErrors}.

(** The lines for an entry, and for a status. *)
Definition entry_text (e : errlist_entry) : list Z :=
  (match sug e with Some s => chars "Info: " ++ chars s ++ newline | None => [] end)
  ++ chars "Error: " ++ chars (msg e) ++ newline.
Definition error_text (l : list errlist_entry) (unexpected : Z → list Z) (status : Z) : list Z :=
  match List.find (λ e, status =? err e) l with Some e => entry_text e | None => unexpected status end.

Lemma errlist_loop_ok l idx status w :
  match List.find (λ e, status =? err e) l with
  | Some e => ∃ k, (k < idx + length l)%nat ∧
      errlist_loop l idx status w = Ok (k, mkWorld (files w) (out w ++ entry_text e) (global_eid w) (calls w))
  | None => errlist_loop l idx status w = Ok ((idx + length l)%nat, w)
  end.
Proof.
  revert idx. induction l as [|e l IH]; intros idx; cbn [List.find errlist_loop length]; [by rewrite Nat.add_0_r|].
  destruct (status =? err e).
  - exists idx. split; [lia|]. unfold entry_text. run_io. destruct (sug e); cbn [files out global_eid calls]; by rewrite <- ?app_assoc.
  - specialize (IH (S idx)). destruct (List.find _ l) as [e'|]; [destruct IH as (k & Hk & ->); exists k; split; [lia|done]|].
    rewrite IH. do 2 f_equal. lia.
Qed.

Lemma print_error_in_ok l unexpected status w :
  print_error_in l unexpected status w = printf (error_text l unexpected status) w.
Proof.
  unfold print_error_in, error_text. pose proof (errlist_loop_ok l 0 status w) as H1.
  destruct (List.find _ l) as [e|].
  - destruct H1 as (k & Hk & H1). rewrite (bind_Ok _ _ _ _ _ H1).
    by rewrite (proj2 (Nat.eqb_neq k (length l))) by lia.
  - rewrite (bind_Ok _ _ _ _ _ H1). by rewrite (proj2 (Nat.eqb_eq _ (length l))) by lia.
Qed.

Lemma find_entry l e :
  NoDup (err <$> l) → e ∈ l → List.find (λ e', err e =? err e') l = Some e.
Proof.
  induction l as [|x l IH]; intros Hnd He; [by apply elem_of_nil in He|]. simpl in *.
  apply NoDup_cons in Hnd as [Hx Hnd]. apply elem_of_cons in He as [->|He].
  - by rewrite Z.eqb_refl.
  - destruct (Z.eqb_spec (err e) (err x)) as [E|E]; [|by apply IH]. destruct Hx. rewrite <- E. apply list_elem_of_fmap. by exists e.
Qed.

Lemma find_no_entry l status :
  status ∉ (err <$> l) → List.find (λ e, status =? err e) l = None.
Proof.
  induction l as [|x l IH]; intros Hs; [done|]. simpl in *. apply not_elem_of_cons in Hs as [Hx Hs].
  rewrite (proj2 (Z.eqb_neq status (err x))) by done. by apply IH.
Qed.

Lemma errlist_distinct : NoDup (err <$> sgx_errlist) ∧ SGX_SUCCESS ∉ (err <$> sgx_errlist).
Proof.
  pose proof sgx_errors_distinct as Hall. apply NoDup_cons in Hall as [Hsuc Hall].
  change (NoDup ((err <$> sgx_errlist) ++ [SGX_ERROR_NDEBUG_ENCLAVE])) in Hall.
  change (SGX_SUCCESS ∉ (err <$> sgx_errlist) ++ [SGX_ERROR_NDEBUG_ENCLAVE]) in Hsuc.
  apply NoDup_app in Hall as [Hnd _]. apply not_elem_of_app in Hsuc as [Hsuc _]. by split.
Qed.

(** What [print_error_message] prints: for a status it knows the advice, where
    there is any, and the message; for another one the status, in hexadecimal.
    Nothing is printed twice. *)
Theorem print_error_message_correct w :
  (∀ e, e ∈ sgx_errlist → print_error_message (err e) w = printf (entry_text e) w) ∧
  (∀ status, status ∉ (err <$> sgx_errlist) →
    print_error_message status w =
      printf (chars "Error: Unexpected error occurred 0x" ++ hex status ++ chars "." ++ newline) w).
Proof.
  split.
  - intros e He. unfold print_error_message. rewrite print_error_in_ok. unfold error_text.
    rewrite find_entry by (done || apply errlist_distinct). done.
  - intros status Hs. unfold print_error_message. rewrite print_error_in_ok. unfold error_text. by rewrite find_no_entry.
Qed.
End messages.

(** ** The programs *)

Inductive program : Type := Samples | ReadWrite | ParamSuvm | Face | Direct.

Section programs.
Context `{HostLaws} `{!SgxErrors}.

(** The directory each program is in when it starts its enclave: that of its
    executable, which [main] has changed to; [suvm_read_write_sample] stays where
    it was started. *)
Context (dir : program → list Z).

Definition start_of (p : program) : M world Z :=
  match p with
  | Samples => samples_initialize_enclave (dir p)
  | ReadWrite => rw_initialize_enclave (dir p)
  | ParamSuvm => param_suvm_initialize_enclave (dir p)
  | Face => face_initialize_enclave (dir p)
  | Direct => direct_initialize_enclave (dir p)
  end.
Definition enclave_of (p : program) : string :=
  match p with Direct => "direct.signed.so" | _ => "samples.signed.so" end.
Definition text_of (p : program) : Z → list Z :=
  match p with
  | Direct => error_text sgx_errlist (λ _, chars "Error: Unexpected error occurred." ++ newline)
  | _ => error_text sgx_errlist
      (λ status, chars "Error: Unexpected error occurred 0x" ++ hex status ++ chars "." ++ newline)
  end.

(** The path is the same in all of them; the file may not be. *)
Definition the_path : list Z := token_file "enclave.token".
Definition the_file (p : program) : list Z := resolve (dir p) the_path.
Definition the_enclave (p : program) : list Z := enclave_file (dir p) (enclave_of p).
Definition answer_to (p : program) (w : world) : created := answer (dir p) (enclave_of p) w (the_file p).

(** The user has a home directory, and the path in it fits its buffer. *)
Definition home_used : Prop :=
  ∃ h, home = Some (47 :: h) ∧ (S (length h) + length (chars "enclave.token") + 3 ≤ MAX_PATH)%nat.

Lemma same_file p q : p = q ∨ dir p = dir q ∨ home_used → the_file p = the_file q.
Proof.
  unfold the_file. intros [->|[->|(h & Eh & Hl)]]; [done..|].
  assert (the_path = 47 :: h ++ chars "/" ++ chars "enclave.token") as ->; [|done].
  unfold the_path, token_file. rewrite Eh. cbn [length]. by rewrite decide_True.
Qed.

Lemma token_name : 0 ∉ chars "enclave.token" ∧ (length (chars "enclave.token") < 256)%nat.
Proof. split; [|simpl; lia]. apply (bool_decide_unpack _). vm_compute. exact I. Qed.

Notation started_by p w := (started (dir p) (enclave_of p) (text_of p) w the_path).

Lemma start_of_ok p w :
  user_known → start_of p w = Ok (if ret (answer_to p w) =? SGX_SUCCESS then 0 else -1, started_by p w).
Proof.
  intros Hu. destruct token_name as [HT HTl].
  destruct p; apply initialize_enclave_eq; try done; intros st w0; apply print_error_in_ok.
Qed.

(** C28. The launch token makes the round trip through its file.  Take a start
    whose loader succeeds, with a token file that can be read and written and has
    room: it returns 0. The next start, of the same program or of another one of
    the five, whatever happens to it, gives the loader exactly the token that
    the first one's returned, or the one it was given if that was not updated,
    when both keep the token in one file; and what its own file held before when
    they do not. It is one file when they are one program, or in one directory,
    or when the user has a home directory whose path is whole and not too long;
    otherwise the file is [enclave.token] in the directory of each. *)
Theorem token_round_trip p q w :
  user_known → may_read (the_file p) = true → may_write (the_file p) = true → (sizeof_token ≤ room (the_file p))%nat →
  ret (answer_to p w) = SGX_SUCCESS →
  (p = q ∨ dir p = dir q ∨ home_used → the_file p = the_file q) ∧
  ∃ w1 r w2, start_of p w = Ok (0, w1) ∧ start_of q w1 = Ok (r, w2) ∧
    calls w2 = calls w ++ [(the_enclave p, saved w (the_file p));
      (the_enclave q, if decide (the_file p = the_file q) then
                        if updated (answer_to p w) =? 0 then saved w (the_file p) else token_out (answer_to p w)
                      else saved w (the_file q))].
Proof.
  intros Hu Hr Hw Hroom Hret. split; [apply same_file|]. eexists _, _, _. split; [|split].
  - rewrite (start_of_ok p w Hu), Hret, Z.eqb_refl. reflexivity.
  - apply start_of_ok, Hu.
  - unfold started at 1. cbn [calls]. fold (the_file p) (the_file q) (the_enclave p) (the_enclave q).
    assert (calls (started_by p w) = calls w ++ [(the_enclave p, saved w (the_file p))]) as -> by done.
    rewrite <- app_assoc. cbn [app]. do 4 f_equal. destruct (decide (the_file p = the_file q)) as [E|E].
    + rewrite <- E. unfold the_file at 1. rewrite saved_next. fold (the_file p). unfold saves, loaded.
      fold (answer_to p w). rewrite Hret, Z.eqb_refl, Hw, Hr.
      destruct (updated _ =? 0); cbn [negb andb]; [done|]. by rewrite decide_True.
    + apply saved_elsewhere. done.
Qed.

(** ** Any sequence of starts *)

Fixpoint start_all (ps : list program) : M world (list Z) :=
  match ps with
  | [] => mret []
  | p :: ps' => r ← start_of p; rs ← start_all ps'; mret (r :: rs)
  end.

(** The programs share the file. *)
Context (F : list Z) (Hshare : ∀ p, the_file p = F).

(** A token that is nobody's invention: none, the one the file held to begin
    with, or one that the loader returned in an earlier call. *)
Definition legit (w0 w : world) (k : nat) (t : list Z) : Prop :=
  t = replicate sizeof_token 0 ∨ t = saved w0 F ∨
  ∃ j file token, (j < k)%nat ∧ calls w !! j = Some (file, token) ∧
    t = token_out (sgx_create_enclave (take j (calls w)) file token).

Definition all_legit (w0 w : world) : Prop :=
  (∀ k file t, calls w !! k = Some (file, t) → legit w0 w k t) ∧
  legit w0 w (length (calls w)) (saved w F).

Lemma calls_started p w : calls (started_by p w) = calls w ++ [(the_enclave p, saved w F)].
Proof. rewrite <- (Hshare p). done. Qed.

Lemma legit_started w0 w k t p :
  legit w0 w k t → (k ≤ length (calls w))%nat → legit w0 (started_by p w) k t.
Proof.
  intros [Ht|[Ht|(j & file & token & Hj & Hc & Ht)]] Hk; [by left|by right; left|]. right. right.
  exists j, file, token. split; [done|]. apply lookup_lt_Some in Hc as Hlt. rewrite calls_started.
  rewrite lookup_app_l by lia. split; [done|]. by rewrite take_app_le by lia.
Qed.

Lemma started_legit w0 w p : all_legit w0 w → all_legit w0 (started_by p w).
Proof.
  intros [Hc Hs]. split.
  - intros k file t. rewrite calls_started, lookup_app_Some. intros [Hk|[Hk Hl]].
    + apply legit_started; [by eapply Hc|]. apply lookup_lt_Some in Hk. lia.
    + apply list_lookup_singleton_Some in Hl as [Hk0 [= <- <-]].
      replace k with (length (calls w)) by lia. by apply legit_started.
  - rewrite <- (Hshare p). unfold the_file. rewrite saved_next. fold (the_file p).
    rewrite calls_started, length_app, (Hshare p). cbn [length].
    assert (∀ t, legit w0 w (length (calls w)) t → legit w0 (started_by p w) (length (calls w) + 1) t) as Hmore.
    { intros t Ht. apply (legit_started _ _ _ _ p) in Ht; [|lia].
      destruct Ht as [Ht|[Ht|(j & file & token & Hj & Hr)]]; [by left|by right; left|]. right. right.
      exists j, file, token. split; [lia|done]. }
    destruct (saves _ _ w F); cbn [andb]; [|by apply Hmore]. destruct (may_read F); [|by left].
    case_decide; [|by left]. right. right. exists (length (calls w)), (the_enclave p), (saved w F). split; [lia|].
    rewrite calls_started, list_lookup_middle by done. split; [done|]. by rewrite take_app_length.
Qed.

Lemma start_all_ok w0 ps w :
  user_known → all_legit w0 w →
  ∃ rs w', start_all ps w = Ok (rs, w') ∧ length rs = length ps ∧ all_legit w0 w'.
Proof.
  intros Hu. revert w. induction ps as [|p ps IH]; intros w Hw; [by exists [], w|]. cbn [start_all].
  rewrite (bind_Ok _ _ _ _ _ (start_of_ok p w Hu)).
  destruct (IH _ (started_legit w0 w p Hw)) as (rs & w' & Hrun & Hl & Hw').
  rewrite (bind_Ok _ _ _ _ _ Hrun). eexists _, w'. split; [reflexivity|]. split; [|done]. simpl. by rewrite Hl.
Qed.

(** Whatever sequence of programs that share the file is started on a host,
    whatever the loader answers each time, and whether or not the file can be
    opened or the disk has room: every start returns, and the token it gives the
    loader is one that the loader itself returned in an earlier start, whole, or
    the one the file held to begin with, or no token (zeros).  A token that was
    saved in part is never used. *)
Theorem starts_give_whole_tokens ps w :
  user_known → calls w = [] →
  ∃ rs w', start_all ps w = Ok (rs, w') ∧ length rs = length ps ∧
    ∀ k file t, calls w' !! k = Some (file, t) →
      t = replicate sizeof_token 0 ∨ t = saved w F ∨
      ∃ j file' token', (j < k)%nat ∧ calls w' !! j = Some (file', token') ∧
        t = token_out (sgx_create_enclave (take j (calls w')) file' token').
Proof.
  intros Hu Hc. destruct (start_all_ok w ps w Hu) as (rs & w' & Hrun & Hl & Hw & _).
  - split; [|by right; left]. rewrite Hc. intros k file t. by rewrite lookup_nil.
  - exists rs, w'. done.
Qed.
End programs.

(** ** Instances *)

(** The status codes of [sgx_error.h]. *)
Definition toy_errors : SgxErrors.
Proof.
  unshelve refine {| sgx_status := {| SGX_SUCCESS := 0; SGX_ERROR_OCALL_NOT_ALLOWED := 0x1007 |};
    SGX_ERROR_UNEXPECTED := 0x0001; SGX_ERROR_INVALID_PARAMETER := 0x0002; SGX_ERROR_OUT_OF_MEMORY := 0x0003;
    SGX_ERROR_ENCLAVE_LOST := 0x0004; SGX_ERROR_INVALID_ENCLAVE := 0x2001; SGX_ERROR_INVALID_ENCLAVE_ID := 0x2002;
    SGX_ERROR_INVALID_SIGNATURE := 0x2003; SGX_ERROR_NDEBUG_ENCLAVE := 0x2004; SGX_ERROR_OUT_OF_EPC := 0x2005;
    SGX_ERROR_NO_DEVICE := 0x2006; SGX_ERROR_MEMORY_MAP_CONFLICT := 0x2007; SGX_ERROR_INVALID_METADATA := 0x2009;
    SGX_ERROR_DEVICE_BUSY := 0x200c; SGX_ERROR_INVALID_VERSION := 0x200d; SGX_ERROR_INVALID_ATTRIBUTE := 0x2010;
    SGX_ERROR_ENCLAVE_FILE_ACCESS := 0x200f |}.
  - done.
  - apply (bool_decide_unpack _). vm_compute. exact I.
Defined.

(** A loader that numbers the tokens it gives, a user in [/home/u], and a disk
    with room for [n] bytes. *)
Definition toy_host (n : nat) : Host := {|
  sgx_create_enclave cs _ token := mkCreated 0 1 (take (length token) ((1 + Z.of_nat (length cs)) :: drop 1 token)) 7;
  pw_dir := Some (Some (literal "/home/u"));
  local_appdata := Some (chars "C:");
  may_read _ := true;
  may_write _ := true;
  room _ := n
|}.
#[export] Instance toy_host_laws n : @HostLaws (toy_host n).
Proof.
  constructor. intros cs file token. cbn [sgx_create_enclave toy_host token_out].
  rewrite length_take. destruct token; simpl; [done|]. rewrite length_drop. lia.
Qed.

Definition empty_world : world := mkWorld ∅ [] 0 [].
Definition toy_token (c : Z) : list Z := c :: replicate 1023 0.

(** Each program in a directory of its own. *)
Definition toy_dir (p : program) : list Z :=
  chars "/opt/" ++ match p with Samples => [97] | ReadWrite => [98] | ParamSuvm => [99] | Face => [100] | Direct => [101] end.

(** The same user without a home directory. *)
Definition homeless_host (n : nat) : Host := {|
  sgx_create_enclave := @sgx_create_enclave (toy_host n);
  pw_dir := Some None;
  local_appdata := None;
  may_read _ := true;
  may_write _ := true;
  room _ := n
|}.
#[export] Instance homeless_host_laws n : @HostLaws (homeless_host n).
Proof. constructor. intros. apply (@token_length (toy_host n) _). Qed.

Lemma toy_home n : @home_used (toy_host n).
Proof. exists (chars "home/u"). split; [reflexivity|]. pose proof max_path. simpl. lia. Qed.
Lemma toy_user n : @user_known (toy_host n).
Proof. right. eexists. split; [reflexivity|]. by eexists. Qed.
#[local] Opaque the_file.

(** The face server after the samples, on a host that never started either: in
    the home directory they share the token, and without one each has its own. *)
Lemma token_round_trip_witness :
  (∃ w1 r w2, @start_of (toy_host 1024) toy_errors toy_dir Samples empty_world = Ok (0, w1) ∧
    @start_of (toy_host 1024) toy_errors toy_dir Face w1 = Ok (r, w2) ∧
    snd <$> calls w2 = [replicate 1024 0; toy_token 1]) ∧
  ∃ w1 r w2, @start_of (homeless_host 1024) toy_errors toy_dir Samples empty_world = Ok (0, w1) ∧
    @start_of (homeless_host 1024) toy_errors toy_dir Face w1 = Ok (r, w2) ∧
    snd <$> calls w2 = [replicate 1024 0; replicate 1024 0].
Proof.
  split.
  - destruct (@token_round_trip (toy_host 1024) _ toy_errors toy_dir Samples Face empty_world)
      as (E & w1 & r & w2 & H1 & H2 & H3); [apply toy_user|done..|].
    specialize (E (or_intror (or_intror (toy_home 1024)))).
    exists w1, r, w2. split; [exact H1|]. split; [exact H2|]. rewrite H3. rewrite decide_True by exact E. vm_compute. reflexivity.
  - destruct (@token_round_trip (homeless_host 1024) _ toy_errors toy_dir Samples Face empty_world)
      as (_ & w1 & r & w2 & H1 & H2 & H3); [by left|done..|].
    exists w1, r, w2. split; [exact H1|]. split; [exact H2|]. rewrite H3. vm_compute. reflexivity.
Defined.

(** A disk that is full after 700 bytes: no start is given a token. *)
Lemma starts_give_whole_tokens_witness :
  ∃ rs w', @start_all (toy_host 700) toy_errors toy_dir [Samples; Direct; Face] empty_world = Ok (rs, w') ∧ length rs = 3%nat.
Proof.
  destruct (@starts_give_whole_tokens (toy_host 700) _ toy_errors toy_dir (@the_file (toy_host 700) toy_dir Samples))
    with (ps := [Samples; Direct; Face]) (w := empty_world) as (rs & w' & H1 & H2 & _).
  - intros p. apply same_file. right. right. apply toy_home.
  - apply toy_user.
  - done.
  - exists rs, w'. split; [exact H1|exact H2].
Defined.
