(* ===== verification/Probe.v ===== *)
(** * Open addressing

    What the hash tables with linear probing share: slots [0, n) hold keys,
    and the search for a key starts at its home slot and goes on, around the
    end, until it meets the key or an empty slot. *)

From S2P Require Import Prelude.

Section probe.
Context {K : Type} (n : Z) (home : K → Z) (Hn : 0 < n).

(** The [j]-th slot of a search that starts at [h]. *)
Definition nth_slot (h j : Z) : Z := (h + j) mod n.

(** A slot with another key than [k]. *)
Definition other (s : Z → option K) (k : K) (i : Z) : Prop := ∃ k', s i = Some k' ∧ k' ≠ k.

(** Every key is the first of its kind on its own search path. *)
Definition placed (s : Z → option K) : Prop :=
  ∀ i k, 0 ≤ i < n → s i = Some k →
    ∃ d, 0 ≤ d < n ∧ i = nth_slot (home k) d ∧
      ∀ j, 0 ≤ j < d → other s k (nth_slot (home k) j).

(** Where the search for [k] stops: slot [d] of the path. *)
Definition stops (s : Z → option K) (k : K) (d : Z) : Prop :=
  0 ≤ d < n ∧ (s (nth_slot (home k) d) = None ∨ s (nth_slot (home k) d) = Some k) ∧
  ∀ j, 0 ≤ j < d → other s k (nth_slot (home k) j).

Lemma nth_slot_range h j : 0 ≤ nth_slot h j < n.
Proof. apply Z.mod_pos_bound. lia. Qed.

Lemma nth_slot_inj h i j : 0 ≤ i < n → 0 ≤ j < n → nth_slot h i = nth_slot h j → i = j.
Proof.
  unfold nth_slot. intros Hi Hj E.
  assert ((n | i - j)) as [q Hq].
  { apply Z.mod_divide; [lia|]. replace (i - j) with ((h + i) - (h + j)) by lia.
    rewrite Zminus_mod, E, Z.sub_diag. done. }
  assert (q = 0) as -> by (destruct (Z.lt_total q 0) as [|[|]]; nia). lia.
Qed.

Lemma nth_slot_onto h i : 0 ≤ i < n → ∃ j, 0 ≤ j < n ∧ nth_slot h j = i.
Proof.
  intros Hi. exists ((i - h) mod n). split; [by apply Z.mod_pos_bound|].
  unfold nth_slot. rewrite Zplus_mod_idemp_r. replace (h + (i - h)) with i by lia.
  by apply Z.mod_small.
Qed.

(** The next slot of a path. *)
Lemma nth_slot_S h j : (nth_slot h j + 1) mod n = nth_slot h (j + 1).
Proof. unfold nth_slot. rewrite Zplus_mod_idemp_l. f_equal. lia. Qed.

Lemma nth_slot_0 h : 0 ≤ h < n → nth_slot h 0 = h.
Proof. intros. unfold nth_slot. rewrite Z.add_0_r. by apply Z.mod_small. Qed.

Lemma placed_unique s i j k :
  placed s → 0 ≤ i < n → 0 ≤ j < n → s i = Some k → s j = Some k → i = j.
Proof.
  intros Hp Hi Hj Hsi Hsj.
  destruct (Hp i k Hi Hsi) as (di & Hdi & -> & Oi). destruct (Hp j k Hj Hsj) as (dj & Hdj & -> & Oj).
  destruct (Z.lt_total di dj) as [Hlt|[->|Hlt]]; [|done|].
  - destruct (Oj di) as (k' & Hk' & Hne); [lia|]. congruence.
  - destruct (Oi dj) as (k' & Hk' & Hne); [lia|]. congruence.
Qed.

(** A search that meets only other keys does not pass the key. *)
Lemma placed_path s k d i :
  placed s → 0 ≤ i < n → s i = Some k → (∀ j, 0 ≤ j < d → other s k (nth_slot (home k) j)) →
  ∃ d', d ≤ d' < n ∧ i = nth_slot (home k) d'.
Proof.
  intros Hp Hi Hs Ho. destruct (Hp i k Hi Hs) as (d' & Hd' & -> & _).
  exists d'. split; [|done]. split; [|lia]. destruct (Z.le_gt_cases d d'); [done|].
  destruct (Ho d') as (k' & Hk' & Hne); [lia|]. congruence.
Qed.

(** It stops at an empty slot only where the key is nowhere. *)
Lemma placed_miss s k d :
  placed s → stops s k d → s (nth_slot (home k) d) = None → ∀ i, 0 ≤ i < n → s i ≠ Some k.
Proof.
  intros Hp (Hd & _ & Ho) Hnone i Hi Hs.
  destruct (Hp i k Hi Hs) as (d' & Hd' & -> & Ho').
  destruct (Z.lt_total d' d) as [Hlt|[->|Hlt]]; [|congruence|].
  - destruct (Ho d') as (k' & Hk' & Hne); [lia|]. congruence.
  - destruct (Ho' d) as (k' & Hk' & Hne); [lia|]. congruence.
Qed.

Lemma placed_full s k :
  placed s → (∀ j, 0 ≤ j < n → other s k (nth_slot (home k) j)) → ∀ i, 0 ≤ i < n → s i ≠ Some k.
Proof.
  intros Hp Ho i Hi Hs. destruct (placed_path s k n i Hp Hi Hs Ho) as (d' & Hd' & _). lia.
Qed.

(** Where the search stops is where the key is, if it is anywhere. *)
Lemma stops_at s k d i :
  placed s → stops s k d → 0 ≤ i < n → s i = Some k → i = nth_slot (home k) d.
Proof.
  intros Hp Hst Hi Hs. pose proof Hst as (Hd & [Hnone|Hsome] & _).
  - by destruct (placed_miss s k d Hp Hst Hnone i Hi).
  - apply (placed_unique s i _ k Hp); [done|apply nth_slot_range|done|done].
Qed.

(** Where the search stops the key can be put. *)
Lemma placed_insert s k d :
  placed s → stops s k d → placed (fupd s (nth_slot (home k) d) (Some k)).
Proof.
  intros Hp Hst. pose proof Hst as (Hd & Hslot & Ho).
  pose proof (λ i, stops_at s k d i Hp Hst) as Hat. set (x := nth_slot (home k) d) in *.
  intros i k' Hi. unfold fupd at 1. case_decide as E.
  - intros [= <-]. exists d. split_and!; [lia..|by rewrite E|]. intros j Hj.
    destruct (Ho j Hj) as (k' & Hk' & Hne). exists k'. split; [|done].
    unfold fupd. rewrite decide_False; [done|]. intros Ej.
    assert (j = d); [|lia]. by apply (nth_slot_inj (home k)); [lia|lia|].
  - intros Hs. assert (k' ≠ k) as Hne by (intros ->; by apply E, Hat).
    destruct (Hp i k' Hi Hs) as (d' & Hd' & -> & Ho'). exists d'. split_and!; [lia..|done|].
    intros j Hj. destruct (Ho' j Hj) as (k'' & Hk'' & Hne''). unfold other, fupd.
    case_decide; [by exists k|by exists k''].
Qed.

(** The search stops unless every slot holds another key. *)
Lemma stops_or_full (s : Z → option K) `{EqDecision K} k :
  (∃ d, stops s k d) ∨ ∀ j, 0 ≤ j < n → other s k (nth_slot (home k) j).
Proof.
  cut (∀ m, 0 ≤ m ≤ n → (∃ d, stops s k d) ∨ ∀ j, 0 ≤ j < m → other s k (nth_slot (home k) j)).
  { intros H. apply (H n). lia. }
  intros m Hm. destruct Hm as [Hm0 Hmn]. revert Hmn. pattern m. apply natlike_ind; [|clear m Hm0|done].
  - intros _. right. intros j Hj. lia.
  - intros m Hm0 IH Hm. destruct IH as [IH|Ho]; [lia|by left|].
    destruct (s (nth_slot (home k) m)) as [k'|] eqn:E.
    + destruct (decide (k' = k)) as [->|Hne].
      * left. exists m. split_and!; [lia..|by right|done].
      * right. intros j Hj. destruct (decide (j = m)) as [->|]; [by exists k'|]. apply Ho. lia.
    + left. exists m. split_and!; [lia..|by left|done].
Qed.

Lemma stops_room (s : Z → option K) `{EqDecision K} k i :
  0 ≤ i < n → s i = None → ∃ d, stops s k d.
Proof.
  intros Hi Hs. destruct (stops_or_full s k) as [H|H]; [done|].
  destruct (nth_slot_onto (home k) i Hi) as (j & Hj & E).
  destruct (H j Hj) as (k' & Hk' & _). congruence.
Qed.

Lemma placed_empty s : (∀ i, 0 ≤ i < n → s i = None) → placed s.
Proof. intros H i k Hi Hs. rewrite H in Hs by done. done. Qed.

Lemma placed_ext s s' : (∀ i, 0 ≤ i < n → s i = s' i) → placed s → placed s'.
Proof.
  intros E Hp i k Hi Hs. rewrite <- E in Hs by done. destruct (Hp i k Hi Hs) as (d & Hd & -> & Ho).
  exists d. split_and!; [lia..|done|]. intros j Hj. destruct (Ho j Hj) as (k' & Hk' & Hne).
  exists k'. split; [|done]. rewrite <- E; [done|apply nth_slot_range].
Qed.

(** With fewer keys than slots some slot is empty. *)
Lemma placed_hole (s : Z → option K) (ks : list K) :
  placed s → (∀ i k, 0 ≤ i < n → s i = Some k → k ∈ ks) → Z.of_nat (length ks) < n →
  ∃ i, 0 ≤ i < n ∧ s i = None.
Proof.
  intros Hp Hks Hlen.
  destruct (decide (Exists (λ i, s i = None) (seqZ 0 n))) as [Hex|Hno].
  { apply Exists_exists in Hex as (i & Hi & Hs). apply elem_of_seqZ in Hi. exists i. split; [lia|done]. }
  exfalso. apply not_Exists_Forall in Hno; [|apply _]. rewrite Forall_forall in Hno.
  assert (∀ l, (∀ i, i ∈ l → 0 ≤ i < n) → NoDup l →
    NoDup (omap s l) ∧ length (omap s l) = length l ∧ ∀ k, k ∈ omap s l → k ∈ ks ∧ ∃ i, i ∈ l ∧ s i = Some k) as Hall.
  { induction l as [|i l IH]; intros Hl Hnd.
    { split; [constructor|]. split; [done|]. intros k Hk. by apply elem_of_nil in Hk. }
    apply NoDup_cons in Hnd as [Hin Hnd]. destruct IH as (H1 & H2 & H3); [by intros; apply Hl; right|done|].
    assert (0 ≤ i < n) as Hi by (apply Hl; left). simpl. destruct (s i) as [k|] eqn:E.
    2: { destruct (Hno i); [|done]. apply elem_of_seqZ. lia. }
    split_and!; [|simpl; f_equal; exact H2|].
    - apply NoDup_cons. split; [|done]. intros Hk. destruct (H3 k Hk) as (_ & i' & Hi' & Hs').
      apply Hin. replace i with i'; [done|]. apply (placed_unique s i' i k); try done. apply Hl. by right.
    - intros k' [->|Hk']%elem_of_cons.
      + split; [by eapply Hks|]. exists i. split; [left|done].
      + destruct (H3 k' Hk') as (H4 & i' & Hi' & Hs'). split; [done|]. exists i'. split; [by right|done]. }
  destruct (Hall (seqZ 0 n)) as (H1 & H2 & H3); [intros i Hi%elem_of_seqZ; lia|apply NoDup_seqZ|].
  assert (omap s (seqZ 0 n) ⊆+ ks) as Hsub.
  { apply NoDup_submseteq; [done|]. intros k Hk. by apply H3. }
  apply submseteq_length in Hsub. rewrite H2, length_seqZ in Hsub. lia.
Qed.

(** ** Loops that follow a path *)

(** A loop [F] that goes on until it meets a slot of [P]. *)
Lemma walk {R} (F : nat → Z → R) (hit : Z → R) (P : Z → Prop) h d :
  (∀ fuel j, 0 ≤ j ≤ d → P (nth_slot h j) → F (S fuel) (nth_slot h j) = hit (nth_slot h j)) →
  (∀ fuel j, 0 ≤ j ≤ d → ¬ P (nth_slot h j) → F (S fuel) (nth_slot h j) = F fuel (nth_slot h (j + 1))) →
  P (nth_slot h d) → (∀ j, 0 ≤ j < d → ¬ P (nth_slot h j)) →
  ∀ fuel j, 0 ≤ j ≤ d → d < j + Z.of_nat fuel → F fuel (nth_slot h j) = hit (nth_slot h d).
Proof.
  intros Hhit Hnext Hd Ho fuel. induction fuel as [|fuel IH]; intros j Hj Hf; [lia|].
  destruct (decide (j = d)) as [->|]; [by apply Hhit|].
  rewrite Hnext by (done || apply Ho; lia). apply IH; lia.
Qed.

(** A loop [F] that searches for [k], and gives up at an empty slot and when it
    is back where it began. *)
Lemma search `{EqDecision K} {R} (F : nat → Z → R) (hit : Z → R) (miss : R) (s : Z → option K) k :
  placed s → 0 ≤ home k < n →
  (∀ fuel i, 0 ≤ i < n → s i = None → F (S fuel) i = miss) →
  (∀ fuel i, 0 ≤ i < n → s i = Some k → F (S fuel) i = hit i) →
  (∀ fuel i, 0 ≤ i < n → other s k i →
    F (S fuel) i = if (i + 1) mod n =? home k then miss else F fuel ((i + 1) mod n)) →
  ∀ fuel, n ≤ Z.of_nat fuel →
  (∃ i, 0 ≤ i < n ∧ s i = Some k ∧ F fuel (home k) = hit i) ∨
  ((∀ i, 0 ≤ i < n → s i ≠ Some k) ∧ F fuel (home k) = miss).
Proof.
  intros Hp Hh Hmiss Hhit Hnext.
  cut (∀ fuel j, 0 ≤ j < n → n ≤ j + Z.of_nat fuel → (∀ i, 0 ≤ i < j → other s k (nth_slot (home k) i)) →
    (∃ i, 0 ≤ i < n ∧ s i = Some k ∧ F fuel (nth_slot (home k) j) = hit i) ∨
    ((∀ i, 0 ≤ i < n → s i ≠ Some k) ∧ F fuel (nth_slot (home k) j) = miss)).
  { intros H fuel Hf. specialize (H fuel 0). rewrite nth_slot_0 in H by done. apply H; [lia..|]. intros i Hi. lia. }
  induction fuel as [|fuel IH]; intros j Hj Hf Ho; [lia|].
  pose proof (nth_slot_range (home k) j) as Hi. destruct (s (nth_slot (home k) j)) as [k'|] eqn:E.
  - destruct (Hp _ _ Hi E) as (d & Hd & Ed & _). destruct (decide (k' = k)) as [->|Ek].
    { left. exists (nth_slot (home k) j). by rewrite Hhit. }
    assert (other s k (nth_slot (home k) j)) as Hoj by by exists k'.
    assert (∀ i, 0 ≤ i < j + 1 → other s k (nth_slot (home k) i)) as Ho'.
    { intros i Hi'. destruct (decide (i = j)) as [->|]; [done|]. apply Ho. lia. }
    rewrite Hnext by done. rewrite nth_slot_S. destruct (Z.eqb_spec (nth_slot (home k) (j + 1)) (home k)) as [En|En].
    + right. split; [|done]. apply placed_full; [done|]. intros i Hi'. apply Ho'.
      destruct (decide (j + 1 < n)); [|lia]. rewrite <- (nth_slot_0 (home k)) in En at 2 by done.
      apply nth_slot_inj in En; lia.
    + apply IH; [|lia|done]. destruct (decide (j + 1 = n)) as [Ej|]; [|lia]. destruct En.
      unfold nth_slot. rewrite Ej. replace (home k + n) with (home k + 1 * n) by lia.
      rewrite Z.mod_add by lia. by apply Z.mod_small.
  - right. split; [|by apply Hmiss]. apply (placed_miss s k j); [done| |done]. split; [done|]. split; [by left|done].
Qed.
End probe.
