(* ===== verification/FaceHash.v ===== *)
(** * The face verification server's database

    Models the hash table of [face_verification.cpp] (the enclave's, in
    [enclave_samples/trusted], and the ordinary process's, in
    [enclave_samples/untrusted]): an open-addressing table from names to
    histograms.  The two files differ, under [USE_SUVM], in where a histogram is
    kept; that is an interface here, [ValueStore]. *)

From S2P Require Import Prelude CString Memory Mem5 Suvm Aptr LibC.

Definition DUP_NUM : Z := 2.
Definition HISTOGRAM_LEN : Z := 58.
Definition IMG_WIDTH : Z := 512.
Definition BLOCK_WIDTH : Z := 16.
Definition NBLOCKS_DIM : Z := IMG_WIDTH / BLOCK_WIDTH.
Definition NBLOCKS : Z := NBLOCKS_DIM * NBLOCKS_DIM.
Definition KEY_LENGTH_BYTES : Z := 40.
Definition sizeof_int : Z := 4.
Definition HISTOGRAM_LENGTH_BYTES : Z := sizeof_int * HISTOGRAM_LEN * NBLOCKS.

(** Where the histograms are kept. *)
Class ValueStore (T : Type) := {
  alloc_value : M T Z;                 (* room for a histogram *)
  copy_in : Z → list Z → M T unit;     (* the bytes of a histogram into it *)
  copy_out : Z → M T (list Z);         (* and out of it *)
  free_value : Z → M T unit
}.

(** ** Data *)

(** [value] is 0 where the C pointer is [NULL]. *)
Record entry_t := mkEntry { key : list Z; value : Z }.

Record hash_t := mkHash {
  id : list entry_t;
  nentries : Z;
  total_size : Z;
  nbuckets : Z
}.

Definition set_id (l : list entry_t) (h : hash_t) : hash_t :=
  mkHash l (nentries h) (total_size h) (nbuckets h).
Definition set_nentries (n : Z) (h : hash_t) : hash_t :=
  mkHash (id h) (u64 n) (total_size h) (nbuckets h).
Definition set_total_size (n : Z) (h : hash_t) : hash_t :=
  mkHash (id h) (nentries h) (u64 n) (nbuckets h).

(** The table and the store its values are in. *)
Record db (T : Type) := mkDb { table : hash_t; values : T }.
Arguments mkDb {T} _ _.
Arguments table {T} _.
Arguments values {T} _.

Definition on_table {T} (f : hash_t → hash_t) : M (db T) unit :=
  modify (λ d, mkDb (f (table d)) (values d)).
Definition on_values {T A} (m : M T A) : M (db T) A := zoom values (λ v d, mkDb (table d) v) m.

(** ** Operations *)

(** [while ((c = *str++)) hash = ((hash << 5) + hash) + c;] on 64 bits. *)
Fixpoint hash_loop (str : list Z) (hash : Z) : option Z :=
  match str with
  | [] => None
  | c :: str' =>
      if c =? 0 then Some hash
      else hash_loop str' (u64 (u64 (Z.shiftl hash 5) + hash + c))
  end.

Definition hash_function (str : list Z) (nbuckets : Z) : option Z :=
  hash ← hash_loop str 5381; Some (i64 (hash mod u64 nbuckets)).

(** The same, of the string a buffer holds. *)
Definition hash_string (s : list Z) : Z :=
  fold_left (λ hash c, u64 (u64 (Z.shiftl hash 5) + hash + c)) s 5381.

(** [(idx + 1) % h->nbuckets] in an [int]. *)
Definition next_idx (h : hash_t) (idx : Z) : Z := i32 (u64 (idx + 1) mod nbuckets h).

(** [int hash = hash_function(key, h->nbuckets)]. *)
Definition home_idx {T} (h : hash_t) (key : list Z) : M T Z :=
  hash ← defined (hash_function key (i32 (nbuckets h))); mret (i32 hash).

Definition entry_at {T} (h : hash_t) (idx : Z) : M T entry_t :=
  if idx <? 0 then fail EUndef else defined (id h !! Z.to_nat idx).

(** [my_malloc] gave [ptr] for the index; each key is emptied in turn. *)
Fixpoint init_loop {T} (n : nat) (i : Z) : M (db T) unit :=
  match n with
  | O => mret tt
  | S n' =>
      h ← gets table;
      e ← entry_at h i;
      on_table (set_id (<[Z.to_nat i := mkEntry (<[0%nat := 0]> (key e)) 0]> (id h)));;
      init_loop n' (i + 1)
  end.

Definition hash_init {T} (ptr : Z) : M (db T) unit :=
  let n := 1024 * DUP_NUM in
  massert (negb (ptr =? 0));;
  on_table (λ _, mkHash (replicate (Z.to_nat n) (mkEntry (replicate 40 0) 0)) 0 (n * 40) n);;
  init_loop (Z.to_nat n) 0.

(** [do { ... } while ((idx != hash) && (entry->value != NULL))]: the address
    left in [*val]. *)
Fixpoint get_loop {T} (fuel : nat) (h : hash_t) (k : list Z) (hash idx : Z) : M T Z :=
  match fuel with
  | O => fail EFuel
  | S fuel' =>
      entry ← entry_at h idx;
      found ← (if value entry =? 0 then mret false else defined (strcmp_eq k (key entry)));
      if (found : bool) then mret (value entry)
      else
        let idx := next_idx h idx in
        if negb (idx =? hash) && negb (value entry =? 0) then get_loop fuel' h k hash idx
        else mret 0
  end.

Definition hash_get {T} (h : hash_t) (k : list Z) : M T Z :=
  hash ← home_idx h k;
  get_loop (length (id h)) h k hash hash.

(** [while ((h->id[idx].value != NULL) && strcmp(h->id[idx].key, key))] *)
Fixpoint put_loop {T} (fuel : nat) (h : hash_t) (k : list Z) (idx : Z) : M T Z :=
  match fuel with
  | O => fail EFuel
  | S fuel' =>
      entry ← entry_at h idx;
      if value entry =? 0 then mret idx
      else
        same ← defined (strcmp_eq (key entry) k);
        if (same : bool) then mret idx else put_loop fuel' h k (next_idx h idx)
  end.

Section operations.
Context `{ValueStore T}.

Definition hash_put (fuel : nat) (k val : list Z) (override : bool) : M (db T) unit :=
  h ← gets table;
  old_val ← hash_get h k;
  if negb (old_val =? 0) && negb override then mret tt
  else
    (if negb (old_val =? 0) then on_table (set_nentries (nentries h - 1)) else mret tt);;
    hash ← home_idx h k;
    idx ← put_loop fuel h k hash;
    dest ← defined (strncpy 40 k);
    e ← entry_at h idx;
    on_table (set_id (<[Z.to_nat idx := mkEntry dest (value e)]> (id h)));;
    p ← on_values alloc_value;
    on_table (set_id (<[Z.to_nat idx := mkEntry dest p]> (id h)));;
    on_values (copy_in p val);;
    h ← gets table;
    on_table (set_total_size (total_size h + HISTOGRAM_LENGTH_BYTES));;
    on_table (set_nentries (nentries h + 1)).

Fixpoint destroy_loop (n : nat) (i : Z) : M (db T) unit :=
  match n with
  | O => mret tt
  | S n' =>
      h ← gets table;
      e ← entry_at h i;
      (if value e =? 0 then mret tt else on_values (free_value (value e)));;
      destroy_loop n' (i + 1)
  end.

(** [free(h->id)] leaves no entry to read. *)
Definition hash_destroy : M (db T) unit :=
  h ← gets table;
  destroy_loop (Z.to_nat (nbuckets h)) 0;;
  on_table (set_id []).
End operations.

(** ** The two stores *)

(** Ordinary memory: the live blocks, and what [malloc] will answer: an
    address, 0 when out of memory, and what the block happens to hold. *)
Record native := mkNative { blocks : gmap Z (list Z); answers : list (Z * list Z) }.

Definition set_block (p : Z) (b : list Z) (s : native) : native :=
  mkNative (<[p := b]> (blocks s)) (answers s).

Definition malloc (size : Z) : M native Z := λ s,
  match answers s with
  | [] => Ok (0, s)
  | (p, garbage) :: rest =>
      let s' := mkNative (blocks s) rest in
      if p =? 0 then Ok (0, s') else Ok (p, set_block p (resize (Z.to_nat size) 0 garbage) s')
  end.

Definition block (p : Z) : M native (list Z) := b ← gets (λ s, blocks s !! p); defined b.

(** Aborts rather than return [NULL]; the block is zeroed. *)
Definition my_malloc (size : Z) : M native Z :=
  ptr ← malloc size;
  massert (negb (ptr =? 0));;
  modify (set_block ptr (replicate (Z.to_nat size) 0));;
  mret ptr.

Definition free (ptr : Z) : M native unit :=
  _ ← block ptr;
  modify (λ s, mkNative (delete ptr (blocks s)) (answers s)).

(** A block moved to one of [new_size] bytes, the new ones zero. *)
Definition my_realloc (ptr old_size new_size : Z) : M native Z :=
  new_ptr ← my_malloc new_size;
  old ← block ptr;
  new ← block new_ptr;
  let n := Z.to_nat old_size in
  (if decide (n ≤ length old ∧ n ≤ length new)%nat
   then modify (set_block new_ptr (take n old ++ drop n new)) else fail EUndef);;
  free ptr;;
  mret new_ptr.

#[export] Instance native_store : ValueStore native := {
  alloc_value := my_malloc HISTOGRAM_LENGTH_BYTES;
  copy_in p val :=
    b ← block p;
    let n := Z.to_nat HISTOGRAM_LENGTH_BYTES in
    if decide (n ≤ length val ∧ n ≤ length b)%nat
    then modify (set_block p (take n val ++ drop n b)) else fail EUndef;
  copy_out p := b ← block p;
    let n := Z.to_nat HISTOGRAM_LENGTH_BYTES in
    if decide (n ≤ length b)%nat then mret (take n b) else fail EUndef;
  free_value p := free p
}.

Section suvm_store.
Context `{Sgx}.

(** The pool, behind the paging layer: [memsys5Malloc] and [memsys5Free], a
    pointer to the block and a block copy through it. *)
#[export] Instance suvm_store : ValueStore suvm := {
  alloc_value := on_pool (memsys5Malloc HISTOGRAM_LENGTH_BYTES);
  copy_in p val :=
    ptr ← Aptr_ctor p HISTOGRAM_LENGTH_BYTES;
    memmove_aptr_reg ptr val HISTOGRAM_LENGTH_BYTES;;
    _ ← reset ptr;
    mret tt;
  copy_out p :=
    ptr ← Aptr_ctor p HISTOGRAM_LENGTH_BYTES;
    r ← memmove_reg_aptr (replicate (Z.to_nat HISTOGRAM_LENGTH_BYTES) 0) ptr HISTOGRAM_LENGTH_BYTES;
    _ ← reset r.2;
    mret r.1;
  free_value p := on_pool (memsys5Free p)
}.
End suvm_store.
