(* ===== verification/FaceHashThms.v ===== *)
(** * The database refines a finite map

    [hash_init], [hash_put], [hash_get] and [hash_destroy] against a map from
    names to histograms, over any store of values that keeps its promises.  The
    table's invariant and its searches come first. *)

From S2P Require Import Prelude CString Probe FaceHash.

(** ** The table of addresses

    The invariant of the open-addressing table and what its two searches do:
    the table is a finite map from names to the addresses of their values. *)

(** ** Hashing *)

Lemma hash_loop_cstr b k h :
  cstr b = Some k →
  hash_loop b h = Some (fold_left (λ hash c, u64 (u64 (Z.shiftl hash 5) + hash + c)) k h).
Proof.
  revert k h. induction b as [|c b IH]; intros k h Hk; simpl in *; [done|].
  destruct (c =? 0); [by injection Hk as <-|]. destruct (cstr b) as [k'|]; [|done].
  injection Hk as <-. simpl. by apply IH.
Qed.

Lemma hash_string_range k : 0 ≤ hash_string k < 2 ^ 64.
Proof.
  unfold hash_string. cut (∀ h, 0 ≤ h < 2 ^ 64 →
    0 ≤ fold_left (λ hash c, u64 (u64 (Z.shiftl hash 5) + hash + c)) k h < 2 ^ 64).
  { intros H. apply H. lia. }
  induction k as [|c k IH]; intros h Hh; simpl; [done|]. apply IH. apply u64_range.
Qed.

(** The home slot of a name. *)
Definition home (n : Z) (k : list Z) : Z := hash_string k mod n.

Lemma home_range n k : 0 < n → 0 ≤ home n k < n.
Proof. intros. by apply Z.mod_pos_bound. Qed.

(** ** The invariant *)

(** The name in slot [i], if the slot is taken. *)
Definition slot (l : list entry_t) (i : Z) : option (list Z) :=
  e ← l !! Z.to_nat i; if value e =? 0 then None else cstr (key e).

(** [P] maps the names in the table to the addresses of their values. *)
Record table_ok (h : hash_t) (P : gmap (list Z) Z) : Prop := {
  tab_size : Z.of_nat (length (id h)) = nbuckets h ∧ 0 < nbuckets h < 2 ^ 31;
  tab_keys : ∀ e, e ∈ id h → length (key e) = 40%nat ∧ (value e ≠ 0 → is_Some (cstr (key e)));
  tab_placed : placed (nbuckets h) (home (nbuckets h)) (slot (id h));
  tab_map : ∀ k p, P !! k = Some p ↔
    p ≠ 0 ∧ ∃ i e, id h !! i = Some e ∧ value e = p ∧ cstr (key e) = Some k;
  tab_count : nentries h = Z.of_nat (size P) ∧ Z.of_nat (size P) ≤ nbuckets h
}.

Section searches.
Context {T : Type} (h : hash_t) (P : gmap (list Z) Z) (Hok : table_ok h P).
Let n := nbuckets h.

Lemma home_idx_ok {B} b k (f : Z → M T B) s :
  cstr b = Some k → (home_idx h b ≫= f) s = f (home n k) s.
Proof.
  intros Hk. destruct (tab_size _ _ Hok) as [_ Hn]. unfold home_idx, hash_function.
  rewrite (hash_loop_cstr b k 5381 Hk). simpl. rewrite i32_id by lia. rewrite u64_id by lia.
  fold (hash_string k). change (hash_string k mod nbuckets h) with (home n k).
  pose proof (home_range n k ltac:(subst n; lia)). subst n.
  rewrite bind_assoc, bind_ret, bind_ret. rewrite i64_id, i32_id by lia. reflexivity.
Qed.

Lemma next_idx_ok hm j : next_idx h (nth_slot n hm j) = nth_slot n hm (j + 1).
Proof.
  destruct (tab_size _ _ Hok) as [_ Hn]. unfold next_idx.
  pose proof (nth_slot_range n ltac:(subst n; lia) hm j).
  pose proof (nth_slot_range n ltac:(subst n; lia) hm (j + 1)). subst n.
  rewrite u64_id by lia. rewrite nth_slot_S by lia. apply i32_id. lia.
Qed.

(** Every slot of a path has an entry. *)
Lemma entry_ok i : 0 ≤ i < n → ∃ e, id h !! Z.to_nat i = Some e ∧
  (∀ B (f : entry_t → M T B) s, (entry_at h i ≫= f) s = f e s) ∧
  slot (id h) i = (if value e =? 0 then None else cstr (key e)) ∧
  (value e ≠ 0 → is_Some (cstr (key e))).
Proof.
  intros Hi. destruct (tab_size _ _ Hok) as [Hlen Hn]. subst n.
  destruct (lookup_lt_is_Some_2 (id h) (Z.to_nat i)) as [e He]; [lia|]. exists e.
  split; [done|]. split; [|split].
  - intros B f s. unfold entry_at. rewrite (proj2 (Z.ltb_ge _ _)) by lia. by rewrite He.
  - unfold slot. by rewrite He.
  - apply (tab_keys _ _ Hok e). by eapply list_elem_of_lookup_2.
Qed.

Lemma slot_map i k : 0 ≤ i < n → slot (id h) i = Some k → is_Some (P !! k).
Proof.
  intros Hi. destruct (entry_ok i Hi) as (e & He & _ & -> & _).
  destruct (Z.eqb_spec (value e) 0) as [|Hv]; [done|]. intros Hk. exists (value e).
  apply (tab_map _ _ Hok). split; [done|]. by exists (Z.to_nat i), e.
Qed.

Lemma map_slot k p : P !! k = Some p →
  ∃ i e, 0 ≤ i < n ∧ slot (id h) i = Some k ∧ id h !! Z.to_nat i = Some e ∧ value e = p.
Proof.
  intros (Hp & i & e & He & Hv & Hk)%(tab_map _ _ Hok). pose proof (lookup_lt_Some _ _ _ He) as Hi.
  destruct (tab_size _ _ Hok) as [Hlen _]. exists (Z.of_nat i), e. rewrite Nat2Z.id.
  split; [subst n; lia|]. split; [|done]. unfold slot. rewrite Nat2Z.id, He. simpl.
  rewrite (proj2 (Z.eqb_neq _ _)) by congruence. done.
Qed.

Lemma absent k : (∀ i, 0 ≤ i < n → slot (id h) i ≠ Some k) → P !! k = None.
Proof.
  intros H. destruct (P !! k) as [p|] eqn:E; [|done].
  destruct (map_slot k p E) as (i & _ & Hi & Hs & _). by destruct (H i Hi).
Qed.

(** [hash_get] finds the address of a name, or [NULL]. *)
Lemma get_loop_ok b k fuel (s : T) :
  cstr b = Some k → n ≤ Z.of_nat fuel →
  get_loop fuel h b (home n k) (home n k) s = Ok (default 0 (P !! k), s).
Proof.
  intros Hb Hf. destruct (tab_size _ _ Hok) as [_ Hn0]. fold n in Hn0.
  pose proof (tab_placed _ _ Hok) as Hpl. fold n in Hpl. pose proof (home_range n k ltac:(lia)) as Hh.
  assert (∀ i e, id h !! Z.to_nat i = Some e → slot (id h) i = Some k → 0 ≤ i < n → P !! k = Some (value e)) as HP.
  { intros i e He Hs Hi. unfold slot in Hs. rewrite He in Hs. simpl in Hs. apply (tab_map _ _ Hok).
    destruct (Z.eqb_spec (value e) 0); [done|]. split; [done|]. by exists (Z.to_nat i), e. }
  destruct (search n (home n) ltac:(lia) (λ fuel i, get_loop fuel h b (home n k) i s)
    (λ i, Ok (default 0 (value <$> id h !! Z.to_nat i), s)) (Ok (0, s)) (slot (id h)) k Hpl Hh)
    with (fuel := fuel) as [(i & Hi & Hs & Hrun)|[Hno Hrun]]; cbv beta in *; try done.
  - clear fuel Hf. intros fuel i Hi Hs. destruct (entry_ok i Hi) as (e & He & Hrun & Hslot & Hkey).
    cbn [get_loop]. rewrite Hrun. rewrite Hslot in Hs. destruct (Z.eqb_spec (value e) 0) as [Hv|Hv].
    + rewrite bind_ret. cbv zeta. by rewrite andb_false_r.
    + destruct (Hkey Hv). congruence.
  - clear fuel Hf. intros fuel i Hi Hs. destruct (entry_ok i Hi) as (e & He & Hrun & Hslot & Hkey).
    cbn [get_loop]. rewrite Hrun, He. rewrite Hslot in Hs. destruct (Z.eqb_spec (value e) 0) as [Hv|Hv]; [done|].
    rewrite (bind_defined _ _ _ _ (strcmp_eq_spec _ _ _ _ Hb Hs)). by rewrite bool_decide_true.
  - clear fuel Hf. intros fuel i Hi (k' & Hs & Hne). destruct (entry_ok i Hi) as (e & He & Hrun & Hslot & Hkey).
    cbn [get_loop]. rewrite Hrun. rewrite Hslot in Hs. destruct (Z.eqb_spec (value e) 0) as [Hv|Hv]; [done|].
    rewrite (bind_defined _ _ _ _ (strcmp_eq_spec _ _ _ _ Hb Hs)), bool_decide_false by congruence.
    cbv zeta. unfold next_idx. rewrite u64_id by lia. fold n. pose proof (Z.mod_pos_bound (i + 1) n ltac:(lia)).
    rewrite i32_id by lia. cbn [negb]. rewrite andb_true_r. by destruct (_ =? _).
  - rewrite Hrun. destruct (entry_ok i Hi) as (e & He & _). by rewrite He, (HP i e He Hs Hi).
  - by rewrite Hrun, (absent k Hno).
Qed.

Lemma hash_get_ok b k (s : T) :
  cstr b = Some k → hash_get h b s = Ok (default 0 (P !! k), s).
Proof.
  intros Hb. destruct (tab_size _ _ Hok) as [Hlen Hn].
  unfold hash_get. rewrite (home_idx_ok b k) by done. apply get_loop_ok; [done|subst n; lia].
Qed.

(** The search of [hash_put] ends where the name is or can go. *)
Lemma put_loop_ok b k d fuel j (s : T) :
  cstr b = Some k → stops n (home n) (slot (id h)) k d → 0 ≤ j ≤ d → d < j + Z.of_nat fuel →
  put_loop fuel h b (nth_slot n (home n k) j) s = Ok (nth_slot n (home n k) d, s).
Proof.
  intros Hb (Hd & Hs & Ho) Hj Hf. destruct (tab_size _ _ Hok) as [_ Hn0]. fold n in Hn0.
  apply (walk n (λ fuel i, put_loop fuel h b i s) (λ i, Ok (i, s)) (λ i, slot (id h) i = None ∨ slot (id h) i = Some k)
    (home n k)); [| |done| |done|done].
  - intros fuel' i _ Hi. assert (0 ≤ nth_slot n (home n k) i < n) as Hr by (apply nth_slot_range; lia).
    destruct (entry_ok _ Hr) as (e & He & Hrun & Hslot & Hkey). cbn [put_loop]. rewrite Hrun.
    destruct (Z.eqb_spec (value e) 0) as [Hv|Hv]; [done|]. destruct (Hkey Hv) as [k' Hk'].
    rewrite (bind_defined _ _ _ _ (strcmp_eq_spec _ _ _ _ Hk' Hb)). rewrite bool_decide_true; [done|].
    rewrite Hslot, Hk' in Hi. naive_solver.
  - intros fuel' i _ Hi. assert (0 ≤ nth_slot n (home n k) i < n) as Hr by (apply nth_slot_range; lia).
    destruct (entry_ok _ Hr) as (e & He & Hrun & Hslot & Hkey). cbn [put_loop]. rewrite Hrun.
    rewrite Hslot in Hi. destruct (Z.eqb_spec (value e) 0) as [Hv|Hv]; [naive_solver|]. destruct (Hkey Hv) as [k' Hk'].
    rewrite (bind_defined _ _ _ _ (strcmp_eq_spec _ _ _ _ Hk' Hb)), bool_decide_false by naive_solver.
    by rewrite next_idx_ok.
  - intros i Hi [Hc|Hc]; destruct (Ho i Hi) as (k' & Hk' & Hne); congruence.
Qed.

(** Where every slot holds another name it never ends. *)
Lemma put_loop_full b k fuel j (s : T) :
  cstr b = Some k → (∀ i, 0 ≤ i < n → other (slot (id h)) k i) →
  put_loop fuel h b (nth_slot n (home n k) j) s = Err EFuel.
Proof.
  intros Hb Ho. destruct (tab_size _ _ Hok) as [_ Hn0]. fold n in Hn0.
  revert j. induction fuel as [|fuel IH]; intros j; [done|].
  assert (0 ≤ nth_slot n (home n k) j < n) as Hi by (apply nth_slot_range; lia).
  destruct (entry_ok _ Hi) as (e & He & Hrun & Hslot & Hkey).
  cbn [put_loop]. rewrite Hrun. destruct (Ho _ Hi) as (k' & Hk' & Hkk). rewrite Hslot in Hk'.
  destruct (Z.eqb_spec (value e) 0) as [Hv|Hv]; [done|].
  rewrite (bind_defined _ _ _ _ (strcmp_eq_spec _ _ _ _ Hk' Hb)). rewrite bool_decide_false by done.
  rewrite next_idx_ok. apply IH.
Qed.

(** Fewer names than slots: some slot is empty. *)
Lemma empty_slot : Z.of_nat (size P) < n → ∃ i, 0 ≤ i < n ∧ slot (id h) i = None.
Proof.
  intros Hsz. destruct (tab_size _ _ Hok) as [_ Hn0]. fold n in Hn0.
  apply (placed_hole n (home n) ltac:(lia) _ (elements (dom P)) (tab_placed _ _ Hok)).
  - intros i k Hi Hs. apply elem_of_elements, elem_of_dom. by eapply slot_map.
  - change (length (elements (dom P))) with (size (dom P)). by rewrite size_dom.
Qed.

(** An empty slot: fewer names than slots. *)
Lemma full_no_hole i : 0 ≤ i < n → slot (id h) i = None → Z.of_nat (size P) < n.
Proof.
  intros Hi Hs. assert (elements (dom P) ⊆+ omap (slot (id h)) (seqZ 0 n)) as Hsub.
  { apply NoDup_submseteq; [apply NoDup_elements|]. intros k Hk%elem_of_elements.
    apply elem_of_dom in Hk as [p Hp]. destruct (map_slot k p Hp) as (j & _ & Hj & Hsj & _).
    apply list_elem_of_omap. exists j. split; [apply elem_of_seqZ; lia|done]. }
  apply submseteq_length in Hsub. change (length (elements (dom P))) with (size (dom P)) in Hsub.
  rewrite size_dom in Hsub.
  pose proof (omap_shorter (slot (id h)) (seqZ 0 n) i ltac:(apply elem_of_seqZ; lia) Hs) as Hlt.
  rewrite length_seqZ in Hlt. lia.
Qed.
End searches.

#[local] Opaque HISTOGRAM_LENGTH_BYTES.

(** What a store of values promises: [stored_values t A n] says that [t] keeps
    the values [A] at their addresses and has room for [n] more. *)
Class ValueLaws (T : Type) `{ValueStore T} := {
  stored_values : T → gmap Z (list Z) → nat → Prop;
  stored_less t A n : stored_values t A (S n) → stored_values t A n;
  put_value_ok t A n v :
    stored_values t A (S n) → Z.of_nat (length v) = HISTOGRAM_LENGTH_BYTES → u8 <$> v = v →
    ∃ p t1 t2, alloc_value t = Ok (p, t1) ∧ copy_in p v t1 = Ok (tt, t2) ∧
      p ≠ 0 ∧ A !! p = None ∧ stored_values t2 (<[p := v]> A) n;
  copy_out_ok t A n p v :
    stored_values t A n → A !! p = Some v →
    ∃ t', copy_out p t = Ok (v, t') ∧ stored_values t' A n
}.

(** What destroying the database needs besides: values can be freed. *)
Class ValueFree (T : Type) `{ValueLaws T} :=
  free_value_ok t A n p v :
    stored_values t A n → A !! p = Some v →
    ∃ t', free_value p t = Ok (tt, t') ∧ stored_values t' (delete p A) n.

(** ** Putting a name in the table *)

Lemma slot_insert l e i x :
  0 ≤ i → 0 ≤ x < Z.of_nat (length l) →
  slot (<[Z.to_nat x := e]> l) i =
    if decide (i = x) then (if value e =? 0 then None else cstr (key e)) else slot l i.
Proof.
  intros Hi Hx. unfold slot. case_decide as E.
  - subst i. rewrite list_lookup_insert_eq by lia. done.
  - rewrite list_lookup_insert_ne by lia. done.
Qed.

Lemma table_put h P k d dest p ts :
  table_ok h P → stops (nbuckets h) (home (nbuckets h)) (slot (id h)) k d →
  length dest = 40%nat → cstr dest = Some k → p ≠ 0 →
  is_Some (P !! k) ∨ Z.of_nat (size P) < nbuckets h →
  let x := nth_slot (nbuckets h) (home (nbuckets h) k) d in
  table_ok (mkHash (<[Z.to_nat x := mkEntry dest p]> (id h))
    (Z.of_nat (size (<[k := p]> P))) ts (nbuckets h)) (<[k := p]> P).
Proof.
  intros Hok Hst Hlen Hdest Hp Hroom x. destruct (tab_size _ _ Hok) as [Hsz Hn].
  destruct Hst as (Hd & Hslot & Ho). set (n := nbuckets h) in *.
  assert (0 ≤ x < n) as Hx by (apply nth_slot_range; lia).
  assert (∀ i, 0 ≤ i < n →
    slot (<[Z.to_nat x := mkEntry dest p]> (id h)) i = fupd (slot (id h)) x (Some k) i) as Hs.
  { intros i Hi. rewrite slot_insert by lia. unfold fupd. case_decide; [|done]. simpl.
    by rewrite (proj2 (Z.eqb_neq _ _)) by done. }
  assert (placed n (home n) (slot (<[Z.to_nat x := mkEntry dest p]> (id h)))) as Hpl.
  { apply (placed_ext n (home n) ltac:(lia) (fupd (slot (id h)) x (Some k))); [by intros; rewrite Hs|].
    apply placed_insert; [lia|apply (tab_placed _ _ Hok)|done]. }
  constructor; cbn [id nentries nbuckets]; fold n; try done.
  - by rewrite length_insert.
  - intros e [i [Hi|Hi]%list_lookup_insert_Some]%list_elem_of_lookup_1.
    + destruct Hi as (_ & <- & _). split; [done|]. intros _. by exists k.
    + apply (tab_keys _ _ Hok e). by eapply list_elem_of_lookup_2, (proj2 Hi).
  - intros k' p'. rewrite lookup_insert_Some. split.
    + intros [[<- <-]|[Hk HP]].
      * split; [done|]. exists (Z.to_nat x), (mkEntry dest p).
        rewrite list_lookup_insert_eq by lia. done.
      * apply (tab_map _ _ Hok) in HP as HP'. destruct HP' as (Hp' & i & e & He & Hv & Hke).
        split; [done|]. exists i, e. split; [|done]. rewrite list_lookup_insert_ne; [done|].
        intros Ei. assert (slot (id h) x = Some k') as Hsx.
        { unfold slot. rewrite Ei, He. simpl. by rewrite (proj2 (Z.eqb_neq _ _)) by congruence. }
        fold x in Hslot. destruct Hslot; congruence.
    + intros (Hp' & i & e & He & Hv & Hke). apply list_lookup_insert_Some in He.
      destruct He as [(<- & <- & _)|[Hne He]].
      * left. simpl in *. split; congruence.
      * right. assert (slot (<[Z.to_nat x := mkEntry dest p]> (id h)) (Z.of_nat i) = Some k') as Hsi.
        { unfold slot. rewrite Nat2Z.id, list_lookup_insert_ne by done. rewrite He. simpl.
          by rewrite (proj2 (Z.eqb_neq _ _)) by congruence. }
        pose proof (lookup_lt_Some _ _ _ He) as Hi. split.
        -- intros <-. apply Hne. rewrite (placed_unique n (home n) _ x (Z.of_nat i) k Hpl);
             [by rewrite Nat2Z.id|done|lia| |done].
           rewrite Hs by done. apply fupd_eq.
        -- apply (tab_map _ _ Hok). split; [done|]. by exists i, e.
  - split; [done|]. pose proof (proj2 (tab_count _ _ Hok)) as Hc. fold n in Hc.
    rewrite map_size_insert. destruct (P !! k) eqn:E; simpl; [lia|].
    destruct Hroom as [[? ?]|]; [congruence|]. fold n in H. lia.
Qed.

Lemma bind_on_table {T B} (f : hash_t → hash_t) (k : unit → M (db T) B) d :
  (on_table f ≫= k) d = k tt (mkDb (f (table d)) (values d)).
Proof. done. Qed.

Lemma bind_on_values {T A B} (m : M T A) (k : A → M (db T) B) d a t :
  m (values d) = Ok (a, t) → (on_values m ≫= k) d = k a (mkDb (table d) t).
Proof. intros E. unfold on_values. by erewrite (bind_zoom values) by exact E. Qed.

(** The search of [hash_put] ends, where the name is in the table or there is
    room for it. *)
Lemma stops_ok h P k :
  table_ok h P → is_Some (P !! k) ∨ Z.of_nat (size P) < nbuckets h →
  ∃ d, stops (nbuckets h) (home (nbuckets h)) (slot (id h)) k d.
Proof.
  intros Hok H. destruct (tab_size _ _ Hok) as [_ Hn]. destruct H as [[p Hp]|Hroom].
  - destruct (map_slot h P Hok k p Hp) as (i & _ & Hi & Hs & _).
    destruct (tab_placed _ _ Hok i k Hi Hs) as (d & Hd & -> & Ho). exists d. split; [done|]. split; [by right|done].
  - destruct (empty_slot (T := unit) h P Hok Hroom) as (i & Hi & Hs).
    by apply (stops_room (nbuckets h) (home (nbuckets h)) ltac:(lia) _ _ i).
Qed.

Section database.
Context `{HT : ValueLaws T}.

(** The database [d] holds the names and histograms [m], and its store has
    room for [n] more. *)
Definition db_ok (d : db T) (m : gmap (list Z) (list Z)) (n : nat) : Prop :=
  ∃ P A, table_ok (table d) P ∧ stored_values (values d) A n ∧ dom P = dom m ∧
    (∀ k p, P !! k = Some p → A !! p = m !! k) ∧
    (∀ k k' p, P !! k = Some p → P !! k' = Some p → k = k').

(** What [hash_put] means. *)
Definition put_spec (k v : list Z) (override : bool) (m : gmap (list Z) (list Z)) :=
  if bool_decide (is_Some (m !! k)) && negb override then m else <[k := v]> m.

Lemma dom_is_Some (P : gmap (list Z) Z) (m : gmap (list Z) (list Z)) k :
  dom P = dom m → is_Some (P !! k) ↔ is_Some (m !! k).
Proof. intros E. by rewrite <- !elem_of_dom, E. Qed.

Lemma dom_size (P : gmap (list Z) Z) (m : gmap (list Z) (list Z)) :
  dom P = dom m → size P = size m.
Proof. intros E. by rewrite <- !size_dom, E. Qed.

Lemma db_lookup d m n b k :
  db_ok d m n → cstr b = Some k →
  ∃ p, hash_get (table d) b d = Ok (p, d) ∧
    match m !! k with
    | None => p = 0
    | Some v => p ≠ 0 ∧ ∃ t', copy_out p (values d) = Ok (v, t') ∧ db_ok (mkDb (table d) t') m n
    end.
Proof.
  intros (P & A & Htab & Hval & Hdom & Hm & Hinj) Hb.
  exists (default 0 (P !! k)). split; [by apply (hash_get_ok _ P)|].
  destruct (P !! k) as [p|] eqn:EP.
  - destruct (proj1 (dom_is_Some P m k Hdom)) as [v Hv]; [by rewrite EP|]. rewrite Hv.
    pose proof (Hm k p EP) as HA. rewrite Hv in HA. split.
    + simpl. by apply (tab_map _ _ Htab) in EP as [? _].
    + destruct (copy_out_ok _ _ _ _ _ Hval HA) as (t' & Hrun & Hval'). exists t'. split; [done|].
      by exists P, A.
  - destruct (m !! k) eqn:Em; [|done]. destruct (proj2 (dom_is_Some P m k Hdom)); [by rewrite Em|congruence].
Qed.

Lemma hash_put_ok d m n b k val override fuel :
  db_ok d m (S n) → cstr b = Some k → (length k < 40)%nat →
  Z.of_nat (length val) = HISTOGRAM_LENGTH_BYTES → u8 <$> val = val →
  is_Some (m !! k) ∨ Z.of_nat (size m) < nbuckets (table d) →
  nbuckets (table d) ≤ Z.of_nat fuel →
  ∃ d', hash_put fuel b val override d = Ok (tt, d') ∧
    db_ok d' (put_spec k val override m) n ∧ nbuckets (table d') = nbuckets (table d).
Proof.
  intros (P & A & Htab & Hval & Hdom & Hm & Hinj) Hb Hk Hlen Hu Hroom Hfuel.
  set (h := table d) in *.
  destruct (tab_size _ _ Htab) as [Hsz Hn]. pose proof (tab_count _ _ Htab) as [Hcnt Hcap].
  unfold hash_put. rewrite bind_gets. fold h.
  rewrite (bind_Ok _ _ _ _ _ (hash_get_ok h P Htab b k d Hb)).
  assert (∀ p, P !! k = Some p → p ≠ 0) as Hnz by (by intros p [? _]%(tab_map _ _ Htab)).
  unfold put_spec. rewrite (bool_decide_ext _ (is_Some (P !! k))) by (symmetry; by apply dom_is_Some).
  assert (negb (default 0 (P !! k) =? 0) = bool_decide (is_Some (P !! k))) as ->.
  { destruct (P !! k) as [p|] eqn:E; simpl.
    - rewrite (proj2 (Z.eqb_neq p 0)) by (by eapply Hnz). done.
    - done. }
  destruct (bool_decide (is_Some (P !! k)) && negb override) eqn:Eskip.
  { exists d. split; [done|]. split; [|done]. exists P, A. split_and!; try done. by apply stored_less. }
  rewrite <- (dom_is_Some P m k Hdom), <- (dom_size P m Hdom) in Hroom.
  destruct (stops_ok h P k Htab Hroom) as (j & Hst).
  destruct (strncpy_cstr 40 b k Hb Hk) as (dest & Hcpy & Hdl & Hdk).
  destruct (put_value_ok _ _ _ _ Hval Hlen Hu) as (p & t1 & t2 & Halloc & Hcopy & Hp & HA & Hval').
  set (x := nth_slot (nbuckets h) (home (nbuckets h) k) j).
  assert (0 ≤ x < nbuckets h) as Hx by (apply nth_slot_range; lia).
  set (ne := if bool_decide (is_Some (P !! k)) then u64 (nentries h - 1) else nentries h).
  set (d1 := mkDb (mkHash (id h) ne (total_size h) (nbuckets h)) (values d)).
  assert ((if bool_decide (is_Some (P !! k)) then on_table (set_nentries (nentries h - 1)) else mret tt) d
    = Ok (tt, d1)) as Hdec.
  { unfold d1, ne. destruct (bool_decide _); [done|]. unfold h. by destruct d as [[] ?]. }
  rewrite (bind_Ok _ _ _ _ _ Hdec). rewrite (home_idx_ok h P Htab b k) by done.
  assert (put_loop fuel h b (home (nbuckets h) k) d1 = Ok (x, d1)) as Hloop.
  { rewrite <- (nth_slot_0 (nbuckets h) (home (nbuckets h) k)) by (apply home_range; lia).
    pose proof (proj1 Hst) as Hj. apply (put_loop_ok h P Htab b k j); [done|exact Hst|lia|lia]. }
  rewrite (bind_Ok _ _ _ _ _ Hloop). rewrite (bind_defined _ _ _ _ Hcpy).
  destruct (entry_ok (T := db T) h P Htab x Hx) as (e & _ & Hrun & _). rewrite Hrun. cbv beta.
  rewrite bind_on_table. rewrite (bind_on_values _ _ _ p t1) by exact Halloc.
  rewrite bind_on_table. rewrite (bind_on_values _ _ _ tt t2) by exact Hcopy.
  rewrite bind_gets, bind_on_table. cbn [table values].
  assert (u64 (ne + 1) = Z.of_nat (size (<[k := p]> P))) as Ene.
  { rewrite map_size_insert. unfold ne. destruct (P !! k) eqn:E.
    - rewrite bool_decide_true by (by eexists). simpl. rewrite Hcnt.
      unfold u64. rewrite Zplus_mod_idemp_l. rewrite Z.mod_small by lia. lia.
    - rewrite bool_decide_false by (by intros [? ?]). simpl. rewrite Hcnt.
      destruct Hroom as [[? ?]|Hr]; [congruence|]. rewrite u64_id by lia. lia. }
  eexists. split; [reflexivity|]. split; [|done].
  exists (<[k := p]> P), (<[p := val]> A). split_and!.
  - unfold d1. cbn [table on_table]. unfold set_nentries, set_total_size, set_id. cbn [id nentries total_size nbuckets].
    rewrite Ene. by apply table_put.
  - exact Hval'.
  - by rewrite !dom_insert_L, Hdom.
  - intros k' p'. rewrite lookup_insert_Some. intros [[<- <-]|[Hne HP]].
    + by rewrite !lookup_insert_eq.
    + rewrite (lookup_insert_ne m) by done. rewrite lookup_insert_ne; [by apply Hm|].
      intros ->. pose proof (Hm k' p' HP) as Hm'. rewrite HA in Hm'.
      assert (is_Some (m !! k')) as [? ?] by (apply (dom_is_Some P m k' Hdom); by exists p'). congruence.
  - intros k1 k2 p'. rewrite !lookup_insert_Some.
    assert (∀ k', P !! k' = Some p → False) as Hfresh.
    { intros k' HP. pose proof (Hm k' p HP) as Hm'. rewrite HA in Hm'.
      assert (is_Some (m !! k')) as [? ?] by (apply (dom_is_Some P m k' Hdom); by exists p). congruence. }
    intros [[<- <-]|[? ?]] [[<- ?]|[? ?]]; subst; try done; [by destruct (Hfresh k2)|
      by destruct (Hfresh k1)|by eapply Hinj].
Qed.

(** A name too long for the key is stored without its terminator. *)
Lemma hash_put_long d m n b k val fuel :
  db_ok d m (S n) → cstr b = Some k → (40 ≤ length k)%nat →
  Z.of_nat (length val) = HISTOGRAM_LENGTH_BYTES → u8 <$> val = val →
  m !! k = None → Z.of_nat (size m) < nbuckets (table d) →
  nbuckets (table d) ≤ Z.of_nat fuel →
  ∃ d', hash_put fuel b val false d = Ok (tt, d') ∧ hash_get (table d') b d' = Err EUndef.
Proof.
  intros (P & A & Htab & Hval & Hdom & Hm & Hinj) Hb Hk Hlen Hu Hmk Hroom Hfuel.
  set (h := table d) in *. rewrite <- (dom_size P m Hdom) in Hroom.
  assert (P !! k = None) as HPk.
  { apply not_elem_of_dom. rewrite Hdom. by apply not_elem_of_dom. }
  destruct (tab_size _ _ Htab) as [Hsz Hn].
  destruct (stops_ok h P k Htab ltac:(by right)) as (j & Hst).
  destruct (put_value_ok _ _ _ _ Hval Hlen Hu) as (p & t1 & t2 & Halloc & Hcopy & Hp & HA & Hval').
  set (x := nth_slot (nbuckets h) (home (nbuckets h) k) j).
  assert (0 ≤ x < nbuckets h) as Hx by (apply nth_slot_range; lia).
  pose proof (home_range (nbuckets h) k ltac:(lia)) as Hhome.
  unfold hash_put. rewrite bind_gets. fold h.
  rewrite (bind_Ok _ _ _ _ _ (hash_get_ok h P Htab b k d Hb)), HPk.
  cbn [default from_option id Z.eqb negb andb]. rewrite bind_ret, (home_idx_ok h P Htab b k) by done.
  assert (put_loop fuel h b (home (nbuckets h) k) d = Ok (x, d)) as Hloop.
  { rewrite <- (nth_slot_0 (nbuckets h) (home (nbuckets h) k)) by lia.
    pose proof (proj1 Hst). apply (put_loop_ok h P Htab b k j); [done|exact Hst|lia|lia]. }
  rewrite (bind_Ok _ _ _ _ _ Hloop), (bind_defined _ _ _ _ (strncpy_long 40 b k Hb Hk)).
  destruct (entry_ok (T := db T) h P Htab x Hx) as (e & _ & Hrun & _). rewrite Hrun. cbv beta.
  rewrite bind_on_table. rewrite (bind_on_values _ _ _ p t1) by exact Halloc.
  rewrite bind_on_table. rewrite (bind_on_values _ _ _ tt t2) by exact Hcopy.
  rewrite bind_gets, bind_on_table. eexists. split; [reflexivity|]. cbn [table values].
  match goal with |- hash_get ?h' b ?d' = _ => set (h2 := h'); set (d2 := d') end.
  assert (id h2 = <[Z.to_nat x := mkEntry (take 40 k) p]> (id h)) as Eid by done.
  assert (nbuckets h2 = nbuckets h) as Enb by done.
  unfold hash_get, home_idx, hash_function. rewrite (hash_loop_cstr b k 5381 Hb), Enb. simpl.
  rewrite i32_id, u64_id by lia. rewrite bind_assoc, bind_ret, bind_ret.
  change (fold_left _ k 5381 mod nbuckets h) with (home (nbuckets h) k). rewrite i64_id, i32_id by lia.
  assert (∀ f i, 0 ≤ i ≤ j → j < i + Z.of_nat f →
    get_loop f h2 b (home (nbuckets h) k) (nth_slot (nbuckets h) (home (nbuckets h) k) i) d2 = Err EUndef) as Hget.
  { clear Hloop Hrun. destruct Hst as (Hj & _ & Ho). induction f as [|f IH]; intros i Hi Hf; [lia|].
    cbn [get_loop]. set (y := nth_slot (nbuckets h) (home (nbuckets h) k) i).
    assert (0 ≤ y < nbuckets h) as Hy by (apply nth_slot_range; lia).
    destruct (entry_ok (T := db T) h P Htab y Hy) as (ey & Hey & _ & Hslot & Hkey).
    unfold entry_at. rewrite (proj2 (Z.ltb_ge y 0)) by lia. rewrite Eid.
    destruct (decide (i = j)) as [->|Hij].
    - fold x in y. subst y. rewrite list_lookup_insert_eq by lia.
      rewrite (bind_defined _ _ _ _ eq_refl). cbn [value key]. rewrite (proj2 (Z.eqb_neq p 0)) by done.
      apply bind_Err. assert (strcmp_eq b (take 40 k) = None) as ->; [|done].
      revert Hb Hk. clear. generalize 40%nat. intros m. revert b k.
      induction m as [|m IH]; intros b k Hb Hk; [by destruct b, k|].
      destruct b as [|c b]; [done|]. simpl in Hb. destruct (Z.eqb_spec c 0) as [|Hc]; [by injection Hb as <-; simpl in Hk; lia|].
      destruct (cstr b) as [k'|] eqn:E; [|done]. injection Hb as <-. simpl in *.
      rewrite Z.eqb_refl, (proj2 (Z.eqb_neq c 0)) by done. apply IH; [done|lia].
    - rewrite list_lookup_insert_ne.
      2: { intros E. assert (x = y) as E' by lia. apply nth_slot_inj in E'; lia. }
      rewrite Hey, (bind_defined _ _ _ _ eq_refl). destruct (Ho i) as (k' & Hk' & Hne); [lia|]. fold y in Hk'.
      rewrite Hslot in Hk'. destruct (Z.eqb_spec (value ey) 0) as [|Hv]; [done|].
      rewrite (bind_defined _ _ _ _ (strcmp_eq_spec _ _ _ _ Hb Hk')). rewrite bool_decide_false by done.
      cbv zeta. replace (next_idx h2 y) with (next_idx h y) by (unfold next_idx; by rewrite Enb).
      unfold y. rewrite (next_idx_ok h P Htab). cbn [negb]. rewrite andb_true_r.
      rewrite (proj2 (Z.eqb_neq _ _)); [cbn [negb]; apply IH; lia|].
      rewrite <- (nth_slot_0 (nbuckets h) (home (nbuckets h) k)) at 2 by lia.
      intros E. apply nth_slot_inj in E; lia. }
  specialize (Hget (length (id h2)) 0). rewrite (nth_slot_0 (nbuckets h)) in Hget by lia.
  apply Hget; [destruct Hst; lia|]. rewrite Eid, length_insert. destruct Hst. lia.
Qed.

(** Nor does it end when the name is new and the table full. *)
Lemma hash_put_full d m n b k val override fuel :
  db_ok d m n → cstr b = Some k → m !! k = None → Z.of_nat (size m) = nbuckets (table d) →
  hash_put fuel b val override d = Err EFuel.
Proof.
  intros (P & A & Htab & Hval & Hdom & Hm & Hinj) Hb Hmk Hfull.
  set (h := table d) in *. rewrite <- (dom_size P m Hdom) in Hfull.
  assert (P !! k = None) as HPk.
  { apply not_elem_of_dom. rewrite Hdom. by apply not_elem_of_dom. }
  unfold hash_put. rewrite bind_gets. fold h.
  rewrite (bind_Ok _ _ _ _ _ (hash_get_ok h P Htab b k d Hb)), HPk.
  cbn [default from_option id Z.eqb negb andb]. rewrite bind_ret, (home_idx_ok h P Htab b k) by done.
  apply bind_Err. destruct (tab_size _ _ Htab) as [_ Hn].
  rewrite <- (nth_slot_0 (nbuckets h) (home (nbuckets h) k)) by (apply home_range; lia).
  apply (put_loop_full h P Htab b k); [done|]. intros i Hi.
  destruct (slot (id h) i) as [k'|] eqn:Es.
  - exists k'. split; [done|]. intros ->. destruct (slot_map (T := unit) h P Htab i k Hi Es). congruence.
  - exfalso. pose proof (full_no_hole h P Htab i Hi Es). lia.
Qed.
End database.
