(* ===== verification/FaceHashDb.v ===== *)
(** * The database from [hash_init] to [hash_destroy]

    The initial table, any run of [hash_put]s, the limits of the table and its
    destruction; and ordinary memory as a store of values. *)

From S2P Require Import Prelude CString Probe FaceHash FaceHashThms.

#[local] Opaque HISTOGRAM_LENGTH_BYTES.

(** ** The initial table *)

Definition no_entry : entry_t := mkEntry (replicate 40 0) 0.
Definition initial_table : hash_t :=
  mkHash (replicate (Z.to_nat (1024 * DUP_NUM)) no_entry) 0 (1024 * DUP_NUM * 40) (1024 * DUP_NUM).

Lemma init_loop_ok {T} n i N h (d : db T) :
  0 ≤ i → i + Z.of_nat n ≤ Z.of_nat N → table d = h → id h = replicate N no_entry →
  init_loop n i d = Ok (tt, d).
Proof.
  intros Hi Hn Ed Eh. revert i Hi Hn. induction n as [|n IH]; intros i Hi Hn; [done|].
  cbn [init_loop]. rewrite bind_gets, Ed. unfold entry_at. rewrite (proj2 (Z.ltb_ge i 0)) by lia.
  rewrite Eh, lookup_replicate_2 by lia. rewrite (bind_defined _ _ _ _ eq_refl), bind_on_table.
  change (mkEntry _ 0) with no_entry. rewrite list_insert_id by (apply lookup_replicate_2; lia).
  replace (mkDb _ _) with d; [apply IH; lia|].
  destruct d as [h' v]. simpl in *. subst h'. f_equal. rewrite <- Eh. by destruct h.
Qed.

Lemma hash_init_ok {T} ptr (d : db T) :
  ptr ≠ 0 → hash_init ptr d = Ok (tt, mkDb initial_table (values d)).
Proof.
  intros Hp. unfold hash_init. cbv zeta. rewrite bind_assert by (by apply negb_true_iff, Z.eqb_neq).
  rewrite bind_on_table. by apply (init_loop_ok _ _ (Z.to_nat (1024 * DUP_NUM)) initial_table).
Qed.

Lemma initial_table_ok : table_ok initial_table ∅.
Proof.
  assert (∀ i e, id initial_table !! i = Some e → e = no_entry) as He.
  { intros i e Hi. by apply lookup_replicate in Hi as [? _]. }
  constructor.
  - split; [|done]. unfold initial_table. cbn [id nbuckets]. rewrite length_replicate. done.
  - intros e [i Hi]%list_elem_of_lookup_1. apply He in Hi as ->. done.
  - apply placed_empty. intros i Hi. unfold slot.
    destruct (id initial_table !! Z.to_nat i) as [e|] eqn:E; [|done]. by apply He in E as ->.
  - intros k p. rewrite lookup_empty. split; [done|]. intros (Hp & i & e & Hi & Hv & _).
    apply He in Hi as ->. by subst p.
  - done.
Qed.

Section runs.
Context `{HT : ValueLaws T}.

Lemma initial_db_ok t A n : stored_values t A n → db_ok (mkDb initial_table t) ∅ n.
Proof.
  intros Ht. exists ∅, A. split_and!; [apply initial_table_ok|done|by rewrite !dom_empty_L|..].
  - intros k p. by rewrite lookup_empty.
  - intros k k' p. by rewrite lookup_empty.
Qed.

(** A request to put a name, as a C string in a buffer, with a histogram. *)
Definition put_request : Type := list Z * list Z * bool.

Fixpoint put_all (l : list put_request) : M (db T) unit :=
  match l with
  | [] => mret tt
  | (b, v, ov) :: l' => hash_put (Z.to_nat (1024 * DUP_NUM)) b v ov;; put_all l'
  end.

Definition put_all_spec (l : list put_request) (m : gmap (list Z) (list Z)) :=
  fold_left (λ m '(b, v, ov), put_spec (default [] (cstr b)) v ov m) l m.

(** A name that fits and a histogram. *)
Definition fits (r : put_request) : Prop :=
  (∃ k, cstr r.1.1 = Some k ∧ (length k < 40)%nat) ∧
  Z.of_nat (length r.1.2) = HISTOGRAM_LENGTH_BYTES ∧ u8 <$> r.1.2 = r.1.2.

Lemma put_spec_size (k v : list Z) (ov : bool) (m : gmap (list Z) (list Z)) :
  Z.of_nat (size (put_spec k v ov m)) ≤ Z.of_nat (size m) + 1.
Proof.
  unfold put_spec. destruct (_ && _); [lia|]. rewrite map_size_insert. destruct (m !! k); simpl; lia.
Qed.

Lemma put_all_ok l d m :
  db_ok d m (length l) → Forall fits l → nbuckets (table d) = 1024 * DUP_NUM →
  Z.of_nat (size m) + Z.of_nat (length l) ≤ 1024 * DUP_NUM →
  ∃ d', put_all l d = Ok (tt, d') ∧ db_ok d' (put_all_spec l m) 0.
Proof.
  intros Hd Hl. revert d m Hd. induction Hl as [|[[b v] ov] l Hf Hl IH]; intros d m Hd Hnb Hsz.
  { by exists d. }
  destruct Hf as ((k & Hb & Hk) & Hlen & Hu). simpl in *.
  destruct (hash_put_ok d m (length l) b k v ov (Z.to_nat (1024 * DUP_NUM)) Hd Hb Hk Hlen Hu)
    as (d1 & Hrun & Hd1 & Hnb1); [right; lia|lia|].
  rewrite (bind_Ok _ _ _ _ _ Hrun), Hb. simpl. pose proof (put_spec_size k v ov m).
  apply IH; [done|congruence|lia].
Qed.

(** C17. The database of the face verification server, over any store of
    histograms that keeps its promises: after [hash_init] and any sequence of at
    most 2048 calls of [hash_put] with names of less than 40 characters, each
    [hash_get] returns [NULL] for the names that were not put, and else an
    address at which the store has the histogram put for the name: the last one
    put with [override], or the first. The entry count is the number of names. *)
Theorem hash_table_refines_map t A l ptr h0 :
  stored_values t A (length l) → ptr ≠ 0 → Forall fits l →
  Z.of_nat (length l) ≤ 1024 * DUP_NUM →
  ∃ d, (hash_init ptr;; put_all l) (mkDb h0 t) = Ok (tt, d) ∧
    nentries (table d) = Z.of_nat (size (put_all_spec l ∅)) ∧
    ∀ b k, cstr b = Some k → ∃ p, hash_get (table d) b d = Ok (p, d) ∧
      match put_all_spec l ∅ !! k with
      | None => p = 0
      | Some v => p ≠ 0 ∧ ∃ t', copy_out p (values d) = Ok (v, t')
      end.
Proof.
  intros Ht Hp Hl Hn. rewrite (bind_Ok _ _ _ _ _ (hash_init_ok ptr (mkDb h0 t) Hp)).
  destruct (put_all_ok l (mkDb initial_table t) ∅) as (d & Hrun & Hd);
    [by eapply initial_db_ok|done|done|by rewrite map_size_empty|].
  exists d. split; [exact Hrun|]. split.
  - destruct Hd as (P & A' & Htab & _ & Hdom & _). rewrite <- (dom_size _ _ Hdom).
    apply (tab_count _ _ Htab).
  - intros b k Hb. destruct (db_lookup d _ 0 b k Hd Hb) as (p & Hget & Hv). exists p. split; [done|].
    destruct (_ !! k) as [v|]; [|done]. destruct Hv as (Hp' & t' & Hout & _). split; [done|by exists t'].
Qed.

(** The limits of the table: where all its slots are taken, [hash_put] of
    a new name never returns, however long it runs; and a name of 40 characters
    or more is stored without its terminator, so that looking it up again
    compares past the end of the stored key. *)
Theorem hash_put_limits d m n b k val :
  db_ok d m (S n) → cstr b = Some k → m !! k = None →
  Z.of_nat (length val) = HISTOGRAM_LENGTH_BYTES → u8 <$> val = val →
  (Z.of_nat (size m) = nbuckets (table d) → ∀ ov fuel, hash_put fuel b val ov d = Err EFuel) ∧
  (Z.of_nat (size m) < nbuckets (table d) → (40 ≤ length k)%nat →
    ∃ d', hash_put (Z.to_nat (nbuckets (table d))) b val false d = Ok (tt, d') ∧
      hash_get (table d') b d' = Err EUndef).
Proof.
  intros Hd Hb Hk Hlen Hu. split.
  - intros Hfull ov fuel. by apply (hash_put_full d m (S n) b k).
  - intros Hroom Hlong. apply (hash_put_long d m n b k); try done. lia.
Qed.

(** ** Destruction *)

Context {HF : ValueFree T}.

Lemma destroy_loop_ok P n : ∀ c i d A,
  table_ok (table d) P → stored_values (values d) A n → 0 ≤ i →
  i + Z.of_nat c = nbuckets (table d) →
  (∀ k k' p, P !! k = Some p → P !! k' = Some p → k = k') →
  (∀ j e, i ≤ Z.of_nat j → id (table d) !! j = Some e → value e ≠ 0 → is_Some (A !! value e)) →
  ∃ d' A', destroy_loop c i d = Ok (tt, d') ∧ table d' = table d ∧
    stored_values (values d') A' n ∧
    (∀ p, A !! p = None → A' !! p = None) ∧
    (∀ j e, i ≤ Z.of_nat j → id (table d) !! j = Some e → value e ≠ 0 → A' !! value e = None).
Proof.
  induction c as [|c IH]; intros i d A Htab Hval Hi Hc Hinj HA; cbn [destroy_loop].
  - exists d, A. split_and!; try done. intros j e Hj He. apply lookup_lt_Some in He.
    destruct (tab_size _ _ Htab). lia.
  - assert (0 ≤ i < nbuckets (table d)) as Hir by lia.
    destruct (entry_ok (T := db T) (table d) P Htab i Hir) as (e & He & Hrun & _ & Hkey).
    rewrite bind_gets, Hrun. destruct (Z.eqb_spec (value e) 0) as [Hv|Hv].
    + rewrite bind_ret. destruct (IH (i + 1) d A) as (d' & A' & H1 & H2 & H3 & H4 & H5);
        try done; [lia|lia|intros j e' Hj; apply HA; lia|].
      exists d', A'. split_and!; try done. intros j e' Hj He' Hv'.
      destruct (decide (j = Z.to_nat i)) as [->|]; [congruence|]. apply (H5 j); [lia|done|done].
    + destruct (HA (Z.to_nat i) e) as [v HAv]; [lia|done|done|].
      destruct (free_value_ok _ _ _ _ _ Hval HAv) as (t' & Hfree & Hval').
      rewrite (bind_on_values _ _ _ tt t' Hfree).
      destruct (IH (i + 1) (mkDb (table d) t') (delete (value e) A)) as (d' & A' & H1 & H2 & H3 & H4 & H5);
        try done; [lia|simpl; lia| |].
      { intros j e' Hj He' Hv'. simpl in He'. rewrite lookup_delete_ne; [apply (HA j); [lia|done|done]|].
        intros E. destruct (Hkey Hv) as [k Hk].
        destruct (proj2 (tab_keys _ _ Htab e' (list_elem_of_lookup_2 _ _ _ He')) Hv') as [k' Hk'].
        assert (P !! k = Some (value e)) as HP.
        { apply (tab_map _ _ Htab). split; [done|]. by exists (Z.to_nat i), e. }
        assert (P !! k' = Some (value e)) as HP'.
        { apply (tab_map _ _ Htab). split; [done|]. rewrite E. by exists j, e'. }
        assert (k' = k) as -> by by eapply Hinj. pose proof (lookup_lt_Some _ _ _ He').
        assert (i = Z.of_nat j); [|lia].
        apply (placed_unique _ _ (slot (id (table d))) i (Z.of_nat j) k (tab_placed _ _ Htab)); [done| |..].
        - destruct (tab_size _ _ Htab). lia.
        - unfold slot. rewrite He. simpl. by rewrite (proj2 (Z.eqb_neq _ _)) by done.
        - unfold slot. rewrite Nat2Z.id, He'. simpl. by rewrite (proj2 (Z.eqb_neq _ _)) by done. }
      exists d', A'. split_and!; try done.
      * intros p Hp. apply H4. rewrite lookup_delete. by case_decide.
      * intros j e' Hj He' Hv'. destruct (decide (j = Z.to_nat i)) as [->|].
        -- assert (e' = e) as -> by congruence. apply H4. apply lookup_delete_eq.
        -- apply (H5 j); [lia|done|done].
Qed.

Lemma hash_destroy_ok d m n :
  db_ok d m n → ∃ d' A', hash_destroy d = Ok (tt, d') ∧ id (table d') = [] ∧
    stored_values (values d') A' n ∧
    ∀ b k p, cstr b = Some k → hash_get (table d) b d = Ok (p, d) → p ≠ 0 → A' !! p = None.
Proof.
  intros (P & A & Htab & Hval & Hdom & Hm & Hinj). destruct (tab_size _ _ Htab) as [Hsz Hn].
  destruct (destroy_loop_ok P n (Z.to_nat (nbuckets (table d))) 0 d A) as
    (d1 & A' & Hrun & Ht & Hval' & _ & Hfreed); try done; [lia| |].
  - intros j e _ He Hv.
    destruct (proj2 (tab_keys _ _ Htab e (list_elem_of_lookup_2 _ _ _ He)) Hv) as [k Hk].
    assert (P !! k = Some (value e)) as HP.
    { apply (tab_map _ _ Htab). split; [done|]. by exists j, e. }
    rewrite (Hm k _ HP). apply (dom_is_Some P m k Hdom). by eexists.
  - exists (mkDb (set_id [] (table d1)) (values d1)), A'. split; [|split; [reflexivity|split; [exact Hval'|]]].
    + unfold hash_destroy. rewrite bind_gets, (bind_Ok _ _ _ _ _ Hrun). reflexivity.
    + intros b k p Hb Hget Hp. rewrite (hash_get_ok _ P Htab b k d Hb) in Hget.
      apply Ok_inj in Hget as [Hget _]. destruct (P !! k) as [p'|] eqn:EP; [|by subst p].
      simpl in Hget. subst p'. apply (tab_map _ _ Htab) in EP as (_ & j & e & He & <- & _).
      apply (Hfreed j e); [lia|done|done].
Qed.
End runs.

(** ** Ordinary memory *)

(** The blocks [A] are live; the next [n] answers of [malloc] are addresses of
    nothing yet. *)
Definition native_holds (t : native) (A : gmap Z (list Z)) (n : nat) : Prop :=
  A ⊆ blocks t ∧ (∀ p v, A !! p = Some v → Z.of_nat (length v) = HISTOGRAM_LENGTH_BYTES) ∧
  ∃ l rest, answers t = l ++ rest ∧ length l = n ∧ NoDup l.*1 ∧
    ∀ p, p ∈ l.*1 → p ≠ 0 ∧ blocks t !! p = None.

#[export] Program Instance native_laws : ValueLaws native := {
  stored_values := native_holds
}.
Next Obligation.
  intros t A n (H1 & H2 & l & rest & E & Hl & Hnd & Hf).
  destruct l as [|x l _] using rev_ind; [done|]. rewrite length_app in Hl. simpl in Hl.
  rewrite fmap_app in Hnd, Hf. split_and!; [done|done|]. exists l, (x :: rest). split_and!.
  - rewrite E. by rewrite <- app_assoc.
  - lia.
  - by apply NoDup_app in Hnd as (? & _).
  - intros p Hp. apply Hf. apply elem_of_app. by left.
Qed.
Next Obligation.
  intros t A n v (H1 & H2 & l & rest & E & Hl & Hnd & Hf) Hlen _.
  destruct l as [|[p g] l]; [done|]. simpl in Hl, Hnd, Hf. apply NoDup_cons in Hnd as [Hp Hnd].
  destruct (Hf p) as [Hp0 Hpb]; [by left|].
  set (t1 := mkNative (<[p := replicate (Z.to_nat HISTOGRAM_LENGTH_BYTES) 0]> (blocks t)) (l ++ rest)).
  exists p, t1, (set_block p v t1). split_and!; [| |done| |].
  - assert (malloc HISTOGRAM_LENGTH_BYTES t = Ok (p, set_block p
      (resize (Z.to_nat HISTOGRAM_LENGTH_BYTES) 0 g) (mkNative (blocks t) (l ++ rest)))) as Hm.
    { unfold malloc. rewrite E. cbn [app]. by rewrite (proj2 (Z.eqb_neq p 0)) by done. }
    cbn [alloc_value native_store]. unfold my_malloc. rewrite (bind_Ok _ _ _ _ _ Hm).
    rewrite bind_assert by (by apply negb_true_iff, Z.eqb_neq). rewrite bind_modify.
    unfold set_block. cbn [blocks answers]. rewrite insert_insert_eq. reflexivity.
  - cbn [copy_in native_store]. unfold block. rewrite bind_assoc, bind_gets.
    rewrite (bind_defined _ (replicate (Z.to_nat HISTOGRAM_LENGTH_BYTES) 0)) by apply lookup_insert_eq.
    cbv zeta. rewrite length_replicate, decide_True by lia. unfold modify. do 3 f_equal.
    rewrite take_ge, drop_ge by (rewrite ?length_replicate; lia). apply app_nil_r.
  - destruct (A !! p) eqn:EA; [|done]. pose proof (lookup_weaken _ _ _ _ EA H1). congruence.
  - split_and!.
    + unfold set_block, t1. simpl. rewrite insert_insert_eq. by apply insert_mono.
    + intros p' v'. rewrite lookup_insert_Some. intros [[<- <-]|[_ H]]; [done|by eapply H2].
    + exists l, rest. split_and!; [done|simpl in Hl; lia|done|]. intros q Hq.
      destruct (Hf q) as [Hq0 Hqb]; [by right|]. split; [done|]. unfold set_block, t1. simpl.
      rewrite insert_insert_eq, lookup_insert_ne; [done|]. by intros ->.
Qed.
Next Obligation.
  intros t A n p v (H1 & H2 & H3) HA. exists t. split; [|done].
  pose proof (lookup_weaken _ _ _ _ HA H1) as Hb. pose proof (H2 p v HA) as Hl.
  cbn [copy_out native_store]. unfold block. rewrite bind_assoc, bind_gets, (bind_defined _ _ _ _ Hb).
  cbv zeta. rewrite decide_True by lia. rewrite take_ge by lia. done.
Qed.

#[export] Instance native_free : ValueFree native.
Proof.
  intros t A n p v (H1 & H2 & l & rest & E & Hl & Hnd & Hf) HA.
  pose proof (lookup_weaken _ _ _ _ HA H1) as Hb.
  exists (mkNative (delete p (blocks t)) (answers t)). split.
  - cbn [free_value native_store]. unfold free, block. rewrite !bind_assoc, bind_gets.
    by rewrite (bind_defined _ _ _ _ Hb).
  - split_and!.
    + by apply delete_mono.
    + intros p' v' [_ H]%lookup_delete_Some. by eapply H2.
    + exists l, rest. split_and!; try done. intros q Hq. destruct (Hf q Hq) as [Hq0 Hqb]. split; [done|].
      apply lookup_delete_None. by right.
Qed.

(** Ordinary memory with nothing allocated, whose next two blocks will be at
    4096 and 8192, and a histogram of equal bytes. *)
Definition empty_memory : native := mkNative ∅ [(4096, []); (8192, [])].
Definition plain (v : Z) : list Z := replicate (Z.to_nat HISTOGRAM_LENGTH_BYTES) v.

Lemma length_plain v : Z.of_nat (length (plain v)) = HISTOGRAM_LENGTH_BYTES.
Proof. unfold plain. rewrite length_replicate. apply Z2Nat.id. vm_compute. congruence. Qed.
Lemma bytes_plain v : 0 ≤ v < 256 → u8 <$> plain v = plain v.
Proof. intros. unfold plain. by rewrite fmap_replicate, u8_id. Qed.
Opaque plain.

Lemma empty_memory_ok n : (n ≤ 2)%nat → native_holds empty_memory ∅ n.
Proof.
  intros Hn. split_and!; [done|intros p v; by rewrite lookup_empty|].
  exists (take n (answers empty_memory)), (drop n (answers empty_memory)).
  rewrite take_drop. split; [done|]. split.
  { rewrite length_take. simpl. lia. }
  assert (NoDup (answers empty_memory).*1 ∧ ∀ p, p ∈ (answers empty_memory).*1 → p ≠ 0) as [H1 H2].
  { split; [simpl; apply NoDup_cons; split; [set_solver|]; apply NoDup_singleton|simpl; set_solver]. }
  rewrite fmap_take. split.
  - rewrite <- (take_drop n) in H1. by apply NoDup_app in H1 as (? & _).
  - intros p Hp. split; [|apply lookup_empty]. apply H2.
    rewrite <- (take_drop n (answers empty_memory).*1). apply elem_of_app. by left.
Qed.

(** "1" put twice, the second time without [override]: the first histogram
    stays. *)
Definition put_one : list put_request := [([49; 0], plain 0, false); ([49; 0], plain 1, false)].

Lemma put_one_fits : Forall fits put_one.
Proof.
  assert (∀ v, 0 ≤ v < 256 → fits ([49; 0], plain v, false)) as H.
  { intros v Hv. split; [exists [49]; split; [reflexivity|simpl; lia]|].
    split; [apply length_plain|by apply bytes_plain]. }
  constructor; [apply H; lia|]. constructor; [apply H; lia|constructor].
Qed.

Lemma hash_table_refines_map_witness :
  ∃ d, (hash_init 64;; put_all put_one) (mkDb initial_table empty_memory) = Ok (tt, d) ∧
    nentries (table d) = 1 ∧
    ∃ p t', hash_get (table d) [49; 0] d = Ok (p, d) ∧ p ≠ 0 ∧ copy_out p (values d) = Ok (plain 0, t').
Proof.
  destruct (hash_table_refines_map empty_memory ∅ put_one 64 initial_table) as (d & H1 & H2 & H3).
  - apply empty_memory_ok. simpl. lia.
  - lia.
  - exact put_one_fits.
  - simpl. unfold DUP_NUM. lia.
  - exists d. split; [exact H1|]. split; [exact H2|].
    destruct (H3 [49; 0] [49] eq_refl) as (p & H4 & H5 & t' & H6).
    exists p, t'. split; [exact H4|]. split; [exact H5|exact H6].
Defined.

Lemma hash_put_limits_witness :
  ∃ d', hash_put (Z.to_nat (1024 * DUP_NUM)) (replicate 40 49 ++ [0]) (plain 0) false
      (mkDb initial_table empty_memory) = Ok (tt, d') ∧
    hash_get (table d') (replicate 40 49 ++ [0]) d' = Err EUndef.
Proof.
  destruct (hash_put_limits (mkDb initial_table empty_memory) ∅ 0 (replicate 40 49 ++ [0])
    (replicate 40 49) (plain 0)) as [_ H].
  - eapply initial_db_ok. apply empty_memory_ok. lia.
  - reflexivity.
  - reflexivity.
  - apply length_plain.
  - apply bytes_plain. lia.
  - apply H; [reflexivity|simpl; lia].
Defined.
