(* ===== verification/Lbp.v ===== *)
(** * Local binary patterns

    Models the image part of [face_verification.cpp]: the pattern of a pixel's
    neighbourhood, the table from patterns to bins, the histogram of an image
    and the distance of two histograms, in the single precision of [float]. *)

From Stdlib Require Import SpecFloat.
From S2P Require Import Prelude FaceHash.

(** An image is its bytes, row after row; an access outside is undefined. *)
Definition pix (img : list Z) (r c : Z) : option Z :=
  if (0 <=? r) && (r <? IMG_WIDTH) && (0 <=? c) && (c <? IMG_WIDTH)
  then img !! Z.to_nat (r * IMG_WIDTH + c) else None.

(** [(img[r][c] > v) << k] *)
Definition above (img : list Z) (v r c k : Z) : option Z :=
  x ← pix img r c; Some (Z.shiftl (if v <? x then 1 else 0) k).

Definition get_pattern (img : list Z) (r c : Z) : option Z :=
  v ← pix img r c;
  b7 ← above img v (r - 1) (c - 1) 7;
  b6 ← above img v (r - 1) c 6;
  b5 ← above img v (r - 1) (c + 1) 5;
  b4 ← above img v r (c + 1) 4;
  b3 ← above img v (r + 1) (c + 1) 3;
  b2 ← above img v (r + 1) c 2;
  b1 ← above img v (r + 1) (c - 1) 1;
  b0 ← above img v r (c - 1) 0;
  Some (u8 (Z.lor (Z.lor (Z.lor (Z.lor (Z.lor (Z.lor (Z.lor b7 b6) b5) b4) b3) b2) b1) b0)).

Fixpoint uniform_loop (n : nat) (last cur transitions : Z) : Z :=
  match n with
  | O => transitions
  | S n' =>
      let transitions := if Z.land cur 1 =? last then transitions else transitions + 1 in
      uniform_loop n' (Z.land cur 1) (Z.shiftr cur 1) transitions
  end.

Definition is_pattern_uniform (pattern : Z) : bool :=
  let transitions := uniform_loop 8 (Z.land pattern 1) pattern 0 in
  let transitions :=
    if Z.land pattern 1 =? Z.land (Z.shiftr pattern 7) 1 then transitions else transitions + 1 in
  transitions <? 3.

Fixpoint rotate_loop (n : nat) (cur : Z) : Z :=
  match n with
  | O => cur
  | S n' => rotate_loop n' (u8 (Z.lor (Z.shiftr cur 1) (Z.shiftl (Z.land cur 1) 7)))
  end.
Definition rotate (pattern rotation : Z) : Z := rotate_loop (Z.to_nat rotation) (u8 pattern).

(** [for (j = 0; j < 8; j++) pattern2bin[rotate(i, j)] = next;] *)
Fixpoint rotations_loop (n : nat) (i j next : Z) (p2b : list Z) : list Z :=
  match n with
  | O => p2b
  | S n' => rotations_loop n' i (j + 1) next (<[Z.to_nat (rotate i j) := next]> p2b)
  end.

Fixpoint bins_loop (n : nat) (i next : Z) (p2b : list Z) : list Z :=
  match n with
  | O => p2b
  | S n' =>
      if negb (nth (Z.to_nat i) p2b 0 =? 0xff) then bins_loop n' (i + 1) next p2b
      else if is_pattern_uniform i then
        bins_loop n' (i + 1) (next + 1) (rotations_loop 8 i 0 next (<[Z.to_nat i := next]> p2b))
      else bins_loop n' (i + 1) next (<[Z.to_nat i := HISTOGRAM_LEN - 1]> p2b)
  end.

(** The table of 256 bins. *)
Definition create_pattern2bin : list Z := bins_loop 256 0 0 (replicate 256 0xff).

(** ** Histograms *)

Definition HIST_INTS : Z := HISTOGRAM_LEN * NBLOCKS.

(** One pixel: [histogram[start_offset + pattern2bin[pattern]]++]. *)
Definition count_pixel (img p2b : list Z) (i j : Z) (histogram : list Z) : option (list Z) :=
  pattern ← get_pattern img i j;
  let histogram_i := i / BLOCK_WIDTH in
  let histogram_j := j / BLOCK_WIDTH in
  let start_offset := histogram_i * NBLOCKS_DIM * HISTOGRAM_LEN + histogram_j * HISTOGRAM_LEN in
  bin ← p2b !! Z.to_nat pattern;
  let at_ := start_offset + bin in
  if at_ <? 0 then None
  else
    v ← histogram !! Z.to_nat at_;
    Some (<[Z.to_nat at_ := i32 (v + 1)]> histogram).

Fixpoint columns_loop (n : nat) (img p2b : list Z) (i j : Z) (histogram : list Z) : option (list Z) :=
  match n with
  | O => Some histogram
  | S n' => h ← count_pixel img p2b i j histogram; columns_loop n' img p2b i (j + 1) h
  end.
Fixpoint rows_loop (n : nat) (img p2b : list Z) (i : Z) (histogram : list Z) : option (list Z) :=
  match n with
  | O => Some histogram
  | S n' =>
      h ← columns_loop (Z.to_nat (IMG_WIDTH - 2)) img p2b i 1 histogram;
      rows_loop n' img p2b (i + 1) h
  end.

Definition calc_histogram (img p2b : list Z) : option (list Z) :=
  rows_loop (Z.to_nat (IMG_WIDTH - 2)) img p2b 1 (replicate (Z.to_nat HIST_INTS) 0).

(** ** Distance *)

Definition float_prec : Z := 24.
Definition float_emax : Z := 128.
Definition float_of_int (z : Z) : spec_float := binary_normalize float_prec float_emax z 0 false.
Definition fadd : spec_float → spec_float → spec_float := SFadd float_prec float_emax.
Definition fdiv : spec_float → spec_float → spec_float := SFdiv float_prec float_emax.

(** [if (sum != 0) chisqr += (float)(diff * diff) / sum;] *)
Definition distance_step (chisqr : spec_float) (a b : Z) : spec_float :=
  let diff := i32 (a - b) in
  let sum := i32 (a + b) in
  if sum =? 0 then chisqr
  else fadd chisqr (fdiv (float_of_int (i32 (diff * diff))) (float_of_int sum)).

Fixpoint distance_loop (h1 h2 : list Z) (chisqr : spec_float) : spec_float :=
  match h1, h2 with
  | a :: h1', b :: h2' => distance_loop h1' h2' (distance_step chisqr a b)
  | _, _ => chisqr
  end.

(** Of two arrays of [HIST_INTS] integers. *)
Definition histogram_distance (h1 h2 : list Z) : spec_float := distance_loop h1 h2 (S754_zero false).

(** [distance < ACCEPT_THRESHOLD]. *)
Definition ACCEPT_THRESHOLD : Z := 120000.
Definition accepts (distance : spec_float) : bool := SFltb distance (float_of_int ACCEPT_THRESHOLD).
