(* ===== verification/LbpThms.v ===== *)
(** * What the patterns, histograms and distances mean

    Uniform patterns and the histograms of an image against direct definitions,
    and the distance of two histograms in the arithmetic of [float]. *)

From Stdlib Require Import SpecFloat.
From S2P Require Import Prelude FaceHash Lbp.

(** ** The bins *)

(** The bits of a pattern, and how many neighbours, around the circle, differ. *)
Definition bit (p i : Z) : bool := Z.testbit p (i mod 8).
Definition ones (p : Z) : Z := Z.of_nat (length (filter (λ i, bit p i = true) (seqZ 0 8))).
Definition changes (p : Z) : Z :=
  Z.of_nat (length (filter (λ i, bit p i ≠ bit p (i + 1)) (seqZ 0 8))).
Definition bin_of (p : Z) : Z := if changes p <=? 2 then ones p else HISTOGRAM_LEN - 1.

Lemma patterns_ind (f : Z → bool) :
  forallb f (seqZ 0 256) = true → ∀ p, 0 ≤ p < 256 → f p = true.
Proof.
  intros H p Hp. rewrite forallb_forall in H. apply H. apply list_elem_of_In.
  apply elem_of_seqZ. lia.
Qed.

Lemma bins_eq : ∀ p, 0 ≤ p < 256 → create_pattern2bin !! Z.to_nat p = Some (bin_of p).
Proof.
  intros p Hp.
  assert (from_option (λ b, b =? bin_of p) false (create_pattern2bin !! Z.to_nat p) = true) as H.
  { apply (patterns_ind (λ p, from_option (λ b, b =? bin_of p) false (create_pattern2bin !! Z.to_nat p)));
      [vm_compute; reflexivity|exact Hp]. }
  destruct (create_pattern2bin !! Z.to_nat p) as [b|]; [|done]. simpl in H.
  by apply Z.eqb_eq in H as ->.
Qed.

Lemma uniform_eq : ∀ p, 0 ≤ p < 256 → is_pattern_uniform p = (changes p <=? 2).
Proof.
  intros p Hp. apply (proj1 (eqb_true_iff _ _)).
  apply (patterns_ind (λ p, eqb (is_pattern_uniform p) (changes p <=? 2))); [vm_compute; reflexivity|exact Hp].
Qed.

(** One step of [rotate]. *)
Definition rotate1 (p : Z) : Z := u8 (Z.lor (Z.shiftr p 1) (Z.shiftl (Z.land p 1) 7)).

Lemma rotate1_bin p : 0 ≤ p < 256 → bin_of (rotate1 p) = bin_of p ∧ 0 ≤ rotate1 p < 256.
Proof.
  intros Hp. split; [|apply u8_range]. apply Z.eqb_eq.
  apply (patterns_ind (λ p, bin_of (rotate1 p) =? bin_of p)); [vm_compute; reflexivity|exact Hp].
Qed.

Lemma rotate_bin n : ∀ p, 0 ≤ p < 256 → bin_of (rotate_loop n p) = bin_of p ∧ 0 ≤ rotate_loop n p < 256.
Proof.
  induction n as [|n IH]; intros p Hp; cbn [rotate_loop]; [done|].
  destruct (rotate1_bin p Hp) as [E Hr]. destruct (IH (rotate1 p) Hr) as [IH1 IH2].
  unfold rotate1 in *. split; [congruence|done].
Qed.

Lemma bin_range p : 0 ≤ p < 256 → 0 ≤ bin_of p < HISTOGRAM_LEN.
Proof.
  intros Hp. assert ((0 <=? bin_of p) && (bin_of p <? HISTOGRAM_LEN) = true) as H; [|revert H; bool_lia].
  apply (patterns_ind (λ p, (0 <=? bin_of p) && (bin_of p <? HISTOGRAM_LEN))); [vm_compute; reflexivity|exact Hp].
Qed.

(** C34. The table of bins: every pattern with at most two changes around its
    circle of neighbours gets the number of its set bits as bin, every other
    pattern the last bin; so bins are below [HISTOGRAM_LEN], only 10 of them are
    used, and all rotations of a pattern share its bin. [is_pattern_uniform]
    tells the two kinds apart. *)
Theorem pattern2bin_correct p r :
  0 ≤ p < 256 →
  create_pattern2bin !! Z.to_nat p = Some (if changes p <=? 2 then ones p else HISTOGRAM_LEN - 1) ∧
  0 ≤ bin_of p < HISTOGRAM_LEN ∧ is_pattern_uniform p = (changes p <=? 2) ∧
  create_pattern2bin !! Z.to_nat (rotate p r) = create_pattern2bin !! Z.to_nat p.
Proof.
  intros Hp. unfold rotate. rewrite u8_id by lia.
  destruct (rotate_bin (Z.to_nat r) p Hp) as [Hb Hr].
  split; [by apply bins_eq|]. split; [by apply bin_range|]. split; [by apply uniform_eq|].
  by rewrite !bins_eq, Hb.
Qed.

Lemma pattern2bin_correct_witness :
  create_pattern2bin !! 193%nat = Some 3 ∧ is_pattern_uniform 193 = true ∧
  create_pattern2bin !! Z.to_nat (rotate 193 5) = create_pattern2bin !! Z.to_nat 193.
Proof.
  destruct (pattern2bin_correct 193 5) as (H1 & _ & H2 & H3); [lia|].
  split; [exact H1|]. split; [exact H2|exact H3].
Defined.

#[local] Opaque create_pattern2bin.

(** ** Patterns of an image *)

Definition image (img : list Z) : Prop :=
  Z.of_nat (length img) = IMG_WIDTH * IMG_WIDTH ∧ ∀ x, x ∈ img → 0 ≤ x < 256.

(** A pixel that is not on the border. *)
Definition inner (i j : Z) : Prop := 1 ≤ i < IMG_WIDTH - 1 ∧ 1 ≤ j < IMG_WIDTH - 1.

Lemma pix_ok img r c :
  image img → 0 ≤ r < IMG_WIDTH → 0 ≤ c < IMG_WIDTH → ∃ x, pix img r c = Some x ∧ 0 ≤ x < 256.
Proof.
  intros [Hlen Hb] Hr Hc. unfold pix.
  replace (_ && _) with true by (symmetry; bool_lia).
  destruct (lookup_lt_is_Some_2 img (Z.to_nat (r * IMG_WIDTH + c))) as [x Hx].
  { unfold IMG_WIDTH in *. lia. }
  exists x. split; [done|]. apply Hb. by eapply list_elem_of_lookup_2.
Qed.

Lemma get_pattern_ok img i j :
  image img → inner i j → ∃ p, get_pattern img i j = Some p ∧ 0 ≤ p < 256.
Proof.
  intros Hi [H1 H2]. unfold get_pattern.
  assert (∀ v r c k, i - 1 ≤ r ≤ i + 1 → j - 1 ≤ c ≤ j + 1 → is_Some (above img v r c k)) as Ha.
  { intros v r c k Hr Hc. unfold above. destruct (pix_ok img r c Hi) as (x & -> & _); [lia|lia|].
    by eexists. }
  destruct (pix_ok img i j Hi) as (v & -> & _); [lia|lia|]. simpl.
  repeat match goal with
  | |- context [above img v ?r ?c ?k] => destruct (Ha v r c k) as [? ->]; [lia|lia|]; simpl
  end.
  eexists. split; [reflexivity|apply u8_range].
Qed.

Definition pattern_at (img : list Z) (i j : Z) : Z := default 0 (get_pattern img i j).
(** The counter a pixel goes to. *)
Definition cell (img : list Z) (q : Z * Z) : Z :=
  (q.1 / BLOCK_WIDTH * NBLOCKS_DIM + q.2 / BLOCK_WIDTH) * HISTOGRAM_LEN + bin_of (pattern_at img q.1 q.2).

(** ** Counting *)

Definition zsum (l : list Z) : Z := foldr Z.add 0 l.

Lemma zsum_insert l i x y : l !! i = Some x → zsum (<[i := y]> l) = zsum l + y - x.
Proof.
  revert i. induction l as [|z l IH]; intros [|i] H; simpl in *; try done.
  - injection H as ->. lia.
  - rewrite (IH i H). lia.
Qed.

Fixpoint count_list (img : list Z) (l : list (Z * Z)) (h : list Z) : option (list Z) :=
  match l with
  | [] => Some h
  | q :: l' => h ← count_pixel img create_pattern2bin q.1 q.2 h; count_list img l' h
  end.

Lemma count_list_app img l1 l2 h :
  count_list img (l1 ++ l2) h = h ← count_list img l1 h; count_list img l2 h.
Proof.
  revert h. induction l1 as [|q l1 IH]; intros h; [done|]. cbn [count_list app].
  destruct (count_pixel _ _ _ _ h); [apply IH|done].
Qed.

Lemma columns_loop_list n img i j h :
  columns_loop n img create_pattern2bin i j h = count_list img (pair i <$> seqZ j (Z.of_nat n)) h.
Proof.
  revert j h. induction n as [|n IH]; intros j h; [done|]. rewrite seqZ_cons by lia.
  cbn [columns_loop fmap list_fmap count_list]. destruct (count_pixel _ _ _ _ h); [|done]. cbn.
  rewrite IH. do 2 f_equal. f_equal. lia.
Qed.

Definition row (i : Z) : list (Z * Z) := pair i <$> seqZ 1 (IMG_WIDTH - 2).
Definition rows (i n : Z) : list (Z * Z) := seqZ i n ≫= row.
(** The pixels that are counted, in the order of the loops. *)
Definition pixels : list (Z * Z) := rows 1 (IMG_WIDTH - 2).

Lemma rows_S n i : rows i (Z.of_nat (S n)) = row i ++ rows (i + 1) (Z.of_nat n).
Proof.
  unfold rows. rewrite seqZ_cons by lia. cbn [mbind list_bind]. do 2 f_equal. f_equal; lia.
Qed.

Lemma rows_loop_list n img i h :
  rows_loop n img create_pattern2bin i h = count_list img (rows i (Z.of_nat n)) h.
Proof.
  revert i h. induction n as [|n IH]; intros i h; [done|]. unfold rows. rewrite seqZ_cons by lia.
  cbn [rows_loop mbind list_bind]. rewrite count_list_app, columns_loop_list, Z2Nat.id by done.
  fold (row i). destruct (count_list img (row i) h); [|done]. cbn.
  rewrite IH. unfold rows. do 2 f_equal. f_equal. lia.
Qed.

Lemma elem_of_pixels q : q ∈ pixels ↔ inner q.1 q.2.
Proof.
  unfold pixels, rows, row, inner. rewrite list_elem_of_bind. destruct q as [i j]. cbn [fst snd]. split.
  - intros (i' & Hq & Hi'%elem_of_seqZ). apply list_elem_of_fmap in Hq as (j' & [= -> ->] & Hj'%elem_of_seqZ).
    lia.
  - intros [Hi Hj]. exists i. split; [|apply elem_of_seqZ; lia].
    apply list_elem_of_fmap. exists j. split; [done|apply elem_of_seqZ; lia].
Qed.

Lemma cell_bounds img q :
  image img → inner q.1 q.2 → 0 ≤ cell img q < HIST_INTS.
Proof.
  intros Hi Hq. destruct (get_pattern_ok img _ _ Hi Hq) as (p & Hp & Hr).
  unfold cell, pattern_at. rewrite Hp. change (default 0 (Some p)) with p. pose proof (bin_range p Hr) as Hb.
  destruct Hq as [H1 H2]. unfold HIST_INTS, NBLOCKS, NBLOCKS_DIM, HISTOGRAM_LEN, IMG_WIDTH, BLOCK_WIDTH in *.
  change (512 / 16) with 32 in *.
  assert (0 ≤ q.1 / 16 ≤ 31 ∧ 0 ≤ q.2 / 16 ≤ 31) by (Z.div_mod_to_equations; lia). lia.
Qed.

Lemma count_pixel_ok img q h v :
  image img → inner q.1 q.2 → h !! Z.to_nat (cell img q) = Some v → 0 ≤ v < 2 ^ 31 - 1 →
  count_pixel img create_pattern2bin q.1 q.2 h = Some (<[Z.to_nat (cell img q) := v + 1]> h).
Proof.
  intros Hi Hq Hv Hr. pose proof (cell_bounds img q Hi Hq) as Hc.
  destruct (get_pattern_ok img _ _ Hi Hq) as (p & Hp & Hpr). unfold count_pixel. rewrite Hp. cbn.
  rewrite bins_eq by done. cbn.
  replace (q.1 / BLOCK_WIDTH * NBLOCKS_DIM * HISTOGRAM_LEN + q.2 / BLOCK_WIDTH * HISTOGRAM_LEN + bin_of p)
    with (cell img q) by (unfold cell, pattern_at; rewrite Hp; change (default 0 (Some p)) with p; ring).
  rewrite (proj2 (Z.ltb_ge _ _)) by lia. rewrite Hv. cbn. rewrite i32_id by lia. done.
Qed.

(** How many of the pixels go to counter [x]. *)
Definition hits (img : list Z) (l : list (Z * Z)) (x : Z) : Z :=
  Z.of_nat (length (filter (λ q, cell img q = x) l)).

Lemma hits_cons img q l x :
  hits img (q :: l) x = hits img l x + if decide (cell img q = x) then 1 else 0.
Proof. unfold hits. rewrite filter_cons. case_decide; simpl; lia. Qed.

Lemma count_list_ok img l h :
  image img → (∀ q, q ∈ l → inner q.1 q.2) → Z.of_nat (length h) = HIST_INTS →
  (∀ x, x ∈ h → 0 ≤ x) → zsum h + Z.of_nat (length l) < 2 ^ 31 →
  ∃ h', count_list img l h = Some h' ∧ length h' = length h ∧
    zsum h' = zsum h + Z.of_nat (length l) ∧
    ∀ x v, 0 ≤ x → h !! Z.to_nat x = Some v → h' !! Z.to_nat x = Some (v + hits img l x).
Proof.
  intros Hi. revert h. induction l as [|q l IH]; intros h Hl Hlen Hpos Hsum.
  { exists h. split_and!; [done|done|simpl; lia|]. intros x v _ Hv. rewrite Hv. f_equal. unfold hits. simpl. lia. }
  pose proof (Hl q ltac:(left)) as Hq. pose proof (cell_bounds img q Hi Hq) as Hc.
  destruct (lookup_lt_is_Some_2 h (Z.to_nat (cell img q))) as [v Hv]; [lia|].
  assert (∀ l : list Z, (∀ x, x ∈ l → 0 ≤ x) → 0 ≤ zsum l ∧ ∀ x, x ∈ l → x ≤ zsum l) as Hle.
  { clear. induction l as [|y l IH]; intros H; [split; [done|]; intros x Hx; by apply elem_of_nil in Hx|].
    destruct IH as [H1 H2]; [by intros; apply H; right|]. pose proof (H y ltac:(left)). simpl.
    split; [lia|]. intros x [->|Hx]%elem_of_cons; [lia|]. specialize (H2 x Hx). lia. }
  pose proof (list_elem_of_lookup_2 _ _ _ Hv) as Hin. pose proof (Hpos v Hin).
  pose proof (proj2 (Hle h Hpos) v Hin). cbn [length] in Hsum.
  cbn [count_list]. rewrite (count_pixel_ok img q h v) by (done || lia). cbn.
  destruct (IH (<[Z.to_nat (cell img q) := v + 1]> h)) as (h' & Hrun & Hlen' & Hsum' & Hcnt).
  - intros; apply Hl. by right.
  - by rewrite length_insert.
  - intros x [i Hx]%list_elem_of_lookup_1. apply list_lookup_insert_Some in Hx as [(_ & <- & _)|[_ Hx]]; [lia|].
    apply Hpos. by eapply list_elem_of_lookup_2.
  - rewrite (zsum_insert _ _ v) by done. lia.
  - exists h'. split; [done|]. split; [by rewrite Hlen', length_insert|].
    split; [rewrite Hsum', (zsum_insert _ _ v) by done; cbn [length]; lia|].
    intros x w Hx Hw. rewrite hits_cons. case_decide as E.
    + subst x. rewrite (Hcnt (cell img q) (v + 1)); [|done|].
      * rewrite Hv in Hw. injection Hw as <-. f_equal. lia.
      * apply list_lookup_insert_eq. by eapply lookup_lt_Some.
    + rewrite (Hcnt x w); [f_equal; lia|done|]. rewrite list_lookup_insert_ne; [done|]. lia.
Qed.

Lemma length_pixels : Z.of_nat (length pixels) = (IMG_WIDTH - 2) * (IMG_WIDTH - 2).
Proof.
  unfold pixels. cut (∀ n i, Z.of_nat (length (rows i (Z.of_nat n))) = Z.of_nat n * (IMG_WIDTH - 2)).
  { intros H. specialize (H (Z.to_nat (IMG_WIDTH - 2)) 1). by rewrite Z2Nat.id in H by done. }
  intros n. induction n as [|n IH]; intros i; [done|]. rewrite rows_S, length_app.
  unfold row. rewrite length_fmap, length_seqZ. rewrite Nat2Z.inj_add, IH, Z2Nat.id by done. lia.
Qed.

Lemma pixels_NoDup : NoDup pixels.
Proof.
  unfold pixels, rows. apply NoDup_bind; [|intros i _; apply NoDup_fmap; [by intros ?? [=]|apply NoDup_seqZ]|apply NoDup_seqZ].
  intros i i' q _ _ Hq Hq'. unfold row in *.
  apply list_elem_of_fmap in Hq as (? & -> & _). apply list_elem_of_fmap in Hq' as (? & [=] & _). done.
Qed.

(** A counter belongs to one block of 256 pixels. *)
Lemma hits_bound img x : image img → hits img pixels x ≤ 256.
Proof.
  intros Hi. unfold hits.
  set (b := x / HISTOGRAM_LEN). set (r := b / NBLOCKS_DIM * BLOCK_WIDTH). set (c := b mod NBLOCKS_DIM * BLOCK_WIDTH).
  set (box := seqZ r BLOCK_WIDTH ≫= λ i, pair i <$> seqZ c BLOCK_WIDTH).
  assert (length box = 256%nat) as Hbox by reflexivity.
  assert (filter (λ q, cell img q = x) pixels ⊆+ box) as Hsub.
  { apply NoDup_submseteq; [apply NoDup_filter, pixels_NoDup|].
    intros [i j] [Hx Hq%elem_of_pixels]%list_elem_of_filter. cbn [fst snd] in Hq.
    destruct (get_pattern_ok img i j Hi Hq) as (p & Hp & Hr).
    pose proof (bin_range p Hr) as Hb. unfold cell, pattern_at in Hx. cbn [fst snd] in Hx. rewrite Hp in Hx.
    change (default 0 (Some p)) with p in Hx. destruct Hq as [Hq1 Hq2].
    assert (b = i / BLOCK_WIDTH * NBLOCKS_DIM + j / BLOCK_WIDTH) as Eb.
    { unfold b. rewrite <- Hx. rewrite Z.div_add_l by done. rewrite (Z.div_small (bin_of p)) by lia. lia. }
    assert (0 ≤ j / BLOCK_WIDTH < NBLOCKS_DIM) as Hj.
    { unfold BLOCK_WIDTH, NBLOCKS_DIM, IMG_WIDTH in *. change (512 / BLOCK_WIDTH) with 32.
      Z.div_mod_to_equations. lia. }
    assert (b / NBLOCKS_DIM = i / BLOCK_WIDTH) as E1.
    { rewrite Eb, Z.div_add_l by done. rewrite (Z.div_small (j / _)) by lia. lia. }
    assert (b mod NBLOCKS_DIM = j / BLOCK_WIDTH) as E2.
    { rewrite Eb, Z.add_comm, Z.mod_add by done. by apply Z.mod_small. }
    unfold box. apply list_elem_of_bind. exists i. unfold r, c. rewrite E1, E2. unfold BLOCK_WIDTH.
    split; [apply list_elem_of_fmap; exists j; split; [done|]|]; apply elem_of_seqZ;
      Z.div_mod_to_equations; lia. }
  apply submseteq_length in Hsub. lia.
Qed.

Lemma calc_histogram_run img :
  image img → ∃ h, calc_histogram img create_pattern2bin = Some h ∧
    Z.of_nat (length h) = HIST_INTS ∧ zsum h = (IMG_WIDTH - 2) * (IMG_WIDTH - 2) ∧
    ∀ x, 0 ≤ x < HIST_INTS → h !! Z.to_nat x = Some (hits img pixels x).
Proof.
  intros Hi. unfold calc_histogram. rewrite rows_loop_list, Z2Nat.id by done. fold pixels.
  set (h0 := replicate (Z.to_nat HIST_INTS) 0).
  assert (zsum h0 = 0) as Hs0.
  { unfold h0. generalize (Z.to_nat HIST_INTS). intros n. by induction n. }
  assert (Z.of_nat (length h0) = HIST_INTS) as Hl0 by (unfold h0; rewrite length_replicate; by apply Z2Nat.id).
  pose proof length_pixels as Hlp.
  destruct (count_list_ok img pixels h0 Hi) as (h & Hrun & Hlen & Hsum & Hcnt); [|done| | |].
  - intros q. by rewrite elem_of_pixels.
  - intros x Hx. unfold h0 in Hx. apply elem_of_replicate in Hx as [-> _]. done.
  - rewrite Hs0, Hlp. unfold IMG_WIDTH. lia.
  - exists h. split; [done|]. split; [by rewrite Hlen|]. split; [rewrite Hsum, Hs0, Hlp; lia|].
    intros x Hx. rewrite (Hcnt x 0); [done|lia|]. unfold h0. apply lookup_replicate. split; [done|lia].
Qed.

(** ** The distance of two histograms

    [histogram_distance] in the arithmetic of [float]: exact sums of small
    integers, the distance of a histogram to itself and to the empty one. *)

(** ** Integers below 2^24 are exact *)

Lemma iter_pos_nat {A} (f : A → A) p x : SpecFloat.iter_pos f p x = Nat.iter (Pos.to_nat p) f x.
Proof.
  revert x. induction p as [p IH|p IH|]; intros x; cbn [SpecFloat.iter_pos].
  - rewrite !IH, <- Nat.iter_add, <- Nat.iter_succ_r. f_equal. lia.
  - rewrite !IH, <- Nat.iter_add. f_equal. lia.
  - done.
Qed.

Lemma digits_log2 p : Z.pos (digits2_pos p) = Z.log2 (Z.pos p) + 1.
Proof.
  induction p as [p IH|p IH|]; cbn [digits2_pos]; [| |done].
  - rewrite Pos2Z.inj_succ, IH. rewrite Pos2Z.inj_xI. rewrite Z.log2_succ_double by lia. lia.
  - rewrite Pos2Z.inj_succ, IH. rewrite Pos2Z.inj_xO. rewrite Z.log2_double by lia. lia.
Qed.

Lemma shl_pos p j : Z.pos (Pos.iter xO p j) = Z.pos p * 2 ^ Z.pos j.
Proof.
  rewrite Pos2Nat.inj_iter, <- (positive_nat_Z j). generalize (Pos.to_nat j). intros n.
  induction n as [|n IH]; [by rewrite Z.mul_1_r|]. cbn [nat_rect].
  rewrite Pos2Z.inj_xO, IH, Nat2Z.inj_succ, Z.pow_succ_r by lia. lia.
Qed.

Lemma shr_exact n m : 0 ≤ m →
  Nat.iter n shr_1 (Build_shr_record (m * 2 ^ Z.of_nat n) false false) = Build_shr_record m false false.
Proof.
  intros Hm. induction n as [|n IH]; [by rewrite Z.mul_1_r|]. rewrite Nat.iter_succ_r.
  rewrite Nat2Z.inj_succ, Z.pow_succ_r by lia.
  replace (m * (2 * 2 ^ Z.of_nat n)) with (2 * (m * 2 ^ Z.of_nat n)) by lia.
  rewrite <- IH. f_equal. assert (0 ≤ m * 2 ^ Z.of_nat n) as H by (apply Z.mul_nonneg_nonneg; lia).
  by destruct (m * 2 ^ Z.of_nat n).
Qed.

(** The float of a positive integer below 2^24: 24 digits. *)
Definition canon (n : Z) : spec_float :=
  S754_finite false (Z.to_pos (n * 2 ^ (23 - Z.log2 n))) (Z.log2 n - 23).

Lemma log2_small n : 0 < n < 2 ^ 24 → 0 ≤ Z.log2 n ≤ 23.
Proof. intros. split; [apply Z.log2_nonneg|]. apply Z.lt_succ_r, Z.log2_lt_pow2; lia. Qed.

Lemma shr_fexp_done n :
  0 < n < 2 ^ 24 →
  shr_fexp float_prec float_emax (n * 2 ^ (23 - Z.log2 n)) (Z.log2 n - 23) loc_Exact =
    (Build_shr_record (n * 2 ^ (23 - Z.log2 n)) false false, Z.log2 n - 23).
Proof.
  intros Hn. pose proof (log2_small n Hn) as Hl. unfold shr_fexp. cbn [shr_record_of_loc].
  assert (Zdigits2 (n * 2 ^ (23 - Z.log2 n)) = 24) as ->.
  { assert (0 < n * 2 ^ (23 - Z.log2 n)) as H by (apply Z.mul_pos_pos; [lia|apply pow2_pos; lia]).
    destruct (n * 2 ^ (23 - Z.log2 n)) as [|p|p] eqn:E; [lia| |lia]. cbn [Zdigits2].
    rewrite digits_log2, <- E, Z.log2_mul_pow2 by lia. lia. }
  unfold fexp, emin, float_prec, float_emax.
  replace (Z.max (24 + (Z.log2 n - 23) - 24) (3 - 128 - 24) - (Z.log2 n - 23)) with 0 by lia. done.
Qed.

Lemma round_aux_canon n m e :
  0 < n < 2 ^ 24 →
  shr_fexp float_prec float_emax m e loc_Exact =
    (Build_shr_record (n * 2 ^ (23 - Z.log2 n)) false false, Z.log2 n - 23) →
  binary_round_aux float_prec float_emax false m e loc_Exact = canon n.
Proof.
  intros Hn E. pose proof (log2_small n Hn) as Hl. unfold binary_round_aux. rewrite E.
  cbn [shr_m loc_of_shr_record round_nearest_even]. rewrite shr_fexp_done by done. cbn [shr_m].
  unfold canon. assert (0 < n * 2 ^ (23 - Z.log2 n)) as H by (apply Z.mul_pos_pos; [lia|apply pow2_pos; lia]).
  destruct (n * 2 ^ (23 - Z.log2 n)) as [|p|p]; [lia| |lia]. cbn [Z.to_pos].
  rewrite (proj2 (Z.leb_le _ _)); [done|]. unfold float_emax, float_prec. lia.
Qed.

Lemma normalize_canon n k :
  0 < n < 2 ^ 24 → 0 ≤ k → binary_normalize float_prec float_emax (n * 2 ^ k) (- k) false = canon n.
Proof.
  intros Hn Hk. pose proof (log2_small n Hn) as Hl.
  assert (0 < n * 2 ^ k) as Hpos by (apply Z.mul_pos_pos; [lia|by apply pow2_pos]).
  destruct (n * 2 ^ k) as [|m|m] eqn:Em; [lia| |lia]. cbn [binary_normalize]. unfold binary_round.
  assert (Z.pos (digits2_pos m) = Z.log2 n + k + 1) as Hd by (rewrite digits_log2, <- Em, Z.log2_mul_pow2; lia).
  rewrite Hd. assert (fexp float_prec float_emax (Z.log2 n + k + 1 + - k) = Z.log2 n - 23) as ->.
  { unfold fexp, emin, float_prec, float_emax. lia. }
  unfold shl_align. destruct (Z.log2 n - 23 - - k) as [|j|j] eqn:Ej.
  - apply round_aux_canon; [done|]. rewrite <- Em. replace k with (23 - Z.log2 n) by lia.
    replace (- (23 - Z.log2 n)) with (Z.log2 n - 23) by lia. by apply shr_fexp_done.
  - apply round_aux_canon; [done|]. unfold shr_fexp. cbn [Zdigits2 shr_record_of_loc]. rewrite Hd.
    assert (fexp float_prec float_emax (Z.log2 n + k + 1 + - k) - - k = Z.pos j) as ->.
    { unfold fexp, emin, float_prec, float_emax. lia. }
    unfold shr. rewrite iter_pos_nat. f_equal; [|lia].
    rewrite <- Em. replace (n * 2 ^ k) with (n * 2 ^ (23 - Z.log2 n) * 2 ^ Z.of_nat (Pos.to_nat j)).
    + apply shr_exact. apply Z.mul_nonneg_nonneg; [lia|]. pose proof (pow2_pos (23 - Z.log2 n)). lia.
    + rewrite <- Z.mul_assoc, <- Z.pow_add_r by lia. do 2 f_equal. lia.
  - apply round_aux_canon; [done|]. rewrite shl_pos, <- Em.
    rewrite <- Z.mul_assoc, <- Z.pow_add_r by lia.
    replace (k + Z.pos j) with (23 - Z.log2 n) by lia. by apply shr_fexp_done.
Qed.

Lemma float_of_int_canon n : 0 < n < 2 ^ 24 → float_of_int n = canon n.
Proof.
  intros Hn. unfold float_of_int. pose proof (normalize_canon n 0 Hn ltac:(done)) as H.
  by rewrite Z.mul_1_r in H.
Qed.

Lemma canon_align n e :
  0 < n < 2 ^ 24 → e ≤ Z.log2 n - 23 →
  Z.pos (fst (shl_align (Z.to_pos (n * 2 ^ (23 - Z.log2 n))) (Z.log2 n - 23) e)) = n * 2 ^ (- e).
Proof.
  intros Hn He. pose proof (log2_small n Hn) as Hl.
  assert (0 < n * 2 ^ (23 - Z.log2 n)) as H by (apply Z.mul_pos_pos; [lia|apply pow2_pos; lia]).
  unfold shl_align. destruct (e - (Z.log2 n - 23)) as [|j|j] eqn:Ej; [| lia|]; cbn [fst].
  - rewrite Z2Pos.id by done. do 2 f_equal. lia.
  - rewrite shl_pos, Z2Pos.id by done.
    rewrite <- Z.mul_assoc, <- Z.pow_add_r by lia. do 2 f_equal. lia.
Qed.

(** The sum of two integers is exact while it stays below 2^24. *)
Lemma fadd_int a b :
  0 ≤ a → 0 ≤ b → a + b < 2 ^ 24 → fadd (float_of_int a) (float_of_int b) = float_of_int (a + b).
Proof.
  intros Ha Hb Hab. destruct (decide (a = 0)) as [->|Ha0].
  { change (float_of_int 0) with (S754_zero false). destruct (decide (b = 0)) as [->|Hb0]; [done|].
    rewrite Z.add_0_l, float_of_int_canon by lia. done. }
  destruct (decide (b = 0)) as [->|Hb0].
  { change (float_of_int 0) with (S754_zero false). rewrite Z.add_0_r, float_of_int_canon by lia. done. }
  rewrite !float_of_int_canon by lia. unfold fadd, canon at 1 2, SFadd. cbv zeta.
  set (e := Z.min (Z.log2 a - 23) (Z.log2 b - 23)). cbn [cond_Zopp].
  rewrite !canon_align by lia. rewrite <- Z.mul_add_distr_r.
  pose proof (log2_small a ltac:(lia)). pose proof (normalize_canon (a + b) (- e) ltac:(lia)) as Hnc.
  rewrite Z.opp_involutive in Hnc. apply Hnc. lia.
Qed.

(** ** Distances *)

Definition empty_hist : list Z := replicate (Z.to_nat HIST_INTS) 0.

(** A count squared and divided by itself is the count. *)
Lemma fdiv_count n : 0 < n ≤ 256 → fdiv (float_of_int (i32 (n * n))) (float_of_int n) = float_of_int n.
Proof.
  intros Hn.
  set (same := λ n, match fdiv (float_of_int (i32 (n * n))) (float_of_int n), float_of_int n with
    | S754_finite s m e, S754_finite s' m' e' => eqb s s' && (m =? m')%positive && (e =? e')
    | _, _ => false
    end).
  assert (forallb same (seqZ 1 256) = true) as H by (vm_compute; reflexivity).
  rewrite forallb_forall in H. specialize (H n). unfold same in H.
  assert (In n (seqZ 1 256)) as Hin by (apply list_elem_of_In, elem_of_seqZ; lia).
  specialize (H Hin). clear Hin same.
  destruct (fdiv _ _) as [| | |s m e]; try done. destruct (float_of_int n) as [| | |s' m' e']; try done.
  apply andb_true_iff in H as [[H1 H2]%andb_true_iff H3].
  apply eqb_true_iff in H1 as ->. apply Pos.eqb_eq in H2 as ->. by apply Z.eqb_eq in H3 as ->.
Qed.

Lemma distance_empty h c :
  (∀ x, x ∈ h → 0 ≤ x ≤ 256) → 0 ≤ c → c + zsum h < 2 ^ 24 →
  distance_loop h (replicate (length h) 0) (float_of_int c) = float_of_int (c + zsum h).
Proof.
  revert c. induction h as [|a h IH]; intros c Hh Hc Hs; [by rewrite Z.add_0_r|].
  pose proof (Hh a ltac:(left)) as Ha.
  assert (0 ≤ zsum h) as Hpos.
  { assert (∀ x, x ∈ h → 0 ≤ x) as Hp by (intros x Hx; by apply Hh; right).
    clear -Hp. induction h as [|y h IH]; [done|]. simpl.
    pose proof (Hp y ltac:(left)). assert (0 ≤ zsum h); [|lia]. apply IH. intros. apply Hp. by right. }
  cbn [zsum foldr] in Hs. fold (zsum h) in Hs. cbn [length replicate distance_loop].
  unfold distance_step. rewrite Z.sub_0_r, Z.add_0_r, i32_id by lia. cbv zeta.
  replace (c + zsum (a :: h)) with (c + a + zsum h) by (change (zsum (a :: h)) with (a + zsum h); lia).
  destruct (Z.eqb_spec a 0) as [->|Hne].
  - rewrite Z.add_0_r. apply IH; [intros; apply Hh; by right|lia|lia].
  - rewrite fdiv_count, fadd_int by lia. apply IH; [intros; apply Hh; by right|lia|lia].
Qed.

Lemma distance_self h :
  (∀ x, x ∈ h → 0 ≤ x < 2 ^ 23) → distance_loop h h (S754_zero false) = S754_zero false.
Proof.
  induction h as [|a h IH]; intros Hh; [done|]. pose proof (Hh a ltac:(left)) as Ha.
  cbn [distance_loop]. unfold distance_step. rewrite Z.sub_diag. change (i32 0) with 0.
  rewrite i32_id by lia. cbv zeta. destruct (Z.eqb_spec (a + a) 0) as [|Hne].
  - apply IH. intros. apply Hh. by right.
  - change (float_of_int (i32 (0 * 0))) with (S754_zero false).
    rewrite float_of_int_canon by lia. apply IH. intros. apply Hh. by right.
Qed.

Lemma i32_mul x y : i32 (i32 x * i32 y) = i32 (x * y).
Proof.
  rewrite <- (i32_u32 (i32 x * i32 y)), <- (i32_u32 (x * y)). f_equal. unfold u32.
  rewrite Zmult_mod. rewrite (Zmult_mod x y).
  change (i32 x mod 2 ^ 32) with (u32 (i32 x)). change (i32 y mod 2 ^ 32) with (u32 (i32 y)).
  by rewrite !u32_i32.
Qed.

Lemma distance_sym h1 h2 c : distance_loop h1 h2 c = distance_loop h2 h1 c.
Proof.
  revert h2 c. induction h1 as [|a h1 IH]; intros [|b h2] c; [done..|].
  cbn [distance_loop]. rewrite IH. f_equal. unfold distance_step. rewrite !i32_mul, (Z.add_comm a b).
  replace ((a - b) * (a - b)) with ((b - a) * (b - a)) by lia. done.
Qed.

(** ** Brightness *)

Lemma pix_map f img r c : pix (f <$> img) r c = f <$> pix img r c.
Proof. unfold pix. destruct (_ && _); [|done]. by rewrite list_lookup_fmap. Qed.

(** A change of brightness that keeps the order of the grey levels keeps every
    pattern. *)
Lemma get_pattern_map f img i j :
  (∀ x y, x ∈ img → y ∈ img → x < y ↔ f x < f y) → get_pattern (f <$> img) i j = get_pattern img i j.
Proof.
  intros Hf. assert (∀ r c x, pix img r c = Some x → x ∈ img) as Hin.
  { intros r c x. unfold pix. destruct (_ && _); [|done]. apply list_elem_of_lookup_2. }
  assert (∀ v r c k, v ∈ img → above (f <$> img) (f v) r c k = above img v r c k) as Ha.
  { intros v r c k Hv. unfold above. rewrite pix_map. destruct (pix img r c) as [x|] eqn:E; [|done].
    cbn. apply Hin in E. f_equal. f_equal. destruct (Z.ltb_spec v x) as [H|H].
    - apply Hf in H; [|done..]. by rewrite (proj2 (Z.ltb_lt _ _)).
    - rewrite (proj2 (Z.ltb_ge _ _)); [done|]. apply Z.nlt_ge. rewrite <- Hf by done. lia. }
  unfold get_pattern. rewrite pix_map. destruct (pix img i j) as [v|] eqn:E; [|done]. apply Hin in E.
  cbn. by rewrite !Ha.
Qed.

Lemma calc_histogram_map f img p2b :
  (∀ x y, x ∈ img → y ∈ img → x < y ↔ f x < f y) →
  calc_histogram (f <$> img) p2b = calc_histogram img p2b.
Proof.
  intros Hf. assert (∀ i j h, count_pixel (f <$> img) p2b i j h = count_pixel img p2b i j h) as Hc.
  { intros i j h. unfold count_pixel. by rewrite get_pattern_map. }
  assert (∀ n i j h, columns_loop n (f <$> img) p2b i j h = columns_loop n img p2b i j h) as Hcol.
  { induction n as [|n IH]; intros i j h; [done|]. cbn [columns_loop]. rewrite Hc.
    destruct (count_pixel img p2b i j h); [apply IH|done]. }
  unfold calc_histogram. generalize (replicate (Z.to_nat HIST_INTS) 0) as h. generalize 1 as i.
  induction (Z.to_nat (IMG_WIDTH - 2)) as [|n IH] using nat_ind; intros i h; [done|].
  cbn [rows_loop]. rewrite Hcol. destruct (columns_loop _ img p2b i 1 h); [apply IH|done].
Qed.

(** Counter [58 b + k] is for bin [k] of block [b]. *)
Lemma hits_block img l b k :
  image img → (∀ q, q ∈ l → inner q.1 q.2) → 0 ≤ k < HISTOGRAM_LEN →
  hits img l (b * HISTOGRAM_LEN + k) = Z.of_nat (length (filter
    (λ q, q.1 / BLOCK_WIDTH * NBLOCKS_DIM + q.2 / BLOCK_WIDTH = b ∧
          bin_of (pattern_at img q.1 q.2) = k) l)).
Proof.
  intros Hi Hl Hk. unfold hits. do 2 f_equal. induction l as [|q l IH]; [done|].
  rewrite !filter_cons, IH by (intros; apply Hl; by right).
  assert (0 ≤ bin_of (pattern_at img q.1 q.2) < HISTOGRAM_LEN) as Hb.
  { destruct (get_pattern_ok img _ _ Hi (Hl q ltac:(left))) as (p & Hp & Hr).
    unfold pattern_at. rewrite Hp. by apply bin_range. }
  assert (cell img q = b * HISTOGRAM_LEN + k ↔ q.1 / BLOCK_WIDTH * NBLOCKS_DIM + q.2 / BLOCK_WIDTH = b ∧
    bin_of (pattern_at img q.1 q.2) = k) as Hiff; [|repeat case_decide; tauto || done].
  unfold cell, HISTOGRAM_LEN in *. lia.
Qed.

(** ** Theorems *)

(** C35. The histogram of an image: [calc_histogram] stays within the image,
    the table and the histogram; counter [58 b + k] ends up with the number of
    inner pixels of block [b] whose pattern has bin [k], at most 256, and the
    counters add up to the 510 x 510 inner pixels. A change of brightness that
    keeps the order of the grey levels leaves the histogram as it is. *)
Theorem calc_histogram_correct img :
  image img →
  ∃ h, calc_histogram img create_pattern2bin = Some h ∧ Z.of_nat (length h) = HIST_INTS ∧
    (∀ b k, 0 ≤ b < NBLOCKS → 0 ≤ k < HISTOGRAM_LEN →
      h !! Z.to_nat (b * HISTOGRAM_LEN + k) = Some (Z.of_nat (length (filter
        (λ q, q.1 / BLOCK_WIDTH * NBLOCKS_DIM + q.2 / BLOCK_WIDTH = b ∧
              bin_of (pattern_at img q.1 q.2) = k) pixels)))) ∧
    (∀ x, x ∈ h → 0 ≤ x ≤ 256) ∧ zsum h = 510 * 510 ∧
    ∀ f, (∀ x y, x ∈ img → y ∈ img → x < y ↔ f x < f y) →
      calc_histogram (f <$> img) create_pattern2bin = Some h.
Proof.
  intros Hi. destruct (calc_histogram_run img Hi) as (h & Hrun & Hlen & Hsum & Hcnt).
  exists h. split; [done|]. split; [done|]. split; [|split; [|split; [done|]]].
  - intros b k Hb Hk. rewrite Hcnt by (unfold HIST_INTS, HISTOGRAM_LEN in *; lia).
    rewrite hits_block; [done|done| |done]. intros q. by rewrite elem_of_pixels.
  - intros x [i Hx]%list_elem_of_lookup_1. pose proof (lookup_lt_Some _ _ _ Hx) as Hlt.
    specialize (Hcnt (Z.of_nat i) ltac:(lia)). rewrite Nat2Z.id, Hx in Hcnt. injection Hcnt as ->.
    split; [unfold hits; lia|by apply hits_bound].
  - intros f Hf. rewrite calc_histogram_map by done. done.
Qed.

(** What the server decides on the histogram of an image: against itself
    the distance is exactly 0 and is accepted; against the empty histogram,
    which stands for an unknown name, it is exactly 260100, in single precision,
    and is rejected; and the distance of any two histograms is symmetric. *)
Theorem histogram_distance_decides img h h2 :
  image img → calc_histogram img create_pattern2bin = Some h →
  histogram_distance h h = S754_zero false ∧ accepts (histogram_distance h h) = true ∧
  histogram_distance h empty_hist = float_of_int 260100 ∧
  accepts (histogram_distance h empty_hist) = false ∧
  histogram_distance h h2 = histogram_distance h2 h.
Proof.
  intros Hi Hh. destruct (calc_histogram_correct img Hi) as (h' & Hrun & Hlen & _ & Hle & Hsum & _).
  assert (h' = h) as -> by congruence. unfold histogram_distance.
  assert (distance_loop h h (S754_zero false) = S754_zero false) as ->.
  { apply distance_self. intros x Hx. specialize (Hle x Hx). lia. }
  assert (distance_loop h empty_hist (S754_zero false) = float_of_int 260100) as ->.
  { unfold empty_hist. replace (Z.to_nat HIST_INTS) with (length h) by lia.
    change (S754_zero false) with (float_of_int 0). rewrite distance_empty; [by rewrite Hsum|done|done|].
    rewrite Hsum. lia. }
  split; [done|]. split; [vm_compute; reflexivity|]. split; [done|].
  split; [vm_compute; reflexivity|]. apply distance_sym.
Qed.

(** A black image. *)
Definition black : list Z := replicate (Z.to_nat (IMG_WIDTH * IMG_WIDTH)) 0.

Lemma black_image : image black.
Proof.
  unfold black, image. split; [rewrite length_replicate; by apply Z2Nat.id|].
  intros x [-> _]%elem_of_replicate. lia.
Qed.
#[local] Opaque black.

Lemma calc_histogram_correct_witness :
  ∃ h, calc_histogram black create_pattern2bin = Some h ∧ Z.of_nat (length h) = HIST_INTS ∧
    zsum h = 510 * 510.
Proof.
  destruct (calc_histogram_correct black black_image) as (h & H1 & H2 & _ & _ & H3 & _).
  exists h. split; [exact H1|]. split; [exact H2|exact H3].
Defined.

Lemma histogram_distance_decides_witness :
  ∃ h, calc_histogram black create_pattern2bin = Some h ∧
    accepts (histogram_distance h h) = true ∧ accepts (histogram_distance h empty_hist) = false.
Proof.
  destruct (calc_histogram_run black black_image) as (h & H1 & _).
  destruct (histogram_distance_decides black h [] black_image H1) as (_ & H2 & _ & H3 & _).
  exists h. split; [exact H1|]. split; [exact H2|exact H3].
Defined.
