(* ===== verification/FaceServer.v ===== *)
(** * The face verification server

    Models the rest of [face_verification.cpp], of the enclave and of the
    ordinary process: filling the database from a directory of images, and a
    turn of the worker that answers requests.  Files, the directory and AES-CTR
    belong to the operating system and the SGX SDK: they are parameters. *)

From Stdlib Require Import SpecFloat.
From S2P Require Import Prelude CString SyncUtils Ring Queue FaceHash Lbp.

(** ** Filling the database *)

(** An entry of the directory: its name in a buffer, and, for a file that opens,
    what the successive reads return. *)
Record dirent := mkDirent { d_name : list Z; is_dir : bool; reads : option (list (list Z)) }.

Definition IMG_BYTES : Z := IMG_WIDTH * IMG_WIDTH.

(** [while (n < IMG_WIDTH * IMG_WIDTH)]: a read of nothing aborts. *)
Fixpoint read_image {T} (chunks : list (list Z)) (img : list Z) : M T (list Z) :=
  if IMG_BYTES <=? Z.of_nat (length img) then mret img
  else
    match chunks with
    | [] | [] :: _ => fail EAbort
    | chunk :: chunks' =>
        if Z.of_nat (length img) + Z.of_nat (length chunk) <=? IMG_BYTES
        then read_image chunks' (img ++ chunk) else fail EUndef
    end.

Section populate.
Context `{ValueStore T}.

(** [for (x = 0; x < DUP_NUM; x++)]: the name with each digit appended. *)
Fixpoint dup_loop (n : nat) (x : Z) (k : list Z) (histogram : list Z) : M (db T) unit :=
  match n with
  | O => mret tt
  | S n' =>
      tmp ← defined (snprintf_sd 40 k x);
      hash_put (Z.to_nat (1024 * DUP_NUM)) tmp (bytes_of_ints histogram) false;;
      dup_loop n' (x + 1) k histogram
  end.

(** One directory entry; [added] is the array [already_added]. [realloc_ok]
    says whether there is memory to double it. *)
Definition populate_entry (realloc_ok : bool) (p2b : list Z) (dent : dirent) (added : list Z)
    : M (db T) (list Z) :=
  if is_dir dent then mret added
  else
    k ← defined (strtok 95 (d_name dent));
    key_int ← defined (atoi k);
    added ← (if Z.of_nat (length added) <=? u64 key_int
             then massert realloc_ok;; mret (added ++ replicate (length added) 0)
             else mret added);
    seen ← (if key_int <? 0 then fail EUndef else defined (added !! Z.to_nat key_int));
    if negb (seen =? 0) then mret added
    else
      let added := <[Z.to_nat key_int := 1]> added in
      chunks ← match reads dent with None => fail EAbort | Some c => mret c end;
      img ← read_image chunks [];
      histogram ← defined (calc_histogram img p2b);
      dup_loop (Z.to_nat DUP_NUM) 0 k histogram;;
      mret added.

Fixpoint populate_loop (realloc_ok : bool) (p2b : list Z) (dir : list dirent) (added : list Z)
    : M (db T) (list Z) :=
  match dir with
  | [] => mret added
  | dent :: dir' =>
      added ← populate_entry realloc_ok p2b dent added;
      populate_loop realloc_ok p2b dir' added
  end.

(** [img_ptr] and [added_ptr] are what [malloc] returns for the two buffers,
    [dir] what the directory holds, where it opens. *)
Definition populate_database (img_ptr added_ptr : Z) (realloc_ok : bool) (dir : option (list dirent))
    (p2b : list Z) : M (db T) Z :=
  massert (negb (img_ptr =? 0));;
  dir ← match dir with None => fail EAbort | Some d => mret d end;
  massert (negb (added_ptr =? 0));;
  _ ← populate_loop realloc_ok p2b dir (replicate (Z.to_nat (1024 * DUP_NUM)) 0);
  mret 0.

Definition face_verification_prepare_server (index_ptr img_ptr added_ptr : Z) (realloc_ok : bool)
    (dir : option (list dirent)) : M (db T) unit :=
  hash_init index_ptr;;
  _ ← populate_database img_ptr added_ptr realloc_ok dir create_pattern2bin;
  mret tt.

(** ** Answering *)

(** The distance of a request's histogram to the one kept for the name. *)
Definition do_one (req_histogram k : list Z) : M (db T) spec_float :=
  h ← gets table;
  saved ← hash_get h k;
  if saved =? 0 then
    mret (histogram_distance req_histogram (replicate (Z.to_nat HIST_INTS) 0))
  else
    b ← on_values (copy_out saved);
    mret (histogram_distance req_histogram (ints_of_bytes b)).
End populate.

(** AES in counter mode, of the SGX SDK: the data, the counter block as it is
    left, or an error. *)
Class AesCtr := {
  aes_ctr_encrypt : list Z → list Z → option (list Z * list Z);
  aes_ctr_decrypt : list Z → list Z → option (list Z * list Z)
}.

(** [struct request] and [s_server_data], as the server uses them. *)
Record req_t := mkReq { req_buffer : Z; req_is_done : Z }.
Record server_data := mkServerData { sd_buffer : Z; sd_client_data : Z; sd_response : Z }.

(** What the workers and the connections share. *)
Record server (T : Type) := mkServer {
  sv_db : db T;
  ctr_dec : list Z;
  ctr_enc : list Z;
  decrypted_data_buffer : list Z;
  g_request_queue : Queue;
  g_response_queue : Queue;
  reqs : gmap Z req_t;                (* the live [request]s *)
  datas : gmap Z server_data;         (* the live [s_server_data]s *)
  buffers : gmap Z (list Z)           (* the message buffers *)
}.
Arguments mkServer {T} _ _ _ _ _ _ _ _ _.
Arguments sv_db {T} _.
Arguments ctr_dec {T} _.
Arguments ctr_enc {T} _.
Arguments decrypted_data_buffer {T} _.
Arguments g_request_queue {T} _.
Arguments g_response_queue {T} _.
Arguments reqs {T} _.
Arguments datas {T} _.
Arguments buffers {T} _.

Section setters.
Context {T : Type} (s : server T).
Definition set_db (d : db T) := mkServer d (ctr_dec s) (ctr_enc s) (decrypted_data_buffer s)
  (g_request_queue s) (g_response_queue s) (reqs s) (datas s) (buffers s).
Definition set_ctr_dec c := mkServer (sv_db s) c (ctr_enc s) (decrypted_data_buffer s)
  (g_request_queue s) (g_response_queue s) (reqs s) (datas s) (buffers s).
Definition set_ctr_enc c := mkServer (sv_db s) (ctr_dec s) c (decrypted_data_buffer s)
  (g_request_queue s) (g_response_queue s) (reqs s) (datas s) (buffers s).
Definition set_plain b := mkServer (sv_db s) (ctr_dec s) (ctr_enc s) b
  (g_request_queue s) (g_response_queue s) (reqs s) (datas s) (buffers s).
Definition set_requests q := mkServer (sv_db s) (ctr_dec s) (ctr_enc s) (decrypted_data_buffer s)
  q (g_response_queue s) (reqs s) (datas s) (buffers s).
Definition set_responses q := mkServer (sv_db s) (ctr_dec s) (ctr_enc s) (decrypted_data_buffer s)
  (g_request_queue s) q (reqs s) (datas s) (buffers s).
Definition set_reqs r := mkServer (sv_db s) (ctr_dec s) (ctr_enc s) (decrypted_data_buffer s)
  (g_request_queue s) (g_response_queue s) r (datas s) (buffers s).
Definition set_datas d := mkServer (sv_db s) (ctr_dec s) (ctr_enc s) (decrypted_data_buffer s)
  (g_request_queue s) (g_response_queue s) (reqs s) d (buffers s).
Definition set_buffers b := mkServer (sv_db s) (ctr_dec s) (ctr_enc s) (decrypted_data_buffer s)
  (g_request_queue s) (g_response_queue s) (reqs s) (datas s) b.
End setters.

Definition CTR_SIZE : Z := 16 * 255.
Definition data_size : Z := KEY_LENGTH_BYTES + HISTOGRAM_LENGTH_BYTES.

(** [n] bytes at index [i] of an array. *)
Definition slice {T} (b : list Z) (i n : Z) : M T (list Z) :=
  if (0 <=? i) && (i + n <=? Z.of_nat (length b)) then mret (take (Z.to_nat n) (drop (Z.to_nat i) b))
  else fail EUndef.
Definition patch (b : list Z) (i : Z) (l : list Z) : list Z :=
  take (Z.to_nat i) b ++ l ++ drop (Z.to_nat i + length l) b.

Section worker.
Context `{ValueStore T} `{AesCtr}.

(** The request taken off the queue: whose it is, and its data decrypted into the
    worker's buffer.  [stops] says what a failed decryption does: the ordinary
    process ends, the enclave goes on with what the buffer held.  [int client_id]
    indexes the counters as it is. *)
Definition open_request (stops : bool) (req : Z) : M (server T) (Z * server_data) :=
  r ← gets (λ s, reqs s !! req);
  r ← defined r;
  sd ← gets (λ s, datas s !! req_buffer r);
  sd ← defined sd;
  data ← gets (λ s, buffers s !! sd_buffer sd);
  data ← defined data;
  idb ← slice data 0 sizeof_int;
  let client_id := nth 0 (ints_of_bytes idb) 0 in
  src ← slice data sizeof_int data_size;
  s ← gets (λ s, s);
  ctr ← slice (ctr_dec s) (client_id * 16) 16;
  match aes_ctr_decrypt ctr src with
  | Some (plain, ctr') =>
      modify (λ s, set_plain (set_ctr_dec s (patch (ctr_dec s) (client_id * 16) ctr')) plain)
  | None => if stops then fail EAbort else mret tt
  end;;
  mret (client_id, sd).

(** What the buffer holds, answered. *)
Definition answer_request (stops : bool) (client_id : Z) (sd : server_data) : M (server T) unit :=
  plain ← gets decrypted_data_buffer;
  k ← slice plain 0 KEY_LENGTH_BYTES;
  hist ← slice plain KEY_LENGTH_BYTES HISTOGRAM_LENGTH_BYTES;
  distance ← zoom sv_db (λ d s, set_db s d) (do_one (ints_of_bytes hist) k);
  let answer := if accepts distance then 1 else 0 in
  s ← gets (λ s, s);
  ctr ← slice (ctr_enc s) (client_id * 16) 16;
  encrypted ← match aes_ctr_encrypt ctr (bytes_of_int answer) with
              | Some (c, ctr') =>
                  modify (λ s, set_ctr_enc s (patch (ctr_enc s) (client_id * 16) ctr'));;
                  mret c
              | None => if stops then fail EAbort else fail EUndef
              end;
  let encrypted_answer := nth 0 (ints_of_bytes encrypted) 0 in
  resp ← gets (λ s, reqs s !! sd_response sd);
  resp ← defined resp;
  modify (λ s, set_reqs s (<[sd_response sd := mkReq (req_buffer resp) encrypted_answer]> (reqs s)));;
  _ ← zoom g_response_queue (λ q s, set_responses s q) (enqueue (sd_response sd));
  mret tt.

(** A turn of the worker; [false] where the queue is empty. *)
Definition workload_turn (stops : bool) : M (server T) bool :=
  req ← zoom g_request_queue (λ q s, set_requests s q) dequeue;
  if req =? 0 then mret false
  else
    '(client_id, sd) ← open_request stops req;
    answer_request stops client_id sd;;
    mret true.
End worker.
