(* ===== verification/FaceServerThms.v ===== *)
(** * The server's answers

    Filling the database, and a turn of the worker, over any store of
    histograms that keeps its promises. *)

From Stdlib Require Import SpecFloat.
From S2P Require Import Prelude CString Ring Queue FaceHash FaceHashThms FaceHashDb.
From S2P Require Import Lbp LbpThms FaceServer.

#[local] Opaque HISTOGRAM_LENGTH_BYTES create_pattern2bin HIST_INTS.

Lemma length_patch b i c : 0 ≤ i → i + Z.of_nat (length c) ≤ Z.of_nat (length b) → length (patch b i c) = length b.
Proof. intros. unfold patch. rewrite !length_app, length_take, length_drop. lia. Qed.

(** ** Reading a file *)

Lemma read_image_ok {T} chunks img (s : T) :
  (∀ c, c ∈ chunks → c ≠ []) → Z.of_nat (length img + length (concat chunks)) = IMG_BYTES →
  read_image chunks img s = Ok (img ++ concat chunks, s).
Proof.
  revert img. induction chunks as [|c chunks IH]; intros img Hc Hlen.
  - cbn [concat read_image] in *. rewrite app_nil_r, (proj2 (Z.leb_le _ _)); [done|]. simpl in Hlen. lia.
  - destruct c as [|x c]; [by destruct (Hc []); [left|]|]. cbn [concat] in Hlen. rewrite length_app in Hlen.
    cbn [read_image]. simpl in Hlen. rewrite (proj2 (Z.leb_gt _ _)) by lia.
    rewrite (proj2 (Z.leb_le _ _)) by (simpl; lia). rewrite IH.
    + cbn [concat]. by rewrite <- app_assoc.
    + intros c' Hc'. apply Hc. by right.
    + rewrite length_app. simpl. lia.
Qed.

(** ** Filling the database *)

(** A file of the directory: the characters of its name before the first
    underscore, their value, and the histogram of the image in it. *)
Record file := mkFile { f_name : list Z; f_number : Z; f_hist : list Z }.

Definition reads_as (d : dirent) (f : option file) : Prop :=
  match f with
  | None => is_dir d = true
  | Some f => is_dir d = false ∧ ∃ kb chunks,
      strtok 95 (d_name d) = Some kb ∧ cstr kb = Some (f_name f) ∧ atoi kb = Some (f_number f) ∧
      0 ≤ f_number f < 1024 * DUP_NUM ∧ (length (f_name f) < 39)%nat ∧
      reads d = Some chunks ∧ (∀ c, c ∈ chunks → c ≠ []) ∧ image (concat chunks) ∧
      calc_histogram (concat chunks) create_pattern2bin = Some (f_hist f)
  end.

(** The first file of each number counts; it is entered under two names. *)
Definition file_spec (f : option file) (st : gset Z * gmap (list Z) (list Z)) :=
  match f with
  | None => st
  | Some f =>
      if decide (f_number f ∈ st.1) then st
      else ({[f_number f]} ∪ st.1,
            put_spec (f_name f ++ [49]) (bytes_of_ints (f_hist f)) false
              (put_spec (f_name f ++ [48]) (bytes_of_ints (f_hist f)) false st.2))
  end.
Definition directory_spec (fs : list (option file)) : gset Z * gmap (list Z) (list Z) :=
  fold_left (λ st f, file_spec f st) fs (∅, ∅).

Section populate.
Context `{HT : ValueLaws T}.

Lemma snprintf_digit kb k x :
  cstr kb = Some k → (length k < 39)%nat → 0 ≤ x < 10 →
  ∃ b, snprintf_sd 40 kb x = Some b ∧ cstr b = Some (k ++ [48 + x]) ∧ (length (k ++ [(48 + x)%Z]) < 40)%nat.
Proof.
  intros Hk Hlen Hx. assert (decimal x = [48 + x]) as Ed.
  { unfold decimal. rewrite (proj2 (Z.ltb_ge _ _)) by lia. cbn [decimal_digits].
    rewrite (proj2 (Z.ltb_lt _ _)), Z.mod_small by lia. done. }
  unfold snprintf_sd. rewrite Hk, Ed. cbn [mbind option_bind].
  eexists. split; [reflexivity|]. rewrite length_app. simpl length. split; [|lia].
  rewrite take_ge by (rewrite length_app; simpl; lia). apply cstr_terminated.
  apply cstr_spec in Hk as [Hk _]. rewrite elem_of_app, list_elem_of_singleton. intros [?|?]; [done|lia].
Qed.

Lemma dup_loop_ok n x d m c kb k h :
  db_ok d m (n + c) → cstr kb = Some k → (length k < 39)%nat → 0 ≤ x → x + Z.of_nat n ≤ 10 →
  Z.of_nat (length h) = HIST_INTS → nbuckets (table d) = 1024 * DUP_NUM →
  Z.of_nat (size m) + Z.of_nat n ≤ 1024 * DUP_NUM →
  ∃ d', dup_loop n x kb h d = Ok (tt, d') ∧ nbuckets (table d') = 1024 * DUP_NUM ∧
    let m' := fold_left (λ m y, put_spec (k ++ [48 + y]) (bytes_of_ints h) false m) (seqZ x (Z.of_nat n)) m in
    db_ok d' m' c ∧ Z.of_nat (size m') ≤ Z.of_nat (size m) + Z.of_nat n.
Proof.
  revert x d m. induction n as [|n IH]; intros x d m Hd Hk Hlen Hx Hxn Hh Hnb Hsz.
  { exists d. split; [done|]. split; [done|]. split; [exact Hd|simpl; lia]. }
  cbn [dup_loop]. destruct (snprintf_digit kb k x Hk Hlen) as (b & Hb & Hcb & Hlb); [lia|].
  rewrite (bind_defined _ _ _ _ Hb).
  assert (HIST_INTS * 4 = HISTOGRAM_LENGTH_BYTES) as Hhl by (vm_compute; reflexivity).
  destruct (hash_put_ok d m (n + c) b (k ++ [48 + x]) (bytes_of_ints h) false (Z.to_nat (1024 * DUP_NUM)))
    as (d1 & Hrun & Hd1 & Hnb1); try done.
  { rewrite length_bytes_of_ints. lia. } { apply u8_bytes_of_ints. } { right. lia. } { lia. }
  rewrite (bind_Ok _ _ _ _ _ Hrun). pose proof (put_spec_size (k ++ [48 + x]) (bytes_of_ints h) false m).
  destruct (IH (x + 1) d1 _ Hd1 Hk Hlen) as (d' & Hrun' & Hnb' & Hd' & Hsz'); [lia|lia|done|congruence|lia|].
  exists d'. split; [done|]. split; [done|]. rewrite seqZ_cons by lia. cbn [fold_left].
  replace (Z.pred (Z.of_nat (S n))) with (Z.of_nat n) by lia.
  change (Z.succ x) with (x + 1). split; [exact Hd'|]. cbv zeta in Hsz'. lia.
Qed.

(** The array [already_added] marks the numbers seen. *)
Definition marks (added : list Z) (seen : gset Z) : Prop :=
  Z.of_nat (length added) = 1024 * DUP_NUM ∧
  ∀ v, 0 ≤ v < 1024 * DUP_NUM → added !! Z.to_nat v = Some (if decide (v ∈ seen) then 1 else 0).

Lemma populate_entry_ok ok dent f d added seen m c :
  reads_as dent f → db_ok d m (2 + c) → marks added seen → nbuckets (table d) = 1024 * DUP_NUM →
  Z.of_nat (size m) + 2 ≤ 1024 * DUP_NUM →
  ∃ d' added', populate_entry ok create_pattern2bin dent added d = Ok (added', d') ∧
    nbuckets (table d') = 1024 * DUP_NUM ∧ marks added' (file_spec f (seen, m)).1 ∧
    db_ok d' (file_spec f (seen, m)).2 c ∧
    Z.of_nat (size (file_spec f (seen, m)).2) ≤ Z.of_nat (size m) + 2.
Proof.
  intros Hf Hd Hm Hnb Hsz. assert (db_ok d m c) as Hdc.
  { destruct Hd as (P & A & H1 & H2 & H3). exists P, A. split; [done|]. split; [|done].
    by do 2 apply stored_less. }
  unfold populate_entry. destruct f as [f|]; cbn [reads_as] in Hf.
  2: { rewrite Hf. exists d, added. split; [done|]. split; [done|]. split; [done|]. split; [done|simpl; lia]. }
  destruct Hf as (-> & kb & chunks & Htok & Hkb & Hatoi & Hv & Hlen & Hreads & Hne & Himg & Hcalc).
  rewrite (bind_defined _ _ _ _ Htok), (bind_defined _ _ _ _ Hatoi).
  destruct Hm as [Hml Hmv]. rewrite u64_id by (unfold DUP_NUM in Hv; lia).
  rewrite (proj2 (Z.leb_gt _ _)) by lia. rewrite bind_ret.
  rewrite (proj2 (Z.ltb_ge _ _)) by lia. rewrite (bind_defined _ _ _ _ (Hmv _ Hv)).
  cbn [file_spec fst snd]. destruct (decide (f_number f ∈ seen)) as [Hseen|Hseen]; cbn [Z.eqb negb].
  { exists d, added. split; [done|]. split; [done|]. split; [by split|]. split; [done|simpl; lia]. }
  cbv zeta. rewrite Hreads, bind_ret.
  assert (read_image chunks [] d = Ok (concat chunks, d)) as Hread.
  { apply (read_image_ok chunks []); [done|]. destruct Himg as [Himg _]. simpl. exact Himg. }
  rewrite (bind_Ok _ _ _ _ _ Hread), (bind_defined _ _ _ _ Hcalc).
  destruct (calc_histogram_run _ Himg) as (h & Hrun & Hl & _). rewrite Hcalc in Hrun. injection Hrun as <-.
  destruct (dup_loop_ok 2 0 d m c kb (f_name f) (f_hist f) Hd Hkb Hlen) as (d' & Hrun & Hnb' & Hd' & Hsz');
    [lia|lia|exact Hl|done|lia|].
  exists d', (<[Z.to_nat (f_number f) := 1]> added).
  rewrite (bind_Ok _ _ _ _ _ Hrun). split; [done|]. split; [done|]. split; [|split; [exact Hd'|exact Hsz']].
  split; [by rewrite length_insert|]. intros v Hv'. destruct (decide (v = f_number f)) as [->|Hne'].
  - rewrite list_lookup_insert_eq by lia. by rewrite decide_True by set_solver.
  - rewrite list_lookup_insert_ne by lia. rewrite Hmv by done. f_equal.
    destruct (decide (v ∈ seen)); [by rewrite decide_True by set_solver|by rewrite decide_False by set_solver].
Qed.

Lemma populate_loop_ok ok dir fs d added seen m c :
  Forall2 reads_as dir fs → db_ok d m (2 * length fs + c) → marks added seen →
  nbuckets (table d) = 1024 * DUP_NUM → Z.of_nat (size m) + 2 * Z.of_nat (length fs) ≤ 1024 * DUP_NUM →
  ∃ d' added', populate_loop ok create_pattern2bin dir added d = Ok (added', d') ∧
    db_ok d' (fold_left (λ st f, file_spec f st) fs (seen, m)).2 c.
Proof.
  intros HF. revert d added seen m. induction HF as [|dent f dir fs Hf HF IH]; intros d added seen m Hd Hm Hnb Hsz.
  { by exists d, added. }
  cbn [length] in *. cbn [populate_loop fold_left].
  destruct (populate_entry_ok ok dent f d added seen m (2 * length fs + c)) as
    (d1 & added1 & Hrun & Hnb1 & Hm1 & Hd1 & Hsz1); try done; [|lia|].
  { by replace (2 + (2 * length fs + c))%nat with (2 * S (length fs) + c)%nat by lia. }
  rewrite (bind_Ok _ _ _ _ _ Hrun). destruct (file_spec f (seen, m)) as [seen1 m1]. simpl in *.
  apply IH; [done|done|done|lia].
Qed.

(** The server's database: started on a directory of at most 1024 entries
    (subdirectories, and image files named [<number>_...] with numbers below
    2048 and readable contents, in chunks of any size), the server comes up with
    exactly the histograms of the first file of each number, each under its
    number followed by 0 and by 1; every other name is unknown. *)
Theorem prepare_server_correct t A h0 ok dir fs ptr1 ptr2 ptr3 :
  Forall2 reads_as dir fs → Z.of_nat (length fs) ≤ 1024 → stored_values t A (2 * length fs) →
  ptr1 ≠ 0 → ptr2 ≠ 0 → ptr3 ≠ 0 →
  ∃ d, face_verification_prepare_server ptr1 ptr2 ptr3 ok (Some dir) (mkDb h0 t) = Ok (tt, d) ∧
    db_ok d (directory_spec fs).2 0.
Proof.
  intros HF Hn Ht H1 H2 H3. unfold face_verification_prepare_server, populate_database.
  rewrite (bind_Ok _ _ _ _ _ (hash_init_ok ptr1 (mkDb h0 t) H1)). cbn [values].
  rewrite bind_assoc, bind_assert by (by apply negb_true_iff, Z.eqb_neq).
  rewrite bind_assoc, bind_ret, bind_assoc, bind_assert by (by apply negb_true_iff, Z.eqb_neq).
  destruct (populate_loop_ok ok dir fs (mkDb initial_table t) (replicate (Z.to_nat (1024 * DUP_NUM)) 0) ∅ ∅ 0 HF)
    as (d & added & Hrun & Hd).
  - rewrite Nat.add_0_r. by eapply initial_db_ok.
  - split; [rewrite length_replicate; done|]. intros v Hv. rewrite lookup_replicate_2 by lia.
    by rewrite decide_False by set_solver.
  - done.
  - rewrite map_size_empty. unfold DUP_NUM. lia.
  - exists d. rewrite bind_assoc, (bind_Ok _ _ _ _ _ Hrun). done.
Qed.
End populate.

(** A directory with one image, a black one. *)
Definition one_file : list dirent := [mkDirent [55; 95; 49; 0] false (Some [black])].

Lemma one_file_reads :
  ∃ h, calc_histogram black create_pattern2bin = Some h ∧ Forall2 reads_as one_file [Some (mkFile [55] 7 h)].
Proof.
  destruct (calc_histogram_run black black_image) as (h & Hrun & _). exists h. split; [exact Hrun|].
  constructor; [|constructor]. split; [reflexivity|]. exists [55; 0], [black].
  split; [reflexivity|]. split; [reflexivity|]. split; [reflexivity|]. split; [simpl; unfold DUP_NUM; lia|].
  split; [simpl; lia|]. split; [reflexivity|]. split.
  - intros c Hc. apply list_elem_of_singleton in Hc as ->. intros E. destruct black_image as [Hl _].
    rewrite E in Hl. discriminate Hl.
  - cbn [concat]. rewrite app_nil_r. split; [exact black_image|exact Hrun].
Qed.

Lemma prepare_server_correct_witness :
  ∃ h d, calc_histogram black create_pattern2bin = Some h ∧
    face_verification_prepare_server 64 128 192 false (Some one_file) (mkDb initial_table empty_memory) = Ok (tt, d) ∧
    db_ok d (put_spec [55; 49] (bytes_of_ints h) false (put_spec [55; 48] (bytes_of_ints h) false ∅)) 0.
Proof.
  destruct one_file_reads as (h & Hrun & HF).
  destruct (prepare_server_correct empty_memory ∅ initial_table false one_file [Some (mkFile [55] 7 h)] 64 128 192)
    as (d & H1 & H2); [exact HF|simpl; lia|apply empty_memory_ok; simpl; lia|lia|lia|lia|].
  - exists h, d. split; [exact Hrun|]. split; [exact H1|exact H2].
Defined.
