(* ===== verification/FaceWorker.v ===== *)
(** * A request, from the client's bytes to the client's answer

    A turn of the worker against the client's view: what it encrypted, and what
    it decrypts. *)

From Stdlib Require Import SpecFloat.
From S2P Require Import Prelude CString Ring Queue FaceHash FaceHashThms FaceHashDb.
From S2P Require Import Lbp LbpThms FaceServer FaceServerThms.

#[local] Opaque HISTOGRAM_LENGTH_BYTES create_pattern2bin HIST_INTS.

(** What is documented of counter mode: decryption from the same counter block
    gives the plaintext back and moves the counter alike; lengths are kept. *)
Class AesCtrLaws `{AesCtr} := {
  ctr_round_trip ctr p c ctr' :
    aes_ctr_encrypt ctr p = Some (c, ctr') → aes_ctr_decrypt ctr c = Some (p, ctr');
  ctr_length ctr p c ctr' :
    aes_ctr_encrypt ctr p = Some (c, ctr') → length c = length p ∧ length ctr' = length ctr;
  ctr_bytes ctr p c ctr' :
    aes_ctr_encrypt ctr p = Some (c, ctr') → ∀ x, x ∈ c → 0 ≤ x < 256
}.

(** The counter block of a client. *)
Definition ctr_block (ctr : list Z) (client : Z) : list Z := take 16 (drop (Z.to_nat (client * 16)) ctr).

Lemma slice_at {T B} (f : list Z → M T B) l1 l2 l3 i n s :
  Z.of_nat (length l1) = i → Z.of_nat (length l2) = n →
  (slice (l1 ++ l2 ++ l3) i n ≫= f) s = f l2 s.
Proof.
  intros <- <-. unfold slice. rewrite !length_app.
  replace (_ && _) with true by (symmetry; bool_lia).
  rewrite !Nat2Z.id, drop_app_length, take_app_length. done.
Qed.

Lemma slice_ctr {T B} (f : list Z → M T B) ctr client s :
  Z.of_nat (length ctr) = CTR_SIZE → 0 ≤ client < 255 →
  (slice ctr (client * 16) 16 ≫= f) s = f (ctr_block ctr client) s.
Proof.
  intros Hl Hc. unfold slice, CTR_SIZE in *. replace (_ && _) with true by (symmetry; bool_lia). done.
Qed.

Section worker.
Context `{HT : ValueLaws T} `{HC : AesCtrLaws}.

(** What is kept for a name: the empty histogram for an unknown one. *)
Definition saved_histogram (m : gmap (list Z) (list Z)) (k : list Z) : list Z :=
  match m !! k with
  | None => empty_hist
  | Some b => ints_of_bytes b
  end.

Lemma do_one_ok d m n b k req_histogram :
  db_ok d m n → cstr b = Some k →
  ∃ d', do_one req_histogram b d = Ok (histogram_distance req_histogram (saved_histogram m k), d') ∧
    db_ok d' m n.
Proof.
  intros Hd Hb. destruct (db_lookup d m n b k Hd Hb) as (p & Hget & Hv).
  unfold do_one, saved_histogram. rewrite bind_gets, (bind_Ok _ _ _ _ _ Hget).
  destruct (m !! k) as [v|].
  - destruct Hv as (Hp & t' & Hout & Hd'). rewrite (proj2 (Z.eqb_neq p 0)) by done.
    rewrite (bind_on_values _ _ _ _ _ Hout). by exists (mkDb (table d) t').
  - subst p. by exists d.
Qed.

Lemma bytes4 (c : list Z) :
  length c = 4%nat → (∀ x, x ∈ c → 0 ≤ x < 256) → bytes_of_int (nth 0 (ints_of_bytes c) 0) = c.
Proof.
  intros Hl Hb. destruct c as [|b0 [|b1 [|b2 [|b3 [|]]]]]; try done. simpl.
  apply bytes_int; apply Hb; repeat (left || right).
Qed.

(** A request whose data decrypts to [plain], and one whose data does not. *)
Lemma open_request_ok stops (s : server T) req r sd client p cipher junk dec' :
  reqs s !! req = Some r → datas s !! req_buffer r = Some sd →
  buffers s !! sd_buffer sd = Some (bytes_of_int client ++ cipher ++ junk) → 0 ≤ client < 255 →
  Z.of_nat (length (ctr_dec s)) = CTR_SIZE → Z.of_nat (length cipher) = data_size →
  match aes_ctr_decrypt (ctr_block (ctr_dec s) client) cipher with
  | Some (p', ctr') => p' = p ∧ ctr' = dec'
  | None => p = decrypted_data_buffer s ∧ dec' = ctr_block (ctr_dec s) client
  end →
  open_request stops req s =
    match aes_ctr_decrypt (ctr_block (ctr_dec s) client) cipher with
    | Some _ => Ok ((client, sd), set_plain (set_ctr_dec s (patch (ctr_dec s) (client * 16) dec')) p)
    | None => if stops then Err EAbort else Ok ((client, sd), s)
    end.
Proof.
  intros Hr Hsd Hbuf Hcl Hld Hcipher Hdec. unfold open_request.
  rewrite bind_gets, (bind_defined _ _ _ _ Hr), bind_gets, (bind_defined _ _ _ _ Hsd).
  rewrite bind_gets, (bind_defined _ _ _ _ Hbuf).
  rewrite (slice_at _ [] (bytes_of_int client) (cipher ++ junk)) by done.
  assert (nth 0 (ints_of_bytes (bytes_of_int client)) 0 = client) as ->.
  { change (bytes_of_int client) with (bytes_of_ints [client]). rewrite ints_bytes. simpl. apply i32_id. lia. }
  cbv zeta. rewrite (slice_at _ (bytes_of_int client) cipher junk), bind_gets, slice_ctr by done.
  destruct (aes_ctr_decrypt _ cipher) as [[p' ctr']|].
  - destruct Hdec as [-> ->]. by rewrite bind_modify.
  - by destruct stops.
Qed.

(** The answer to what the buffer holds. *)
Lemma answer_request_ok stops (s : server T) m n client sd kb k hb c enc' resp l :
  db_ok (sv_db s) m n → 0 ≤ client < 255 → Z.of_nat (length (ctr_enc s)) = CTR_SIZE →
  decrypted_data_buffer s = kb ++ hb → Z.of_nat (length kb) = KEY_LENGTH_BYTES → cstr kb = Some k →
  Z.of_nat (length hb) = HISTOGRAM_LENGTH_BYTES →
  let answer := if accepts (histogram_distance (ints_of_bytes hb) (saved_histogram m k)) then 1 else 0 in
  aes_ctr_encrypt (ctr_block (ctr_enc s) client) (bytes_of_int answer) = Some (c, enc') →
  reqs s !! sd_response sd = Some resp → holds (g_response_queue s) l →
  Z.of_nat (length l) < queue_size → rear (g_response_queue s) < 2 ^ 31 - 1 →
  ∃ s' e, answer_request stops client sd s = Ok (tt, s') ∧
    g_request_queue s' = g_request_queue s ∧ holds (g_response_queue s') (l ++ [sd_response sd]) ∧
    datas s' = datas s ∧ reqs s' = <[sd_response sd := mkReq (req_buffer resp) e]> (reqs s) ∧
    aes_ctr_decrypt (ctr_block (ctr_enc s) client) (bytes_of_int e) = Some (bytes_of_int answer, enc') ∧
    ctr_dec s' = ctr_dec s ∧ ctr_enc s' = patch (ctr_enc s) (client * 16) enc' ∧
    db_ok (sv_db s') m n.
Proof.
  intros Hdb Hcl Hle Hplain Hkl Hk Hhl answer Hans Hresp Hrq Hroom Hrear.
  destruct (ctr_length _ _ _ _ Hans) as [Hlc _].
  pose proof (ctr_round_trip _ _ _ _ Hans) as Hrt. pose proof (ctr_bytes _ _ _ _ Hans) as Hcb.
  destruct (do_one_ok (sv_db s) m n kb k (ints_of_bytes hb) Hdb Hk) as (d' & Hone & Hd').
  destruct (enqueue_ok (g_response_queue s) l (sd_response sd) Hrq Hroom Hrear) as (q2 & Henq & Hq2 & _).
  set (e := nth 0 (ints_of_bytes c) 0).
  set (s1 := set_ctr_enc (set_db s d') (patch (ctr_enc s) (client * 16) enc')).
  set (s2 := set_reqs s1 (<[sd_response sd := mkReq (req_buffer resp) e]> (reqs s))).
  exists (set_responses s2 q2), e.
  assert (bytes_of_int e = c) as He by (apply bytes4; [by rewrite Hlc|done]).
  rewrite He. split; [|do 7 (split; [done|]); exact Hd'].
  unfold answer_request. rewrite bind_gets, Hplain, (slice_at _ [] kb hb) by done.
  replace (kb ++ hb) with (kb ++ hb ++ []) by by rewrite app_nil_r.
  rewrite slice_at by done. rewrite (bind_zoom sv_db _ _ _ s _ _ Hone). fold answer. cbv zeta.
  rewrite bind_gets, slice_ctr by done. change (ctr_enc (set_db s d')) with (ctr_enc s). rewrite Hans.
  rewrite bind_assoc, bind_modify. change (set_ctr_enc _ _) with s1. rewrite bind_ret. fold e.
  rewrite bind_gets. change (reqs s1) with (reqs s). rewrite (bind_defined _ _ _ _ Hresp).
  rewrite bind_modify. change (set_reqs _ _) with s2.
  by rewrite (bind_zoom g_response_queue _ _ _ s2 _ _ Henq).
Qed.

(** The queue and the records a turn of the worker goes through: the request
    [req] of a client, at the head of the queue, whose message is [cipher]. *)
Definition waiting (s : server T) (req : Z) (rest : list Z) (sd : server_data) (client : Z)
    (cipher junk : list Z) : Prop :=
  holds (g_request_queue s) (req :: rest) ∧ req ≠ 0 ∧ 0 ≤ client < 255 ∧
  (∃ r, reqs s !! req = Some r ∧ datas s !! req_buffer r = Some sd) ∧
  buffers s !! sd_buffer sd = Some (bytes_of_int client ++ cipher ++ junk) ∧
  Z.of_nat (length cipher) = data_size ∧
  Z.of_nat (length (ctr_dec s)) = CTR_SIZE ∧ Z.of_nat (length (ctr_enc s)) = CTR_SIZE.

(** The response has its record and room in its queue. *)
Definition can_respond (s : server T) (sd : server_data) (resp : req_t) (l : list Z) : Prop :=
  reqs s !! sd_response sd = Some resp ∧ holds (g_response_queue s) l ∧
  Z.of_nat (length l) < queue_size ∧ rear (g_response_queue s) < 2 ^ 31 - 1.

(** A turn of the worker that has a request to answer. *)
Lemma workload_turn_ok stops (s : server T) m n req rest sd client kb k hb cipher junk dec' c enc'
    resp l :
  db_ok (sv_db s) m n → waiting s req rest sd client cipher junk → can_respond s sd resp l →
  Z.of_nat (length kb) = KEY_LENGTH_BYTES → cstr kb = Some k →
  Z.of_nat (length hb) = HISTOGRAM_LENGTH_BYTES →
  aes_ctr_encrypt (ctr_block (ctr_dec s) client) (kb ++ hb) = Some (cipher, dec') →
  let answer := if accepts (histogram_distance (ints_of_bytes hb) (saved_histogram m k)) then 1 else 0 in
  aes_ctr_encrypt (ctr_block (ctr_enc s) client) (bytes_of_int answer) = Some (c, enc') →
  ∃ s' e, workload_turn stops s = Ok (true, s') ∧
    holds (g_request_queue s') rest ∧ holds (g_response_queue s') (l ++ [sd_response sd]) ∧
    datas s' = datas s ∧ reqs s' = <[sd_response sd := mkReq (req_buffer resp) e]> (reqs s) ∧
    aes_ctr_decrypt (ctr_block (ctr_enc s) client) (bytes_of_int e) = Some (bytes_of_int answer, enc') ∧
    ctr_dec s' = patch (ctr_dec s) (client * 16) dec' ∧ ctr_enc s' = patch (ctr_enc s) (client * 16) enc' ∧
    db_ok (sv_db s') m n.
Proof.
  intros Hdb (Hq & Hreq & Hcl & (r & Hr & Hsd) & Hbuf & Hcipher & Hld & Hle) (Hresp & Hrq & Hroom & Hrear)
    Hkl Hk Hhl Henc answer Hans.
  destruct (dequeue_ok _ _ _ Hq) as (q1 & Hdeq & Hq1 & _).
  pose proof (ctr_round_trip _ _ _ _ Henc) as Hdec. set (s1 := set_requests s q1).
  pose proof (open_request_ok stops s1 req r sd client (kb ++ hb) cipher junk dec') as Hopen.
  change (ctr_dec s1) with (ctr_dec s) in Hopen. rewrite Hdec in Hopen. specialize (Hopen Hr Hsd Hbuf Hcl Hld).
  set (s2 := set_plain (set_ctr_dec s1 (patch (ctr_dec s) (client * 16) dec')) (kb ++ hb)) in *.
  destruct (answer_request_ok stops s2 m n client sd kb k hb c enc' resp l) as
    (s' & e & Hrun & H1 & H2 & Hdt & H3 & H4 & H5 & H6 & H7); try done.
  exists s', e. split.
  - unfold workload_turn. rewrite (bind_zoom g_request_queue _ _ _ _ _ _ Hdeq). fold s1.
    rewrite (proj2 (Z.eqb_neq req 0)) by done. rewrite (bind_Ok _ _ _ _ _ (Hopen Hcipher (conj eq_refl eq_refl))).
    cbv beta iota. by rewrite (bind_Ok _ _ _ _ _ Hrun).
  - rewrite H1, H3, H5, Hdt. do 6 (split; [done|]). by split.
Qed.

(** A decryption that fails: the process stops; the enclave goes on and
    answers with what its buffer still holds, the plaintext of the request
    before, encrypted for the client whose request failed. *)
Theorem workload_turn_failed_decrypt (s : server T) m n req rest sd client cipher junk kb k hb c enc' resp l :
  db_ok (sv_db s) m n → waiting s req rest sd client cipher junk → can_respond s sd resp l →
  aes_ctr_decrypt (ctr_block (ctr_dec s) client) cipher = None →
  decrypted_data_buffer s = kb ++ hb → Z.of_nat (length kb) = KEY_LENGTH_BYTES → cstr kb = Some k →
  Z.of_nat (length hb) = HISTOGRAM_LENGTH_BYTES →
  let answer := if accepts (histogram_distance (ints_of_bytes hb) (saved_histogram m k)) then 1 else 0 in
  aes_ctr_encrypt (ctr_block (ctr_enc s) client) (bytes_of_int answer) = Some (c, enc') →
  workload_turn true s = Err EAbort ∧
  ∃ s' e, workload_turn false s = Ok (true, s') ∧
    reqs s' !! sd_response sd = Some (mkReq (req_buffer resp) e) ∧
    aes_ctr_decrypt (ctr_block (ctr_enc s) client) (bytes_of_int e) = Some (bytes_of_int answer, enc').
Proof.
  intros Hdb (Hq & Hreq & Hcl & (r & Hr & Hsd) & Hbuf & Hcipher & Hld & Hle) (Hresp & Hrq & Hroom & Hrear)
    Hdec Hplain Hkl Hk Hhl answer Hans.
  destruct (dequeue_ok _ _ _ Hq) as (q1 & Hdeq & Hq1 & _). set (s1 := set_requests s q1).
  assert (∀ stops, open_request stops req s1 = if stops then Err EAbort else Ok ((client, sd), s1)) as Hopen.
  { intros stops.
    pose proof (open_request_ok stops s1 req r sd client (decrypted_data_buffer s) cipher junk
      (ctr_block (ctr_dec s) client)) as Ho.
    change (ctr_dec s1) with (ctr_dec s) in Ho. rewrite Hdec in Ho. by apply Ho. }
  destruct (answer_request_ok false s1 m n client sd kb k hb c enc' resp l) as
    (s' & e & Hrun & _ & _ & _ & H3 & H4 & _); try done.
  unfold workload_turn. rewrite !(bind_zoom g_request_queue _ _ _ _ _ _ Hdeq). fold s1.
  rewrite (proj2 (Z.eqb_neq req 0)) by done. split.
  - by rewrite (bind_Err _ _ _ _ (Hopen true)).
  - exists s', e. rewrite (bind_Ok _ _ _ _ _ (Hopen false)). cbv beta iota. rewrite (bind_Ok _ _ _ _ _ Hrun).
    rewrite H3. split; [done|]. by rewrite lookup_insert_eq.
Qed.
End worker.

(** ** Examples *)

(** A cipher that is the identity on bytes, except that messages which begin
    with 255 are refused. *)
Definition clear_ok (p : list Z) : Prop := Forall (λ x, 0 ≤ x < 256) p ∧ head p ≠ Some 255.
#[local] Instance clear_ok_dec p : Decision (clear_ok p).
Proof. unfold clear_ok. apply _. Defined.
Definition clear (ctr p : list Z) : option (list Z * list Z) :=
  if decide (clear_ok p) then Some (p, ctr) else None.
#[local] Instance clear_ctr : AesCtr := { aes_ctr_encrypt := clear; aes_ctr_decrypt := clear }.

Lemma clear_Some ctr p c ctr' : clear ctr p = Some (c, ctr') → c = p ∧ ctr' = ctr ∧ clear_ok p.
Proof. unfold clear. case_decide; naive_solver. Qed.

#[local] Instance clear_laws : AesCtrLaws.
Proof.
  constructor; cbn [aes_ctr_encrypt aes_ctr_decrypt clear_ctr]; intros ctr p c ctr' E;
    pose proof (clear_Some _ _ _ _ E) as (-> & -> & H); [done|done|].
  intros x Hx. destruct H as [H _]. rewrite Forall_forall in H. by apply H.
Qed.

Lemma clear_plain ctr kb : clear_ok kb → kb ≠ [] → clear ctr (kb ++ plain 0) = Some (kb ++ plain 0, ctr).
Proof.
  intros [H1 H2] H3. unfold clear. rewrite decide_True; [done|]. split.
  - apply Forall_app. split; [done|]. apply Forall_forall. intros x Hx.
    rewrite <- (bytes_plain 0) in Hx by lia. apply list_elem_of_fmap in Hx as (y & -> & _). apply u8_range.
  - by destruct kb.
Qed.

(** A queue with one element, and a server with one request in its queue. *)
Definition queue_of (x : Z) : Queue :=
  match enqueue x (Queue_ctor 0) with Ok (_, q) => q | Err _ => Queue_ctor 0 end.

Lemma queue_of_holds x : holds (queue_of x) [x].
Proof.
  destruct (enqueue_ok (Queue_ctor 0) [] x Queue_ctor_holds) as (q' & E & Hq & _); [done|done|].
  unfold queue_of. by rewrite E.
Qed.

Definition name_1 : list Z := 49 :: replicate 39 0.
Definition message (first : Z) : list Z := (first :: replicate 39 0) ++ plain 0.
Definition one_request (first : Z) : server native :=
  mkServer (mkDb initial_table empty_memory) (replicate (Z.to_nat CTR_SIZE) 0) (replicate (Z.to_nat CTR_SIZE) 0)
    (message 49) (queue_of 8) (Queue_ctor 0)
    (<[8 := mkReq 16 0]> (<[24 := mkReq 16 0]> ∅)) (<[16 := mkServerData 32 0 24]> ∅)
    (<[32 := bytes_of_int 3 ++ message first ++ []]> ∅).

Lemma initial_ok : db_ok (mkDb initial_table empty_memory) ∅ 0.
Proof. eapply initial_db_ok. apply empty_memory_ok. lia. Qed.

Lemma one_request_waits first :
  waiting (one_request first) 8 [] (mkServerData 32 0 24) 3 (message first) [].
Proof.
  split; [apply queue_of_holds|]. split; [done|]. split; [lia|]. split; [by exists (mkReq 16 0)|].
  split; [done|].
  split; [|split; cbn [ctr_dec ctr_enc one_request]; rewrite length_replicate; reflexivity].
  unfold message. rewrite length_app, Nat2Z.inj_add, length_plain. done.
Qed.

Lemma one_request_response first :
  can_respond (one_request first) (mkServerData 32 0 24) (mkReq 16 0) [].
Proof. split; [done|]. split; [apply Queue_ctor_holds|done]. Qed.

(** The answer to the plaintext both examples answer, one of two. *)
Definition answer_1 : list Z :=
  bytes_of_int (if accepts (histogram_distance (ints_of_bytes (plain 0)) (saved_histogram ∅ [49])) then 1 else 0).

Lemma answer_clear ctr (b : bool) :
  clear ctr (bytes_of_int (if b then 1 else 0)) = Some (bytes_of_int (if b then 1 else 0), ctr).
Proof. by destruct b. Qed.

Lemma workload_turn_failed_decrypt_witness :
  workload_turn true (one_request 255) = Err EAbort ∧
  ∃ s' e, workload_turn false (one_request 255) = Ok (true, s') ∧ reqs s' !! 24 = Some (mkReq 16 e).
Proof.
  destruct (workload_turn_failed_decrypt (one_request 255) ∅ 0 8 [] (mkServerData 32 0 24) 3 (message 255) []
    name_1 [49] (plain 0) answer_1 (ctr_block (ctr_enc (one_request 255)) 3)
    (mkReq 16 0) [] initial_ok (one_request_waits 255) (one_request_response 255)) as
    (H0 & s' & e & H1 & H2 & _).
  - cbn [aes_ctr_decrypt clear_ctr]. unfold clear. rewrite decide_False; [reflexivity|].
    intros [_ H]. apply H. reflexivity.
  - reflexivity.
  - reflexivity.
  - reflexivity.
  - apply length_plain.
  - apply answer_clear.
  - split; [exact H0|]. exists s', e. split; [exact H1|exact H2].
Defined.
