(* ===== verification/FaceSuvm.v ===== *)
(** * The database of histograms in the pool

    The face verification server's enclave keeps its histograms in blocks of the
    pool, reached through the paging layer.  The pool is a store of values like
    ordinary memory is, so what is proved of the database over any store holds
    in the enclave, pages being evicted and brought back on the way.  First the
    worker as the enclave's [face_verification.cpp] has it. *)

From Stdlib Require Import SpecFloat.
From S2P Require Import Prelude CString Memory SyncUtils Ring Mem5 Mem5Inv Mem5Proofs Mem5Init Mem5Spec.
From S2P Require Import Suvm SuvmInv SuvmProofs SuvmThms Aptr AptrThms LibC LibCThms LibCBlocks.
From S2P Require Import FaceHash FaceHashThms FaceHashDb.
From S2P Require Import Lbp LbpThms FaceServer FaceServerThms FaceWorker.

(** ** The worker in the enclave

    [trusted/face_verification/face_verification.cpp] is built with
    [USE_SUVM]: histograms are kept in the pool, behind the paging layer, and a
    request that does not decrypt is answered all the same. *)

Section enclave.
Context `{Sgx} `{AesCtr}.

Definition hash_destroy : M (db suvm) unit := FaceHash.hash_destroy.
Definition hash_put : nat → list Z → list Z → bool → M (db suvm) unit := FaceHash.hash_put.
Definition do_one : list Z → list Z → M (db suvm) spec_float := FaceServer.do_one.
Definition workload_face_verification : M (server suvm) bool := workload_turn false.
End enclave.

#[local] Opaque EVICT_FUEL CACHE_CAPACITY PAGE_BYTES memsys5Malloc HISTOGRAM_LENGTH_BYTES.

(** A histogram takes a block of [2 ^ HIST_LOG] atoms, 64 pages. *)
Definition HIST_LOG : Z := 14.

Lemma hist_log : log_size 16 HISTOGRAM_LENGTH_BYTES = HIST_LOG.
Proof. vm_compute. reflexivity. Qed.
Lemma hist_bytes : HISTOGRAM_LENGTH_BYTES = 58 * 4096.
Proof. vm_compute. reflexivity. Qed.

(** ** Room for one more block *)

(** Every block is a histogram's. *)
Definition hist_blocks (B : gmap Z Z) : Prop := ∀ i k, B !! i = Some k → k = HIST_LOG ∧ (2 ^ HIST_LOG | i).

(** Fewer blocks than windows: a window is free. *)
Lemma hist_window B n :
  hist_blocks B → Z.of_nat (size B) < n / 2 ^ HIST_LOG → ∃ j, free_window B n HIST_LOG j.
Proof.
  intros HB Hlt. assert (0 ≤ HIST_LOG) as Hk by (unfold HIST_LOG; lia). pose proof (pow2_pos _ Hk).
  apply (covers_window B n HIST_LOG (set_map (λ i, i / 2 ^ HIST_LOG) (dom B))); [done| |].
  - intros i l w Hi H1 H2. apply elem_of_map. exists i. split; [|by apply elem_of_dom].
    destruct (HB i l Hi) as [-> [q ->]]. rewrite Z.div_mul by lia. nia.
  - eapply Z.le_lt_trans; [|exact Hlt]. apply inj_le. rewrite <- size_dom. apply set_map_size.
Qed.

Section store.
Context `{HS : Sgx, HL : !SgxLaws}.

(** The values [A] are in the pool, each in its block, whatever is cached and
    whatever is encrypted; there is room for [n] more. *)
Definition pool_values (s : suvm) (A : gmap Z (list Z)) (n : nat) : Prop :=
  ∃ h C V B, suvm_ok (HB := h) s C V [] ∧ owns h B ∧ in_blocks s B V ∧ pool_layout s ∧ hist_blocks B ∧
    (∀ p v, A !! p = Some v → ∃ i, p = g_base_pool_ptr s + 16 * i ∧ B !! i = Some HIST_LOG ∧
       holds_at V (16 * i) v ∧ Z.of_nat (length v) = HISTOGRAM_LENGTH_BYTES) ∧
    Z.of_nat (size B) + Z.of_nat n ≤ nBlock (mem5 (pool s)) / 2 ^ HIST_LOG.

Lemma pool_values_less s A n : pool_values s A (S n) → pool_values s A n.
Proof.
  intros (h & C & V & B & H1 & H2 & H3 & H4 & H5 & H6 & H7). exists h, C, V, B.
  do 6 (split; [done|]). lia.
Qed.

(** The blocks of the allocator, as ranges of positions. *)
Lemma hist_range (h : heap) s C V L B i :
  suvm_ok (HB := h) s C V L → pool_layout s → owns h B → B !! i = Some HIST_LOG →
  0 ≤ i ∧ i + 16384 ≤ nBlock (mem5 (pool s)) ∧ range_in_pool s (16 * i) HISTOGRAM_LENGTH_BYTES.
Proof.
  intros [(U & K & D & Hinv) _] Hl (fl & bl & Hi & <- & _) Hb. apply outstanding_lookup in Hb.
  pose proof (inv_mem5 _ _ _ _ _ _ _ _ _ _ Hinv) as Em. change (@pool_base h) with h in Em.
  destruct (inv_wf _ _ _ _ _ _ _ Hi Hb) as (_ & H0 & _ & Hn & _). rewrite <- Em in Hn.
  destruct Hl as [_ _ Hr Hint [Hp1 Hp2]]. change (2 ^ HIST_LOG) with 16384 in Hn. rewrite hist_bytes.
  unfold range_in_pool, PAGE_SIZE in *. lia.
Qed.

(** The pages a histogram is written to are of its block. *)
Lemma hist_page s i Q a :
  pool_layout s → (2 ^ HIST_LOG | i) → 16 * i ≤ Q ≤ 16 * i + HISTOGRAM_LENGTH_BYTES →
  in_page s (Q `div` PAGE_SIZE) a → in_block (mem5 (pool s)) i HIST_LOG a.
Proof.
  intros Hl [q ->] HQ Ha. unfold in_block. rewrite (layout_addr s) by done. destruct Hl as [-> _ _ _ _].
  rewrite hist_bytes in HQ. unfold in_page, PAGE_SIZE in *. change (2 ^ HIST_LOG) with 16384 in *.
  pose proof (Z.div_le_mono _ _ 4096 ltac:(lia) (proj1 HQ)) as H1.
  pose proof (Z.div_le_mono _ _ 4096 ltac:(lia) (proj2 HQ)) as H2.
  replace (16 * (q * 16384)) with ((q * 64) * 4096) in H1, H2 by lia.
  rewrite <- Z.mul_add_distr_r in H2. rewrite Z.div_mul in H1, H2 by lia. lia.
Qed.

(** A histogram written through a pointer made for its block. *)
Lemma copy_in_ok (h : heap) s C V B i v :
  suvm_ok (HB := h) s C V [] → pool_layout s → owns h B → B !! i = Some HIST_LOG →
  Z.of_nat (length v) = HISTOGRAM_LENGTH_BYTES →
  ∃ s' C' V', copy_in (g_base_pool_ptr s + 16 * i) v s = Ok (tt, s') ∧
    suvm_ok (HB := h) s' C' V' [] ∧ written V V' (16 * i) v ∧ same_static s s'.
Proof.
  intros Hok Hl Ho Hi Hv. destruct (hist_range h s C V [] B i Hok Hl Ho Hi) as (H0 & Hn & Hr).
  destruct Hl as [_ _ _ Hint [Hp1 Hp2]]. unfold PAGE_SIZE in Hint.
  destruct (Aptr_ctor_ok s (16 * i) HISTOGRAM_LENGTH_BYTES) as (p & Hctor & Hpt & _ & Hb & _ & Hoff);
    [by eapply suvm_geometry|lia|lia|].
  destruct (position_split (16 * i)) as [_ Hm].
  destruct (memmove_aptr_reg_ok (HB := h) s C V [] p None (16 * i) v Hok (Hpt C)) as
    (s1 & C1 & V1 & Hrun1 & Hok1 & Hw & Hst1).
  - rewrite Hoff. unfold PAGE_SIZE in *. lia.
  - rewrite Hb. apply Z.div_pos; unfold PAGE_SIZE; lia.
  - rewrite Hv, hist_bytes. lia.
  - by rewrite Hv.
  - by apply small_room_for.
  - destruct (release (HB := h) s1 C1 V1 [] p None (16 * i) Hok1) as (s2 & (p2 & Hrun2) & Hok2 & Hst2).
    { split; [apply Hpt|]. rewrite Hb. apply Z.div_pos; unfold PAGE_SIZE; lia. }
    exists s2, C1, V1. split; [|split; [done|split; [done|by eapply same_static_trans]]].
    rewrite Hv in Hrun1. cbn [copy_in suvm_store]. rewrite Hctor, (bind_Ok _ _ _ _ _ Hrun1), Hrun2. done.
Qed.

(** A histogram read through a pointer made for its block. *)
Lemma copy_out_run (h : heap) s C V B i v :
  suvm_ok (HB := h) s C V [] → pool_layout s → owns h B → B !! i = Some HIST_LOG →
  Z.of_nat (length v) = HISTOGRAM_LENGTH_BYTES → holds_at V (16 * i) v →
  ∃ s' C', copy_out (g_base_pool_ptr s + 16 * i) s = Ok (v, s') ∧
    suvm_ok (HB := h) s' C' V [] ∧ same_static s s'.
Proof.
  intros Hok Hl Ho Hi Hv Hat. destruct (hist_range h s C V [] B i Hok Hl Ho Hi) as (H0 & Hn & Hr).
  destruct (cursor_new (HB := h) s C V [] (16 * i) HISTOGRAM_LENGTH_BYTES Hok Hr) as (p & Hctor & Hh & Hc).
  { rewrite hist_bytes. lia. }
  assert (set_hint false p = p) as Ep.
  { destruct p as [[] ? ?]. unfold set_hint in *. simpl in *. by rewrite Hh. }
  specialize (Hc C false). rewrite Ep in Hc.
  set (b := replicate (Z.to_nat HISTOGRAM_LENGTH_BYTES) 0).
  assert (length b = length v) as Eb.
  { unfold b. rewrite length_replicate, <- Hv. lia. }
  destruct (memmove_reg_aptr_ok (HB := h) s C V [] p None (16 * i) v b Hok Hc Hh Hat) as
    (s1 & C1 & p1 & o1 & P1 & Hrun1 & Hok1 & Hc1 & _ & Hst1).
  - by rewrite Eb.
  - rewrite Hv, hist_bytes. lia.
  - by rewrite Hv.
  - by apply small_room_for.
  - destruct (release (HB := h) s1 C1 V [] p1 o1 P1 Hok1 Hc1) as (s2 & (p2 & Hrun2) & Hok2 & Hst2).
    exists s2, C1. split; [|split; [done|by eapply same_static_trans]].
    rewrite Hv in Hrun1. cbn [copy_out suvm_store]. rewrite Hctor. fold b.
    rewrite (bind_Ok _ _ _ _ _ Hrun1). cbn [fst snd]. rewrite Hrun2.
    rewrite drop_ge by lia. by rewrite app_nil_r.
Qed.

(** The allocator's record through paging. *)
Lemma mem5_same (h : heap) s s' C V L C' V' L' :
  suvm_ok (HB := h) s C V L → suvm_ok (HB := h) s' C' V' L' → mem5 (pool s') = mem5 (pool s).
Proof.
  intros [(U & K & D & Hi) _] [(U' & K' & D' & Hi') _].
  by rewrite (inv_mem5 _ _ _ _ _ _ _ _ _ _ Hi), (inv_mem5 _ _ _ _ _ _ _ _ _ _ Hi').
Qed.

Lemma in_blocks_static (h : heap) s s' C V L C' V' L' B W :
  suvm_ok (HB := h) s C V L → suvm_ok (HB := h) s' C' V' L' → same_static s s' →
  in_blocks s B W → in_blocks s' B W.
Proof.
  intros H1 H2 (E & _) Hin p HW. destruct (Hin p HW) as (i & k & Hi & Hb). exists i, k. split; [exact Hi|].
  rewrite (mem5_same h s s' C V L C' V' L' H1 H2). unfold in_page. by rewrite E.
Qed.

(** Disjoint blocks, as positions. *)
Lemma hist_disjoint (B : gmap Z Z) n i j :
  free_window B n HIST_LOG i → B !! j = Some HIST_LOG → 16 * j + HISTOGRAM_LENGTH_BYTES ≤ 16 * i ∨
    16 * i + HISTOGRAM_LENGTH_BYTES ≤ 16 * j.
Proof.
  intros (_ & _ & _ & Hd) Hj. specialize (Hd j HIST_LOG Hj). change (2 ^ HIST_LOG) with 16384 in Hd.
  rewrite hist_bytes. lia.
Qed.

Lemma alloc_ok s A n :
  pool_values s A (S n) →
  ∃ i h C V B, alloc_value s = Ok (g_base_pool_ptr s + 16 * i, set_pool s h) ∧ B !! i = None ∧
    suvm_ok (HB := h) (set_pool s h) C V [] ∧ owns h (<[i := HIST_LOG]> B) ∧
    in_blocks (set_pool s h) (<[i := HIST_LOG]> B) V ∧ pool_layout (set_pool s h) ∧
    hist_blocks (<[i := HIST_LOG]> B) ∧ free_window B (nBlock (mem5 h)) HIST_LOG i ∧
    (∀ p v, A !! p = Some v → ∃ j, p = g_base_pool_ptr s + 16 * j ∧ B !! j = Some HIST_LOG ∧
       holds_at V (16 * j) v ∧ Z.of_nat (length v) = HISTOGRAM_LENGTH_BYTES) ∧
    Z.of_nat (size (<[i := HIST_LOG]> B)) + Z.of_nat n ≤ nBlock (mem5 h) / 2 ^ HIST_LOG.
Proof.
  intros (h0 & C & V & B & Hok & Ho & Hin & Hl & HB & HA & Hn).
  destruct (paging_malloc h0 s C V [] B HISTOGRAM_LENGTH_BYTES Hok Ho Hin) as
    [[_ Hno]|(i & h & Hrun & Hw & Ho' & Hok' & Hin' & Hgeo)]; [by rewrite hist_bytes| |].
  - rewrite (lay_atom _ Hl), hist_log in Hno.
    destruct (hist_window B (nBlock (mem5 (pool s))) HB) as [j Hj]; [lia|by destruct (Hno j)].
  - rewrite (lay_atom _ Hl), hist_log in Hw, Ho', Hin'. rewrite (layout_addr s i Hl) in Hrun.
    assert (B !! i = None) as HBi.
    { destruct (B !! i) as [k|] eqn:E; [|done]. destruct (HB i k E) as [-> _]. destruct Hw as (_ & _ & _ & Hd).
      specialize (Hd i HIST_LOG E). change (2 ^ HIST_LOG) with 16384 in Hd. lia. }
    exists i, h, C, V, B. split; [|split; [exact HBi|]].
    { cbn [alloc_value suvm_store]. unfold on_pool, zoom. by rewrite Hrun. }
    do 3 (split; [done|]). split; [by apply layout_geo|].
    destruct Hgeo as (_ & -> & _). split; [|split; [exact Hw|split; [exact HA|]]].
    + intros j k. rewrite lookup_insert_Some. intros [[<- <-]|[_ Hj]]; [|by apply HB]. split; [done|apply Hw].
    + rewrite map_size_insert, HBi. simpl. lia.
Qed.

#[export] Program Instance suvm_laws : ValueLaws suvm := { stored_values := pool_values }.
Next Obligation. apply pool_values_less. Qed.
Next Obligation.
  intros s A n v Hs Hv Hu.
  destruct (alloc_ok s A n Hs) as (i & h & C & V & B & Hrun & HBi & Hok & Ho & Hin & Hl & HB & Hw & HA & Hn).
  set (s1 := set_pool s h) in *.
  destruct (copy_in_ok h s1 C V _ i v Hok Hl Ho (lookup_insert_eq _ _ _) Hv) as (s2 & C2 & V2 & Hcopy & Hok2 & Hwr & Hst).
  destruct (lay_ptr _ Hl) as [Hpos _]. change (g_base_pool_ptr s1) with (g_base_pool_ptr s) in *.
  exists (g_base_pool_ptr s + 16 * i), s1, s2. split; [exact Hrun|]. split; [exact Hcopy|].
  split; [destruct Hw; lia|]. split.
  { destruct (A !! _) as [w|] eqn:E; [|done]. destruct (HA _ _ E) as (j & Ej & HBj & _).
    replace j with i in HBj by lia. congruence. }
  exists h, C2, V2, (<[i := HIST_LOG]> B). pose proof Hst as (Eb & _). change (g_base_pool_ptr s1) with (g_base_pool_ptr s) in Eb.
  split; [exact Hok2|]. split; [exact Ho|]. split; [|split; [exact (layout_static h s1 s2 _ _ _ _ _ _ Hok Hok2 Hst Hl)|split; [exact HB|split]]].
  - intros p HVp. destruct (written_pages _ _ _ _ Hwr p HVp) as [HV|(Q & HQ & ->)].
    + apply (in_blocks_static h s1 s2 C V [] C2 V2 [] _ V Hok Hok2 Hst Hin p HV).
    + exists i, HIST_LOG. split; [apply lookup_insert_eq|]. intros a Ha.
      apply (hist_page s2 i Q a); [exact (layout_static h s1 s2 _ _ _ _ _ _ Hok Hok2 Hst Hl)|by apply (HB i HIST_LOG), lookup_insert_eq| |done].
      rewrite Hv in HQ. rewrite hist_bytes in *. lia.
  - intros p w. rewrite lookup_insert_Some, Eb. intros [[<- <-]|[_ Hp]].
    + exists i. split; [done|]. split; [apply lookup_insert_eq|]. split; [by eapply written_holds|done].
    + destruct (HA p w Hp) as (j & -> & HBj & Hw' & Hlw). exists j. split; [done|].
      split; [rewrite lookup_insert_ne; [done|congruence]|]. split; [|done].
      eapply holds_written; [exact Hwr|exact Hw'|]. rewrite Hv, Hlw. by eapply hist_disjoint.
  - rewrite (mem5_same h s1 s2 C V [] C2 V2 [] Hok Hok2). exact Hn.
Qed.
Next Obligation.
  intros s A n p v (h & C & V & B & Hok & Ho & Hin & Hl & HB & HA & Hn) Hp.
  destruct (HA p v Hp) as (i & -> & HBi & Hat & Hv).
  destruct (copy_out_run h s C V B i v Hok Hl Ho HBi Hv Hat) as (s' & C' & Hrun & Hok' & Hst).
  exists s'. split; [exact Hrun|]. exists h, C', V, B. split; [exact Hok'|]. split; [exact Ho|].
  split; [exact (in_blocks_static h s s' _ _ _ _ _ _ B V Hok Hok' Hst Hin)|].
  split; [exact (layout_static h s s' _ _ _ _ _ _ Hok Hok' Hst Hl)|]. split; [exact HB|].
  destruct Hst as (-> & _). split; [exact HA|]. by rewrite (mem5_same h s s' C V [] C' V [] Hok Hok').
Qed.

(** A library just initialised stores nothing and has room for as many
    histograms as there are windows. *)
Lemma ready_values s n :
  pool_ready s → Z.of_nat n ≤ nBlock (mem5 (pool s)) / 2 ^ HIST_LOG → pool_values s ∅ n.
Proof.
  intros [Hok Ho Hl] Hn. exists (pool s), ∅, ∅, ∅. split; [exact Hok|]. split; [exact Ho|]. split.
  { intros p [b Hb]. by rewrite lookup_empty in Hb. }
  split; [exact Hl|]. split; [intros i k Hi; by rewrite lookup_empty in Hi|]. split.
  { intros p v Hp. by rewrite lookup_empty in Hp. }
  rewrite map_size_empty. lia.
Qed.
End store.

Section server.
Context `{HS : Sgx, HL : !SgxLaws}.

(** Requests as the worker has them decrypted: a histogram and a name. *)
Definition query : Type := list Z * list Z.

Lemma queries_ok d m n (qs : list query) :
  db_ok d m n → Forall (λ q, is_Some (cstr q.2)) qs →
  ∃ d', mapM (λ q, FaceSuvm.do_one q.1 q.2) qs d =
      Ok ((λ q, histogram_distance q.1 (saved_histogram m (default [] (cstr q.2)))) <$> qs, d') ∧ db_ok d' m n.
Proof.
  intros Hd Hqs. revert d Hd. induction Hqs as [|q qs [k Hk] Hqs IH]; intros d Hd; [by exists d|].
  destruct (do_one_ok d m n q.2 k q.1 Hd Hk) as (d1 & Hrun & Hd1).
  destruct (IH d1 Hd1) as (d2 & Hrun2 & Hd2). exists d2. split; [|exact Hd2].
  cbn [mapM fmap list_fmap]. unfold FaceSuvm.do_one in *. rewrite (bind_Ok _ _ _ _ _ Hrun).
  rewrite (bind_Ok _ _ _ _ _ Hrun2), Hk. done.
Qed.

(** C12. The face verification server in the enclave, from end to end: the
    library is initialised on a fresh enclave, the database is filled from a
    directory into blocks of the pool, and requests are answered, any number of
    them in any order. Each distance is the one to the histogram of the name's
    first image (the empty one, for an unknown name), whichever of the pages
    that hold it had been evicted, encrypted and brought back in between; and
    the database stays what the directory says, so that the exchange with a
    client is answered from it. *)
Theorem enclave_answers_queries s ptr_pool pool_size slab_ptr h0 p1 p2 p3 ok dir fs (qs : list query) :
  fresh s → library_fits ptr_pool pool_size → PAGE_SIZE ≤ slab_ptr < 2 ^ 62 →
  2 * Z.of_nat (length fs) ≤ pool_blocks pool_size MN_REQ / 2 ^ HIST_LOG →
  Forall2 reads_as dir fs → Z.of_nat (length fs) ≤ 1024 → p1 ≠ 0 → p2 ≠ 0 → p3 ≠ 0 →
  Forall (λ q, is_Some (cstr q.2)) qs →
  let m := (directory_spec fs).2 in
  ∃ s1 d d', initialize_aptr ptr_pool pool_size true true slab_ptr 0 s = Ok (0, s1) ∧
    face_verification_prepare_server p1 p2 p3 ok (Some dir) (mkDb h0 s1) = Ok (tt, d) ∧
    mapM (λ q, FaceSuvm.do_one q.1 q.2) qs d =
      Ok ((λ q, histogram_distance q.1 (saved_histogram m (default [] (cstr q.2)))) <$> qs, d') ∧
    db_ok d' m 0.
Proof.
  intros Hs Hfit Hslab Hroom HF Hn H1 H2 H3 Hqs m.
  destruct (initialize_ready s ptr_pool pool_size slab_ptr Hs Hfit Hslab) as (s1 & Hrun1 & Hready & Hnb).
  destruct (prepare_server_correct s1 ∅ h0 ok dir fs p1 p2 p3 HF Hn) as (d & Hrun2 & Hd); [|done..|].
  { apply (ready_values s1); [exact Hready|]. rewrite Hnb. lia. }
  destruct (queries_ok d m 0 qs Hd Hqs) as (d' & Hrun3 & Hd'). by exists s1, d, d'.
Qed.
End server.

(** A pool of a megabyte has room for the histograms of one image. *)
Lemma enclave_answers_queries_witness :
  ∃ h s1 d d', calc_histogram black create_pattern2bin = Some h ∧
    initialize_aptr 65536 1048576 true true 8200 0 blank = Ok (0, s1) ∧
    face_verification_prepare_server 64 128 192 false (Some one_file) (mkDb initial_table s1) = Ok (tt, d) ∧
    mapM (λ q, FaceSuvm.do_one q.1 q.2) [(h, [55; 48; 0]); (h, [56; 0])] d =
      Ok ([histogram_distance h (ints_of_bytes (bytes_of_ints h)); histogram_distance h empty_hist], d').
Proof.
  destruct one_file_reads as (h & Hrun & HF).
  destruct (enclave_answers_queries blank 65536 1048576 8200 initial_table 64 128 192 false one_file
    [Some (mkFile [55] 7 h)] [(h, [55; 48; 0]); (h, [56; 0])]) as (s1 & d & d' & H1 & H2 & H3 & _).
  - split; [reflexivity|]. split; reflexivity.
  - split; [|split; [lia|split; vm_compute; congruence]].
    split; [reflexivity|]. split; [vm_compute; congruence|]. split; vm_compute; congruence.
  - unfold PAGE_SIZE. lia.
  - vm_compute. congruence.
  - exact HF.
  - simpl. lia.
  - lia.
  - lia.
  - lia.
  - constructor; [by exists [55; 48]|]. constructor; [by exists [56]|constructor].
  - exists h, s1, d, d'. split; [exact Hrun|]. split; [exact H1|]. split; [exact H2|exact H3].
Defined.
