(* ===== verification/FaceProcess.v ===== *)
(** * The face verification server in an ordinary process

    [untrusted/face_verification/face_verification.cpp] is a copy of the
    enclave's file for comparison: histograms are kept in ordinary memory and
    failures of the cipher end the process.  What the two files have in common
    is modelled once, in [FaceHash], [Lbp] and [FaceServer]; here is this
    file's own instance of each routine. *)

From Stdlib Require Import SpecFloat.
From S2P Require Import Prelude CString FaceHash Lbp FaceServer.

(** ** The hash table over ordinary memory *)

Definition my_malloc : Z → M native Z := FaceHash.my_malloc.
Definition my_realloc : Z → Z → Z → M native Z := FaceHash.my_realloc.
Definition hash_function : list Z → Z → option Z := FaceHash.hash_function.
Definition hash_init : Z → M (db native) unit := FaceHash.hash_init.
Definition hash_destroy : M (db native) unit := FaceHash.hash_destroy.
Definition hash_put : nat → list Z → list Z → bool → M (db native) unit := FaceHash.hash_put.
Definition hash_get : hash_t → list Z → M (db native) Z := FaceHash.hash_get.

(** ** Histograms *)

Definition get_pattern : list Z → Z → Z → option Z := Lbp.get_pattern.
Definition is_pattern_uniform : Z → bool := Lbp.is_pattern_uniform.
Definition rotate : Z → Z → Z := Lbp.rotate.
Definition create_pattern2bin : list Z := Lbp.create_pattern2bin.
Definition histogram_distance : list Z → list Z → spec_float := Lbp.histogram_distance.
Definition calc_histogram : list Z → list Z → option (list Z) := Lbp.calc_histogram.

(** ** The server *)

Definition do_one : list Z → list Z → M (db native) spec_float := FaceServer.do_one.
Definition populate_database :
    Z → Z → bool → option (list dirent) → list Z → M (db native) Z := FaceServer.populate_database.
Definition face_verification_prepare_server :
    Z → Z → Z → bool → option (list dirent) → M (db native) unit :=
  FaceServer.face_verification_prepare_server.

(** The ordinary process ends where a request does not decrypt. *)
Definition workload_face_verification `{AesCtr} : M (server native) bool := workload_turn true.
