(* ===== verification/SafeMem.v ===== *)
(** * [memset_s] and [consttime_memequal]

    The two routines of the SDK's C library that the untrusted programs define
    again for themselves.  [consttime_memequal] decides equality without a
    branch on the data, by arithmetic on the bits that differ. *)

From S2P Require Import Prelude.

(** ** Clearing memory *)

(** The bytes from the pointer on, and [errno]. *)
Record mem_t := mkMem { cells : list Z; errno : Z }.
Definition set_cells c (s : mem_t) := mkMem c (errno s).
Definition set_errno e (s : mem_t) := mkMem (cells s) e.

Definition EINVAL : Z := 22.
Definition EOVERFLOW : Z := 75.

(** The standard [memset]. *)
Definition memset (c n : Z) : M mem_t unit :=
  b ← gets cells;
  if n <=? Z.of_nat (length b)
  then modify (set_cells (replicate (Z.to_nat n) (u8 c) ++ drop (Z.to_nat n) b))
  else fail EUndef.

Definition memset_s (s smax c n : Z) : M mem_t Z :=
  err ← (if s =? 0 then mret EINVAL
         else
           let '(err, n) := if smax <? n then (EOVERFLOW, smax) else (0, n) in
           memset c n;;
           mret err);
  if err =? 0 then mret 0
  else
    modify (set_errno err);;
    mret err.

(** ** Comparing memory *)

(** [while (len--) res |= *c1++ ^ *c2++] *)
Fixpoint memequal_loop (len : nat) (c1 c2 : list Z) (res : Z) : option Z :=
  match len, c1, c2 with
  | O, _, _ => Some res
  | S len', x :: c1', y :: c2' => memequal_loop len' c1' c2' (Z.lor res (Z.lxor x y))
  | _, _, _ => None
  end.

Definition consttime_memequal (b1 b2 : list Z) (len : Z) : option Z :=
  res ← memequal_loop (Z.to_nat len) b1 b2 0;
  Some (Z.land 1 (Z.shiftr (u32 (res - 1)) 8)).

(** ** Their promises *)

Definition byte (x : Z) : Prop := 0 ≤ x < 256.

Lemma byte_bits x : byte x ↔ 0 ≤ x ∧ ∀ i, 8 ≤ i → Z.testbit x i = false.
Proof.
  split.
  - intros [H1 H2]. split; [done|]. intros i Hi. apply Z.bits_above_log2; [done|].
    destruct (decide (x = 0)) as [->|]; [simpl; lia|].
    assert (Z.log2 x < 8); [|lia]. apply Z.log2_lt_pow2; lia.
  - intros [H1 H2]. split; [done|]. destruct (Z.ltb_spec x 256) as [|H]; [done|].
    assert (8 ≤ Z.log2 x) as Hl by (apply Z.log2_le_pow2; lia).
    pose proof (H2 (Z.log2 x) Hl) as Hb. rewrite Z.bit_log2 in Hb by lia. done.
Qed.

Lemma byte_lor_lxor r x y : byte r → byte x → byte y → byte (Z.lor r (Z.lxor x y)).
Proof.
  rewrite !byte_bits. intros [H1 H2] [H3 H4] [H5 H6]. split.
  - apply Z.lor_nonneg. split; [done|]. by apply Z.lxor_nonneg.
  - intros i Hi. by rewrite Z.lor_spec, Z.lxor_spec, H2, H4, H6.
Qed.

(** The accumulated bits are zero exactly if no byte differed. *)
Lemma memequal_loop_ok len c1 c2 res :
  (len ≤ length c1)%nat → (len ≤ length c2)%nat → Forall byte c1 → Forall byte c2 → byte res →
  ∃ r, memequal_loop len c1 c2 res = Some r ∧ byte r ∧ (r = 0 ↔ res = 0 ∧ take len c1 = take len c2).
Proof.
  revert c1 c2 res. induction len as [|len IH]; intros c1 c2 res H1 H2 F1 F2 Hr.
  { exists res. simpl. naive_solver. }
  destruct c1 as [|x c1], c2 as [|y c2]; simpl in H1, H2; try lia.
  apply Forall_cons in F1 as [Hx F1]. apply Forall_cons in F2 as [Hy F2]. cbn [memequal_loop take].
  destruct (IH c1 c2 (Z.lor res (Z.lxor x y))) as (r & Hrun & Hb & Hiff); try done; [lia|lia|by apply byte_lor_lxor|].
  exists r. split; [done|]. split; [done|]. rewrite Hiff, Z.lor_eq_0_iff, Z.lxor_eq_0_iff.
  split; [by intros [[-> ->] ->]|by intros [-> [= -> ->]]].
Qed.

(** The comparison in constant time: on two arrays of bytes at least [len]
    long, [consttime_memequal] returns 1 if their first [len] bytes are equal
    and 0 if they are not. *)
Theorem consttime_memequal_correct b1 b2 len :
  0 ≤ len ≤ Z.of_nat (length b1) → len ≤ Z.of_nat (length b2) → Forall byte b1 → Forall byte b2 →
  consttime_memequal b1 b2 len =
    Some (if decide (take (Z.to_nat len) b1 = take (Z.to_nat len) b2) then 1 else 0).
Proof.
  intros H1 H2 F1 F2. unfold consttime_memequal.
  destruct (memequal_loop_ok (Z.to_nat len) b1 b2 0) as (r & -> & Hb & Hiff); try done; [lia|lia|].
  cbn [mbind option_bind]. f_equal. case_decide as He.
  - assert (r = 0) as -> by naive_solver. reflexivity.
  - destruct Hb. assert (r ≠ 0) by naive_solver.
    rewrite u32_id by lia. rewrite Z.shiftr_div_pow2, Z.div_small by lia. reflexivity.
Qed.

Lemma consttime_memequal_correct_witness :
  consttime_memequal [1; 2; 3] [1; 2; 4] 2 = Some 1 ∧ consttime_memequal [1; 2; 3] [1; 2; 4] 3 = Some 0.
Proof.
  assert (Forall byte [1; 2; 3] ∧ Forall byte [1; 2; 4]) as [H1 H2].
  { split; repeat constructor; lia. }
  split; [rewrite (consttime_memequal_correct [1; 2; 3] [1; 2; 4] 2)
         |rewrite (consttime_memequal_correct [1; 2; 3] [1; 2; 4] 3)];
    try reflexivity; try assumption; simpl; lia.
Defined.

(** Clearing memory: [memset_s] writes the byte [c] to the first [n] bytes,
    or to the first [smax] where [n] is larger, which it reports, and to nothing
    after them; a null pointer it reports and writes nothing. *)
Theorem memset_s_correct s smax c n b e :
  0 ≤ n → 0 ≤ smax → Z.min n smax ≤ Z.of_nat (length b) →
  ∃ b' e', memset_s s smax c n (mkMem b e) =
      Ok (if s =? 0 then EINVAL else if smax <? n then EOVERFLOW else 0, mkMem b' e') ∧
    length b' = length b ∧
    e' = (if s =? 0 then EINVAL else if smax <? n then EOVERFLOW else e) ∧
    ∀ i, b' !! i = if negb (s =? 0) && (Z.of_nat i <? Z.min n smax) then Some (u8 c) else b !! i.
Proof.
  intros Hn Hs Hl. unfold memset_s. destruct (Z.eqb_spec s 0); [by exists b, EINVAL|].
  set (k := Z.min n smax) in *.
  assert ((if smax <? n then (EOVERFLOW, smax) else (0, n)) = (if smax <? n then EOVERFLOW else 0, k)) as ->.
  { unfold k. destruct (Z.ltb_spec smax n); f_equal; lia. }
  exists (replicate (Z.to_nat k) (u8 c) ++ drop (Z.to_nat k) b), (if smax <? n then EOVERFLOW else e).
  split; [|split; [rewrite length_app, length_replicate, length_drop; lia|split; [done|]]].
  - cbv zeta beta. rewrite bind_assoc. unfold memset. rewrite bind_assoc, bind_gets. cbn [cells].
    rewrite (proj2 (Z.leb_le _ _)) by done. rewrite bind_modify, bind_ret. unfold set_cells. cbn [errno].
    destruct (smax <? n); reflexivity.
  - intros i. cbn [negb andb]. destruct (Z.ltb_spec (Z.of_nat i) k).
    + rewrite lookup_app_l by (rewrite length_replicate; lia). apply lookup_replicate_2. lia.
    + rewrite lookup_app_r, length_replicate, lookup_drop by (rewrite length_replicate; lia). f_equal. lia.
Qed.

Lemma memset_s_correct_witness :
  ∃ b' e', memset_s 64 2 7 5 (mkMem [1; 2; 3] 0) = Ok (EOVERFLOW, mkMem b' e') ∧
    b' !! 1%nat = Some 7 ∧ b' !! 2%nat = Some 3.
Proof.
  destruct (memset_s_correct 64 2 7 5 [1; 2; 3] 0) as (b' & e' & H1 & _ & _ & H2); [lia|lia|simpl; lia|].
  exists b', e'. split; [exact H1|]. rewrite !H2. split; reflexivity.
Defined.
