(* ===== verification/GenHash.v ===== *)
(** * The workload generator's hash map

    Models the map of [generate_encrypted_dataset.c]: open addressing with
    linear probing, a table that doubles when it is half full, values of any
    size appended to one buffer that doubles when it is full, and offsets into
    the buffer kept in the table. *)

From S2P Require Import Prelude CString FaceHash FaceServer.

(** ** Data *)

(** [value_offset] is negative in an empty slot. *)
Record hashmap_entry_t := mkHEntry { hkey : list Z; value_offset : Z; value_size : Z }.
Definition sizeof_entry : Z := 56.

Record hashmap_t := mkHashmap {
  index : list hashmap_entry_t;
  buffer : list Z;
  current_offset : Z;
  map_size : Z;                       (* total_size *)
  map_entries : Z;                    (* nentries *)
  map_buckets : Z                     (* nbuckets *)
}.
Definition set_index l n (m : hashmap_t) :=
  mkHashmap l (buffer m) (current_offset m) (map_size m) (map_entries m) n.
Definition set_buffer b n (m : hashmap_t) :=
  mkHashmap (index m) b (current_offset m) n (map_entries m) (map_buckets m).
Definition set_offset o (m : hashmap_t) :=
  mkHashmap (index m) (buffer m) o (map_size m) (map_entries m) (map_buckets m).
Definition set_entries n (m : hashmap_t) :=
  mkHashmap (index m) (buffer m) (current_offset m) (map_size m) n (map_buckets m).

(** The map and the number of calls of [malloc] so far. *)
Record gen := mkGen { hmap : hashmap_t; calls : nat }.
Definition on_map (f : hashmap_t → hashmap_t) : M gen unit := modify (λ s, mkGen (f (hmap s)) (calls s)).

(** ** Searching *)

Definition hentry_at {T} (l : list hashmap_entry_t) (idx : Z) : M T hashmap_entry_t :=
  if idx <? 0 then fail EUndef else defined (l !! Z.to_nat idx).

(** [int hash = hash_function(key, n)] and [(idx + 1) % n]. *)
Definition slot_of {T} (key : list Z) (n : Z) : M T Z :=
  hash ← defined (hash_function key (i32 n)); mret (i32 hash).
Definition next_slot (n idx : Z) : Z := i32 (u64 (idx + 1) mod n).

(** The offset and the size of the value, if there is one. *)
Fixpoint hget_loop {T} (fuel : nat) (m : hashmap_t) (k : list Z) (hash idx : Z) : M T (option (Z * Z)) :=
  match fuel with
  | O => fail EFuel
  | S fuel' =>
      e ← hentry_at (index m) idx;
      found ← (if 0 <=? value_offset e then defined (strcmp_eq k (hkey e)) else mret false);
      if (found : bool) then mret (Some (value_offset e, value_size e))
      else
        let idx := next_slot (map_buckets m) idx in
        if negb (idx =? hash) && (0 <=? value_offset e) then hget_loop fuel' m k hash idx
        else mret None
  end.

Definition hashmap_get {T} (m : hashmap_t) (k : list Z) : M T (option (Z * Z)) :=
  hash ← slot_of k (map_buckets m);
  hget_loop (length (index m)) m k hash hash.

(** [while ((m->index[idx].value_offset >= 0) && strcmp(m->index[idx].key, key))] *)
Fixpoint hput_loop {T} (fuel : nat) (l : list hashmap_entry_t) (n : Z) (k : list Z) (idx : Z) : M T Z :=
  match fuel with
  | O => fail EFuel
  | S fuel' =>
      e ← hentry_at l idx;
      if value_offset e <? 0 then mret idx
      else
        same ← defined (strcmp_eq (hkey e) k);
        if (same : bool) then mret idx else hput_loop fuel' l n k (next_slot n idx)
  end.

(** [while (new_index[hash].value_offset >= 0)] *)
Fixpoint free_loop {T} (fuel : nat) (l : list hashmap_entry_t) (n : Z) (idx : Z) : M T Z :=
  match fuel with
  | O => fail EFuel
  | S fuel' =>
      e ← hentry_at l idx;
      if value_offset e <? 0 then mret idx else free_loop fuel' l n (next_slot n idx)
  end.

(** ** Operations *)

Section operations.

(** What the [n]-th call of [malloc] finds: no memory, or a block with the bytes
    it happens to hold. *)
Variable mem : nat → option (Z → Z).

(** Out of memory the process ends. *)
Definition gen_malloc : M gen (Z → Z) :=
  n ← gets calls;
  modify (λ s, mkGen (hmap s) (S n));;
  match mem n with None => fail EAbort | Some g => mret g end.

Definition gen_realloc (ptr : list Z) (old_size new_size : Z) : M gen (list Z) :=
  _ ← gen_malloc;
  if (old_size <=? Z.of_nat (length ptr)) && (old_size <=? new_size)
  then mret (take (Z.to_nat old_size) ptr ++ replicate (Z.to_nat (new_size - old_size)) 0)
  else fail EUndef.

(** A table of [n] entries in a fresh block, after the loop that empties it. *)
Definition fresh_entry (g : Z → Z) (i : Z) : hashmap_entry_t :=
  let b j := u8 (g (sizeof_entry * i + j)) in
  mkHEntry (b <$> seqZ 0 40) (-1) (int_of_bytes (b 48) (b 49) (b 50) (b 51)).
Definition fresh_index (g : Z → Z) (n : Z) : list hashmap_entry_t := fresh_entry g <$> seqZ 0 n.

Definition hashmap_init : M gen unit :=
  let nbuckets_initial := 128 in
  let buffer_size_initial := 1024 in
  g ← gen_malloc;
  b ← gen_malloc;
  on_map (λ _, mkHashmap (fresh_index g nbuckets_initial)
    ((λ j, u8 (b j)) <$> seqZ 0 buffer_size_initial) 0 buffer_size_initial 0 nbuckets_initial).

Definition hashmap_destroy : M gen unit :=
  on_map (λ m, set_buffer [] (map_size m) (set_index [] (map_buckets m) m)).

(** The entries of the old table, from slot [i] on, into the new one. *)
Fixpoint rehash_loop (n : nat) (i : Z) (old new_index : list hashmap_entry_t) (nbuckets_new : Z)
    : M gen (list hashmap_entry_t) :=
  match n with
  | O => mret new_index
  | S n' =>
      e ← hentry_at old i;
      new_index ←
        (if value_offset e <? 0 then mret new_index
         else
           hash ← slot_of (hkey e) nbuckets_new;
           hash ← free_loop (length new_index) new_index nbuckets_new hash;
           d ← hentry_at new_index hash;
           k ← defined (strcpy 40 (hkey d) (hkey e));
           mret (<[Z.to_nat hash := mkHEntry k (value_offset e) (value_size e)]> new_index));
      rehash_loop n' (i + 1) old new_index nbuckets_new
  end.

Definition hashmap_rehash : M gen unit :=
  m ← gets hmap;
  if u64 (map_entries m * 2) <? map_buckets m then mret tt
  else
    let nbuckets_new := u64 (2 * map_buckets m) in
    g ← gen_malloc;
    new_index ← rehash_loop (Z.to_nat (map_buckets m)) 0 (index m) (fresh_index g nbuckets_new) nbuckets_new;
    on_map (set_index new_index nbuckets_new).

(** [while (m->current_offset + size > m->total_size)] *)
Fixpoint grow_loop (fuel : nat) (size : Z) : M gen unit :=
  match fuel with
  | O => fail EFuel
  | S fuel' =>
      m ← gets hmap;
      if map_size m <? u64 (current_offset m + size) then
        b ← gen_realloc (buffer m) (map_size m) (u64 (map_size m * 2));
        on_map (set_buffer b (u64 (map_size m * 2)));;
        grow_loop fuel' size
      else mret tt
  end.

(** [memcpy] of [size] bytes of [val] to offset [off]. *)
Definition write_at (b : list Z) (off size : Z) (val : list Z) : option (list Z) :=
  if (0 <=? off) && (0 <=? size) && (size <=? Z.of_nat (length val)) && (off + size <=? Z.of_nat (length b))
  then Some (patch b off (take (Z.to_nat size) val)) else None.

(** The size of the buffer is a [size_t]: 64 doublings are more than there are. *)
Definition hashmap_put (k val : list Z) (size : Z) (override : bool) : M gen unit :=
  m ← gets hmap;
  old_val ← hashmap_get m k;
  if (match old_val with Some _ => true | None => false end) && negb override then mret tt
  else
    (if map_buckets m <? u64 (u64 (map_entries m + 1) * 2) then hashmap_rehash else mret tt);;
    grow_loop 64 size;;
    m ← gets hmap;
    b ← defined (write_at (buffer m) (current_offset m) size val);
    on_map (set_buffer b (map_size m));;
    hash ← slot_of k (map_buckets m);
    idx ← hput_loop (length (index m)) (index m) (map_buckets m) k hash;
    e ← hentry_at (index m) idx;
    dest ← defined (strcpy 40 (hkey e) k);
    on_map (set_index (<[Z.to_nat idx := mkHEntry dest (current_offset m) size]> (index m)) (map_buckets m));;
    on_map (set_offset (i64 (current_offset m + size)));;
    on_map (set_entries (u64 (map_entries m + 1))).
End operations.
