(* ===== verification/GenHashThms.v ===== *)
(** * The generator's hash map is a map

    Rehashing keeps what the table says, the buffer grows without losing a
    byte, and any run of [hashmap_put]s is a run of insertions into a finite map
    from names to byte strings.  The invariant of the table and its searches come
    first. *)

From S2P Require Import Prelude CString Probe FaceHash FaceHashThms FaceServer GenHash.

(** ** The table

    The invariant of the table, what the three searches do in it, and moving the
    entries into a table of another size. *)

(** The name in slot [i], if the slot is taken. *)
Definition hslot (l : list hashmap_entry_t) (i : Z) : option (list Z) :=
  e ← l !! Z.to_nat i; if value_offset e <? 0 then None else cstr (hkey e).

Definition place (e : hashmap_entry_t) : Z * Z := (value_offset e, value_size e).

(** The entries among the first [b] slots that hold a name. *)
Definition names (l : list hashmap_entry_t) (b : nat) (k : list Z) (x : Z * Z) : Prop :=
  ∃ i e, (i < b)%nat ∧ l !! i = Some e ∧ 0 ≤ value_offset e ∧ cstr (hkey e) = Some k ∧ x = place e.

(** [L] maps the names in a table of [n] slots to where their values are. *)
Record locates (l : list hashmap_entry_t) (n : Z) (L : gmap (list Z) (Z * Z)) : Prop := {
  loc_size : Z.of_nat (length l) = n ∧ 0 < n < 2 ^ 31;
  loc_keys : ∀ e, e ∈ l → length (hkey e) = 40%nat ∧ (0 ≤ value_offset e → is_Some (cstr (hkey e)));
  loc_placed : placed n (home n) (hslot l);
  loc_map : ∀ k x, L !! k = Some x ↔ names l (length l) k x
}.

Lemma slot_of_ok {T B} b k n (f : Z → M T B) s :
  cstr b = Some k → 0 < n < 2 ^ 31 → (slot_of b n ≫= f) s = f (home n k) s.
Proof.
  intros Hk Hn. unfold slot_of, hash_function. rewrite (hash_loop_cstr b k 5381 Hk). simpl.
  rewrite i32_id by lia. rewrite u64_id by lia. fold (hash_string k). change (hash_string k mod n) with (home n k).
  pose proof (home_range n k ltac:(lia)). rewrite bind_assoc, bind_ret, bind_ret.
  rewrite i64_id, i32_id by lia. reflexivity.
Qed.

Lemma next_slot_ok n i : 0 ≤ i < n → n < 2 ^ 31 → next_slot n i = (i + 1) mod n.
Proof.
  intros Hi Hn. unfold next_slot. rewrite u64_id by lia. pose proof (Z.mod_pos_bound (i + 1) n ltac:(lia)).
  apply i32_id. lia.
Qed.

Section table.
Context (l : list hashmap_entry_t) (n : Z) (L : gmap (list Z) (Z * Z)) (Hok : locates l n L).

Lemma table_size : 0 < n < 2 ^ 31 ∧ Z.of_nat (length l) = n.
Proof. by destruct (loc_size _ _ _ Hok). Qed.

(** Every slot has an entry. *)
Lemma hentry_ok i : 0 ≤ i < n → ∃ e, l !! Z.to_nat i = Some e ∧ length (hkey e) = 40%nat ∧
  (∀ T B (f : hashmap_entry_t → M T B) s, (hentry_at l i ≫= f) s = f e s) ∧
  (value_offset e < 0 ∧ hslot l i = None ∨
   0 ≤ value_offset e ∧ ∃ k, cstr (hkey e) = Some k ∧ hslot l i = Some k ∧ L !! k = Some (place e)).
Proof.
  intros Hi. destruct table_size as [Hn Hlen].
  destruct (lookup_lt_is_Some_2 l (Z.to_nat i)) as [e He]; [lia|]. exists e.
  destruct (loc_keys _ _ _ Hok e) as [H1 H2]; [by eapply list_elem_of_lookup_2|]. split_and!; [done|done| |].
  - intros T B f s. unfold hentry_at. rewrite (proj2 (Z.ltb_ge _ _)) by lia. by rewrite He.
  - unfold hslot. rewrite He. simpl. destruct (Z.ltb_spec (value_offset e) 0) as [Hv|Hv]; [by left|right].
    split; [done|]. destruct (H2 Hv) as [k Hk]. exists k. split; [done|]. split; [done|].
    apply (loc_map _ _ _ Hok). exists (Z.to_nat i), e. split; [lia|done].
Qed.

Lemma hslot_L i k : 0 ≤ i < n → hslot l i = Some k → is_Some (L !! k).
Proof.
  intros Hi Hs. destruct (hentry_ok i Hi) as (e & _ & _ & _ & [[_ H]|(_ & k' & _ & H & HL)]); [congruence|].
  assert (k' = k) as -> by congruence. by eexists.
Qed.

Lemma L_hslot k x : L !! k = Some x → ∃ i, 0 ≤ i < n ∧ hslot l i = Some k.
Proof.
  intros (i & e & Hi & He & Hv & Hk & _)%(loc_map _ _ _ Hok). destruct table_size as [_ Hl].
  exists (Z.of_nat i). split; [lia|]. unfold hslot. rewrite Nat2Z.id, He. simpl.
  by rewrite (proj2 (Z.ltb_ge _ _)) by done.
Qed.

Lemma habsent k : (∀ i, 0 ≤ i < n → hslot l i ≠ Some k) → L !! k = None.
Proof.
  intros H. destruct (L !! k) as [x|] eqn:E; [|done]. destruct (L_hslot k x E) as (i & Hi & Hs).
  by destruct (H i Hi).
Qed.

(** Fewer names than slots: the search for any name stops. *)
Lemma search_stops k : Z.of_nat (size L) < n → ∃ d, stops n (home n) (hslot l) k d.
Proof.
  intros Hsz. destruct table_size as [Hn _].
  destruct (placed_hole n (home n) ltac:(lia) (hslot l) (elements (dom L)) (loc_placed _ _ _ Hok)) as (i & Hi & Hs).
  - intros i k' Hi Hs. apply elem_of_elements, elem_of_dom. by eapply hslot_L.
  - change (length (elements (dom L))) with (size (dom L)). by rewrite size_dom.
  - by eapply (stops_room n (home n) ltac:(lia) _ k i Hi).
Qed.

(** [hashmap_put] finds the slot where the search stops. *)
Lemma hput_loop_ok {T} b k d fuel (s : T) :
  cstr b = Some k → stops n (home n) (hslot l) k d → d < Z.of_nat fuel →
  hput_loop fuel l n b (home n k) s = Ok (nth_slot n (home n k) d, s).
Proof.
  intros Hb (Hd & Hs & Ho) Hf. destruct table_size as [Hn _].
  rewrite <- (nth_slot_0 n (home n k)) at 1 by (apply home_range; lia).
  apply (walk n (λ fuel i, hput_loop fuel l n b i s) (λ i, Ok (i, s)) (λ i, hslot l i = None ∨ hslot l i = Some k)
    (home n k)); [| |done| |lia|lia].
  - intros fuel' j _ Hj. pose proof (nth_slot_range n ltac:(lia) (home n k) j) as Hr.
    destruct (hentry_ok _ Hr) as (e & He & _ & Hrun & Hc). cbn [hput_loop]. rewrite Hrun.
    destruct Hc as [[Hv _]|(Hv & k' & Hk' & Hs' & _)]; [by rewrite (proj2 (Z.ltb_lt _ _))|].
    rewrite (proj2 (Z.ltb_ge _ _)) by done. rewrite (bind_defined _ _ _ _ (strcmp_eq_spec _ _ _ _ Hk' Hb)).
    by rewrite bool_decide_true by (destruct Hj; congruence).
  - intros fuel' j _ Hj. pose proof (nth_slot_range n ltac:(lia) (home n k) j) as Hr.
    destruct (hentry_ok _ Hr) as (e & He & _ & Hrun & Hc). cbn [hput_loop]. rewrite Hrun.
    destruct Hc as [[Hv Hs']|(Hv & k' & Hk' & Hs' & _)]; [by destruct Hj; left|].
    rewrite (proj2 (Z.ltb_ge _ _)) by done. rewrite (bind_defined _ _ _ _ (strcmp_eq_spec _ _ _ _ Hk' Hb)).
    rewrite bool_decide_false by (intros ->; by destruct Hj; right).
    by rewrite next_slot_ok, nth_slot_S by lia.
  - intros j Hj [Hc|Hc]; destruct (Ho j Hj) as (k' & Hk' & Hne); congruence.
Qed.

(** So does the search of [hashmap_rehash], for a name the table does not have. *)
Lemma free_loop_ok {T} k d fuel (s : T) :
  L !! k = None → stops n (home n) (hslot l) k d → d < Z.of_nat fuel →
  free_loop fuel l n (home n k) s = Ok (nth_slot n (home n k) d, s).
Proof.
  intros HL (Hd & Hs & Ho) Hf. destruct table_size as [Hn _].
  rewrite <- (nth_slot_0 n (home n k)) at 1 by (apply home_range; lia).
  apply (walk n (λ fuel i, free_loop fuel l n i s) (λ i, Ok (i, s)) (λ i, hslot l i = None) (home n k));
    [| | | |lia|lia].
  - intros fuel' j _ Hj. pose proof (nth_slot_range n ltac:(lia) (home n k) j) as Hr.
    destruct (hentry_ok _ Hr) as (e & He & _ & Hrun & Hc). cbn [free_loop]. rewrite Hrun.
    destruct Hc as [[Hv _]|(_ & k' & _ & Hs' & _)]; [by rewrite (proj2 (Z.ltb_lt _ _))|congruence].
  - intros fuel' j _ Hj. pose proof (nth_slot_range n ltac:(lia) (home n k) j) as Hr.
    destruct (hentry_ok _ Hr) as (e & He & _ & Hrun & Hc). cbn [free_loop]. rewrite Hrun.
    destruct Hc as [[_ Hs']|(Hv & _)]; [done|]. rewrite (proj2 (Z.ltb_ge _ _)) by done.
    by rewrite next_slot_ok, nth_slot_S by lia.
  - destruct Hs as [Hs|Hs]; [done|].
    destruct (hslot_L _ k (nth_slot_range n ltac:(lia) (home n k) d) Hs). congruence.
  - intros j Hj Hc. destruct (Ho j Hj) as (k' & Hk' & _). congruence.
Qed.

(** A name put where its search stops. *)
Lemma locates_insert k d e :
  stops n (home n) (hslot l) k d → 0 ≤ value_offset e → length (hkey e) = 40%nat → cstr (hkey e) = Some k →
  locates (<[Z.to_nat (nth_slot n (home n k) d) := e]> l) n (<[k := place e]> L).
Proof.
  intros Hst Hv Hlen Hk. destruct table_size as [Hn Hl]. pose proof (loc_placed _ _ _ Hok) as Hpl.
  set (x := nth_slot n (home n k) d). assert (0 ≤ x < n) as Hx by (apply nth_slot_range; lia).
  assert (∀ i, 0 ≤ i < n → hslot (<[Z.to_nat x := e]> l) i = fupd (hslot l) x (Some k) i) as Hslot.
  { intros i Hi. unfold fupd, hslot. case_decide as E.
    - rewrite E, list_lookup_insert_eq by lia. simpl. by rewrite (proj2 (Z.ltb_ge _ _)).
    - rewrite list_lookup_insert_ne by lia. done. }
  constructor.
  - by rewrite length_insert.
  - intros e' [j Hj]%list_elem_of_lookup_1. apply list_lookup_insert_Some in Hj as [(_ & <- & _)|[_ Hj]].
    + by split; [|eexists].
    + apply (loc_keys _ _ _ Hok). by eapply list_elem_of_lookup_2.
  - apply (placed_ext n (home n) ltac:(lia) (fupd (hslot l) x (Some k))); [by intros; rewrite Hslot|].
    by apply placed_insert; [lia|..].
  - intros k' y. rewrite length_insert. destruct (decide (k' = k)) as [->|Hne].
    + rewrite lookup_insert_eq. split.
      * intros [= <-]. exists (Z.to_nat x), e. split; [lia|]. split; [|done]. apply list_lookup_insert_eq. lia.
      * intros (i & e' & Hi & He' & Hv' & Hk' & ->).
        apply list_lookup_insert_Some in He' as [(_ & <- & _)|[Hi' He']]; [done|].
        destruct Hi'. rewrite <- (Nat2Z.id i). f_equal. symmetry.
        apply (stops_at n (home n) ltac:(lia) (hslot l) k d (Z.of_nat i) Hpl Hst); [lia|].
        unfold hslot. rewrite Nat2Z.id, He'. simpl. by rewrite (proj2 (Z.ltb_ge _ _)).
    + rewrite lookup_insert_ne by done. rewrite (loc_map _ _ _ Hok). split.
      * intros (i & e' & Hi & He' & Hv' & Hk' & ->). exists i, e'. split; [done|]. split; [|done].
        rewrite list_lookup_insert_ne; [done|]. intros Ei.
        destruct Hst as (_ & Hs & _). fold x in Hs. unfold hslot in Hs.
        rewrite Ei, He' in Hs. simpl in Hs. rewrite (proj2 (Z.ltb_ge _ _)), Hk' in Hs by done.
        destruct Hs; congruence.
      * intros (i & e' & Hi & He' & Hv' & Hk' & ->). exists i, e'. split; [done|].
        apply list_lookup_insert_Some in He' as [(_ & <- & _)|[_ He']]; [congruence|done].
Qed.
End table.

(** [hashmap_get]: where the value of a name is. *)
Lemma hashmap_get_ok {T} m L b k (s : T) :
  locates (index m) (map_buckets m) L → cstr b = Some k → hashmap_get m b s = Ok (L !! k, s).
Proof.
  intros Hok Hb. destruct (table_size _ _ _ Hok) as [Hn Hl]. set (n := map_buckets m) in *.
  unfold hashmap_get. rewrite (slot_of_ok b k) by done. fold n. pose proof (home_range n k ltac:(lia)) as Hh.
  destruct (search n (home n) ltac:(lia) (λ fuel i, hget_loop fuel m b (home n k) i s)
    (λ i, Ok (place <$> index m !! Z.to_nat i, s)) (Ok (None, s)) (hslot (index m)) k (loc_placed _ _ _ Hok) Hh)
    with (fuel := length (index m)) as [(i & Hi & Hs & ->)|[Hno ->]]; cbv beta in *; [| | |lia| |].
  - intros fuel i Hi Hs. destruct (hentry_ok _ _ _ Hok i Hi) as (e & He & _ & Hrun & [[Hv _]|(_ & k' & _ & Hs' & _)]);
      [|congruence]. cbn [hget_loop]. rewrite Hrun. rewrite (proj2 (Z.leb_gt _ _)) by done. rewrite bind_ret.
    cbv zeta. by rewrite andb_false_r.
  - intros fuel i Hi Hs. destruct (hentry_ok _ _ _ Hok i Hi) as (e & He & _ & Hrun & [[Hv ?]|(Hv & k' & Hk' & Hs' & _)]);
      [congruence|]. cbn [hget_loop]. rewrite Hrun, He. rewrite (proj2 (Z.leb_le _ _)) by done.
    rewrite (bind_defined _ _ _ _ (strcmp_eq_spec _ _ _ _ Hb Hk')). by rewrite bool_decide_true by congruence.
  - intros fuel i Hi (k'' & Hs & Hne).
    destruct (hentry_ok _ _ _ Hok i Hi) as (e & He & _ & Hrun & [[Hv ?]|(Hv & k' & Hk' & Hs' & _)]); [congruence|].
    cbn [hget_loop]. rewrite Hrun. rewrite (proj2 (Z.leb_le _ _)) by done.
    rewrite (bind_defined _ _ _ _ (strcmp_eq_spec _ _ _ _ Hb Hk')), bool_decide_false by congruence.
    cbv zeta. fold n. rewrite next_slot_ok by lia. rewrite andb_true_r. by destruct (_ =? _).
  - destruct (hentry_ok _ _ _ Hok i Hi) as (e & He & _ & _ & [[_ ?]|(_ & k' & _ & Hs' & HL)]); [congruence|].
    assert (k' = k) as -> by congruence. by rewrite He, HL.
  - by rewrite (habsent _ _ _ Hok k Hno).
Qed.

Lemma bind_on_map {B} f (k : unit → M gen B) s :
  (on_map f ≫= k) s = k tt (mkGen (f (hmap s)) (calls s)).
Proof. reflexivity. Qed.

(** ** Rehashing *)

Lemma names_S l i k x e :
  l !! i = Some e →
  names l (S i) k x ↔ names l i k x ∨ (0 ≤ value_offset e ∧ cstr (hkey e) = Some k ∧ x = place e).
Proof.
  intros He. split.
  - intros (j & e' & Hj & He' & H). destruct (decide (j = i)) as [->|].
    + right. by replace e with e' by congruence.
    + left. exists j, e'. split; [lia|done].
  - intros [(j & e' & Hj & H)|H]; [exists j, e'; split; [lia|done]|]. exists i, e. split; [lia|done].
Qed.

Lemma fresh_locates g n : 0 < n < 2 ^ 31 → locates (fresh_index g n) n ∅.
Proof.
  intros Hn. assert (∀ i e, fresh_index g n !! i = Some e → value_offset e = -1 ∧ length (hkey e) = 40%nat) as He.
  { intros i e Hi. unfold fresh_index in Hi. apply list_lookup_fmap_Some in Hi as (j & -> & _). done. }
  assert (∀ i, hslot (fresh_index g n) i = None) as Hs.
  { intros i. unfold hslot. destruct (_ !! _) as [e|] eqn:E; [|done]. simpl. by destruct (He _ _ E) as [-> _]. }
  constructor.
  - unfold fresh_index. rewrite length_fmap, length_seqZ. lia.
  - intros e [i Hi]%list_elem_of_lookup_1. destruct (He _ _ Hi) as [-> ?]. split; [done|lia].
  - by apply placed_empty.
  - intros k x. rewrite lookup_empty. split; [done|]. intros (i & e & _ & Hi & Hv & _).
    destruct (He _ _ Hi). lia.
Qed.

(** Each name of the old table is put where a search in the new one ends. *)
Lemma rehash_loop_ok old n L new nn L' c i (s : gen) :
  locates old n L → locates new nn L' → n ≤ nn → Z.of_nat (size L) < nn →
  Z.of_nat i + Z.of_nat c = n → (∀ e, e ∈ old → 0 ≤ value_offset e → ∀ k, cstr (hkey e) = Some k → (length k < 40)%nat) →
  (∀ k x, L' !! k = Some x ↔ names old i k x) →
  ∃ new', rehash_loop c (Z.of_nat i) old new nn s = Ok (new', s) ∧ locates new' nn L.
Proof.
  intros Hold. revert i new L'. induction c as [|c IH]; intros i new L' Hnew Hnn Hsz Hi Hshort HL'.
  { exists new. split; [done|]. replace L with L'; [done|]. apply map_eq. intros k. apply option_eq. intros x.
    rewrite HL', (loc_map _ _ _ Hold). destruct (table_size _ _ _ Hold).
    by replace (length old) with i by lia. }
  destruct (hentry_ok _ _ _ Hold (Z.of_nat i)) as (e & He & Hlen & Hrun & Hc); [lia|].
  rewrite Nat2Z.id in He. cbn [rehash_loop]. rewrite Hrun.
  pose proof (λ k x, names_S old i k x e He) as HS.
  replace (Z.of_nat i + 1) with (Z.of_nat (S i)) by lia.
  destruct Hc as [[Hv _]|(Hv & k & Hk & Hs & HLk)].
  { rewrite (proj2 (Z.ltb_lt _ _)), bind_ret by done. apply (IH (S i) new L'); try done; [lia|].
    intros k x. rewrite HL', HS. split; [by left|]. intros [?|[? _]]; [done|lia]. }
  rewrite (proj2 (Z.ltb_ge _ _)) by done. destruct (table_size _ _ _ Hnew) as [Hnn' Hlen'].
  rewrite bind_assoc, (slot_of_ok _ k) by done.
  assert (L' !! k = None) as Habs.
  { destruct (L' !! k) as [x|] eqn:E; [|done]. apply HL' in E as (j & e' & Hj & He' & Hv' & Hk' & _).
    assert (Z.of_nat j = Z.of_nat i); [|lia].
    apply (placed_unique n (home n) (hslot old) _ _ k (loc_placed _ _ _ Hold)); [lia|lia| |done].
    unfold hslot. rewrite Nat2Z.id, He'. simpl. by rewrite (proj2 (Z.ltb_ge _ _)). }
  assert (L' ⊆ L) as Hsub.
  { apply map_subseteq_spec. intros k' x (j & e' & Hj & H)%HL'. apply (loc_map _ _ _ Hold).
    exists j, e'. split; [|done]. destruct (table_size _ _ _ Hold). lia. }
  pose proof (map_subseteq_size _ _ Hsub).
  destruct (search_stops _ _ _ Hnew k) as [d Hd]; [lia|]. pose proof Hd as (Hdr & _).
  rewrite bind_assoc, (bind_Ok _ _ _ _ _ (free_loop_ok _ _ _ Hnew k d (length new) s Habs Hd ltac:(lia))).
  destruct (hentry_ok _ _ _ Hnew (nth_slot nn (home nn k) d) (nth_slot_range nn ltac:(lia) _ _))
    as (e' & He' & Hlen2 & Hrun' & _). rewrite bind_assoc, Hrun'.
  destruct (strcpy_cstr 40 (hkey e') (hkey e) k) as (dst & Hdst & Hdl & Hdc); [done| |done|].
  { apply (Hshort e); [by eapply list_elem_of_lookup_2|done|done]. }
  rewrite bind_assoc, (bind_defined _ _ _ _ Hdst), bind_ret.
  eapply (IH (S i)); try done; [by apply (locates_insert _ _ _ Hnew k d)|lia|].
  intros k' x. rewrite HS, <- HL'. destruct (decide (k' = k)) as [->|].
  - rewrite lookup_insert_eq, Habs. split; [intros [= <-]; by right|]. intros [?|(_ & _ & ->)]; done.
  - rewrite lookup_insert_ne by done. split; [by left|]. intros [?|(_ & ? & _)]; [done|congruence].
Qed.

(** ** The buffer *)

Lemma slice_prefix {A} (b b' : list A) c x y :
  take c b' = take c b → (x + y ≤ c)%nat → take y (drop x b') = take y (drop x b).
Proof.
  intros E H. rewrite !take_drop_commute. f_equal.
  assert (∀ l : list A, take (x + y) l = take (x + y) (take c l)) as Ht.
  { intros l. rewrite take_take. f_equal. lia. }
  by rewrite Ht, E, <- Ht.
Qed.

Lemma write_at_ok b off size val :
  0 ≤ off → 0 ≤ size → size ≤ Z.of_nat (length val) → off + size ≤ Z.of_nat (length b) →
  ∃ b', write_at b off size val = Some b' ∧ length b' = length b ∧
    take (Z.to_nat off) b' = take (Z.to_nat off) b ∧
    take (Z.to_nat size) (drop (Z.to_nat off) b') = take (Z.to_nat size) val.
Proof.
  intros H1 H2 H3 H4. unfold write_at. replace (_ && _ && _ && _) with true by (symmetry; bool_lia).
  eexists. split; [reflexivity|]. unfold patch. split_and!.
  - rewrite !length_app, !length_take, length_drop. lia.
  - rewrite take_app_le by (rewrite length_take; lia). rewrite take_take. f_equal. lia.
  - rewrite drop_app_ge by (rewrite length_take; lia). rewrite length_take.
    replace (Z.to_nat off - _)%nat with 0%nat by lia. rewrite drop_0.
    rewrite take_app_le by (rewrite length_take; lia). rewrite take_take. f_equal. lia.
Qed.

(** ** The invariant *)

(** The map holds the byte strings [P]. *)
Record map_holds (m : hashmap_t) (P : gmap (list Z) (list Z)) (L : gmap (list Z) (Z * Z)) : Prop := {
  mh_locates : locates (index m) (map_buckets m) L;
  mh_short : ∀ k, is_Some (L !! k) → (length k < 40)%nat;
  mh_buffer : Z.of_nat (length (buffer m)) = map_size m ∧ 0 ≤ current_offset m ≤ map_size m ∧
    1024 ≤ map_size m ≤ Z.max 1024 (2 * current_offset m);
  mh_values : ∀ k, P !! k = (λ x, take (Z.to_nat x.2) (drop (Z.to_nat x.1) (buffer m))) <$> L !! k;
  mh_inside : ∀ k x, L !! k = Some x → 0 ≤ x.1 ∧ 0 ≤ x.2 ∧ x.1 + x.2 ≤ current_offset m;
  mh_load : Z.of_nat (size L) ≤ map_entries m ∧ 2 * map_entries m ≤ map_buckets m ∧
    (2 | map_buckets m) ∧ map_buckets m ≤ Z.max 128 (4 * map_entries m)
}.

Lemma map_get_ok {T} m P L b k (s : T) :
  map_holds m P L → cstr b = Some k → hashmap_get m b s = Ok (L !! k, s).
Proof. intros H. apply hashmap_get_ok. apply (mh_locates _ _ _ H). Qed.

Section operations.
Variable mem : nat → option (Z → Z).
Hypothesis memory : ∀ n, is_Some (mem n).

Lemma bind_gen_malloc {B} (f : (Z → Z) → M gen B) s :
  ∃ g, (gen_malloc mem ≫= f) s = f g (mkGen (hmap s) (S (calls s))).
Proof.
  destruct (memory (calls s)) as [g Hg]. exists g. unfold gen_malloc.
  rewrite bind_assoc, bind_gets, bind_assoc, bind_modify, Hg. reflexivity.
Qed.

(** Rehashing happens where it is needed, and keeps the map. *)
Lemma hashmap_rehash_ok s P L :
  map_holds (hmap s) P L → map_entries (hmap s) < 2 ^ 28 →
  map_buckets (hmap s) < 2 * (map_entries (hmap s) + 1) →
  ∃ s', hashmap_rehash mem s = Ok (tt, s') ∧ map_holds (hmap s') P L ∧
    map_entries (hmap s') = map_entries (hmap s) ∧ map_buckets (hmap s') = 2 * map_buckets (hmap s) ∧
    buffer (hmap s') = buffer (hmap s) ∧ current_offset (hmap s') = current_offset (hmap s).
Proof.
  intros H Hent Hfull. pose proof (mh_load _ _ _ H) as (Hsz & Hload & [q Hq] & Hmax).
  pose proof (mh_locates _ _ _ H) as Hloc. destruct (table_size _ _ _ Hloc) as [Hn Hl].
  unfold hashmap_rehash. rewrite bind_gets. rewrite u64_id by lia.
  rewrite (proj2 (Z.ltb_ge _ _)) by lia. cbv zeta. rewrite u64_id by lia.
  destruct (bind_gen_malloc (λ g, new_index ← rehash_loop (Z.to_nat (map_buckets (hmap s))) 0 (index (hmap s))
    (fresh_index g (2 * map_buckets (hmap s))) (2 * map_buckets (hmap s));
    on_map (set_index new_index (2 * map_buckets (hmap s)))) s) as [g ->].
  set (nn := 2 * map_buckets (hmap s)) in *.
  pose proof (fresh_locates g nn ltac:(lia)) as Hf.
  destruct (rehash_loop_ok _ _ _ _ nn ∅ (Z.to_nat (map_buckets (hmap s))) 0 (mkGen (hmap s) (S (calls s))) Hloc Hf)
    as (new & Hrun & Hnew); [lia|lia|lia| | |].
  { intros e [i Hi]%list_elem_of_lookup_1 Hv k Hk. apply (mh_short _ _ _ H).
    exists (place e). apply (loc_map _ _ _ Hloc). exists i, e. split; [by eapply lookup_lt_Some|done]. }
  { intros k x. rewrite lookup_empty. split; [done|]. by intros (j & e & Hj & _); lia. }
  change (Z.of_nat 0) with 0 in Hrun. rewrite (bind_Ok _ _ _ _ _ Hrun).
  eexists. split; [reflexivity|]. split; [|done]. destruct H. constructor; try done.
  simpl. split; [done|]. split; [lia|]. split; [exists (map_buckets (hmap s)); lia|lia].
Qed.

(** The buffer grows until the value fits, and keeps what was written to it. *)
Record room (m : hashmap_t) (need : Z) : Prop := {
  room_length : Z.of_nat (length (buffer m)) = map_size m;
  room_offset : 0 ≤ current_offset m ≤ map_size m;
  room_bound : 1024 ≤ map_size m ≤ Z.max 1024 (2 * need)
}.

Definition keeps (m m' : hashmap_t) : Prop :=
  index m' = index m ∧ map_buckets m' = map_buckets m ∧ map_entries m' = map_entries m ∧
  current_offset m' = current_offset m ∧
  take (Z.to_nat (current_offset m)) (buffer m') = take (Z.to_nat (current_offset m)) (buffer m).

Lemma grow_loop_ok fuel size s need :
  room (hmap s) need → need = current_offset (hmap s) + size → 0 ≤ size → need < 2 ^ 61 →
  need ≤ map_size (hmap s) * 2 ^ Z.of_nat fuel →
  ∃ s', grow_loop mem (S fuel) size s = Ok (tt, s') ∧ keeps (hmap s) (hmap s') ∧
    room (hmap s') need ∧ need ≤ map_size (hmap s').
Proof.
  intros Hroom Hneed Hsize Hn. revert s Hroom Hneed. induction fuel as [|fuel IH]; intros s Hroom Hneed Hf;
    pose proof Hroom as [Hlen Hoff Hms]; cbn [grow_loop]; rewrite bind_gets, u64_id by lia.
  { rewrite (proj2 (Z.ltb_ge _ _)) by lia. exists s. split; [done|]. split; [done|]. split; [done|lia]. }
  destruct (Z.ltb_spec (map_size (hmap s)) (current_offset (hmap s) + size)) as [Hlt|Hge].
  2: { exists s. split; [done|]. split; [done|]. split; [done|lia]. }
  unfold gen_realloc. rewrite bind_assoc. rewrite u64_id by lia.
  match goal with |- context [(gen_malloc mem ≫= ?f) s] => destruct (bind_gen_malloc f s) as [g ->] end.
  replace (_ && _) with true by (symmetry; bool_lia). rewrite bind_ret, bind_on_map.
  set (s1 := mkGen _ _). destruct (IH s1) as (s' & Hrun & Hk & Hr & Hsz).
  - constructor; simpl; [|lia|lia]. rewrite length_app, length_take, length_replicate. lia.
  - done.
  - simpl. rewrite Nat2Z.inj_succ, Z.pow_succ_r in Hf by lia. lia.
  - exists s'. split; [exact Hrun|]. split; [|done].
    destruct Hk as (H1 & H2 & H3 & H4 & H5). split_and!; try done. simpl in H5. rewrite H5.
    rewrite take_app_le by (rewrite length_take; lia). rewrite take_take. f_equal. lia.
Qed.

(** The table has a free slot when the search for one begins. *)
Lemma hput_room_ok s P L :
  map_holds (hmap s) P L → map_entries (hmap s) < 2 ^ 28 →
  ∃ s', (if map_buckets (hmap s) <? u64 (u64 (map_entries (hmap s) + 1) * 2) then hashmap_rehash mem else mret tt) s
      = Ok (tt, s') ∧ map_holds (hmap s') P L ∧
    map_entries (hmap s') = map_entries (hmap s) ∧ 2 * (map_entries (hmap s) + 1) ≤ map_buckets (hmap s') ∧
    current_offset (hmap s') = current_offset (hmap s).
Proof.
  intros H Hn. pose proof (mh_load _ _ _ H) as (Hsz & Hload & _ & _).
  rewrite (u64_id (map_entries (hmap s) + 1)), u64_id by lia.
  destruct (Z.ltb_spec (map_buckets (hmap s)) ((map_entries (hmap s) + 1) * 2)) as [Hlt|Hge].
  - destruct (hashmap_rehash_ok s P L H Hn) as (s' & H1 & H2 & H3 & H4 & H5 & H6); [lia|].
    exists s'. split_and!; try done. destruct (table_size _ _ _ (mh_locates _ _ _ H)). lia.
  - exists s. split_and!; try done. lia.
Qed.

(** The map after an entry is written: the value is at the end of the buffer. *)
Lemma insert_holds m P L m' b' e k d size v :
  map_holds m P L → (length k < 40)%nat → 0 ≤ size → 2 * (map_entries m + 1) ≤ map_buckets m →
  stops (map_buckets m) (home (map_buckets m)) (hslot (index m)) k d →
  place e = (current_offset m, size) → length (hkey e) = 40%nat → cstr (hkey e) = Some k →
  keeps m m' → room m' (current_offset m + size) → current_offset m + size ≤ map_size m' →
  length b' = length (buffer m') →
  take (Z.to_nat (current_offset m)) b' = take (Z.to_nat (current_offset m)) (buffer m') →
  take (Z.to_nat size) (drop (Z.to_nat (current_offset m)) b') = v →
  map_holds (mkHashmap (<[Z.to_nat (nth_slot (map_buckets m) (home (map_buckets m) k) d) := e]> (index m)) b'
    (current_offset m + size) (map_size m') (map_entries m + 1) (map_buckets m))
    (<[k := v]> P) (<[k := place e]> L).
Proof.
  intros H Hk Hsize Hload Hd He Hlen Hkey (_ & _ & _ & Hoff & Hkeep) [Hr1 Hr2 Hr3] Hneed Hb1 Hb2 Hb3.
  pose proof (mh_load _ _ _ H) as (Hsz & _ & H2 & Hmax). pose proof (mh_buffer _ _ _ H) as (_ & Ho & _).
  constructor; cbn [index buffer current_offset map_size map_entries map_buckets].
  - apply locates_insert; try done; [apply (mh_locates _ _ _ H)|]. injection He as -> _. lia.
  - intros k' [x Hx]. apply lookup_insert_Some in Hx as [[<- _]|[_ Hx]]; [done|]. apply (mh_short _ _ _ H). by eexists.
  - split; [congruence|]. split; [lia|]. lia.
  - intros k'. destruct (decide (k' = k)) as [->|Hne].
    + rewrite !lookup_insert_eq, He. simpl. by rewrite Hb3.
    + rewrite !lookup_insert_ne by done. rewrite (mh_values _ _ _ H). destruct (L !! k') as [x|] eqn:E; [|done].
      simpl. f_equal. destruct (mh_inside _ _ _ H k' x E) as (? & ? & ?). symmetry.
      apply (slice_prefix _ _ (Z.to_nat (current_offset m))); [congruence|lia].
  - intros k' x Hx. apply lookup_insert_Some in Hx as [[<- <-]|[_ Hx]].
    + rewrite He. simpl. lia.
    + destruct (mh_inside _ _ _ H k' x Hx) as (? & ? & ?). lia.
  - split; [rewrite map_size_insert; destruct (L !! k); simpl; lia|]. split; [lia|]. split; [done|lia].
Qed.

Lemma hashmap_put_ok s P L b k val size override :
  map_holds (hmap s) P L → cstr b = Some k → (length k < 40)%nat → 0 ≤ size ≤ Z.of_nat (length val) →
  current_offset (hmap s) + size < 2 ^ 61 → map_entries (hmap s) < 2 ^ 28 →
  ∃ s' L', hashmap_put mem b val size override s = Ok (tt, s') ∧
    map_holds (hmap s') (put_spec k (take (Z.to_nat size) val) override P) L' ∧
    current_offset (hmap s') ≤ current_offset (hmap s) + size ∧
    map_entries (hmap s') ≤ map_entries (hmap s) + 1.
Proof.
  intros H Hb Hk Hsize Hoff Hent. unfold hashmap_put.
  rewrite bind_gets, (bind_Ok _ _ _ _ _ (map_get_ok _ _ _ _ _ s H Hb)). unfold put_spec.
  assert ((match L !! k with Some _ => true | None => false end) = bool_decide (is_Some (P !! k))) as ->.
  { rewrite (mh_values _ _ _ H). by destruct (L !! k). }
  destruct (_ && _); [exists s, L; split; [done|]; split; [done|]; lia|].
  destruct (hput_room_ok s P L H Hent) as (s1 & Hrun1 & H1 & He1 & Hb1 & Ho1). rewrite (bind_Ok _ _ _ _ _ Hrun1).
  pose proof (mh_buffer _ _ _ H1) as (Hr1 & Hr2 & Hr3 & Hr4).
  destruct (grow_loop_ok 63 size s1 (current_offset (hmap s1) + size)) as (s2 & Hrun2 & Hkeep & Hroom & Hneed);
    [constructor; lia|done|lia|lia|change (Z.of_nat 63) with 63; lia|].
  rewrite (bind_Ok _ _ _ _ _ Hrun2), bind_gets. pose proof Hroom as [Hg1 Hg2 Hg3].
  pose proof Hkeep as (K1 & K2 & K3 & K4 & K5).
  destruct (write_at_ok (buffer (hmap s2)) (current_offset (hmap s2)) size val) as (b' & Hw & Hw1 & Hw2 & Hw3);
    [lia..|]. rewrite (bind_defined _ _ _ _ Hw), bind_on_map.
  pose proof (mh_locates _ _ _ H1) as Hloc. destruct (table_size _ _ _ Hloc) as [Hn Hl].
  pose proof (mh_load _ _ _ H1) as (Hsz & _). rewrite K1, K2, K3, K4 in *.
  destruct (search_stops _ _ _ Hloc k) as [d Hd]; [lia|]. pose proof Hd as (Hdr & _).
  rewrite (slot_of_ok _ k) by done.
  rewrite (bind_Ok _ _ _ _ _ (hput_loop_ok _ _ _ Hloc b k d (length (index (hmap s1))) _ Hb Hd ltac:(lia))).
  destruct (hentry_ok _ _ _ Hloc _ (nth_slot_range (map_buckets (hmap s1)) ltac:(lia) (home (map_buckets (hmap s1)) k) d))
    as (e & He & Hlen & Hrun & _). rewrite Hrun.
  destruct (strcpy_cstr 40 (hkey e) b k Hb Hk Hlen) as (dst & Hdst & Hdl & Hdc).
  rewrite (bind_defined _ _ _ _ Hdst), !bind_on_map. cbn [hmap calls].
  eexists _, _. split; [reflexivity|]. cbn [hmap]. unfold set_entries, set_offset, set_index, set_buffer.
  cbn [index buffer current_offset map_size map_entries map_buckets].
  rewrite i64_id, u64_id by lia. split; [|lia].
  eapply (insert_holds (hmap s1) P L (hmap s2) b' (mkHEntry dst (current_offset (hmap s1)) size) k d size); try done; lia.
Qed.
End operations.

(** ** Runs *)

(** A call of [hashmap_put]: key, value, size and [override]. *)
Definition put_call : Type := list Z * list Z * Z * bool.

Section runs.
Variable mem : nat → option (Z → Z).

Fixpoint hashmap_puts (l : list put_call) : M gen unit :=
  match l with
  | [] => mret tt
  | (k, val, size, override) :: l' =>
      hashmap_put mem k val size override;;
      hashmap_puts l'
  end.

(** What the calls mean: insertions into a finite map. *)
Definition call_spec (P : gmap (list Z) (list Z)) (c : put_call) : gmap (list Z) (list Z) :=
  let '(b, val, size, override) := c in
  match cstr b with
  | Some k => put_spec k (take (Z.to_nat size) val) override P
  | None => P
  end.

(** Calls the map has to serve: keys that fit an entry, values as long as said. *)
Definition call_fits (c : put_call) : Prop :=
  let '(b, val, size, _) := c in
  (∃ k, cstr b = Some k ∧ (length k < 40)%nat) ∧ 0 ≤ size ≤ Z.of_nat (length val).

Fixpoint total_bytes (l : list put_call) : Z :=
  match l with
  | [] => 0
  | (_, _, size, _) :: l' => size + total_bytes l'
  end.

Hypothesis memory : ∀ n, is_Some (mem n).

Lemma total_bytes_nonneg l : Forall call_fits l → 0 ≤ total_bytes l.
Proof.
  induction 1 as [|[[[b v] sz] o] l H _ IH]; simpl; [done|]. destruct H as [_ H]. lia.
Qed.

Lemma hashmap_puts_ok l s P L :
  map_holds (hmap s) P L → Forall call_fits l → current_offset (hmap s) + total_bytes l < 2 ^ 61 →
  map_entries (hmap s) + Z.of_nat (length l) ≤ 2 ^ 28 →
  ∃ s' L', hashmap_puts l s = Ok (tt, s') ∧ map_holds (hmap s') (fold_left call_spec l P) L' ∧
    map_entries (hmap s') ≤ map_entries (hmap s) + Z.of_nat (length l).
Proof.
  revert s P L. induction l as [|[[[b v] sz] o] l IH]; intros s P L H Hfit Hb Hn.
  { exists s, L. split; [done|]. split; [done|]. simpl. lia. }
  apply Forall_cons in Hfit as [[(k & Hk & Hlen) Hsz] Hfit]. pose proof (total_bytes_nonneg l Hfit).
  cbn [hashmap_puts fold_left call_spec length total_bytes] in *. rewrite Hk.
  destruct (hashmap_put_ok mem memory s P L b k v sz o H Hk Hlen Hsz) as (s1 & L1 & Hrun & H1 & Ho1 & He1); [lia|lia|].
  rewrite (bind_Ok _ _ _ _ _ Hrun). destruct (IH s1 _ L1 H1 Hfit) as (s' & L' & Hrun' & H' & He'); [lia|lia|].
  exists s', L'. split; [done|]. split; [done|]. lia.
Qed.

Lemma hashmap_init_ok s : ∃ s', hashmap_init mem s = Ok (tt, s') ∧ map_holds (hmap s') ∅ ∅ ∧
  current_offset (hmap s') = 0 ∧ map_entries (hmap s') = 0.
Proof.
  unfold hashmap_init. cbv zeta.
  match goal with |- context [(gen_malloc mem ≫= ?f) s] => destruct (bind_gen_malloc mem memory f s) as [g ->] end.
  match goal with |- context [(gen_malloc mem ≫= ?f) ?s1] => destruct (bind_gen_malloc mem memory f s1) as [b ->] end.
  eexists. split; [reflexivity|]. split; [|done]. constructor; cbn [hmap index buffer current_offset map_size map_entries map_buckets].
  - by apply fresh_locates.
  - intros k. rewrite lookup_empty. by intros [].
  - rewrite length_fmap, length_seqZ. lia.
  - intros k. by rewrite !lookup_empty.
  - intros k x. by rewrite lookup_empty.
  - rewrite map_size_empty. split; [lia|]. split; [lia|]. split; [by exists 64|lia].
Qed.

(** C16. The generator's hash map is a map: after [hashmap_init] and any run of
    [hashmap_put]s that there is memory for (keys shorter than 40 characters, any
    sizes), [hashmap_get] gives for every name the bytes last put for it, where a
    put without [override] leaves a name that is there alone, and [NULL] for
    every other name. Every search ends: the table is never more than half full. *)
Theorem hashmap_refines_map l s0 :
  Forall call_fits l → total_bytes l < 2 ^ 61 → Z.of_nat (length l) ≤ 2 ^ 28 →
  ∃ s, (hashmap_init mem;; hashmap_puts l) s0 = Ok (tt, s) ∧
    (∀ b k, cstr b = Some k → ∃ r, hashmap_get (hmap s) b s = Ok (r, s) ∧
      (λ x, take (Z.to_nat x.2) (drop (Z.to_nat x.1) (buffer (hmap s)))) <$> r = fold_left call_spec l ∅ !! k) ∧
    2 * Z.of_nat (size (fold_left call_spec l ∅)) ≤ map_buckets (hmap s).
Proof.
  intros Hfit Hb Hn. destruct (hashmap_init_ok s0) as (s1 & Hrun1 & H1 & Ho1 & He1).
  destruct (hashmap_puts_ok l s1 ∅ ∅ H1 Hfit) as (s & L & Hrun & H & _); [lia|lia|].
  exists s. rewrite (bind_Ok _ _ _ _ _ Hrun1). split; [done|]. split.
  - intros b k Hk. exists (L !! k). split; [by apply (map_get_ok _ _ _ _ _ _ H)|].
    by rewrite (mh_values _ _ _ H).
  - destruct (mh_load _ _ _ H) as (Hsz & Hload & _).
    assert (dom (fold_left call_spec l ∅) = dom L) as Hd.
    { apply set_eq. intros k. rewrite !elem_of_dom, (mh_values _ _ _ H). apply fmap_is_Some. }
    rewrite <- size_dom, Hd, size_dom. lia.
Qed.
End runs.

Lemma hashmap_refines_map_witness :
  ∃ s, (hashmap_init (λ _, Some (λ _, 7));;
        hashmap_puts (λ _, Some (λ _, 7)) [([49; 0], [5; 6; 7], 2, false); ([49; 0], [8], 1, false);
          ([50; 0], [9], 1, false); ([50; 0], [4; 4], 2, true)])
      (mkGen (mkHashmap [] [] 0 0 0 0) 0) = Ok (tt, s) ∧
    ∃ r, hashmap_get (hmap s) [50; 0] s = Ok (r, s) ∧
      (λ x, take (Z.to_nat x.2) (drop (Z.to_nat x.1) (buffer (hmap s)))) <$> r = Some [4; 4].
Proof.
  destruct (hashmap_refines_map (λ _, Some (λ _, 7)) ltac:(intros; eexists; reflexivity)
    [([49; 0], [5; 6; 7], 2, false); ([49; 0], [8], 1, false); ([50; 0], [9], 1, false); ([50; 0], [4; 4], 2, true)]
    (mkGen (mkHashmap [] [] 0 0 0 0) 0)) as (s & H1 & H2 & _).
  - repeat constructor; simpl; try lia; eexists; (split; [reflexivity|simpl; lia]).
  - simpl. lia.
  - simpl. lia.
  - exists s. split; [exact H1|]. destruct (H2 [50; 0] [50] eq_refl) as (r & H3 & H4).
    exists r. split; [exact H3|]. rewrite H4. reflexivity.
Defined.
