(* ===== verification/FaceApp.v ===== *)
(** * The face verification server's application

    Models what surrounds the workers: [untrusted/sample.cpp], which turns
    messages into requests and responses into answers, and the callbacks of
    [untrusted/echoserver_threaded.cpp], which libevent calls when a client
    connects, sends bytes or leaves, and when the timer fires.  libevent's own
    buffers are lists of bytes. *)

From S2P Require Import Prelude CString SyncUtils Ring Queue FaceHash FaceServer.

Definition DATA_SIZE : Z := 237608.
Definition READ_SIZE : Z := 4096.

(** libevent's flags of a connection's events. *)
Definition BEV_EVENT_EOF : Z := 16.
Definition BEV_EVENT_ERROR : Z := 32.

(** The server, what the next [new]s and [malloc]s return, and the connections:
    the [ctx] of each [bufferevent], the [int] at the start of each [ctx], which
    counts the bytes read, and the bytes each [bufferevent] has to send.  The
    message buffer is the rest of the [ctx] block. *)
Record server_app (T : Type) := mkApp {
  srv : server T;
  news : list Z;
  ctxs : gmap Z Z;
  totals : gmap Z Z;
  outputs : gmap Z (list Z)
}.
Arguments mkApp {T} _ _ _ _ _.
Arguments srv {T} _.
Arguments news {T} _.
Arguments ctxs {T} _.
Arguments totals {T} _.
Arguments outputs {T} _.

Section application.
Context {T : Type}.

Definition set_srv (v : server T) (s : server_app T) : server_app T := mkApp v (news s) (ctxs s) (totals s) (outputs s).
Definition set_news l (s : server_app T) : server_app T := mkApp (srv s) l (ctxs s) (totals s) (outputs s).
Definition set_ctxs c (s : server_app T) : server_app T := mkApp (srv s) (news s) c (totals s) (outputs s).
Definition set_totals t (s : server_app T) : server_app T := mkApp (srv s) (news s) (ctxs s) t (outputs s).
Definition set_outputs o (s : server_app T) : server_app T := mkApp (srv s) (news s) (ctxs s) (totals s) o.
Definition on_srv (f : server T → server T) : M (server_app T) unit := modify (λ s, set_srv (f (srv s)) s).

(** The address of a new object, 0 where there is none. *)
Definition new_ptr : M (server_app T) Z := λ s,
  match news s with
  | [] => Ok (0, s)
  | p :: l => Ok (p, set_news l s)
  end.
(** [new] throws rather than return a null pointer. *)
Definition new : M (server_app T) Z :=
  p ← new_ptr;
  massert (negb (p =? 0));;
  mret p.

(** ** [sample.cpp] *)

Definition do_trusted_logic (data client_data : Z) : M (server_app T) Z :=
  req ← new;
  response ← new;
  send_data ← new;
  on_srv (λ v, set_datas v (<[send_data := mkServerData data client_data response]> (datas v)));;
  on_srv (λ v, set_reqs v (<[response := mkReq req 0]> (reqs v)));;
  on_srv (λ v, set_reqs v (<[req := mkReq send_data 0]> (reqs v)));;
  _ ← zoom srv (λ v s, set_srv v s) (zoom g_request_queue (λ q v, set_requests v q) (enqueue req));
  mret 0.

(** The client and the answer of the response at the head of the queue; [None]
    where [*is_empty] is set. *)
Definition send_answer : M (server_app T) (option (Z * Z)) :=
  resp ← zoom srv (λ v s, set_srv v s) (zoom g_response_queue (λ q v, set_responses v q) dequeue);
  if resp =? 0 then mret None
  else
    v ← gets srv;
    r ← defined (reqs v !! resp);
    orig_request ← defined (reqs v !! req_buffer r);
    resp_data ← defined (datas v !! req_buffer orig_request);
    on_srv (λ v, set_datas v (delete (req_buffer orig_request) (datas v)));;
    on_srv (λ v, set_reqs v (delete (req_buffer r) (reqs v)));;
    on_srv (λ v, set_reqs v (delete resp (reqs v)));;
    mret (Some (sd_client_data resp_data, req_is_done r)).

(** ** [echoserver_threaded.cpp] *)

(** [while (evbuffer_get_length(input) > 0)]: the count and the buffer. *)
Fixpoint read_loop (fuel : nat) (input : list Z) (total_read : Z) (data : list Z) : M (server_app T) (Z * list Z) :=
  match input with
  | [] => mret (total_read, data)
  | _ :: _ =>
      match fuel with
      | O => fail EFuel
      | S fuel' =>
          let chunk := take (Z.to_nat READ_SIZE) input in
          let nbytes := Z.of_nat (length chunk) in
          if (0 <=? total_read) && (total_read + nbytes <=? Z.of_nat (length data))
          then read_loop fuel' (drop (Z.to_nat READ_SIZE) input) (i32 (total_read + nbytes))
                 (patch data total_read chunk)
          else fail EUndef
      end
  end.

(** [input] is what libevent has read from the connection. *)
Definition echo_read_cb (bev ctx : Z) (input : list Z) : M (server_app T) unit :=
  s ← gets (λ s, s);
  total_read ← defined (totals s !! ctx);
  data ← defined (buffers (srv s) !! (ctx + sizeof_int));
  '(total_read, data) ← read_loop (length input) input total_read data;
  on_srv (λ v, set_buffers v (<[ctx + sizeof_int := data]> (buffers v)));;
  modify (λ s, set_totals (<[ctx := total_read]> (totals s)) s);;
  if total_read <? DATA_SIZE then mret tt
  else
    modify (λ s, set_totals (<[ctx := 0]> (totals s)) s);;
    _ ← do_trusted_logic (ctx + sizeof_int) bev;
    mret tt.

Definition echo_event_cb (bev events ctx : Z) : M (server_app T) unit :=
  if Z.land events (Z.lor BEV_EVENT_EOF BEV_EVENT_ERROR) =? 0 then mret tt
  else
    modify (λ s, set_outputs (delete bev (outputs s)) (set_ctxs (delete bev (ctxs s)) s));;
    modify (λ s, set_totals (delete ctx (totals s)) s);;
    on_srv (λ v, set_buffers v (delete (ctx + sizeof_int) (buffers v))).

(** Neither pointer is checked. *)
Definition accept_conn_cb : M (server_app T) Z :=
  bev ← new_ptr;
  data ← new_ptr;
  (if data =? 0 then fail EUndef else mret tt);;
  modify (λ s, set_totals (<[data := 0]> (totals s)) s);;
  on_srv (λ v, set_buffers v (<[data + sizeof_int := replicate (Z.to_nat DATA_SIZE) 0]> (buffers v)));;
  (if bev =? 0 then fail EUndef else mret tt);;
  modify (λ s, set_outputs (<[bev := []]> (outputs s)) (set_ctxs (<[bev := data]> (ctxs s)) s));;
  mret bev.

(** The timer: every response there is, to its connection's output buffer, which
    [bufferevent_write_buffer] leaves for libevent to send. *)
Fixpoint cb_func (fuel : nat) : M (server_app T) unit :=
  match fuel with
  | O => fail EFuel
  | S fuel' =>
      r ← send_answer;
      match r with
      | None => mret tt
      | Some (bev, answer) =>
          s ← gets (λ s, s);
          output ← defined (outputs s !! bev);
          modify (λ s, set_outputs (<[bev := output ++ bytes_of_int answer]> (outputs s)) s);;
          cb_func fuel'
      end
  end.
End application.
