(* ===== verification/FaceAppThms.v ===== *)
(** * From a connection's bytes to its answer

    What the application does around the workers: messages are put together,
    each becomes a request, each response becomes an answer on the connection
    it belongs to, and nothing is kept. *)

From Stdlib Require Import SpecFloat.
From S2P Require Import Prelude CString SyncUtils Ring Queue FaceHash FaceHashThms FaceHashDb.
From S2P Require Import Lbp LbpThms FaceServer FaceServerThms FaceWorker FaceApp.

#[local] Opaque HISTOGRAM_LENGTH_BYTES create_pattern2bin HIST_INTS.

Lemma zoom_Ok {S U A} (get : S → U) put (m : M U A) s a t :
  m (get s) = Ok (a, t) → zoom get put m s = Ok (a, put t s).
Proof. unfold zoom. by intros ->. Qed.

Lemma zoom_Err {S U A} (get : S → U) put (m : M U A) s e :
  m (get s) = Err e → zoom get put m s = Err e.
Proof. unfold zoom. by intros ->. Qed.

Section steps.
Context {T : Type}.
Implicit Types (s : server_app T).

Lemma bind_on_srv {B} f (k : unit → M (server_app T) B) s :
  (on_srv f ≫= k) s = k tt (set_srv (f (srv s)) s).
Proof. reflexivity. Qed.

Lemma bind_new_ptr {B} p l (k : Z → M (server_app T) B) s :
  news s = p :: l → (new_ptr ≫= k) s = k p (set_news l s).
Proof. intros E. unfold mbind, M_bind, new_ptr. by rewrite E. Qed.

Lemma bind_new {B} p l (k : Z → M (server_app T) B) s :
  news s = p :: l → p ≠ 0 → (new ≫= k) s = k p (set_news l s).
Proof.
  intros E Hp. unfold new. rewrite bind_assoc, (bind_new_ptr p l _ s E), bind_assoc, bind_assert, bind_ret; [done|].
  by apply negb_true_iff, Z.eqb_neq.
Qed.

(** The objects of a new request: [req], its [response] and its [send_data]. *)
Definition fresh_objects s (req response send_data : Z) (rest : list Z) : Prop :=
  news s = req :: response :: send_data :: rest ∧ req ≠ 0 ∧ response ≠ 0 ∧ send_data ≠ 0 ∧ req ≠ response ∧
  reqs (srv s) !! req = None ∧ reqs (srv s) !! response = None ∧ datas (srv s) !! send_data = None.

(** The server with a request more, for the message at [data]. *)
Definition with_request (v : server T) (req response send_data data bev : Z) (q' : Queue) : server T :=
  set_requests (set_reqs (set_datas v (<[send_data := mkServerData data bev response]> (datas v)))
    (<[req := mkReq send_data 0]> (<[response := mkReq req 0]> (reqs v)))) q'.

Lemma do_trusted_logic_ok s req response send_data rest data bev l :
  fresh_objects s req response send_data rest → holds (g_request_queue (srv s)) l →
  Z.of_nat (length l) < queue_size → rear (g_request_queue (srv s)) < 2 ^ 31 - 1 →
  ∃ q', holds q' (l ++ [req]) ∧
    do_trusted_logic data bev s =
      Ok (0, set_srv (with_request (srv s) req response send_data data bev q') (set_news rest s)).
Proof.
  intros (Hn & H1 & H2 & H3 & _) Hq Hroom Hrear.
  destruct (enqueue_ok _ l req Hq Hroom Hrear) as (q' & Henq & Hq' & _). exists q'. split; [done|].
  unfold do_trusted_logic. rewrite (bind_new req _ _ s Hn H1).
  rewrite (bind_new response (send_data :: rest)), (bind_new send_data rest) by done.
  rewrite !bind_on_srv. cbv zeta.
  erewrite bind_Ok; [|apply zoom_Ok, zoom_Ok; exact Henq]. reflexivity.
Qed.

(** A response: its record, the request it is for and that one's data. *)
Definition answered (v : server T) (resp req send_data bev answer : Z) : Prop :=
  resp ≠ 0 ∧ reqs v !! resp = Some (mkReq req answer) ∧
  (∃ d, reqs v !! req = Some (mkReq send_data d)) ∧
  ∃ b r, datas v !! send_data = Some (mkServerData b bev r).

Definition without (v : server T) (resp req send_data : Z) (q' : Queue) : server T :=
  set_reqs (set_datas (set_responses v q') (delete send_data (datas v))) (delete resp (delete req (reqs v))).

Lemma send_answer_ok s resp req send_data bev answer l :
  answered (srv s) resp req send_data bev answer → holds (g_response_queue (srv s)) (resp :: l) →
  ∃ q', holds q' l ∧
    send_answer s = Ok (Some (bev, answer), set_srv (without (srv s) resp req send_data q') s).
Proof.
  intros (H0 & H1 & [d H2] & (b & r & H3)) Hq. destruct (dequeue_ok _ _ _ Hq) as (q' & Hdeq & Hq' & _).
  exists q'. split; [done|]. unfold send_answer. erewrite bind_Ok; [|apply zoom_Ok, zoom_Ok; exact Hdeq].
  rewrite (proj2 (Z.eqb_neq resp 0)) by done. rewrite bind_gets.
  rewrite (bind_defined _ _ _ _ H1), (bind_defined _ _ _ _ H2), (bind_defined _ _ _ _ H3). reflexivity.
Qed.

Lemma send_answer_empty s :
  holds (g_response_queue (srv s)) [] → ∃ q', holds q' [] ∧
    send_answer s = Ok (None, set_srv (set_responses (srv s) q') s).
Proof.
  intros Hq. exists (g_response_queue (srv s)). split; [done|]. unfold send_answer.
  erewrite bind_Ok; [|apply zoom_Ok, zoom_Ok; by apply dequeue_empty]. reflexivity.
Qed.
End steps.

(** ** A request and its answer *)

Section round_trip.
Context `{HT : ValueLaws T} `{HC : AesCtrLaws}.

(** A server at rest: nothing queued, the counters in place. *)
Definition at_rest (v : server T) : Prop :=
  holds (g_request_queue v) [] ∧ holds (g_response_queue v) [] ∧
  rear (g_request_queue v) < 2 ^ 31 - 1 ∧ rear (g_response_queue v) < 2 ^ 31 - 1 ∧
  Z.of_nat (length (ctr_dec v)) = CTR_SIZE ∧ Z.of_nat (length (ctr_enc v)) = CTR_SIZE.

(** The exchange with a client, from the message to the answer, on a buffer that
    holds the whole message.  The one [accept_conn_cb] makes does not, by 4 bytes
    ([FaceAnswers.message_overflows_buffer]): this is what the code means to do,
    and what it does once that buffer is large enough.  The
    application queues the message, which holds a name and a histogram encrypted
    under the client's counter block; a worker answers it; the application gets
    back the connection it came from and four bytes that decrypt under the
    client's other counter block to 1 if the distance of the histogram to the one
    kept for the name (the empty one, if the name is unknown) is below the
    threshold, and to 0 otherwise. Both queues are empty again, the three objects
    made for the request are freed, and the database stays. *)
Theorem request_round_trip stops (s : server_app T) m n req response send_data rest data bev client kb k hb cipher
    junk dec' c enc' :
  db_ok (sv_db (srv s)) m n → at_rest (srv s) → fresh_objects s req response send_data rest →
  buffers (srv s) !! data = Some (bytes_of_int client ++ cipher ++ junk) → 0 ≤ client < 255 →
  Z.of_nat (length kb) = KEY_LENGTH_BYTES → cstr kb = Some k → Z.of_nat (length hb) = HISTOGRAM_LENGTH_BYTES →
  aes_ctr_encrypt (ctr_block (ctr_dec (srv s)) client) (kb ++ hb) = Some (cipher, dec') →
  let answer := if accepts (histogram_distance (ints_of_bytes hb) (saved_histogram m k)) then 1 else 0 in
  aes_ctr_encrypt (ctr_block (ctr_enc (srv s)) client) (bytes_of_int answer) = Some (c, enc') →
  ∃ s' e,
    (_ ← do_trusted_logic data bev;
     _ ← zoom srv (λ v s, set_srv v s) (workload_turn stops);
     send_answer) s = Ok (Some (bev, e), s') ∧
    aes_ctr_decrypt (ctr_block (ctr_enc (srv s)) client) (bytes_of_int e) = Some (bytes_of_int answer, enc') ∧
    ctr_dec (srv s') = patch (ctr_dec (srv s)) (client * 16) dec' ∧
    ctr_enc (srv s') = patch (ctr_enc (srv s)) (client * 16) enc' ∧
    holds (g_request_queue (srv s')) [] ∧ holds (g_response_queue (srv s')) [] ∧
    reqs (srv s') = reqs (srv s) ∧ datas (srv s') = datas (srv s) ∧ db_ok (sv_db (srv s')) m n.
Proof.
  intros Hdb (Hq & Hrq & Hr1 & Hr2 & Hld & Hle) Hfresh Hbuf Hcl Hkl Hk Hhl Henc answer Hans.
  destruct (do_trusted_logic_ok s req response send_data rest data bev [] Hfresh Hq) as (q1 & Hq1 & Hrun1);
    [by vm_compute|done|]. rewrite (bind_Ok _ _ _ _ _ Hrun1).
  destruct Hfresh as (Hn & H1 & H2 & H3 & Hne & Hf1 & Hf2 & Hf3). set (v1 := with_request _ _ _ _ _ _ _) in *.
  destruct (workload_turn_ok stops v1 m n req [] (mkServerData data bev response) client kb k hb cipher junk dec' c
    enc' (mkReq req 0) []) as (v2 & e & Hrun2 & Ha & Hb & Hd & Hreq & Hdec & Hc1 & Hc2 & Hdb2); try done.
  { split; [done|]. split; [done|]. split; [done|]. split.
    - exists (mkReq send_data 0). split; [apply lookup_insert_eq|]. apply lookup_insert_eq.
    - split; [done|]. split; [|done]. destruct (ctr_length _ _ _ _ Henc) as [Hl _].
      rewrite Hl, length_app. unfold data_size. lia. }
  { split; [|by split]. cbn. rewrite lookup_insert_ne by done. apply lookup_insert_eq. }
  cbn [sd_response req_buffer] in *.
  rewrite (bind_zoom srv _ _ _ (set_srv v1 (set_news rest s)) _ _ Hrun2).
  destruct (send_answer_ok (set_srv v2 (set_srv v1 (set_news rest s))) response req send_data bev e []) as (q2 & Hq2 & Hrun3);
    [| |].
  { cbn [srv set_srv]. split; [done|]. rewrite Hreq, Hd. split; [apply lookup_insert_eq|].
    split; [exists 0; rewrite lookup_insert_ne by done; apply lookup_insert_eq|].
    exists data, response. apply lookup_insert_eq. }
  { done. }
  eexists _, e. split; [exact Hrun3|]. cbn [srv set_srv].
  split; [done|]. split; [done|]. split; [done|]. split; [done|]. split; [done|].
  unfold without. cbn. rewrite Hreq, Hd. unfold v1. cbn. split; [|split; [|done]].
  - apply map_eq. intros i. destruct (decide (i = response)), (decide (i = req)); by simplify_map_eq.
  - apply map_eq. intros i. destruct (decide (i = send_data)); by simplify_map_eq.
Qed.
End round_trip.

(** ** Messages *)

Section messages.
Context {T : Type}.
Implicit Types (s : server_app T).

Lemma patch_app b i c r :
  0 ≤ i → i + Z.of_nat (length c) + Z.of_nat (length r) ≤ Z.of_nat (length b) →
  patch (patch b i c) (i + Z.of_nat (length c)) r = patch b i (c ++ r).
Proof.
  intros Hi Hl. unfold patch. replace (Z.to_nat (i + Z.of_nat (length c))) with (Z.to_nat i + length c)%nat by lia.
  assert (length (take (Z.to_nat i) b ++ c) = (Z.to_nat i + length c)%nat) as Hp.
  { rewrite length_app, length_take. lia. }
  rewrite (app_assoc (take (Z.to_nat i) b) c). rewrite <- Hp at 1. rewrite take_app_length.
  rewrite <- !app_assoc. do 3 f_equal. rewrite app_assoc, drop_app_ge by lia.
  rewrite drop_drop, (length_app c r). f_equal. lia.
Qed.

(** The buffer after [input] is read into it. *)
Lemma read_loop_ok input fuel total data s :
  (length input ≤ fuel)%nat → 0 ≤ total → total + Z.of_nat (length input) ≤ Z.of_nat (length data) →
  Z.of_nat (length data) < 2 ^ 31 →
  read_loop fuel input total data s = Ok ((total + Z.of_nat (length input), patch data total input), s).
Proof.
  intros Hf. revert input total data Hf. induction fuel as [|fuel IH]; intros input total data Hf Ht Hroom Hlen.
  all: destruct input as [|x input]; [cbn [read_loop length]; rewrite Z.add_0_r; unfold patch; cbn [length app];
    by rewrite Nat.add_0_r, take_drop|].
  { simpl in Hf. lia. }
  cbn [read_loop]. set (l := x :: input) in *. set (c := take (Z.to_nat READ_SIZE) l).
  assert (length l = length c + length (drop (Z.to_nat READ_SIZE) l))%nat as Hl.
  { rewrite <- length_app. unfold c. by rewrite take_drop. }
  assert (0 < length c)%nat as Hc.
  { unfold c. rewrite length_take. subst l. simpl. unfold READ_SIZE. lia. }
  replace (_ && _) with true by (symmetry; bool_lia). rewrite i32_id by lia.
  rewrite IH by (rewrite ?length_patch by lia; lia). do 3 f_equal; [lia|].
  rewrite patch_app by lia. f_equal. unfold c. by rewrite take_drop.
Qed.

Lemma read_loop_overflow input fuel total data s :
  (length input ≤ fuel)%nat → 0 ≤ total → Z.of_nat (length data) < total + Z.of_nat (length input) →
  Z.of_nat (length data) < 2 ^ 30 → total ≤ Z.of_nat (length data) →
  read_loop fuel input total data s = Err EUndef.
Proof.
  intros Hf. revert input total data Hf. induction fuel as [|fuel IH]; intros input total data Hf Ht Hover Hlen Htl.
  all: destruct input as [|x input]; [simpl in Hover; lia|].
  { simpl in Hf. lia. }
  cbn [read_loop]. set (l := x :: input) in *. set (c := take (Z.to_nat READ_SIZE) l).
  assert (length l = length c + length (drop (Z.to_nat READ_SIZE) l))%nat as Hl.
  { rewrite <- length_app. unfold c. by rewrite take_drop. }
  assert (0 < length c)%nat as Hc.
  { unfold c. rewrite length_take. subst l. simpl. unfold READ_SIZE. lia. }
  destruct (_ && _) eqn:E; [|done]. apply andb_true_iff in E as [_ E%Z.leb_le].
  rewrite i32_id by lia. apply IH; rewrite ?length_patch by lia; lia.
Qed.

(** A connection that has received the bytes [got] of a message. *)
Definition receiving s (ctx : Z) (got : list Z) : Prop :=
  totals s !! ctx = Some (Z.of_nat (length got)) ∧
  ∃ rest, buffers (srv s) !! (ctx + sizeof_int) = Some (got ++ rest) ∧
    Z.of_nat (length (got ++ rest)) = DATA_SIZE.

Definition received s (ctx total : Z) (data : list Z) : server_app T :=
  set_totals (<[ctx := total]> (totals s))
    (set_srv (set_buffers (srv s) (<[ctx + sizeof_int := data]> (buffers (srv s)))) s).

(** A piece that leaves the message incomplete, and one that completes it. *)
Lemma echo_read_cb_part s bev ctx got input :
  receiving s ctx got → Z.of_nat (length (got ++ input)) < DATA_SIZE →
  ∃ s', echo_read_cb bev ctx input s = Ok (tt, s') ∧ receiving s' ctx (got ++ input) ∧
    g_request_queue (srv s') = g_request_queue (srv s) ∧ reqs (srv s') = reqs (srv s) ∧
    datas (srv s') = datas (srv s) ∧ news s' = news s.
Proof.
  intros (Htot & rest & Hbuf & Hlen) Hpart. rewrite length_app in *. unfold DATA_SIZE in *.
  set (b := patch (got ++ rest) (Z.of_nat (length got)) input).
  exists (received s ctx (Z.of_nat (length got) + Z.of_nat (length input)) b). split; [|split; [|done]].
  - unfold echo_read_cb. rewrite bind_gets, (bind_defined _ _ _ _ Htot), (bind_defined _ _ _ _ Hbuf).
    rewrite (bind_Ok _ _ _ _ _ (read_loop_ok input _ (Z.of_nat (length got)) (got ++ rest) s (le_n _) ltac:(lia) ltac:(rewrite length_app; lia)
      ltac:(rewrite length_app; lia))). cbv beta iota. rewrite bind_on_srv, bind_modify.
    rewrite (proj2 (Z.ltb_lt _ _)) by (unfold DATA_SIZE; lia). reflexivity.
  - split; [cbn; rewrite lookup_insert_eq, length_app; f_equal; lia|].
    exists (drop (length input) rest). cbn [srv received set_totals set_srv buffers set_buffers].
    rewrite lookup_insert_eq. split.
    + f_equal. unfold b, patch. rewrite Nat2Z.id, take_app_length, <- app_assoc. do 2 f_equal.
      rewrite drop_app_ge by lia. f_equal. lia.
    + rewrite !length_app, length_drop. unfold DATA_SIZE. lia.
Qed.

Lemma echo_read_cb_last s bev ctx got input req response send_data rest0 l :
  receiving s ctx got → Z.of_nat (length (got ++ input)) = DATA_SIZE →
  fresh_objects s req response send_data rest0 → holds (g_request_queue (srv s)) l →
  Z.of_nat (length l) < queue_size → rear (g_request_queue (srv s)) < 2 ^ 31 - 1 →
  ∃ s', echo_read_cb bev ctx input s = Ok (tt, s') ∧ receiving s' ctx [] ∧
    buffers (srv s') !! (ctx + sizeof_int) = Some (got ++ input) ∧
    holds (g_request_queue (srv s')) (l ++ [req]) ∧
    reqs (srv s') !! req = Some (mkReq send_data 0) ∧
    datas (srv s') !! send_data = Some (mkServerData (ctx + sizeof_int) bev response).
Proof.
  intros (Htot & rest & Hbuf & Hlen) Hfull Hfresh Hq Hroom Hrear. rewrite length_app in *. unfold DATA_SIZE in *.
  assert (patch (got ++ rest) (Z.of_nat (length got)) input = got ++ input) as Hb.
  { unfold patch. rewrite Nat2Z.id, take_app_length. f_equal. rewrite drop_ge; [apply app_nil_r|].
    rewrite length_app. lia. }
  set (s1 := set_totals (<[ctx := 0]> (totals (received s ctx DATA_SIZE (got ++ input))))
    (received s ctx DATA_SIZE (got ++ input))).
  assert (fresh_objects s1 req response send_data rest0) as Hf by exact Hfresh.
  destruct (do_trusted_logic_ok s1 req response send_data rest0 (ctx + sizeof_int) bev l Hf Hq Hroom Hrear)
    as (q' & Hq' & Hrun).
  exists (set_srv (with_request (srv s1) req response send_data (ctx + sizeof_int) bev q') (set_news rest0 s1)).
  split; [|split; [|split; [|split; [exact Hq'|split; [apply lookup_insert_eq|apply lookup_insert_eq]]]]].
  - unfold echo_read_cb. rewrite bind_gets, (bind_defined _ _ _ _ Htot), (bind_defined _ _ _ _ Hbuf).
    rewrite (bind_Ok _ _ _ _ _ (read_loop_ok input _ (Z.of_nat (length got)) (got ++ rest) s (le_n _) ltac:(lia) ltac:(rewrite length_app; lia)
      ltac:(rewrite length_app; lia))). cbv beta iota. rewrite bind_on_srv, bind_modify, Hb.
    rewrite (proj2 (Z.ltb_ge _ _)) by (unfold DATA_SIZE; lia). rewrite bind_modify.
    replace (Z.of_nat (length got) + Z.of_nat (length input)) with DATA_SIZE by (unfold DATA_SIZE; lia).
    rewrite (bind_Ok _ _ _ _ _ Hrun). reflexivity.
  - split; [cbn; apply lookup_insert_eq|]. exists (got ++ input). cbn [srv].
    split; [apply lookup_insert_eq|]. simpl. rewrite length_app. unfold DATA_SIZE. lia.
  - apply lookup_insert_eq.
Qed.

(** A new connection: its buffer is all zeros, and nothing is received yet. *)
Lemma accept_conn_cb_ok s bev ctx rest :
  news s = bev :: ctx :: rest → bev ≠ 0 → ctx ≠ 0 →
  ∃ s', accept_conn_cb s = Ok (bev, s') ∧ receiving s' ctx [] ∧ g_request_queue (srv s') = g_request_queue (srv s) ∧
    reqs (srv s') = reqs (srv s) ∧ datas (srv s') = datas (srv s) ∧ news s' = rest.
Proof.
  intros Hn Hbev Hctx. eexists. split; [|split].
  - unfold accept_conn_cb. rewrite (bind_new_ptr bev _ _ s Hn), (bind_new_ptr ctx rest) by done.
    rewrite (proj2 (Z.eqb_neq ctx 0)) by done. rewrite bind_ret, bind_modify, bind_on_srv.
    rewrite (proj2 (Z.eqb_neq bev 0)) by done. rewrite bind_ret, bind_modify. reflexivity.
  - split; [cbn; apply lookup_insert_eq|]. exists (replicate (Z.to_nat DATA_SIZE) 0).
    split; [cbn [srv set_srv set_outputs set_ctxs buffers set_buffers]; apply lookup_insert_eq|].
    cbn [app]. rewrite length_replicate. apply Z2Nat.id. unfold DATA_SIZE. lia.
  - done.
Qed.

(** Bytes past the end of the message are written past the buffer. *)
Lemma echo_read_cb_overflow s bev ctx got input :
  receiving s ctx got → DATA_SIZE < Z.of_nat (length (got ++ input)) → echo_read_cb bev ctx input s = Err EUndef.
Proof.
  intros (Htot & rest' & Hbuf & Hlen) Hover. unfold echo_read_cb.
  rewrite bind_gets, (bind_defined _ _ _ _ Htot), (bind_defined _ _ _ _ Hbuf).
  rewrite !length_app in *. unfold DATA_SIZE in *.
  rewrite (bind_Err _ _ _ EUndef); [done|]. apply read_loop_overflow; rewrite ?length_app; lia.
Qed.

(** libevent calls the callback for every piece it has read. *)
Fixpoint pieces_cb (bev ctx : Z) (pieces : list (list Z)) : M (server_app T) unit :=
  match pieces with
  | [] => mret tt
  | input :: pieces' => echo_read_cb bev ctx input;; pieces_cb bev ctx pieces'
  end.

Lemma pieces_ok bev ctx pieces s got :
  receiving s ctx got → Z.of_nat (length (got ++ concat pieces)) < DATA_SIZE →
  ∃ s', pieces_cb bev ctx pieces s = Ok (tt, s') ∧ receiving s' ctx (got ++ concat pieces) ∧
    g_request_queue (srv s') = g_request_queue (srv s) ∧ reqs (srv s') = reqs (srv s) ∧
    datas (srv s') = datas (srv s) ∧ news s' = news s.
Proof.
  revert s got. induction pieces as [|input pieces IH]; intros s got Hr Hlen; cbn [pieces_cb concat] in *.
  { exists s. by rewrite app_nil_r. }
  rewrite app_assoc in Hlen |- *. destruct (echo_read_cb_part s bev ctx got input Hr) as (s1 & Hrun & Hr1 & H1 & H2 & H3 & H4).
  { rewrite length_app in Hlen. lia. }
  rewrite (bind_Ok _ _ _ _ _ Hrun). destruct (IH s1 _ Hr1 Hlen) as (s' & Hrun' & Hr' & H1' & H2' & H3' & H4').
  exists s'. split_and!; try done; congruence.
Qed.

(** A message of [DATA_SIZE] bytes is put together whatever the pieces it
    arrives in: only the last piece queues a request, whose buffer then holds the
    whole message, and the count is 0 again for the next one. *)
Theorem echo_read_assembles s bev ctx pieces last req response send_data rest l :
  receiving s ctx [] → last ≠ [] → Z.of_nat (length (concat pieces ++ last)) = DATA_SIZE →
  fresh_objects s req response send_data rest → holds (g_request_queue (srv s)) l →
  Z.of_nat (length l) < queue_size → rear (g_request_queue (srv s)) < 2 ^ 31 - 1 →
  ∃ s1 s2, pieces_cb bev ctx pieces s = Ok (tt, s1) ∧
    g_request_queue (srv s1) = g_request_queue (srv s) ∧
    echo_read_cb bev ctx last s1 = Ok (tt, s2) ∧
    holds (g_request_queue (srv s2)) (l ++ [req]) ∧
    reqs (srv s2) !! req = Some (mkReq send_data 0) ∧
    datas (srv s2) !! send_data = Some (mkServerData (ctx + sizeof_int) bev response) ∧
    buffers (srv s2) !! (ctx + sizeof_int) = Some (concat pieces ++ last) ∧ receiving s2 ctx [].
Proof.
  intros Hr Hlast Hlen Hfresh Hq Hroom Hrear.
  destruct (pieces_ok bev ctx pieces s [] Hr) as (s1 & Hrun1 & Hr1 & E1 & E2 & E3 & E4).
  { rewrite length_app in Hlen. destruct last; [done|]. simpl in *. lia. }
  assert (fresh_objects s1 req response send_data rest) as Hf1.
  { unfold fresh_objects. rewrite E2, E3, E4. exact Hfresh. }
  rewrite <- E1 in Hq, Hrear.
  destruct (echo_read_cb_last s1 bev ctx (concat pieces) last req response send_data rest l Hr1 Hlen Hf1 Hq Hroom Hrear)
    as (s2 & Hrun2 & Hr2 & Hb & Hq2 & Hreq & Hd).
  exists s1, s2. split; [done|]. split; [done|]. split; [done|]. by split.
Qed.
End messages.
