(* ===== verification/FaceAnswers.v ===== *)
(** * Answers, and what goes wrong

    The timer's callback sends every answer to the connection it is for; a
    client that leaves too early, and a buffer that is too small for the message,
    make the server's behaviour undefined.  Examples for the theorems of
    [FaceAppThms]. *)

From Stdlib Require Import SpecFloat.
From S2P Require Import Prelude CString SyncUtils Ring Queue FaceHash FaceHashThms FaceHashDb.
From S2P Require Import Lbp LbpThms FaceServer FaceServerThms FaceWorker FaceApp FaceAppThms.

#[local] Opaque HISTOGRAM_LENGTH_BYTES create_pattern2bin HIST_INTS plain black.

Section answers.
Context {T : Type}.
Implicit Types (s : server_app T).

(** A response in the queue and what it leads to. *)
Record pending := mkPending { p_resp : Z; p_req : Z; p_data : Z; p_bev : Z; p_answer : Z }.
Definition pends (v : server T) (p : pending) : Prop :=
  answered v (p_resp p) (p_req p) (p_data p) (p_bev p) (p_answer p).

(** The objects of the pending responses are all different. *)
Definition apart (l : list pending) : Prop :=
  NoDup ((p_resp <$> l) ++ (p_req <$> l)) ∧ NoDup (p_data <$> l).

Definition deliver (o : gmap Z (list Z)) (p : pending) : gmap Z (list Z) :=
  alter (λ b, b ++ bytes_of_int (p_answer p)) (p_bev p) o.

Lemma apart_cons p l :
  apart (p :: l) → apart l ∧
    ∀ p', p' ∈ l → p_resp p' ≠ p_resp p ∧ p_resp p' ≠ p_req p ∧ p_req p' ≠ p_resp p ∧ p_req p' ≠ p_req p ∧
      p_data p' ≠ p_data p.
Proof.
  intros [H1 H2]. simpl in *. apply NoDup_cons in H1 as [Hr H1], H2 as [Hd H2].
  apply NoDup_app in H1 as (H1 & H3 & H4). apply NoDup_cons in H4 as [Hq H4].
  rewrite not_elem_of_app, not_elem_of_cons in Hr. destruct Hr as (Hr1 & Hr2 & Hr3). split.
  - split; [|done]. apply NoDup_app. split; [done|]. split; [|done]. intros x Hx Hx'. apply (H3 x Hx). by right.
  - intros p' Hp'. pose proof (list_elem_of_fmap_2 p_resp l p' Hp'). pose proof (list_elem_of_fmap_2 p_req l p' Hp').
    pose proof (list_elem_of_fmap_2 p_data l p' Hp').
    split_and!; intros E; [by rewrite E in H| |by rewrite E in H0|by rewrite E in H0|by rewrite E in H5].
    apply (H3 (p_resp p')); [done|]. rewrite E. by left.
Qed.

(** C36. The timer's callback: every response that waits is sent, in the order of
    the queue, to the output buffer of the connection its request came from; the
    queue is empty then and the three objects of each request are freed. The
    connections are taken to be open still. *)
Theorem cb_func_delivers l s fuel :
  holds (g_response_queue (srv s)) (p_resp <$> l) → Forall (pends (srv s)) l → apart l →
  (∀ p, p ∈ l → is_Some (outputs s !! p_bev p)) → (length l < fuel)%nat →
  ∃ s', cb_func fuel s = Ok (tt, s') ∧ outputs s' = fold_left deliver l (outputs s) ∧
    holds (g_response_queue (srv s')) [] ∧
    ∀ p, p ∈ l → reqs (srv s') !! p_resp p = None ∧ reqs (srv s') !! p_req p = None ∧
      datas (srv s') !! p_data p = None.
Proof.
  cut (∀ l s fuel, holds (g_response_queue (srv s)) (p_resp <$> l) → Forall (pends (srv s)) l → apart l →
    (∀ p, p ∈ l → is_Some (outputs s !! p_bev p)) → (length l < fuel)%nat →
    ∃ s', cb_func fuel s = Ok (tt, s') ∧ outputs s' = fold_left deliver l (outputs s) ∧
      holds (g_response_queue (srv s')) [] ∧
      (∀ i, reqs (srv s) !! i = None → reqs (srv s') !! i = None) ∧
      (∀ i, datas (srv s) !! i = None → datas (srv s') !! i = None) ∧
      ∀ p, p ∈ l → reqs (srv s') !! p_resp p = None ∧ reqs (srv s') !! p_req p = None ∧
        datas (srv s') !! p_data p = None).
  { intros H H1 H2 H3 H4 H5. destruct (H l s fuel H1 H2 H3 H4 H5) as (s' & ? & ? & ? & _ & _ & ?). by exists s'. }
  clear l s fuel. induction l as [|p l IH]; intros s fuel Hq Hp Hap Ho Hf; (destruct fuel as [|fuel]; [simpl in Hf; lia|]).
  { destruct (send_answer_empty s Hq) as (q' & Hq' & Hrun). eexists. cbn [cb_func].
    rewrite (bind_Ok _ _ _ _ _ Hrun). split; [reflexivity|]. split; [done|]. split; [done|]. split; [done|].
    split; [done|]. intros p Hp'. by apply elem_of_nil in Hp'. }
  apply Forall_cons in Hp as [Hp Hl]. destruct (apart_cons p l Hap) as [Hap' Hne].
  destruct (send_answer_ok s _ _ _ _ _ _ Hp Hq) as (q' & Hq' & Hrun). cbn [cb_func].
  rewrite (bind_Ok _ _ _ _ _ Hrun). cbv beta iota. rewrite bind_gets.
  set (v' := without (srv s) (p_resp p) (p_req p) (p_data p) q') in *.
  destruct (Ho p) as [o Hop]; [by left|]. cbn [outputs set_srv]. rewrite (bind_defined _ _ _ _ Hop), bind_modify.
  set (s1 := set_outputs _ _). destruct (IH s1 fuel) as (s' & Hrun' & H1 & H2 & H3 & H4 & H5); try done.
  - apply Forall_forall. intros p' Hp'. destruct (Hne p' Hp') as (N1 & N2 & N3 & N4 & N5).
    rewrite Forall_forall in Hl. destruct (Hl p' Hp') as (A0 & A1 & [d A2] & (b & r & A3)).
    split; [done|]. cbn. rewrite !lookup_delete_ne by done. split; [done|]. split; [by exists d|]. by exists b, r.
  - intros p' Hp'. cbn [outputs s1 set_outputs]. rewrite lookup_insert. case_decide; [by eexists|]. apply Ho. by right.
  - simpl in Hf. lia.
  - exists s'. split; [exact Hrun'|]. split; [|split; [done|]].
    { rewrite H1. cbn [fold_left]. f_equal. unfold deliver, s1. cbn [outputs set_outputs].
      apply map_eq. intros i. destruct (decide (i = p_bev p)) as [->|].
      - by rewrite lookup_insert_eq, lookup_alter_eq, Hop.
      - by rewrite lookup_insert_ne, lookup_alter_ne by done. }
    assert (∀ i, reqs (srv s) !! i = None ∨ i = p_resp p ∨ i = p_req p → reqs (srv s') !! i = None) as Hr.
    { intros i Hi. apply H3. cbn. destruct (decide (i = p_resp p)) as [->|]; [by rewrite lookup_delete_eq|].
      rewrite lookup_delete_ne by done. destruct (decide (i = p_req p)) as [->|]; [by rewrite lookup_delete_eq|].
      rewrite lookup_delete_ne by done. naive_solver. }
    assert (∀ i, datas (srv s) !! i = None ∨ i = p_data p → datas (srv s') !! i = None) as Hd.
    { intros i Hi. apply H4. cbn. destruct (decide (i = p_data p)) as [->|]; [by rewrite lookup_delete_eq|].
      rewrite lookup_delete_ne by done. naive_solver. }
    split; [intros i Hi; apply Hr; by left|]. split; [intros i Hi; apply Hd; by left|].
    intros p' [->|Hp']%elem_of_cons; [|by apply H5].
    split; [apply Hr; by right; left|]. split; [apply Hr; by right; right|]. apply Hd. by right.
Qed.

(** A client that leaves while its request is answered: the callback for the
    end of a connection frees it and its buffer, and the answer is then sent
    through a pointer to nothing. *)
Theorem answer_after_disconnect s events fuel ctx p l :
  Z.land events (Z.lor BEV_EVENT_EOF BEV_EVENT_ERROR) ≠ 0 →
  holds (g_response_queue (srv s)) (p_resp p :: l) → pends (srv s) p →
  (echo_event_cb (p_bev p) events ctx;; cb_func (S fuel)) s = Err EUndef.
Proof.
  intros Hev Hq Hp. unfold echo_event_cb. rewrite (proj2 (Z.eqb_neq _ _)) by done.
  rewrite bind_assoc, bind_modify, bind_assoc, bind_modify, bind_on_srv.
  set (s1 := set_srv _ _). destruct (send_answer_ok s1 _ _ _ _ _ _ Hp Hq) as (q' & _ & Hrun).
  cbn [cb_func]. rewrite (bind_Ok _ _ _ _ _ Hrun). cbv beta iota. rewrite bind_gets. cbn [outputs set_srv s1].
  replace (_ !! _) with (@None (list Z)); [done|]. cbn. by rewrite lookup_delete_eq.
Qed.

(** A worker that opens a request with a buffer of [DATA_SIZE] bytes reads past
    its end. *)
Lemma workload_turn_short_buffer `{ValueStore T} `{AesCtr} stops (v : server T) req rest r sd data :
  holds (g_request_queue v) (req :: rest) → req ≠ 0 → reqs v !! req = Some r → datas v !! req_buffer r = Some sd →
  buffers v !! sd_buffer sd = Some data → Z.of_nat (length data) = DATA_SIZE → workload_turn stops v = Err EUndef.
Proof.
  intros Hq Hreq Hr Hsd Hbuf Hlen. destruct (dequeue_ok _ _ _ Hq) as (q1 & Hdeq & _ & _).
  unfold workload_turn. rewrite (bind_zoom g_request_queue _ _ _ _ _ _ Hdeq).
  rewrite (proj2 (Z.eqb_neq req 0)) by done. rewrite (bind_Err _ _ _ EUndef); [done|].
  unfold open_request. rewrite bind_gets. cbn [reqs set_requests].
  rewrite (bind_defined _ _ _ _ Hr), bind_gets. cbn [datas set_requests]. rewrite (bind_defined _ _ _ _ Hsd), bind_gets.
  cbn [buffers set_requests]. rewrite (bind_defined _ _ _ _ Hbuf).
  assert (∀ (s0 : server T), slice data 0 sizeof_int s0 = Ok (take (Z.to_nat sizeof_int) data, s0)) as H1.
  { intros s0. unfold slice. rewrite Hlen. reflexivity. }
  rewrite (bind_Ok _ _ _ _ _ (H1 _)). cbv zeta. apply bind_Err.
  assert (data_size = DATA_SIZE) as Hds by (vm_compute; reflexivity). unfold slice. by rewrite Hlen, Hds.
Qed.

(** C40. The server's buffers are 4 bytes too small for the client's message of
    4 + 237608 bytes, so no message is served. From the callback that accepts the
    connection and makes the buffer, over the pieces the bytes arrive in: as long
    as the bytes are fewer than [DATA_SIZE] the server waits for more. When a
    piece brings them past [DATA_SIZE] the read callback writes past the buffer.
    When a piece ends exactly there, 4 bytes early, a request is queued, and the
    worker that takes it reads past the buffer. *)
Theorem message_overflows_buffer `{ValueStore T} `{AesCtr} s bev ctx req response send_data rest pieces last stops :
  news s = bev :: ctx :: req :: response :: send_data :: rest → bev ≠ 0 → ctx ≠ 0 →
  fresh_objects (set_news [req; response; send_data] s) req response send_data [] →
  holds (g_request_queue (srv s)) [] → rear (g_request_queue (srv s)) < 2 ^ 31 - 1 →
  let read := (_ ← accept_conn_cb; pieces_cb bev ctx pieces;; echo_read_cb bev ctx last) in
  let total := Z.of_nat (length (concat pieces ++ last)) in
  Z.of_nat (length (concat pieces)) < DATA_SIZE →
  sizeof_int + data_size = DATA_SIZE + 4 ∧
  (total < DATA_SIZE → ∃ s', read s = Ok (tt, s') ∧ receiving s' ctx (concat pieces ++ last) ∧
     g_request_queue (srv s') = g_request_queue (srv s)) ∧
  (DATA_SIZE < total → read s = Err EUndef) ∧
  (total = DATA_SIZE → (∃ s', read s = Ok (tt, s') ∧ holds (g_request_queue (srv s')) [req]) ∧
     (read;; zoom srv (λ v s, set_srv v s) (workload_turn stops)) s = Err EUndef).
Proof.
  intros Hn Hbev Hctx (_ & Hf) Hq Hrear read total Hp.
  assert (data_size = DATA_SIZE) as Hds by (vm_compute; reflexivity).
  destruct (accept_conn_cb_ok s bev ctx _ Hn Hbev Hctx) as (s1 & Hacc & Hr1 & A1 & A2 & A3 & A4).
  destruct (pieces_ok bev ctx pieces s1 [] Hr1 Hp) as (s2 & Hpc & Hr2 & B1 & B2 & B3 & B4). cbn [app] in Hr2.
  assert (read s = echo_read_cb bev ctx last s2) as Hread.
  { unfold read. rewrite (bind_Ok _ _ _ _ _ Hacc). by rewrite (bind_Ok _ _ _ _ _ Hpc). }
  split; [rewrite Hds; unfold sizeof_int; lia|]. rewrite Hread. split; [|split].
  - intros Hlt. destruct (echo_read_cb_part s2 bev ctx _ last Hr2 Hlt) as (s3 & Hrun & Hr3 & C1 & _).
    exists s3. split; [done|]. split; [done|]. congruence.
  - intros Hgt. by apply (echo_read_cb_overflow s2 bev ctx (concat pieces)).
  - intros Heq. rewrite <- A1, <- B1 in Hq, Hrear.
    assert (fresh_objects s2 req response send_data rest) as Hf2.
    { split; [congruence|]. rewrite B2, B3, A2, A3. exact Hf. }
    destruct (echo_read_cb_last s2 bev ctx _ last req response send_data rest [] Hr2 Heq Hf2 Hq) as
      (s3 & Hrun & _ & Hb & Hq3 & Hreq & Hd); [by vm_compute|done|].
    split; [by exists s3|]. rewrite <- Hread in Hrun. rewrite (bind_Ok _ _ _ _ _ Hrun). apply zoom_Err.
    by apply (workload_turn_short_buffer stops (srv s3) req [] _ _ _ Hq3 (proj1 Hf) Hreq Hd Hb).
Qed.
End answers.

(** ** Examples *)

#[local] Existing Instance clear_ctr.
#[local] Existing Instance clear_laws.

(** A client's message in a buffer that is large enough, and a server at rest. *)
Definition one_message : server_app native :=
  mkApp (mkServer (mkDb initial_table empty_memory) (replicate (Z.to_nat CTR_SIZE) 0) (replicate (Z.to_nat CTR_SIZE) 0)
      [] (Queue_ctor 0) (Queue_ctor 0) ∅ ∅ (<[32 := bytes_of_int 3 ++ message 49 ++ []]> ∅))
    [8; 24; 16] ∅ ∅ ∅.

Lemma one_message_at_rest : at_rest (srv one_message).
Proof.
  split; [apply Queue_ctor_holds|]. split; [apply Queue_ctor_holds|]. split; [reflexivity|]. split; [reflexivity|].
  split; cbn [srv one_message ctr_dec ctr_enc]; rewrite length_replicate; reflexivity.
Qed.

Lemma request_round_trip_witness :
  ∃ s' e, (_ ← do_trusted_logic 32 40;
     _ ← zoom srv (λ v s, set_srv v s) (workload_turn false);
     send_answer) one_message = Ok (Some (40, e), s') ∧
    (bytes_of_int e = bytes_of_int 0 ∨ bytes_of_int e = bytes_of_int 1) ∧ reqs (srv s') = ∅.
Proof.
  destruct (request_round_trip false one_message ∅ 0 8 24 16 [] 32 40 3 name_1 [49] (plain 0)
    (message 49) [] (ctr_block (ctr_dec (srv one_message)) 3) answer_1 (ctr_block (ctr_enc (srv one_message)) 3)
    initial_ok one_message_at_rest) as (s' & e & H1 & H2 & _ & _ & _ & _ & H3 & _).
  - repeat (split; [reflexivity || lia|]). reflexivity.
  - reflexivity.
  - lia.
  - reflexivity.
  - reflexivity.
  - apply length_plain.
  - apply (clear_plain _ name_1); [|discriminate]. split; [|discriminate]. repeat constructor; simpl; lia.
  - apply answer_clear.
  - exists s', e. split; [exact H1|]. split; [|exact H3].
    destruct (clear_Some _ _ _ _ H2) as [E _]. rewrite <- E.
    destruct (accepts _); [right|left]; reflexivity.
Defined.

(** A connection that waits for a message. *)
Definition connected : server_app native :=
  mkApp (mkServer (mkDb initial_table empty_memory) [] [] [] (Queue_ctor 0) (Queue_ctor 0) ∅ ∅
      (<[68 := replicate (Z.to_nat DATA_SIZE) 0]> ∅))
    [8; 24; 16] (<[40 := 64]> ∅) (<[64 := 0]> ∅) (<[40 := []]> ∅).

Lemma connected_receiving : receiving connected 64 [].
Proof.
  split; [reflexivity|]. exists (replicate (Z.to_nat DATA_SIZE) 0). split; [reflexivity|].
  cbn [app]. rewrite length_replicate. apply Z2Nat.id. vm_compute. discriminate.
Qed.

Lemma echo_read_assembles_witness :
  ∃ s1 s2, pieces_cb 40 64 [[1; 2]; replicate (Z.to_nat (DATA_SIZE - 3)) 3] connected = Ok (tt, s1) ∧
    echo_read_cb 40 64 [4] s1 = Ok (tt, s2) ∧ holds (g_request_queue (srv s2)) [8].
Proof.
  destruct (echo_read_assembles connected 40 64 [[1; 2]; replicate (Z.to_nat (DATA_SIZE - 3)) 3] [4] 8 24 16 [] []
    connected_receiving) as (s1 & s2 & H1 & _ & H2 & H3 & _).
  - discriminate.
  - cbn [concat]. rewrite app_nil_r, !length_app, length_replicate. simpl length.
    rewrite !Nat2Z.inj_add, Z2Nat.id by (vm_compute; discriminate). reflexivity.
  - repeat (split; [reflexivity || lia|]). reflexivity.
  - apply Queue_ctor_holds.
  - reflexivity.
  - reflexivity.
  - exists s1, s2. split; [exact H1|]. split; [exact H2|exact H3].
Defined.

(** A response that waits to be sent. *)
Definition one_response : server_app native :=
  mkApp (mkServer (mkDb initial_table empty_memory) [] [] [] (Queue_ctor 0) (queue_of 24)
      (<[8 := mkReq 16 0]> (<[24 := mkReq 8 7]> ∅)) (<[16 := mkServerData 68 40 24]> ∅) ∅)
    [] (<[40 := 64]> ∅) (<[64 := 0]> ∅) (<[40 := []]> ∅).

Lemma one_response_pends : pends (srv one_response) (mkPending 24 8 16 40 7).
Proof. split; [discriminate|]. split; [reflexivity|]. split; [exists 0|exists 68, 24]; reflexivity. Qed.

Lemma cb_func_delivers_witness :
  ∃ s', cb_func 2 one_response = Ok (tt, s') ∧ outputs s' = <[40 := [7; 0; 0; 0]]> ∅.
Proof.
  destruct (cb_func_delivers [mkPending 24 8 16 40 7] one_response 2) as (s' & H1 & H2 & _).
  - apply (queue_of_holds 24).
  - constructor; [exact one_response_pends|constructor].
  - split; simpl; repeat constructor; set_solver.
  - intros p Hp. apply list_elem_of_singleton in Hp as ->. exists []. reflexivity.
  - simpl. lia.
  - exists s'. split; [exact H1|]. rewrite H2. reflexivity.
Defined.

Lemma answer_after_disconnect_witness :
  (echo_event_cb 40 BEV_EVENT_EOF 64;; cb_func 2) one_response = Err EUndef.
Proof.
  apply (answer_after_disconnect one_response BEV_EVENT_EOF 1 64 (mkPending 24 8 16 40 7) []).
  - discriminate.
  - apply (queue_of_holds 24).
  - exact one_response_pends.
Defined.

(** A server that nobody is connected to; what it allocates next. *)
Definition unconnected : server_app native :=
  mkApp (mkServer (mkDb initial_table empty_memory) [] [] [] (Queue_ctor 0) (Queue_ctor 0) ∅ ∅ ∅)
    [40; 64; 8; 24; 16] ∅ ∅ ∅.

(** A message whole, and one that arrives in two pieces, the second of 4 bytes. *)
Lemma message_overflows_buffer_witness :
  (_ ← accept_conn_cb; pieces_cb 40 64 [];; echo_read_cb 40 64 (replicate (Z.to_nat (sizeof_int + data_size)) 1))
    unconnected = Err EUndef ∧
  ((_ ← accept_conn_cb; pieces_cb 40 64 [];; echo_read_cb 40 64 (replicate (Z.to_nat DATA_SIZE) 1));;
   zoom srv (λ v s, set_srv v s) (workload_turn false)) unconnected = Err EUndef.
Proof.
  assert (fresh_objects (set_news [8; 24; 16] unconnected) 8 24 16 []) as Hf.
  { repeat (split; [reflexivity || lia|]). reflexivity. }
  assert (∀ n, 0 ≤ n → Z.of_nat (length (replicate (Z.to_nat n) 1)) = n) as Hl.
  { intros n Hn. rewrite length_replicate. apply Z2Nat.id, Hn. }
  split.
  - destruct (message_overflows_buffer unconnected 40 64 8 24 16 [] [] (replicate (Z.to_nat (sizeof_int + data_size)) 1) false)
      as (H1 & _ & H2 & _); [reflexivity|lia|lia|exact Hf|apply Queue_ctor_holds|reflexivity|reflexivity|].
    apply H2. cbn [app concat]. rewrite Hl, H1; [reflexivity|]. rewrite H1. unfold DATA_SIZE. lia.
  - destruct (message_overflows_buffer unconnected 40 64 8 24 16 [] [] (replicate (Z.to_nat DATA_SIZE) 1) false)
      as (_ & _ & _ & H3); [reflexivity|lia|lia|exact Hf|apply Queue_ctor_holds|reflexivity|reflexivity|].
    apply H3. cbn [app concat]. apply Hl. unfold DATA_SIZE. lia.
Defined.
