(* ===== verification/GenRequests.v ===== *)
(** * The workload generator

    Models the rest of [generate_encrypted_dataset.c]: the images it reads, the
    requests it makes of them and the file of encrypted messages it writes.
    [rand], the directory and AES-CTR are the operating system's and the SDK's:
    parameters. Writes to the file are complete.  The theorems: each message of the
    dataset is whole, and decrypts to the name and the histogram of a request
    unless its encryption failed, which the code does not notice. *)

From Stdlib Require Import SpecFloat.
From S2P Require Import Prelude CString FaceHash Lbp FaceServer SafeMem GenHash.
From S2P Require Import FaceServerThms FaceWorker.

(** ** What the file has in common with the server

    [memset_s], [consttime_memequal] and the histogram routines are the same
    text; here is this file's instance of each. *)

Definition memset_s : Z → Z → Z → Z → M mem_t Z := SafeMem.memset_s.
Definition consttime_memequal : list Z → list Z → Z → option Z := SafeMem.consttime_memequal.
Definition hash_function : list Z → Z → option Z := FaceHash.hash_function.
Definition get_pattern : list Z → Z → Z → option Z := Lbp.get_pattern.
Definition is_pattern_uniform : Z → bool := Lbp.is_pattern_uniform.
Definition rotate : Z → Z → Z := Lbp.rotate.
Definition create_pattern2bin : list Z := Lbp.create_pattern2bin.
Definition calc_histogram : list Z → list Z → option (list Z) := Lbp.calc_histogram.

(** This one prints the bins and aborts. [None] is the null pointer. *)
Definition histogram_distance {T} (h1 : list Z) (h2 : option (list Z)) : M T spec_float :=
  h2 ← defined h2;
  if (HIST_INTS <=? Z.of_nat (length h1)) && (HIST_INTS <=? Z.of_nat (length h2)) then fail EAbort else fail EUndef.

(** ** The database *)

Definition do_one (p2b img key : list Z) : M gen spec_float :=
  histogram ← defined (calc_histogram img p2b);
  s ← gets hmap;
  r ← hashmap_get s key;
  histogram_distance histogram
    ((λ x, ints_of_bytes (take (Z.to_nat HISTOGRAM_LENGTH_BYTES) (drop (Z.to_nat x.1) (buffer s)))) <$> r).

(** [sprintf(fname, "%s/%s", path, dent->d_name)] into [n] bytes. *)
Definition sprintf_path {T} (n : Z) (path name : list Z) : M T unit :=
  s ← defined (cstr name);
  if Z.of_nat (length path) + 1 + Z.of_nat (length s) <? n then mret tt else fail EUndef.

Section populate.
Variable mem : nat → option (Z → Z).

(** One entry of the directory; [added] is [already_added]. *)
Definition populate_entry (path p2b : list Z) (dent : dirent) (added : list Z) : M gen (list Z) :=
  sprintf_path 40 path (d_name dent);;
  if is_dir dent then mret added
  else
    key ← defined (strtok 95 (d_name dent));
    key_int ← defined (atoi key);
    added ← (if Z.of_nat (length added) <=? u64 key_int
             then gen_realloc mem added (Z.of_nat (length added)) (Z.of_nat (length added) * 2)
             else mret added);
    seen ← (if key_int <? 0 then fail EUndef else defined (added !! Z.to_nat key_int));
    if negb (seen =? 0) then mret added
    else
      let added := <[Z.to_nat key_int := 1]> added in
      chunks ← match reads dent with None => fail EAbort | Some c => mret c end;
      img ← read_image chunks [];
      histogram ← defined (calc_histogram img p2b);
      hashmap_put mem key (bytes_of_ints histogram) HISTOGRAM_LENGTH_BYTES false;;
      mret added.

Fixpoint populate_loop (path p2b : list Z) (dir : list dirent) (added : list Z) : M gen (list Z) :=
  match dir with
  | [] => mret added
  | dent :: dir' =>
      added ← populate_entry path p2b dent added;
      populate_loop path p2b dir' added
  end.

(** [already_added] holds what its block happens to hold. *)
Definition populate_database (path p2b : list Z) (dir : option (list dirent)) : M gen Z :=
  _ ← gen_malloc mem;
  dir ← match dir with None => fail EAbort | Some d => mret d end;
  g ← gen_malloc mem;
  _ ← populate_loop path p2b dir ((λ j, i8 (g j)) <$> seqZ 0 1024);
  mret 0.

(** ** Requests *)

Record greq_t := mkGReq { gname : list Z; ghist : list Z }.
Definition sizeof_greq : Z := 40 + HISTOGRAM_LENGTH_BYTES.

(** The requests loaded so far, in an array with room for [size]; a new one's
    [name] holds what the block happens to hold. *)
Fixpoint load_loop (path p2b : list Z) (dir : list dirent) (arr : list greq_t) (size : Z) (garbage : Z → Z)
    : M gen (list greq_t) :=
  match dir with
  | [] => mret arr
  | dent :: dir' =>
      sprintf_path 200 path (d_name dent);;
      if is_dir dent then load_loop path p2b dir' arr size garbage
      else
        '(size, garbage) ← (if Z.of_nat (length arr) =? size
                 then _ ← gen_malloc mem; mret (size * 2, λ _, 0)
                 else mret (size, garbage));
        chunks ← match reads dent with None => fail EAbort | Some c => mret c end;
        img ← read_image chunks [];
        key ← defined (strtok 95 (d_name dent));
        hist ← defined (calc_histogram img p2b);
        let old := (λ j, u8 (garbage (sizeof_greq * Z.of_nat (length arr) + j))) <$> seqZ 0 40 in
        name ← defined (strcpy 40 old key);
        load_loop path p2b dir' (arr ++ [mkGReq name hist]) size garbage
  end.

Definition load_requests (path p2b : list Z) (dir : option (list dirent)) : M gen (list greq_t) :=
  g ← gen_malloc mem;
  dir ← match dir with None => fail EAbort | Some d => mret d end;
  _ ← gen_malloc mem;
  load_loop path p2b dir [] 1024 g.
End populate.

(** [sprintf(dst, "%s%d", s, v)] into the [n] bytes of [old]. *)
Definition sprintf_sd (n : nat) (old s : list Z) (v : Z) : option (list Z) :=
  k ← cstr s; strcpy n old (k ++ decimal v ++ [0]).

(** The next answer of [rand]. *)
Definition rand : M (list Z) Z := λ l,
  match l with [] => Err EUndef | r :: l' => Ok (r, l') end.

(** The flag, the histogram and the name of a random request. *)
Definition get_request (req_array : list greq_t) (key : list Z) : M (list Z) (Z * list Z * list Z) :=
  let req_array_len := Z.of_nat (length req_array) in
  (if req_array_len =? 0 then fail EUndef else mret tt);;
  r ← rand;
  let req_idx := Z.rem r req_array_len in
  r ← rand;
  let correct_name := Z.rem r 2 in
  name_idx ← (if correct_name =? 0 then r ← rand; mret (Z.rem r req_array_len) else mret req_idx);
  tmp ← defined (gname <$> req_array !! Z.to_nat name_idx);
  r ← rand;
  let dup_id := Z.rem r DUP_NUM in
  k ← defined (sprintf_sd 40 key tmp dup_id);
  hist ← defined (ghist <$> req_array !! Z.to_nat req_idx);
  mret (correct_name, hist, k).

(** ** The dataset *)

Definition NUM_OF_REQUESTS : Z := 10000.
Definition GEN_CLIENTS : Z := 1.
Definition BLOCK_WRITE : Z := 16384.
Definition message_size : Z := HISTOGRAM_LENGTH_BYTES + 40 + sizeof_int.

(** [for (offset = 0; offset < hist_size; offset += 16384)]: the bytes written. *)
Fixpoint write_loop {T} (fuel : nat) (buf : list Z) (offset : Z) (out : list Z) : M T (list Z) :=
  match fuel with
  | O => fail EFuel
  | S fuel' =>
      if offset <? HISTOGRAM_LENGTH_BYTES then
        let size_to_write :=
          if u64 (HISTOGRAM_LENGTH_BYTES - offset) <? BLOCK_WRITE then message_size - offset else BLOCK_WRITE in
        chunk ← slice buf offset size_to_write;
        write_loop fuel' buf (offset + BLOCK_WRITE) (out ++ chunk)
      else mret out
  end.

(** The generator's thread: the answers of [rand], the counter blocks, the
    message buffer, the key buffer and the file. *)
Record gthread := mkGThread {
  rands : list Z;
  gctr : list Z;
  encrypted_buffer : list Z;
  key_buffer : list Z;
  dataset : list Z
}.

Section dataset.
Context `{AesCtr}.

(** The body of the loop, for the client [temp_id]. A failed encryption is not
    noticed: the buffer keeps what it held. *)
Definition make_message (req_array : list greq_t) (temp_id : Z) : M gthread unit :=
  s ← gets (λ s, s);
  '(_, histogram, k) ← zoom rands (λ r s, mkGThread r (gctr s) (encrypted_buffer s) (key_buffer s) (dataset s))
                         (get_request req_array (key_buffer s));
  plain_key ← slice k 0 40;
  hist ← slice (bytes_of_ints histogram) 0 HISTOGRAM_LENGTH_BYTES;
  ctr ← slice (gctr s) (temp_id * 16) 16;
  let buf := patch (encrypted_buffer s) 0 (bytes_of_int temp_id) in
  let '(buf, ctr') :=
    match aes_ctr_encrypt ctr (plain_key ++ hist) with
    | Some (c, ctr') => (patch buf sizeof_int c, ctr')
    | None => (buf, ctr)
    end in
  out ← write_loop 16 buf 0 [];
  modify (λ s, mkGThread (rands s) (patch (gctr s) (temp_id * 16) ctr') buf k (dataset s ++ out)).

Fixpoint messages_loop (n : nat) (req_array : list greq_t) (temp_id : Z) : M gthread unit :=
  match n with
  | O => mret tt
  | S n' =>
      let temp_id := (temp_id + 1) mod 100 in
      make_message req_array temp_id;;
      messages_loop n' req_array temp_id
  end.

Definition thread_start (req_array : list greq_t) : M gthread unit :=
  messages_loop (Z.to_nat (NUM_OF_REQUESTS / GEN_CLIENTS)) req_array 0.
End dataset.

(** ** The dataset

    Each message of the dataset is whole and is for the next client in turn. If
    its encryption succeeded it decrypts, under the counters a server that
    started with the generator's counters keeps, to a name and a histogram of the
    loaded requests; if not, it repeats the text of the message before. *)

#[local] Opaque HISTOGRAM_LENGTH_BYTES.

(** ** Small steps *)

Lemma slice_run {T} (b : list Z) i n (s : T) :
  0 ≤ i → 0 ≤ n → i + n ≤ Z.of_nat (length b) →
  slice b i n s = Ok (take (Z.to_nat n) (drop (Z.to_nat i) b), s).
Proof. intros. unfold slice. replace (_ && _) with true by (symmetry; bool_lia). done. Qed.

Lemma slice_whole {T} (b : list Z) n (s : T) : Z.of_nat (length b) = n → slice b 0 n s = Ok (b, s).
Proof. intros <-. rewrite slice_run by lia. rewrite Nat2Z.id. simpl. by rewrite firstn_all. Qed.

Lemma decimal_digit x : 0 ≤ x < 10 → decimal x = [48 + x].
Proof.
  intros Hx. unfold decimal. rewrite (proj2 (Z.ltb_ge _ _)) by lia. cbn [decimal_digits].
  rewrite (proj2 (Z.ltb_lt _ _)), Z.mod_small by lia. done.
Qed.

Lemma sprintf_digit kb k x old :
  cstr kb = Some k → (length k < 39)%nat → 0 ≤ x < 10 → length old = 40%nat → Forall byte kb → Forall byte old →
  ∃ b, sprintf_sd 40 old kb x = Some b ∧ cstr b = Some (k ++ [48 + x]) ∧ length b = 40%nat ∧ Forall byte b.
Proof.
  intros Hk Hlen Hx Hold Bk Bo. unfold sprintf_sd. rewrite Hk, decimal_digit by done. cbn [mbind option_bind].
  assert (Forall byte k) as Bk'.
  { apply cstr_spec in Hk as (_ & rest & ->). by apply Forall_app in Bk as [? _]. }
  assert (cstr (k ++ [48 + x] ++ [0]) = Some (k ++ [48 + x])) as Hc.
  { rewrite app_assoc. apply cstr_terminated. apply cstr_spec in Hk as [Hk _].
    rewrite elem_of_app, list_elem_of_singleton. intros [?|?]; [done|lia]. }
  destruct (strcpy_cstr 40 old (k ++ [48 + x] ++ [0]) (k ++ [48 + x]) Hc) as (b & Hb & Hl & Hcb);
    [rewrite length_app; simpl; lia|done|]. exists b. split_and!; try done.
  unfold strcpy in Hb. rewrite Hc in Hb. cbn [mbind option_bind] in Hb. case_decide; [|done]. injection Hb as <-.
  rewrite !Forall_app, !Forall_cons, Forall_nil. unfold byte at 2 3. split_and!; [done|lia|lia|done|lia|lia|].
  by apply Forall_drop.
Qed.

Lemma bytes_of_ints_bytes l : Forall byte (bytes_of_ints l).
Proof.
  apply Forall_forall. intros x Hx. rewrite <- u8_bytes_of_ints in Hx.
  apply list_elem_of_fmap in Hx as (y & -> & _). apply u8_range.
Qed.

(** ** A request *)

(** Requests as [load_requests] leaves them: names that leave room for a digit,
    and whole histograms. *)
Definition req_ok (r : greq_t) : Prop :=
  (∃ k, cstr (gname r) = Some k ∧ (length k < 39)%nat) ∧ Forall byte (gname r) ∧
  Z.of_nat (length (bytes_of_ints (ghist r))) = HISTOGRAM_LENGTH_BYTES.

(** The plaintext of a message: the name of some request with a digit, and the
    histogram of some request. *)
Definition plain_of (reqs : list greq_t) (p : list Z) : Prop :=
  ∃ i j r r' k d kb, reqs !! i = Some r ∧ reqs !! j = Some r' ∧ cstr (gname r') = Some k ∧ 0 ≤ d < DUP_NUM ∧
    length kb = 40%nat ∧ cstr kb = Some (k ++ [48 + d]) ∧ p = kb ++ bytes_of_ints (ghist r).

Lemma pick {A} (l : list A) r : 0 ≤ r → l ≠ [] → ∃ x, l !! Z.to_nat (Z.rem r (Z.of_nat (length l))) = Some x.
Proof.
  intros Hr Hl. apply lookup_lt_is_Some_2. destruct l as [|a l]; [done|].
  pose proof (Z.rem_bound_pos r (Z.of_nat (length (a :: l)))). simpl in *. lia.
Qed.

Lemma rand_ok l n : (n < length l)%nat → Forall (Z.le 0) l →
  ∃ r l', rand l = Ok (r, l') ∧ 0 ≤ r ∧ (n ≤ length l')%nat ∧ Forall (Z.le 0) l'.
Proof.
  destruct l as [|r l]; simpl; [lia|]. intros Hn [Hr Hl]%Forall_cons. exists r, l. repeat split; [done|lia|done].
Qed.

Lemma get_request_ok reqs key l n :
  reqs ≠ [] → Forall req_ok reqs → length key = 40%nat → Forall byte key → (4 + n ≤ length l)%nat → Forall (Z.le 0) l →
  ∃ c h kb l', get_request reqs key l = Ok ((c, h, kb), l') ∧ plain_of reqs (kb ++ bytes_of_ints h) ∧
    Z.of_nat (length (bytes_of_ints h)) = HISTOGRAM_LENGTH_BYTES ∧ length kb = 40%nat ∧ Forall byte kb ∧
    (n ≤ length l')%nat ∧ Forall (Z.le 0) l'.
Proof.
  intros Hne Hok Hkey Bkey Hl Hnn. unfold get_request.
  rewrite (proj2 (Z.eqb_neq _ _)), bind_ret by (destruct reqs; [done|simpl; lia]).
  destruct (rand_ok l (3 + n) ltac:(lia) Hnn) as (r1 & l1 & H1 & P1 & L1 & F1). rewrite (bind_Ok _ _ _ _ _ H1).
  destruct (rand_ok l1 (2 + n) ltac:(lia) F1) as (r2 & l2 & H2 & P2 & L2 & F2). rewrite (bind_Ok _ _ _ _ _ H2).
  cbv zeta. destruct (pick reqs r1 P1 Hne) as [rq Hrq].
  assert (∃ idx nm l3, (if Z.rem r2 2 =? 0 then r ← rand; mret (Z.rem r (Z.of_nat (length reqs)))
      else mret (Z.rem r1 (Z.of_nat (length reqs)))) l2 = Ok (idx, l3) ∧ reqs !! Z.to_nat idx = Some nm ∧
      (1 + n ≤ length l3)%nat ∧ Forall (Z.le 0) l3) as (idx & nm & l3 & H3 & Hnm & L3 & F3).
  { destruct (_ =? 0).
    - destruct (rand_ok l2 (1 + n) ltac:(lia) F2) as (r3 & l3 & H3 & P3 & L3 & F3). destruct (pick reqs r3 P3 Hne) as [x Hx].
      eexists _, x, l3. rewrite (bind_Ok _ _ _ _ _ H3). split; [reflexivity|done].
    - exists (Z.rem r1 (Z.of_nat (length reqs))), rq, l2. split; [done|]. split; [done|]. split; [lia|done]. }
  rewrite (bind_Ok _ _ _ _ _ H3).
  rewrite (bind_defined _ (gname nm)) by by rewrite Hnm.
  destruct (rand_ok l3 n ltac:(lia) F3) as (r4 & l4 & H4 & P4 & L4 & F4). rewrite (bind_Ok _ _ _ _ _ H4).
  rewrite Forall_forall in Hok. destruct (Hok nm (list_elem_of_lookup_2 _ _ _ Hnm)) as [(k & Hk & Hlen) [Bnm _]].
  destruct (Hok rq (list_elem_of_lookup_2 _ _ _ Hrq)) as (_ & _ & Hh).
  pose proof (Z.rem_bound_pos r4 DUP_NUM P4 ltac:(unfold DUP_NUM; lia)) as Hd.
  destruct (sprintf_digit (gname nm) k (Z.rem r4 DUP_NUM) key Hk Hlen) as (kb & Hkb & Hc & Hkl & Bkb);
    [unfold DUP_NUM in *; lia|done|done|done|].
  rewrite (bind_defined _ _ _ _ Hkb). rewrite (bind_defined _ (ghist rq)) by by rewrite Hrq.
  eexists _, _, kb, l4. split; [reflexivity|]. split; [|done].
  exists (Z.to_nat (Z.rem r1 (Z.of_nat (length reqs)))), (Z.to_nat idx), rq, nm, k, (Z.rem r4 DUP_NUM), kb. done.
Qed.

(** ** A message *)

(** The blocks of 16384 bytes add up to the message. *)
Lemma write_loop_ok {T} fuel buf k (s : T) :
  Z.of_nat (length buf) = message_size → 0 ≤ k ≤ 14 → 14 - k < Z.of_nat fuel - 1 →
  write_loop fuel buf (k * BLOCK_WRITE) (take (Z.to_nat (k * BLOCK_WRITE)) buf) s = Ok (buf, s).
Proof.
  assert (HISTOGRAM_LENGTH_BYTES = 237568) as HL by (vm_compute; reflexivity).
  intros Hlen. assert (Z.of_nat (length buf) = 237612) as Hl by (rewrite Hlen; unfold message_size; rewrite HL; done).
  revert k. induction fuel as [|fuel IH]; intros k Hk Hf; [lia|]. cbn [write_loop].
  assert (message_size = 237612) as -> by (unfold message_size; rewrite HL; done). rewrite HL.
  unfold BLOCK_WRITE. rewrite (proj2 (Z.ltb_lt (k * 16384) _)) by lia. rewrite u64_id by lia.
  destruct (decide (k = 14)) as [->|Hne].
  - rewrite (proj2 (Z.ltb_lt (237568 - 14 * 16384) _)) by lia.
    rewrite (bind_Ok _ _ _ _ _ (slice_run buf (14 * 16384) (237612 - 14 * 16384) s ltac:(lia) ltac:(lia) ltac:(lia))).
    rewrite (take_ge (drop _ _)) by (rewrite length_drop; lia). rewrite take_drop.
    destruct fuel as [|fuel]; [lia|]. cbn [write_loop]. rewrite HL. done.
  - rewrite (proj2 (Z.ltb_ge (237568 - k * 16384) _)) by lia.
    rewrite (bind_Ok _ _ _ _ _ (slice_run buf (k * 16384) 16384 s ltac:(lia) ltac:(lia) ltac:(lia))).
    replace (k * 16384 + 16384) with ((k + 1) * 16384) by lia.
    replace (take (Z.to_nat (k * 16384)) buf ++ take (Z.to_nat 16384) (drop (Z.to_nat (k * 16384)) buf))
      with (take (Z.to_nat ((k + 1) * 16384)) buf); [apply IH; lia|].
    replace (Z.to_nat ((k + 1) * 16384)) with (Z.to_nat (k * 16384) + Z.to_nat 16384)%nat by lia.
    symmetry. apply take_take_drop.
Qed.

Section dataset.
Context `{HC : AesCtrLaws}.

(** A message for a client: its number and a text encrypted under its counter. *)
Definition is_message (client : Z) (m : list Z) : Prop :=
  Z.of_nat (length m) = message_size ∧ ∃ cipher, m = bytes_of_int client ++ cipher.

(** What a reader makes of the messages, who keeps the counter blocks of the
    clients: a request whose text the cipher took is in the message, and decrypts
    under its client's block, which moves; where the cipher failed the message
    repeats [old], the text of the one before, and the block stays. *)
Fixpoint opens (reqs : list greq_t) (old ctrs : list Z) (ms : list (Z * list Z)) (ctrs' : list Z) : Prop :=
  match ms with
  | [] => ctrs' = ctrs
  | (client, m) :: ms' =>
      ∃ p, plain_of reqs p ∧
        match aes_ctr_encrypt (ctr_block ctrs client) p with
        | Some _ => ∃ ctr', aes_ctr_decrypt (ctr_block ctrs client) (drop 4 m) = Some (p, ctr') ∧
            opens reqs (drop 4 m) (patch ctrs (client * 16) ctr') ms' ctrs'
        | None => drop 4 m = old ∧ opens reqs old ctrs ms' ctrs'
        end
  end.

(** The generator between two messages. *)
Record gen_ready (s : gthread) (n : nat) : Prop := {
  ready_rands : (4 * n ≤ length (rands s))%nat ∧ Forall (Z.le 0) (rands s);
  ready_ctr : Z.of_nat (length (gctr s)) = 16 * 100;
  ready_buffer : Z.of_nat (length (encrypted_buffer s)) = message_size;
  ready_key : length (key_buffer s) = 40%nat ∧ Forall byte (key_buffer s)
}.

Lemma patch_message buf client c :
  Z.of_nat (length buf) = 4 + Z.of_nat (length c) →
  patch (patch buf 0 (bytes_of_int client)) sizeof_int c = bytes_of_int client ++ c.
Proof.
  intros Hl. unfold patch, sizeof_int. change (Z.to_nat 0) with 0%nat. change (Z.to_nat 4) with 4%nat.
  rewrite take_0. cbn [app]. rewrite (take_app_length' (bytes_of_int client)) by done. f_equal.
  rewrite drop_ge; [apply app_nil_r|]. rewrite length_app, length_drop. simpl length. lia.
Qed.

Lemma patch_client buf client :
  (4 ≤ length buf)%nat → patch buf 0 (bytes_of_int client) = bytes_of_int client ++ drop 4 buf.
Proof. reflexivity. Qed.

(** The buffer after the encryption, and the counter block. *)
Definition sealed (buf : list Z) (client : Z) (ctr p : list Z) : list Z * list Z :=
  match aes_ctr_encrypt ctr p with
  | Some (c, ctr') => (bytes_of_int client ++ c, ctr')
  | None => (bytes_of_int client ++ drop 4 buf, ctr)
  end.

Lemma sealed_length buf client ctr p :
  Z.of_nat (length buf) = message_size → Z.of_nat (length p) = message_size - 4 →
  Z.of_nat (length (sealed buf client ctr p).1) = message_size ∧ length (sealed buf client ctr p).2 = length ctr.
Proof.
  intros Hb Hp. unfold sealed. destruct (aes_ctr_encrypt ctr p) as [[c ctr']|] eqn:E; cbn [fst snd].
  - destruct (ctr_length _ _ _ _ E) as [Hlc Hl]. split; [|done]. rewrite length_app. simpl length. lia.
  - split; [|done]. rewrite length_app, length_drop. simpl length.
    assert (Z.of_nat 4 ≤ message_size) by (unfold message_size, sizeof_int; pose proof (eq_refl : HISTOGRAM_LENGTH_BYTES = 237568); lia).
    lia.
Qed.

Lemma make_message_ok reqs s n client :
  reqs ≠ [] → Forall req_ok reqs → gen_ready s (S n) → 0 ≤ client < 100 →
  ∃ s' p, let r := sealed (encrypted_buffer s) client (ctr_block (gctr s) client) p in
    make_message reqs client s = Ok (tt, s') ∧ gen_ready s' n ∧ plain_of reqs p ∧
    dataset s' = dataset s ++ r.1 ∧ encrypted_buffer s' = r.1 ∧ is_message client r.1 ∧
    gctr s' = patch (gctr s) (client * 16) r.2.
Proof.
  intros Hne Hok [[Hr1 Hr2] Hc Hb [Hk Bk]] Hcl.
  destruct (get_request_ok reqs (key_buffer s) (rands s) (4 * n) Hne Hok Hk Bk ltac:(lia) Hr2)
    as (c & h & kb & l' & Hrun & Hp & Hh & Hkb & Bkb & Hl' & Hnn).
  set (ctr := ctr_block (gctr s) client). set (p := kb ++ bytes_of_ints h) in *.
  assert (length ctr = 16%nat) as Hctr.
  { unfold ctr, ctr_block. rewrite length_take, length_drop. lia. }
  assert (Z.of_nat (length p) = message_size - 4) as Hpl.
  { unfold p, message_size, sizeof_int. rewrite length_app. lia. }
  destruct (sealed_length (encrypted_buffer s) client ctr p Hb Hpl) as [Hm Hlctr].
  assert (∃ cipher, (sealed (encrypted_buffer s) client ctr p).1 = bytes_of_int client ++ cipher) as Hmsg.
  { unfold sealed. destruct (aes_ctr_encrypt ctr p) as [[ci ctr']|]; by eexists. }
  exists (mkGThread l' (patch (gctr s) (client * 16) (sealed (encrypted_buffer s) client ctr p).2)
    (sealed (encrypted_buffer s) client ctr p).1 kb (dataset s ++ (sealed (encrypted_buffer s) client ctr p).1)), p.
  cbv zeta. fold ctr. split; [|split; [|by split]].
  - unfold make_message. rewrite bind_gets. rewrite (bind_zoom rands _ _ _ _ _ _ Hrun). cbv beta iota.
    rewrite (bind_Ok _ _ _ _ _ (slice_whole kb 40 _ ltac:(lia))).
    rewrite (bind_Ok _ _ _ _ _ (slice_whole (bytes_of_ints h) HISTOGRAM_LENGTH_BYTES _ Hh)).
    rewrite (bind_Ok _ _ _ _ _ (slice_run (gctr s) (client * 16) 16 _ ltac:(lia) ltac:(lia) ltac:(lia))).
    change (take (Z.to_nat 16) (drop (Z.to_nat (client * 16)) (gctr s))) with ctr. cbv zeta. fold p.
    unfold sealed in *. destruct (aes_ctr_encrypt ctr p) as [[ci ctr']|] eqn:Henc; cbn [fst snd] in *.
    + destruct (ctr_length _ _ _ _ Henc) as [Hlc _].
      rewrite patch_message by lia.
      rewrite (bind_Ok _ _ _ _ _ (write_loop_ok 16 _ 0 _ Hm ltac:(lia) ltac:(lia))). reflexivity.
    + rewrite patch_client by (rewrite length_app, length_drop in Hm; simpl length in Hm; lia).
      rewrite (bind_Ok _ _ _ _ _ (write_loop_ok 16 _ 0 _ Hm ltac:(lia) ltac:(lia))). reflexivity.
  - constructor; cbn [rands gctr encrypted_buffer key_buffer]; [by split|rewrite length_patch; lia|done|done].
Qed.

(** The clients in turn, after [temp_id]. *)
Definition turns (temp_id : Z) (n : nat) : list Z := (λ i, (temp_id + i) mod 100) <$> seqZ 1 (Z.of_nat n).

Lemma turns_S temp_id n : turns temp_id (S n) = (temp_id + 1) mod 100 :: turns ((temp_id + 1) mod 100) n.
Proof.
  unfold turns. rewrite seqZ_cons by lia. cbn [fmap list_fmap]. f_equal.
  replace (Z.succ 1) with (1 + 1) by lia. rewrite <- (fmap_add_seqZ 1 1), <- list_fmap_compose.
  replace (Z.pred (Z.of_nat (S n))) with (Z.of_nat n) by lia.
  apply list_fmap_ext. intros _ i _. cbn. rewrite Zplus_mod_idemp_l. f_equal. lia.
Qed.

Lemma patch_block ctrs client :
  0 ≤ client < 100 → Z.of_nat (length ctrs) = 16 * 100 → patch ctrs (client * 16) (ctr_block ctrs client) = ctrs.
Proof.
  intros Hc Hl. unfold patch, ctr_block. rewrite length_take, length_drop.
  symmetry. rewrite <- (take_drop (Z.to_nat (client * 16)) ctrs) at 1. f_equal.
  rewrite <- (take_drop 16 (drop (Z.to_nat (client * 16)) ctrs)) at 1. f_equal. rewrite drop_drop. f_equal. lia.
Qed.

Lemma messages_loop_ok reqs n s temp_id :
  reqs ≠ [] → Forall req_ok reqs → gen_ready s n →
  ∃ s' ms, messages_loop n reqs temp_id s = Ok (tt, s') ∧ dataset s' = dataset s ++ concat ms ∧
    Forall2 is_message (turns temp_id n) ms ∧
    opens reqs (drop 4 (encrypted_buffer s)) (gctr s) (zip (turns temp_id n) ms) (gctr s').
Proof.
  intros Hne Hok. revert s temp_id. induction n as [|n IH]; intros s temp_id Hs.
  { exists s, []. split; [done|]. split; [by rewrite app_nil_r|]. split; [constructor|done]. }
  cbn [messages_loop]. rewrite turns_S. set (c := (temp_id + 1) mod 100).
  assert (0 ≤ c < 100) as Hc by (by apply Z.mod_pos_bound).
  destruct (make_message_ok reqs s n c Hne Hok Hs Hc) as (s1 & p & Hrun & Hs1 & Hp & Hd & Hb & Hm & Hctr).
  rewrite (bind_Ok _ _ _ _ _ Hrun). destruct (IH s1 c Hs1) as (s' & ms & Hrun' & Hd' & Hms & Ho).
  set (m := (sealed (encrypted_buffer s) c (ctr_block (gctr s) c) p).1) in *.
  exists s', (m :: ms). split; [done|]. split; [|split; [by constructor|]].
  - rewrite Hd', Hd. cbn [concat]. by rewrite <- app_assoc.
  - cbn [zip zip_with opens]. change (zip_with pair (turns c n) ms) with (zip (turns c n) ms).
    exists p. split; [exact Hp|]. unfold sealed in *.
    destruct (aes_ctr_encrypt (ctr_block (gctr s) c) p) as [[ci ctr']|] eqn:E; cbn [fst snd] in *.
    + exists ctr'. rewrite Hb in Ho. rewrite Hctr in Ho. split; [|exact Ho]. by apply ctr_round_trip.
    + rewrite Hb in Ho. split; [done|]. rewrite Hctr, patch_block in Ho by (done || apply Hs). exact Ho.
Qed.
End dataset.
