(* ===== verification/ClientThms.v ===== *)
(** * From the generator to the server's answers

    Models [face_detection_client.c]: loading the dataset and one client thread.
    The client's main thread hands every message of the dataset to the client it
    is for; a client sends its messages whole and in order and counts the
    answers. *)

From S2P Require Import Prelude CString FaceHash FaceServer FaceServerThms FaceWorker SafeMem GenHash GenRequests.
From S2P Require Import Lbp.

(** ** The clients

    Models [face_detection_client.c]: the main thread distributes the messages of
    the dataset to its clients, each of which sends its messages over a connection
    of its own, and reads and decrypts the answers.  What [read] returns is the
    operating system's: lists of bytes, in the order of the calls. *)

(** The routines the file has in common with the others. *)
Definition memset_s : Z → Z → Z → Z → M mem_t Z := SafeMem.memset_s.
Definition consttime_memequal : list Z → list Z → Z → option Z := SafeMem.consttime_memequal.
Definition get_pattern : list Z → Z → Z → option Z := Lbp.get_pattern.
Definition is_pattern_uniform : Z → bool := Lbp.is_pattern_uniform.
Definition rotate : Z → Z → Z := Lbp.rotate.
Definition create_pattern2bin : list Z := Lbp.create_pattern2bin.

Definition NUM_OF_CLIENTS : Z := 100.
Definition buff_size : Z := message_size.

(** ** Loading the dataset *)

(** The array of the client a message is for, [requests_arr[client_id]], holds
    [client_requests_loaded] messages so far. *)
Definition copy_request (buff : list Z) (arrs : list (list Z)) : option (list (list Z)) :=
  let client_id := nth 0 (ints_of_bytes (take 4 buff)) 0 in
  if client_id <? 0 then None
  else
    arr ← arrs !! Z.to_nat client_id;
    if Z.of_nat (length arr) + buff_size <=? buff_size * NUM_OF_REQUESTS / NUM_OF_CLIENTS
    then Some (<[Z.to_nat client_id := arr ++ buff]> arrs) else None.

(** [do { ... } while (items_read < NUM_OF_REQUESTS)], for [total] requests: a read
    that returns less is dropped; at the end of the file it never ends. *)
Fixpoint load_dataset {T} (total : Z) (reads : list (list Z)) (items_read : Z) (arrs : list (list Z))
    : M T (list (list Z)) :=
  match reads with
  | [] => fail ESpin
  | buff :: reads' =>
      '(items_read, arrs) ←
        (if Z.of_nat (length buff) =? buff_size
         then a ← defined (copy_request buff arrs); mret (items_read + 1, a)
         else mret (items_read, arrs));
      if items_read <? total then load_dataset total reads' items_read arrs else mret arrs
  end.

(** ** A client *)

Record cthread := mkCThread {
  cctr : list Z;
  to_server : list Z;
  from_server : list (list Z);
  true_positives : Z;
  false_positives : Z
}.

(** [for (offset = 0; offset < hist_size+40+sizeof(int); offset += 16384)] *)
Fixpoint send_loop {T} (fuel : nat) (data : list Z) (offset : Z) (out : list Z) : M T (list Z) :=
  match fuel with
  | O => fail EFuel
  | S fuel' =>
      if offset <? message_size then
        let size_to_write :=
          if u64 (HISTOGRAM_LENGTH_BYTES - offset) <? BLOCK_WRITE then message_size - offset else BLOCK_WRITE in
        chunk ← slice data offset size_to_write;
        send_loop fuel' data (offset + BLOCK_WRITE) (out ++ chunk)
      else mret out
  end.

Section client.
Context `{AesCtr}.

(** One round: [data] is what is left of the client's array. *)
Definition send_request (data : list Z) : M cthread unit :=
  s ← gets (λ s, s);
  out ← send_loop 16 data 0 [];
  '(answer, rest) ← match from_server s with
                    | [] => fail ESpin
                    | b :: l => mret (patch (bytes_of_int 999) 0 (take 4 b), l)
                    end;
  idb ← slice data 0 sizeof_int;
  let temp_id := nth 0 (ints_of_bytes idb) 0 in
  ctr ← slice (cctr s) (temp_id * 16) 16;
  match aes_ctr_decrypt ctr answer with
  | None => fail EAbort
  | Some (p, ctr') =>
      let decrypted_answer := nth 0 (ints_of_bytes p) 0 in
      let hit := negb (decrypted_answer =? 0) in
      modify (λ s, mkCThread (patch (cctr s) (temp_id * 16) ctr') (to_server s ++ out) rest
        (if hit then i32 (true_positives s + 1) else true_positives s)
        (if hit then false_positives s else i32 (false_positives s + 1)))
  end.

Fixpoint rounds (n : nat) (data : list Z) : M cthread unit :=
  match n with
  | O => mret tt
  | S n' =>
      send_request data;;
      rounds n' (drop (Z.to_nat message_size) data)
  end.

Definition enc_thread_start (data : list Z) : M cthread unit :=
  rounds (Z.to_nat (NUM_OF_REQUESTS / NUM_OF_CLIENTS)) data.
End client.

#[local] Opaque HISTOGRAM_LENGTH_BYTES.

Lemma message_size_value : message_size = 237612.
Proof. vm_compute. reflexivity. Qed.

Lemma ints_of_id c rest : 0 ≤ c < 2 ^ 31 → nth 0 (ints_of_bytes (take 4 (bytes_of_int c ++ rest))) 0 = c.
Proof.
  intros Hc. change (take 4 (bytes_of_int c ++ rest)) with (bytes_of_ints [c]). rewrite ints_bytes. simpl.
  apply i32_id. lia.
Qed.

(** ** Loading *)

(** The messages for client [c], in order. *)
Definition messages_for (c : Z) (l : list (Z * list Z)) : list (list Z) := (filter (λ x, x.1 = c) l).*2.

Lemma messages_for_cons c d m l :
  messages_for c ((d, m) :: l) = if decide (d = c) then m :: messages_for c l else messages_for c l.
Proof. unfold messages_for. rewrite filter_cons. cbn [fst]. by destruct (decide (d = c)). Qed.

(** The arrays have room for what is to come. *)
Definition arrays_fit (arrs : list (list Z)) (l : list (Z * list Z)) : Prop :=
  ∀ c, 0 ≤ c < NUM_OF_CLIENTS → ∃ a, arrs !! Z.to_nat c = Some a ∧
    Z.of_nat (length a) + message_size * Z.of_nat (length (messages_for c l)) ≤
    buff_size * NUM_OF_REQUESTS / NUM_OF_CLIENTS.

Lemma load_dataset_ok {T} l arrs items (s : T) :
  l ≠ [] → Forall (λ x, is_message x.1 x.2 ∧ 0 ≤ x.1 < NUM_OF_CLIENTS) l → arrays_fit arrs l →
  ∃ arrs', load_dataset (items + Z.of_nat (length l)) l.*2 items arrs s = Ok (arrs', s) ∧
    ∀ c a, 0 ≤ c < NUM_OF_CLIENTS → arrs !! Z.to_nat c = Some a →
      arrs' !! Z.to_nat c = Some (a ++ concat (messages_for c l)).
Proof.
  revert arrs items. induction l as [|[c m] l IH]; intros arrs items Hne Hl Hfit; [done|].
  apply Forall_cons in Hl as [[Hm Hc] Hl]. cbn [fst snd] in Hm, Hc. destruct Hm as [Hm [cipher ->]].
  destruct (Hfit c Hc) as (a & Ha & Hroom). unfold NUM_OF_CLIENTS in Hc. rewrite messages_for_cons, decide_True in Hroom by done.
  set (m := bytes_of_int c ++ cipher) in *. cbn [load_dataset fmap list_fmap snd length].
  assert (copy_request m arrs = Some (<[Z.to_nat c := a ++ m]> arrs)) as Hcopy.
  { unfold copy_request, m. rewrite ints_of_id by lia. rewrite (proj2 (Z.ltb_ge _ _)) by lia. rewrite Ha.
    cbn [mbind option_bind]. rewrite (proj2 (Z.leb_le _ _)); [done|]. simpl length in Hroom.
    rewrite message_size_value in *. unfold buff_size in *. rewrite message_size_value in *. lia. }
  unfold buff_size at 1. rewrite (proj2 (Z.eqb_eq _ _)) by done.
  rewrite bind_assoc, (bind_defined _ _ _ _ Hcopy), bind_ret. cbv beta iota.
  assert (arrays_fit (<[Z.to_nat c := a ++ m]> arrs) l) as Hfit'.
  { intros c' Hc'. destruct (Hfit c' Hc') as (a' & Ha' & Hr'). rewrite messages_for_cons in Hr'.
    destruct (decide (c = c')) as [<-|Hne'].
    - exists (a ++ m). rewrite list_lookup_insert_eq by (by eapply lookup_lt_Some). split; [done|].
      rewrite length_app. assert (a' = a) as -> by congruence. simpl length in Hr'. lia.
    - exists a'. rewrite list_lookup_insert_ne by lia. by split. }
  assert (∀ arrs' : list (list Z), (∀ c' a', 0 ≤ c' < NUM_OF_CLIENTS → <[Z.to_nat c := a ++ m]> arrs !! Z.to_nat c' = Some a' →
      arrs' !! Z.to_nat c' = Some (a' ++ concat (messages_for c' l))) →
    ∀ c' a', 0 ≤ c' < NUM_OF_CLIENTS → arrs !! Z.to_nat c' = Some a' →
      arrs' !! Z.to_nat c' = Some (a' ++ concat (messages_for c' ((c, m) :: l)))) as Hfinal.
  { intros arrs' H c' a' Hc' Ha'. rewrite messages_for_cons. destruct (decide (c = c')) as [<-|Hne'].
    - assert (a' = a) as -> by congruence. cbn [concat]. rewrite app_assoc. apply H; [done|].
      apply list_lookup_insert_eq. by eapply lookup_lt_Some.
    - apply H; [done|]. unfold NUM_OF_CLIENTS in Hc'. by rewrite list_lookup_insert_ne by lia. }
  destruct l as [|x l].
  - rewrite (proj2 (Z.ltb_ge _ _)) by (simpl; lia). eexists. split; [reflexivity|].
    apply Hfinal. intros c' a' _ Ha'. cbn. by rewrite app_nil_r.
  - rewrite (proj2 (Z.ltb_lt _ _)) by (simpl; lia).
    destruct (IH (<[Z.to_nat c := a ++ m]> arrs) (items + 1)) as (arrs' & Hrun & Ha'); try done.
    exists arrs'. split; [|by apply Hfinal]. rewrite <- Hrun. f_equal. simpl length. lia.
Qed.

(** ** Sending *)

Lemma send_loop_ok {T} fuel data k (s : T) :
  message_size ≤ Z.of_nat (length data) → 0 ≤ k ≤ 14 → 14 - k < Z.of_nat fuel - 1 →
  send_loop fuel data (k * BLOCK_WRITE) (take (Z.to_nat (k * BLOCK_WRITE)) data) s =
    Ok (take (Z.to_nat message_size) data, s).
Proof.
  assert (HISTOGRAM_LENGTH_BYTES = 237568) as HL by (vm_compute; reflexivity).
  rewrite message_size_value. intros Hl. revert k.
  induction fuel as [|fuel IH]; intros k Hk Hf; [lia|]. cbn [send_loop]. rewrite message_size_value, HL.
  unfold BLOCK_WRITE. rewrite (proj2 (Z.ltb_lt (k * 16384) _)) by lia. rewrite u64_id by lia.
  destruct (decide (k = 14)) as [->|Hne].
  - rewrite (proj2 (Z.ltb_lt (237568 - 14 * 16384) _)) by lia.
    rewrite (bind_Ok _ _ _ _ _ (slice_run data (14 * 16384) (237612 - 14 * 16384) s ltac:(lia) ltac:(lia) ltac:(lia))).
    rewrite take_take_drop. replace (_ + _)%nat with (Z.to_nat 237612) by lia.
    destruct fuel as [|fuel]; [lia|]. cbn [send_loop]. rewrite message_size_value. done.
  - rewrite (proj2 (Z.ltb_ge (237568 - k * 16384) _)) by lia.
    rewrite (bind_Ok _ _ _ _ _ (slice_run data (k * 16384) 16384 s ltac:(lia) ltac:(lia) ltac:(lia))).
    replace (k * 16384 + 16384) with ((k + 1) * 16384) by lia. rewrite take_take_drop.
    replace (_ + _)%nat with (Z.to_nat ((k + 1) * 16384)) by lia. apply IH; lia.
Qed.

Section client.
Context `{HC : AesCtrLaws}.

(** The answers a server sends, encrypted under the client's counter in turn. *)
Fixpoint encrypt_answers (ctr : list Z) (answers : list Z) : option (list (list Z) * list Z) :=
  match answers with
  | [] => Some ([], ctr)
  | a :: answers' =>
      '(c, ctr') ← aes_ctr_encrypt ctr (bytes_of_int a);
      '(cs, ctr'') ← encrypt_answers ctr' answers';
      Some (c :: cs, ctr'')
  end.

Definition hits (answers : list Z) : Z := Z.of_nat (length (filter (λ a, a ≠ 0) answers)).
Definition misses (answers : list Z) : Z := Z.of_nat (length (filter (λ a, a = 0) answers)).

Lemma ctr_block_patch ctrs client ctr' :
  0 ≤ client → client * 16 + 16 ≤ Z.of_nat (length ctrs) → length ctr' = 16%nat →
  ctr_block (patch ctrs (client * 16) ctr') client = ctr'.
Proof.
  intros Hc Hl Hctr. unfold ctr_block, patch. rewrite drop_app_ge by (rewrite length_take; lia).
  rewrite length_take. replace (_ - _)%nat with 0%nat by lia. rewrite drop_0. by apply take_app_length'.
Qed.

Lemma patch_patch b i c d :
  0 ≤ i → i + Z.of_nat (length c) ≤ Z.of_nat (length b) → length d = length c →
  patch (patch b i c) i d = patch b i d.
Proof.
  intros Hi Hl Hd. unfold patch. rewrite take_app_le by (rewrite length_take; lia). rewrite take_take.
  replace (_ `min` _)%nat with (Z.to_nat i) by lia. do 2 f_equal.
  rewrite app_assoc, drop_app_ge by (rewrite length_app, length_take; lia).
  rewrite length_app, length_take, drop_drop. f_equal. lia.
Qed.

Lemma send_request_ok s m rest client a c ctr' l :
  is_message client m → 0 ≤ client < 100 → Z.of_nat (length (cctr s)) = 16 * 100 → - 2 ^ 31 ≤ a < 2 ^ 31 →
  aes_ctr_encrypt (ctr_block (cctr s) client) (bytes_of_int a) = Some (c, ctr') → from_server s = c :: l →
  send_request (m ++ rest) s =
    Ok (tt, mkCThread (patch (cctr s) (client * 16) ctr') (to_server s ++ m) l
      (if decide (a = 0) then true_positives s else i32 (true_positives s + 1))
      (if decide (a = 0) then i32 (false_positives s + 1) else false_positives s)).
Proof.
  intros [Hm [cipher ->]] Hc Hlen Ha Henc Hl. set (m := bytes_of_int client ++ cipher) in *.
  destruct (ctr_length _ _ _ _ Henc) as [Hlc _]. pose proof (ctr_round_trip _ _ _ _ Henc) as Hdec.
  unfold send_request. rewrite bind_gets.
  rewrite (bind_Ok _ _ _ _ _ (send_loop_ok 16 (m ++ rest) 0 s ltac:(rewrite length_app; lia) ltac:(lia) ltac:(lia))).
  rewrite Hl, bind_ret. cbv beta iota. pose proof message_size_value as Hv.
  rewrite (bind_Ok _ _ _ _ _ (slice_run (m ++ rest) 0 sizeof_int s ltac:(lia) ltac:(unfold sizeof_int; lia)
    ltac:(rewrite length_app; unfold sizeof_int; lia))).
  change (Z.to_nat 0) with 0%nat. rewrite drop_0. change (Z.to_nat sizeof_int) with 4%nat.
  assert (nth 0 (ints_of_bytes (take 4 (m ++ rest))) 0 = client) as ->.
  { unfold m. rewrite <- app_assoc. apply ints_of_id. lia. }
  cbv zeta.
  rewrite (bind_Ok _ _ _ _ _ (slice_run (cctr s) (client * 16) 16 s ltac:(lia) ltac:(lia) ltac:(lia))).
  change (take (Z.to_nat 16) (drop (Z.to_nat (client * 16)) (cctr s))) with (ctr_block (cctr s) client).
  assert (patch (bytes_of_int 999) 0 (take 4 c) = c) as ->.
  { destruct c as [|b0 [|b1 [|b2 [|b3 [|]]]]]; try discriminate Hlc. reflexivity. }
  rewrite Hdec. change (bytes_of_int a) with (bytes_of_ints [a]). rewrite ints_bytes. cbn [fmap list_fmap nth].
  rewrite i32_id by done. unfold modify. do 3 f_equal.
  - f_equal. apply take_app_length'. lia.
  - destruct (Z.eqb_spec a 0); [by rewrite decide_True|by rewrite decide_False].
  - destruct (Z.eqb_spec a 0); [by rewrite decide_True|by rewrite decide_False].
Qed.

Lemma encrypt_answers_length answers ctr cs ctr' :
  encrypt_answers ctr answers = Some (cs, ctr') → length ctr' = length ctr.
Proof.
  revert ctr cs. induction answers as [|x answers IH]; intros ctr cs E; simpl in E; [by injection E as <- <-|].
  destruct (aes_ctr_encrypt ctr _) as [[c1 ctr1]|] eqn:E1; [|done]. cbn [mbind option_bind] in E.
  destruct (encrypt_answers ctr1 answers) as [[cs1 ctr2]|] eqn:E2; [|done]. injection E as <- <-.
  destruct (ctr_length _ _ _ _ E1) as [_ Hlc]. rewrite (IH _ _ E2). done.
Qed.

Lemma rounds_ok client ms answers s cs ctr' :
  Forall (is_message client) ms → length answers = length ms → 0 ≤ client < 100 →
  Z.of_nat (length (cctr s)) = 16 * 100 → Forall (λ a, - 2 ^ 31 ≤ a < 2 ^ 31) answers →
  encrypt_answers (ctr_block (cctr s) client) answers = Some (cs, ctr') → from_server s = cs →
  0 ≤ true_positives s → 0 ≤ false_positives s →
  true_positives s + Z.of_nat (length ms) < 2 ^ 31 → false_positives s + Z.of_nat (length ms) < 2 ^ 31 →
  rounds (length ms) (concat ms) s =
    Ok (tt, mkCThread (patch (cctr s) (client * 16) ctr') (to_server s ++ concat ms) []
      (true_positives s + hits answers) (false_positives s + misses answers)).
Proof.
  intros Hms. revert answers s cs. induction Hms as [|m ms Hm Hms IH]; intros answers s cs Hla Hc Hlen Ha Henc Hfs Ht Hf Htb Hfb.
  { destruct answers; [|done]. injection Henc as <- <-. cbn [rounds concat length]. unfold mret, M_ret.
    do 2 f_equal. unfold hits, misses. rewrite !Z.add_0_r, app_nil_r, <- Hfs.
    rewrite patch_block by done. by destruct s. }
  destruct answers as [|a answers]; [done|]. apply Forall_cons in Ha as [Ha1 Ha]. cbn [encrypt_answers] in Henc.
  destruct (aes_ctr_encrypt _ (bytes_of_int a)) as [[c ctr1]|] eqn:E1; [|done]. cbn [mbind option_bind] in Henc.
  destruct (encrypt_answers ctr1 answers) as [[cs1 ctr2]|] eqn:E2; [|done]. injection Henc as <- <-.
  destruct (ctr_length _ _ _ _ E1) as [_ Hlc1].
  assert (length (ctr_block (cctr s) client) = 16%nat) as Hb.
  { unfold ctr_block. rewrite length_take, length_drop. lia. }
  simpl in Hla, Htb, Hfb. cbn [rounds concat length].
  rewrite (bind_Ok _ _ _ _ _ (send_request_ok s m (concat ms) client a c ctr1 cs1 Hm Hc Hlen Ha1 E1 Hfs)).
  destruct Hm as [Hml _]. rewrite drop_app_length' by lia.
  rewrite (IH answers _ cs1); cbn [cctr to_server from_server true_positives false_positives];
    [|lia|done|rewrite length_patch; lia|done|rewrite ctr_block_patch by lia; done|done|
     destruct (decide (a = 0)); rewrite ?i32_id by lia; lia..].
  - do 2 f_equal. pose proof (encrypt_answers_length _ _ _ _ E2).
    rewrite patch_patch by lia. rewrite <- app_assoc. unfold hits, misses. rewrite !filter_cons.
    destruct (decide (a = 0)) as [->|Hne].
    + rewrite (decide_False (P := 0 ≠ 0)), i32_id by (lia || naive_solver). simpl length. f_equal; lia.
    + rewrite (decide_True (P := a ≠ 0)), i32_id by (lia || naive_solver). simpl length. f_equal; lia.
Qed.
End client.

(** ** From the generator to the clients *)

Definition all_turns : list Z := turns 0 (Z.to_nat (NUM_OF_REQUESTS / GEN_CLIENTS)).

(** Every client's turn comes a hundred times. *)
Lemma turns_even c : 0 ≤ c < 100 → length (filter (λ x, x = c) all_turns) = 100%nat.
Proof.
  intros Hc. assert (forallb (λ c, Nat.eqb (length (filter (λ x, x = c) all_turns)) 100) (seqZ 0 100) = true) as H
    by (vm_compute; reflexivity).
  rewrite forallb_forall in H. apply Nat.eqb_eq, H. apply list_elem_of_In, elem_of_seqZ. lia.
Qed.

Lemma turns_range c : c ∈ all_turns → 0 ≤ c < 100.
Proof. unfold all_turns, turns. intros (i & -> & _)%list_elem_of_fmap. by apply Z.mod_pos_bound. Qed.

Lemma length_messages_for c (ids : list Z) (ms : list (list Z)) :
  length ids = length ms → length (messages_for c (zip ids ms)) = length (filter (λ x, x = c) ids).
Proof.
  revert ms. induction ids as [|d ids IH]; intros [|m ms] Hl; try done. cbn [zip zip_with].
  change (zip_with pair ids ms) with (zip ids ms). rewrite messages_for_cons, filter_cons.
  destruct (decide (d = c)); simpl; rewrite IH; (done || simpl in Hl; lia).
Qed.

Section dataset.
Context `{HC : AesCtrLaws}.

(** C37. From the generator to the clients: the generator, with the requests it
    loaded and random numbers enough, writes 10000 whole messages for the clients
    in turn. A message whose encryption succeeded decrypts, under the counter
    block of its client, to a name and a histogram of the loaded requests; one
    whose encryption failed, which the generator does not notice, repeats the
    text of the message before under its own client's number. And the client's
    main thread, reading the file a message at a time, gives each of its 100
    clients exactly the 100 messages that are for it, in order. *)
Theorem dataset_reaches_clients {T} reqs s (t : T) :
  reqs ≠ [] → Forall req_ok reqs → gen_ready s (Z.to_nat (NUM_OF_REQUESTS / GEN_CLIENTS)) → dataset s = [] →
  ∃ s' ms arrs, thread_start reqs s = Ok (tt, s') ∧ dataset s' = concat ms ∧
    opens reqs (drop 4 (encrypted_buffer s)) (gctr s) (zip all_turns ms) (gctr s') ∧
    load_dataset NUM_OF_REQUESTS ms 0 (replicate 100 []) t = Ok (arrs, t) ∧
    ∀ c, 0 ≤ c < 100 → Forall (is_message c) (messages_for c (zip all_turns ms)) ∧
      length (messages_for c (zip all_turns ms)) = 100%nat ∧
      arrs !! Z.to_nat c = Some (concat (messages_for c (zip all_turns ms))).
Proof.
  intros Hne Hok Hs Hd.
  destruct (messages_loop_ok reqs _ s 0 Hne Hok Hs) as (s' & ms & Hrun & Hd' & Hms & Hopen).
  fold all_turns in Hms, Hopen. pose proof (Forall2_length _ _ _ Hms) as Hlen.
  assert (Z.of_nat (length (zip all_turns ms)) = NUM_OF_REQUESTS) as Hn.
  { rewrite length_zip_with_l_eq by done. unfold all_turns, turns. rewrite length_fmap, length_seqZ. reflexivity. }
  assert (Forall (λ x, is_message x.1 x.2 ∧ 0 ≤ x.1 < NUM_OF_CLIENTS) (zip all_turns ms)) as Hall.
  { apply Forall_forall. intros [c m] Hx. apply elem_of_lookup_zip_with in Hx || apply list_elem_of_lookup_1 in Hx.
    destruct Hx as (i & c' & m' & [= -> ->] & Hc & Hm). cbn [fst snd].
    split; [by apply (Forall2_lookup_lr _ _ _ _ _ _ Hms Hc Hm)|]. apply turns_range. by eapply list_elem_of_lookup_2. }
  destruct (load_dataset_ok (zip all_turns ms) (replicate 100 []) 0 t) as (arrs & Hload & Harrs).
  - intros E. rewrite E in Hn. discriminate Hn.
  - done.
  - intros c Hc. exists []. unfold NUM_OF_CLIENTS in Hc. split; [apply lookup_replicate_2; lia|].
    rewrite length_messages_for, turns_even by done. unfold buff_size. rewrite message_size_value. by vm_compute.
  - exists s', ms, arrs. rewrite Hd in Hd'. split; [done|]. split; [done|]. split; [done|].
    rewrite Z.add_0_l, Hn, snd_zip in Hload by lia. split; [done|]. intros c Hc. split_and!.
    + apply Forall_forall. intros m Hm. unfold messages_for in Hm.
      apply list_elem_of_fmap in Hm as ([d m'] & -> & [Hd1 Hm]%list_elem_of_filter). cbn [fst snd] in *. subst d.
      rewrite Forall_forall in Hall. by apply (Hall _ Hm).
    + rewrite length_messages_for by done. by apply turns_even.
    + rewrite (Harrs c []); [done|done|]. apply lookup_replicate_2. lia.
Qed.

(** A client sends its 100 messages, whole and in order, and counts the
    answers it decrypts: those that say yes and those that say no. *)
Theorem client_counts_answers client ms answers s cs ctr' :
  Forall (is_message client) ms → length ms = Z.to_nat (NUM_OF_REQUESTS / NUM_OF_CLIENTS) →
  length answers = length ms → Forall (λ a, - 2 ^ 31 ≤ a < 2 ^ 31) answers → 0 ≤ client < 100 →
  Z.of_nat (length (cctr s)) = 16 * 100 →
  encrypt_answers (ctr_block (cctr s) client) answers = Some (cs, ctr') → from_server s = cs →
  true_positives s = 0 → false_positives s = 0 →
  ∃ s', enc_thread_start (concat ms) s = Ok (tt, s') ∧ to_server s' = to_server s ++ concat ms ∧
    true_positives s' = hits answers ∧ false_positives s' = misses answers ∧ from_server s' = [].
Proof.
  intros Hms Hl Hla Ha Hc Hlen Henc Hfs Ht Hf. unfold enc_thread_start. rewrite <- Hl.
  assert (Z.of_nat (length ms) = 100) as Hl' by (rewrite Hl; reflexivity).
  rewrite (rounds_ok client ms answers s cs ctr'); try done; [|lia..].
  rewrite Ht, Hf. eexists. split; [reflexivity|]. by split.
Qed.
End dataset.

(** ** Examples *)

(** A cipher that takes bytes: the identity. *)
Definition clear_bytes (ctr p : list Z) : option (list Z * list Z) :=
  if decide (Forall (λ x, 0 ≤ x < 256) p) then Some (p, ctr) else None.
#[local] Instance bytes_ctr : AesCtr := { aes_ctr_encrypt := clear_bytes; aes_ctr_decrypt := clear_bytes }.
#[local] Instance bytes_laws : AesCtrLaws.
Proof.
  constructor; cbn [aes_ctr_encrypt aes_ctr_decrypt bytes_ctr]; intros ctr p c ctr' E;
    unfold clear_bytes in *; (destruct (decide _) as [H|]; [|done]); injection E as <- <-.
  - by rewrite decide_True.
  - done.
  - intros x Hx. rewrite Forall_forall in H. by apply H.
Qed.

Definition one_loaded : list greq_t := [mkGReq (49 :: replicate 39 0) (replicate (Z.to_nat HIST_INTS) 0)].

Lemma one_loaded_ok : Forall req_ok one_loaded.
Proof.
  constructor; [|constructor]. split; [exists [49]; split; [done|simpl; lia]|]. split.
  - cbn [gname one_loaded]. apply Forall_cons. split; [unfold byte; lia|]. apply Forall_replicate. unfold byte. lia.
  - cbn [ghist one_loaded]. rewrite length_bytes_of_ints, length_replicate, Z2Nat.id by (vm_compute; discriminate).
    vm_compute. reflexivity.
Qed.

Definition ready_thread : gthread :=
  mkGThread (replicate (4 * Z.to_nat (NUM_OF_REQUESTS / GEN_CLIENTS)) 0) (replicate (Z.to_nat 1600) 0)
    (replicate (Z.to_nat message_size) 0) (replicate 40 0) [].

Lemma ready_thread_ok : gen_ready ready_thread (Z.to_nat (NUM_OF_REQUESTS / GEN_CLIENTS)).
Proof.
  constructor; cbn [rands gctr encrypted_buffer key_buffer ready_thread]; rewrite length_replicate.
  - split; [done|]. apply Forall_replicate. lia.
  - reflexivity.
  - apply Z2Nat.id. rewrite message_size_value. lia.
  - split; [done|]. apply Forall_replicate. unfold byte. lia.
Qed.

Lemma dataset_reaches_clients_witness :
  ∃ s' ms arrs, thread_start one_loaded ready_thread = Ok (tt, s') ∧ dataset s' = concat ms ∧
    load_dataset NUM_OF_REQUESTS ms 0 (replicate 100 []) tt = Ok (arrs, tt) ∧
    length (messages_for 7 (zip all_turns ms)) = 100%nat.
Proof.
  destruct (dataset_reaches_clients one_loaded ready_thread tt) as (s' & ms & arrs & H1 & H2 & _ & H3 & H4).
  - discriminate.
  - exact one_loaded_ok.
  - exact ready_thread_ok.
  - reflexivity.
  - exists s', ms, arrs. split; [exact H1|]. split; [exact H2|]. split; [exact H3|].
    destruct (H4 7) as (_ & H5 & _); [lia|exact H5].
Defined.

Definition message_5 : list Z := bytes_of_int 5 ++ replicate (Z.to_nat (message_size - 4)) 0.
Definition answers_5 : list Z := replicate 60 1 ++ replicate 40 0.

Lemma encrypt_clear ctr answers :
  encrypt_answers ctr answers = Some (bytes_of_int <$> answers, ctr).
Proof.
  induction answers as [|a answers IH]; [done|]. cbn [encrypt_answers].
  change (aes_ctr_encrypt ctr (bytes_of_int a)) with (clear_bytes ctr (bytes_of_int a)). unfold clear_bytes.
  rewrite decide_True; [cbn [mbind option_bind]; by rewrite IH|].
  unfold bytes_of_int. rewrite !Forall_cons, Forall_nil. split_and!; (apply u8_range || done).
Qed.

Lemma client_counts_answers_witness :
  ∃ s', enc_thread_start (concat (replicate 100 message_5))
      (mkCThread (replicate (Z.to_nat 1600) 0) [] (bytes_of_int <$> answers_5) 0 0) = Ok (tt, s') ∧
    true_positives s' = 60 ∧ false_positives s' = 40.
Proof.
  destruct (client_counts_answers 5 (replicate 100 message_5) answers_5
    (mkCThread (replicate (Z.to_nat 1600) 0) [] (bytes_of_int <$> answers_5) 0 0) (bytes_of_int <$> answers_5)
    (ctr_block (replicate (Z.to_nat 1600) 0) 5)) as (s' & H1 & _ & H2 & H3 & _).
  - apply Forall_replicate. split; [|exists (replicate (Z.to_nat (message_size - 4)) 0); reflexivity].
    unfold message_5. rewrite length_app, Nat2Z.inj_add, length_replicate, Z2Nat.id by (rewrite message_size_value; lia).
    simpl length. lia.
  - rewrite length_replicate. reflexivity.
  - rewrite length_replicate. reflexivity.
  - unfold answers_5. apply Forall_app. split; apply Forall_replicate; lia.
  - lia.
  - cbn [cctr]. rewrite length_replicate. reflexivity.
  - apply encrypt_clear.
  - reflexivity.
  - reflexivity.
  - reflexivity.
  - exists s'. split; [exact H1|]. rewrite H2, H3. split; reflexivity.
Defined.
