(* ===== verification/ParamServer.v ===== *)
(** * The parameter server's loop

    Models what the two parameter servers share: the exchange of request buffers
    with the untrusted side ([untrusted/sample.cpp] of [parameter_server] and of
    [parameter_server_suvm]), by a call out of the enclave or through the
    counting thread, and [test_llc_internal], which increments the counter of
    every key of every buffer.  The table of the counters is behind an interface.
    Time measurements and thread placement are left out. *)

From S2P Require Import Prelude SyncUtils FaceServer.

(** ** Arrays of [long long]

    Little-endian bytes. *)
Fixpoint bytes_le (n : nat) (v : Z) : list Z :=
  match n with
  | O => []
  | S n' => u8 v :: bytes_le n' (v / 2 ^ 8)
  end.
Fixpoint le_value (l : list Z) : Z :=
  match l with
  | [] => 0
  | b :: l' => b + 2 ^ 8 * le_value l'
  end.
Definition sizeof_long : Z := 8.
Definition bytes_of_long (v : Z) : list Z := bytes_le 8 v.
Definition long_of_bytes (l : list Z) : Z := i64 (le_value l).

(** ** The untrusted side *)

(** [newsockfd] is what is there for the successive reads of the connection; an
    empty list is its end.  [replies] is what has been written to it.
    [request_buf] is shared with the enclave. *)
Record untrusted := mkApp {
  start : Z;
  finish : Z;
  request_buf : list Z;
  newsockfd : list (list Z);
  replies : list Z
}.
Definition set_start (v : Z) (a : untrusted) : untrusted :=
  mkApp v (finish a) (request_buf a) (newsockfd a) (replies a).
Definition set_finish (v : Z) (a : untrusted) : untrusted :=
  mkApp (start a) v (request_buf a) (newsockfd a) (replies a).
Definition set_buf (b : list Z) (a : untrusted) : untrusted :=
  mkApp (start a) (finish a) b (newsockfd a) (replies a).
Definition set_sock (c : list (list Z)) (a : untrusted) : untrusted :=
  mkApp (start a) (finish a) (request_buf a) c (replies a).

Definition request_buf_size (a : untrusted) : Z := Z.of_nat (length (request_buf a)).

(** [read]: at most [n] bytes; it blocks where nothing is left to come. *)
Definition read_sock (n : Z) : M untrusted (list Z) :=
  c ← gets newsockfd;
  match c with
  | [] => fail ESpin
  | b :: c' =>
      let rest := drop (Z.to_nat n) b in
      modify (set_sock (match rest with [] => c' | _ => rest :: c' end));;
      mret (take (Z.to_nat n) b)
  end.

Definition write_sock (b : list Z) : M untrusted unit :=
  modify (λ a, mkApp (start a) (finish a) (request_buf a) (newsockfd a) (replies a ++ b)).

(** [while (counter < request_buf_size)]; the end of the connection is fatal. *)
Fixpoint llc_loop (fuel : nat) (counter : Z) : M untrusted unit :=
  match fuel with
  | O => fail EFuel
  | S fuel' =>
      size ← gets request_buf_size;
      if counter <? size then
        b ← read_sock (size - counter);
        if Z.of_nat (length b) <=? 0 then fail EAbort
        else
          modify (λ a, set_buf (patch (request_buf a) counter b) a);;
          llc_loop fuel' (i32 (counter + Z.of_nat (length b)))
      else mret tt
  end.

(** Every turn reads a byte or more, so the size of the buffer bounds them. *)
Definition ocall_llc_test (warmup : Z) : M untrusted Z :=
  size ← gets request_buf_size;
  llc_loop (S (Z.to_nat size)) 0;;
  mret 0.

(** A turn of [sgx_counting_thread]; 3, 4 and 5 only take the time. *)
Definition counting_turn : M untrusted unit :=
  st ← gets start;
  if st =? 1 then
    modify (set_start 0);;
    _ ← ocall_llc_test 0;
    modify (set_finish 0)
  else if st =? 2 then
    modify (set_start 0);;
    _ ← ocall_llc_test 1;
    modify (set_finish 0)
  else if (st =? 3) || (st =? 4) || (st =? 5) then
    modify (set_start 0);;
    modify (set_finish 0)
  else mret tt.
Fixpoint sgx_counting_thread (turns : nat) : M untrusted unit :=
  match turns with
  | O => mret tt
  | S n => counting_turn;; sgx_counting_thread n
  end.

(** ** The loop *)

Definition parameter_server_spin_lock : M Z unit := spin_lock.

(** A new buffer of requests: [others] is what the counting thread does between
    the stores and the wait. *)
Definition exchange (others : M untrusted unit) (rpc : bool) (warmup : Z) : M untrusted Z :=
  if rpc then
    modify (set_finish 1);;
    modify (set_start (1 + warmup));;
    others;;
    zoom finish set_finish parameter_server_spin_lock;;
    mret 0
  else ocall_llc_test warmup.

Section server.
Context {T : Type} (bump : Z → M T unit) (others : M untrusted unit).

Definition on_app {A} (m : M untrusted A) : M (untrusted * T) A := zoom fst (λ a s, (a, s.2)) m.
Definition on_table {A} (m : M T A) : M (untrusted * T) A := zoom snd (λ t s, (s.1, t)) m.

(** [request_keys[i]] *)
Definition request_key (i : Z) : M untrusted Z :=
  b ← gets request_buf;
  l ← slice b (i * sizeof_long) sizeof_long;
  mret (long_of_bytes l).

Fixpoint keys_loop (n : nat) (i : Z) : M (untrusted * T) unit :=
  match n with
  | O => mret tt
  | S n' =>
      r ← on_app (request_key i);
      on_table (bump r);;
      keys_loop n' (i + 1)
  end.

(** [for (x = 0; x < times; x++)] *)
Fixpoint test_loop (n : nat) (rpc : bool) (ocall_freq warmup x res : Z) : M (untrusted * T) Z :=
  match n with
  | O => mret res
  | S n' =>
      (if ocall_freq =? 0 then fail EUndef else mret tt);;
      res1 ← (if Z.rem x ocall_freq =? 0 then on_app (exchange others rpc warmup) else mret 0);
      request_num ← gets (λ s, request_buf_size s.1 / sizeof_long);
      keys_loop (Z.to_nat request_num) 0;;
      test_loop n' rpc ocall_freq warmup (x + 1) (i64 (res + res1))
  end.

Definition test_llc_internal (rpc : bool) (ocall_freq times warmup : Z) : M (untrusted * T) Z :=
  res ← test_loop (Z.to_nat times) rpc ocall_freq warmup 0 0;
  mret (i32 res).

(** The end of [main], with the connection made: the warm-up, the measured run,
    and only then the byte ['e'] to the client. *)
Definition serve_connection (warmup_test real_test : M (untrusted * T) Z) : M (untrusted * T) unit :=
  _ ← warmup_test;
  _ ← real_test;
  on_app (write_sock [101]).
End server.

(** ** The interface of the table

    [counts t vals]: the table holds the counter [vals !! k] for key [k]. *)
Class CounterTable {T : Type} (bump : Z → M T unit) := {
  counts : T → list Z → Prop;
  bump_counts t vals k v :
    counts t vals → vals !! k = Some v →
    ∃ t', bump (Z.of_nat k) t = Ok (tt, t') ∧ counts t' (<[k := i64 (v + 1)]> vals)
}.
