(* ===== verification/ParamDirect.v ===== *)
(** * The parameter server's table in ordinary memory

    Models [parameter_server/enclave_direct/SimpleHashMap.h] (without
    [USE_LINKEDLIST], as it is built) and how [trusted/direct.cpp] and
    [untrusted/sample.cpp] use it.  The number of slots is an argument; the
    program's is [HASHMAPSIZE]. *)

From S2P Require Import Prelude FaceServer ParamServer.

Record item_t := mkItem { key : Z; val : Z }.
Definition sizeof_item_t : Z := 16.
Definition HASHMAPSIZE : Z := 512 * 1024 * 1024 / sizeof_item_t.
Definition AVERAGE_TIMES : Z := 100000.

(** [buckets] *)
Abbreviation HashMap := (list item_t).

Section table.
Context (size : Z).

(** [key % HASHMAPSIZE], a remainder of unsigned numbers. *)
Definition hash_key (k : Z) : Z := u64 k mod size.

(** [HashMap()]: [vals] is what [new] leaves in the values. *)
Definition HashMap_ctor (vals : list Z) : HashMap := mkItem (-1) <$> vals.

Definition bucket_at (loc : Z) : M HashMap item_t :=
  b ← gets (λ t, t !! Z.to_nat loc);
  defined b.

(** [loc] moves on, but the slot that is compared stays the first one. *)
Fixpoint get_loop (fuel : nat) (k i loc : Z) : M HashMap Z :=
  match fuel with
  | O => fail EFuel
  | S fuel' =>
      it ← bucket_at i;
      if key it =? k then mret i
      else get_loop fuel' k i (u64 (loc + 1) mod size)
  end.
Definition get (fuel : nat) (k : Z) : M HashMap Z :=
  let loc := hash_key k in get_loop fuel k loc loc.

Fixpoint add_loop (fuel : nat) (new_item : item_t) (i : Z) : M HashMap unit :=
  match fuel with
  | O => fail EFuel
  | S fuel' =>
      let keyhash := hash_key (i64 (key new_item + i)) in
      old_item ← bucket_at keyhash;
      if (key old_item =? key new_item) || (key old_item =? -1) then
        modify (λ t, <[Z.to_nat keyhash := mkItem (key new_item) (val new_item)]> t)
      else add_loop fuel' new_item (i32 (i + 1))
  end.
Definition add (fuel : nat) (new_item : item_t) : M HashMap unit := add_loop fuel new_item 0.

(** [for (i = 0; i < HASHMAPSIZE; i++) hashmap.add(item)] of
    [ecall_init_hashmap] and [rcall_init_hashmap]: [n] keys from [i] on. *)
Fixpoint init_hashmap (n : nat) (i : Z) : M HashMap unit :=
  match n with
  | O => mret tt
  | S n' =>
      add (Z.to_nat size) (mkItem i 0);;
      init_hashmap n' (u64 (i + 1))
  end.

(** [curr = hashmap.get(r); curr->val++] *)
Definition bump_direct (r : Z) : M HashMap unit :=
  curr ← get (Z.to_nat size) r;
  it ← bucket_at curr;
  modify (λ t, <[Z.to_nat curr := mkItem (key it) (i64 (val it + 1))]> t).
End table.

(** ** The two programs *)

Definition ecall_init_hashmap : M HashMap unit := init_hashmap HASHMAPSIZE (Z.to_nat HASHMAPSIZE) 0.
Definition rcall_init_hashmap : M HashMap unit := init_hashmap HASHMAPSIZE (Z.to_nat HASHMAPSIZE) 0.

(** The enclave's [test_llc_internal], and the ordinary process's, which has no
    other thread to ask. *)
Definition direct_test (others : M untrusted unit) (rpc : bool) (ocall_freq times warmup : Z) :
    M (untrusted * HashMap) Z :=
  test_llc_internal (bump_direct HASHMAPSIZE) others rpc ocall_freq times warmup.
Definition ecall_test_llc_misses_warmup (others : M untrusted unit) (rpc : bool) (ocall_freq : Z) :
    M (untrusted * HashMap) Z := direct_test others rpc ocall_freq 100 1.
Definition ecall_test_llc_misses_real (others : M untrusted unit) (rpc : bool) (ocall_freq : Z) :
    M (untrusted * HashMap) Z := direct_test others rpc ocall_freq AVERAGE_TIMES 0.
Definition process_test (ocall_freq times warmup : Z) : M (untrusted * HashMap) Z :=
  test_llc_internal (bump_direct HASHMAPSIZE) (mret tt) false ocall_freq times warmup.
Definition rcall_test_llc_misses_warmup (ocall_freq : Z) : M (untrusted * HashMap) Z :=
  process_test ocall_freq 10000 1.
Definition rcall_test_llc_misses_real (ocall_freq : Z) : M (untrusted * HashMap) Z :=
  process_test ocall_freq AVERAGE_TIMES 0.

(** [main] from the table on: [reg] says that the process serves the keys
    itself. *)
Definition direct_serve (reg : bool) (others : M untrusted unit) (rpc : bool) (ocall_freq : Z) :
    M (untrusted * HashMap) unit :=
  if reg then
    on_table rcall_init_hashmap;;
    serve_connection (rcall_test_llc_misses_warmup ocall_freq) (rcall_test_llc_misses_real ocall_freq)
  else
    on_table ecall_init_hashmap;;
    serve_connection (ecall_test_llc_misses_warmup others rpc ocall_freq)
      (ecall_test_llc_misses_real others rpc ocall_freq).

(** ** The table *)

Section proofs.
Context (size : Z) (Hsize : 0 < size ≤ HASHMAPSIZE).

(** Slot [k] holds key [k], for the first [n] slots. *)
Definition filled (t : HashMap) (vals : list Z) : Prop :=
  Z.of_nat (length t) = size ∧
  ∀ k v, vals !! k = Some v → t !! k = Some (mkItem (Z.of_nat k) v).

Lemma hash_key_id k : 0 ≤ k < size → hash_key size k = k.
Proof.
  intros Hk. unfold hash_key. assert (size ≤ 2 ^ 25) by (change (2 ^ 25) with HASHMAPSIZE; lia).
  rewrite u64_id, Z.mod_small; lia.
Qed.

Lemma bucket_run {B} t i it (f : item_t → M HashMap B) :
  t !! Z.to_nat i = Some it → (bucket_at i ≫= f) t = f it t.
Proof. intros H. unfold bucket_at. rewrite bind_assoc, bind_gets. by apply bind_defined. Qed.

Lemma get_loop_stays fuel k t i loc it :
  t !! Z.to_nat i = Some it →
  get_loop size (S fuel) k i loc t = if key it =? k then Ok (i, t) else Err EFuel.
Proof.
  intros Hit. revert loc. induction fuel as [|fuel IH]; intros loc.
  - cbn [get_loop]. rewrite (bucket_run t _ it) by done. by destruct (key it =? k).
  - cbn [get_loop]. rewrite (bucket_run t _ it) by done. destruct (key it =? k) eqn:E; [done|].
    exact (IH (u64 (loc + 1) mod size)).
Qed.

(** [get] compares one slot: it returns at once or never. *)
Lemma get_home fuel k t it :
  t !! Z.to_nat (hash_key size k) = Some it →
  get size (S fuel) k t = if key it =? k then Ok (hash_key size k, t) else Err EFuel.
Proof. apply get_loop_stays. Qed.

Lemma bump_direct_ok t vals k v :
  filled t vals → vals !! k = Some v → Z.of_nat (length vals) ≤ size →
  ∃ t', bump_direct size (Z.of_nat k) t = Ok (tt, t') ∧ filled t' (<[k := i64 (v + 1)]> vals).
Proof.
  intros [Hlen Ht] Hk Hn. pose proof (lookup_lt_Some _ _ _ Hk) as Hlt. pose proof (Ht k v Hk) as Hit.
  assert (hash_key size (Z.of_nat k) = Z.of_nat k) as Eh by (apply hash_key_id; lia).
  eexists. split.
  - unfold bump_direct. destruct (Z.to_nat size) as [|n] eqn:E; [lia|].
    erewrite bind_Ok; [|rewrite (get_home n _ t (mkItem (Z.of_nat k) v)) by (by rewrite Eh, Nat2Z.id);
      cbn [key]; rewrite Z.eqb_refl, Eh; reflexivity].
    rewrite (bucket_run t _ (mkItem (Z.of_nat k) v)) by (by rewrite Nat2Z.id). reflexivity.
  - cbn [key val]. rewrite Nat2Z.id. split; [by rewrite length_insert|]. intros j w Hj.
    destruct (decide (j = k)) as [->|Hne].
    + rewrite list_lookup_insert_eq in Hj by done. injection Hj as <-.
      apply list_lookup_insert_eq. by eapply lookup_lt_Some.
    + rewrite list_lookup_insert_ne in Hj by done. rewrite list_lookup_insert_ne by done. by apply Ht.
Qed.

Lemma add_empty t i v it :
  0 ≤ i < size → t !! Z.to_nat i = Some it → key it = -1 →
  add size (Z.to_nat size) (mkItem i v) t = Ok (tt, <[Z.to_nat i := mkItem i v]> t).
Proof.
  intros Hi Hit Hk. unfold add. destruct (Z.to_nat size) as [|n] eqn:E; [lia|]. cbn [add_loop key val].
  assert (size ≤ 2 ^ 25) by (change (2 ^ 25) with HASHMAPSIZE; lia).
  rewrite Z.add_0_r, i64_id, hash_key_id by lia. rewrite (bucket_run t i it) by done.
  by rewrite Hk, orb_true_r.
Qed.

Lemma init_hashmap_ok n i t :
  Z.of_nat (length t) = size → 0 ≤ i → i + Z.of_nat n = size →
  (∀ k, i ≤ Z.of_nat k < size → ∃ it, t !! k = Some it ∧ key it = -1) →
  ∃ t', init_hashmap size n i t = Ok (tt, t') ∧ length t' = length t ∧
    (∀ k, Z.of_nat k < i → t' !! k = t !! k) ∧
    (∀ k, i ≤ Z.of_nat k < size → t' !! k = Some (mkItem (Z.of_nat k) 0)).
Proof.
  revert i t. induction n as [|n IH]; intros i t Hlen Hi Hn Hempty; cbn [init_hashmap].
  { exists t. split; [done|]. split; [done|]. split; [done|]. intros k Hk. lia. }
  destruct (Hempty (Z.to_nat i)) as (it & Hit & Hkey); [lia|].
  rewrite (bind_Ok _ _ _ _ _ (add_empty t i 0 it ltac:(lia) Hit Hkey)).
  assert (size ≤ 2 ^ 25) by (change (2 ^ 25) with HASHMAPSIZE; lia). rewrite u64_id by lia.
  destruct (IH (i + 1) (<[Z.to_nat i := mkItem i 0]> t)) as (t' & Hrun & Hl & Hlow & Hhigh); [|lia|lia| |].
  - by rewrite length_insert.
  - intros k Hk. rewrite list_lookup_insert_ne by lia. apply Hempty. lia.
  - exists t'. split; [exact Hrun|]. rewrite length_insert in Hl. split; [exact Hl|]. split.
    + intros k Hk. rewrite Hlow by lia. by rewrite list_lookup_insert_ne by lia.
    + intros k Hk. destruct (decide (Z.of_nat k = i)) as [<-|Hne].
      * rewrite Hlow by lia. rewrite Nat2Z.id. apply list_lookup_insert_eq.
        apply lookup_lt_Some in Hit. lia.
      * apply Hhigh. lia.
Qed.
End proofs.

(** The table is an implementation of the interface the loop uses. *)
#[export] Program Instance direct_table size (Hsize : 0 < size ≤ HASHMAPSIZE) :
    CounterTable (bump_direct size) := {|
  counts t vals := filled size t vals ∧ Z.of_nat (length vals) ≤ size
|}.
Next Obligation.
  intros size Hsize t vals k v [Hf Hlen] Hk.
  destruct (bump_direct_ok size Hsize t vals k v Hf Hk Hlen) as (t' & H1 & H2).
  exists t'. split; [exact H1|]. split; [exact H2|by rewrite length_insert].
Qed.
