(* ===== verification/ParamLoop.v ===== *)
(** * The parameter server counts the keys it is sent

    The buffers come whole whatever the pieces they arrive in, with or without
    the counting thread, and over any table that keeps its promise every counter
    ends at the number of times its key was sent. *)

From S2P Require Import Prelude SyncUtils FaceServer ParamServer.

(** ** Integers as bytes *)

Lemma le_value_bytes n v : le_value (bytes_le n v) = v mod 2 ^ (8 * Z.of_nat n).
Proof.
  revert v. induction n as [|n IH]; intros v; [by rewrite Z.mod_1_r|]. cbn [bytes_le le_value]. rewrite IH.
  replace (8 * Z.of_nat (S n)) with (8 + 8 * Z.of_nat n) by lia. rewrite Z.pow_add_r by lia.
  unfold u8. rewrite Z.rem_mul_r by lia. lia.
Qed.

Lemma length_bytes_le n v : length (bytes_le n v) = n.
Proof. revert v. induction n as [|n IH]; intros v; [done|]. cbn. by rewrite IH. Qed.

Lemma u8_bytes_le n v : u8 <$> bytes_le n v = bytes_le n v.
Proof. revert v. induction n as [|n IH]; intros v; [done|]. cbn. by rewrite u8_u8, IH. Qed.

Lemma i64_mod v : i64 (v mod 2 ^ 64) = i64 v.
Proof. unfold i64. by rewrite Zplus_mod_idemp_l. Qed.

Lemma i64_add_l v w : i64 (i64 v + w) = i64 (v + w).
Proof.
  unfold i64. f_equal. replace ((v + 2 ^ 63) mod 2 ^ 64 - 2 ^ 63 + w + 2 ^ 63)
    with ((v + 2 ^ 63) mod 2 ^ 64 + w) by lia. rewrite Zplus_mod_idemp_l. f_equal. lia.
Qed.

Lemma long_bytes v : long_of_bytes (bytes_of_long v) = i64 v.
Proof. unfold long_of_bytes, bytes_of_long. rewrite le_value_bytes. apply i64_mod. Qed.

Lemma length_long v : length (bytes_of_long v) = 8%nat.
Proof. apply length_bytes_le. Qed.

(** A buffer of keys as the client writes it. *)
Definition wire (ks : list nat) : list Z := concat ((λ k, bytes_of_long (Z.of_nat k)) <$> ks).

Lemma wire_cons k ks : wire (k :: ks) = bytes_of_long (Z.of_nat k) ++ wire ks.
Proof. reflexivity. Qed.

Lemma wire_app ks ks' : wire (ks ++ ks') = wire ks ++ wire ks'.
Proof. unfold wire. by rewrite fmap_app, concat_app. Qed.

Lemma length_wire ks : length (wire ks) = (8 * length ks)%nat.
Proof.
  unfold wire. induction ks as [|k ks IH]; [done|]. cbn [fmap list_fmap concat length].
  rewrite length_app, length_long, IH. lia.
Qed.

(** ** The untrusted side *)

(** [c] delivers the bytes [l], in pieces that are not empty. *)
Definition delivers (c : list (list Z)) (l : list Z) : Prop :=
  Forall (λ b, b ≠ []) c ∧ concat c = l.

Lemma read_sock_ok a n l :
  delivers (newsockfd a) l → 0 < n ≤ Z.of_nat (length l) →
  ∃ b c l', l = b ++ l' ∧ 0 < Z.of_nat (length b) ≤ n ∧ delivers c l' ∧
    ∀ B (f : list Z → M untrusted B), (read_sock n ≫= f) a = f b (set_sock c a).
Proof.
  intros [Hne Hc] Hn. destruct (newsockfd a) as [|b c] eqn:E; [subst l; simpl in Hn; lia|].
  apply Forall_cons in Hne as [Hb Hne]. cbn [concat] in Hc.
  destruct b as [|x b]; [done|]. remember (x :: b) as b0 eqn:Eb.
  assert (0 < length b0)%nat as Hpos by (rewrite Eb; simpl; lia).
  exists (take (Z.to_nat n) b0), (match drop (Z.to_nat n) b0 with [] => c | r => r :: c end),
    (drop (Z.to_nat n) b0 ++ concat c).
  split; [by rewrite app_assoc, take_drop|]. split; [rewrite length_take; lia|]. split.
  - destruct (drop (Z.to_nat n) b0) as [|y r] eqn:Er; [by split|].
    split; [constructor; [discriminate|exact Hne]|done].
  - intros B f. unfold read_sock. rewrite bind_assoc, bind_gets, E. cbv zeta.
    rewrite bind_assoc, bind_modify. by destruct (drop (Z.to_nat n) b0).
Qed.

Lemma patch_middle (d o l : list Z) :
  (length l ≤ length o)%nat → patch (d ++ o) (Z.of_nat (length d)) l = (d ++ l) ++ drop (length l) o.
Proof.
  intros Hl. unfold patch. rewrite Nat2Z.id, take_app_length, drop_app_add. by rewrite app_assoc.
Qed.

Lemma llc_loop_ok fuel a d o need rest :
  request_buf a = d ++ o → length need = length o → (length o < fuel)%nat →
  Z.of_nat (length d + length o) < 2 ^ 31 → delivers (newsockfd a) (need ++ rest) →
  ∃ c, delivers c rest ∧
    ∀ B (f : unit → M untrusted B),
      (llc_loop fuel (Z.of_nat (length d)) ≫= f) a = f tt (set_sock c (set_buf (d ++ need) a)).
Proof.
  revert a d o need. induction fuel as [|fuel IH]; intros a d o need Hb Hlen Hf Hsz Hc; [lia|].
  destruct o as [|x o0] eqn:Eo.
  { destruct need; [|done]. rewrite app_nil_r in Hb |- *. exists (newsockfd a). split; [exact Hc|].
    intros B f. cbn [llc_loop]. rewrite bind_assoc, bind_gets. unfold request_buf_size. rewrite Hb, Z.ltb_irrefl.
    rewrite bind_ret, <- Hb. by destruct a. }
  rewrite <- Eo in *. assert (0 < length o)%nat as Hpos by (rewrite Eo; simpl; lia). clear Eo x o0.
  destruct (read_sock_ok a (Z.of_nat (length o)) (need ++ rest) Hc) as (b & c & l' & El & Hbl & Hc' & Hrun).
  { rewrite length_app. lia. }
  assert (∃ need', need = b ++ need' ∧ l' = need' ++ rest) as (need' & -> & ->).
  { exists (drop (length b) need). assert (length b ≤ length need)%nat by lia. split.
    - rewrite <- (take_drop (length b) need) at 1. f_equal.
      apply (f_equal (take (length b))) in El. rewrite take_app_le, take_app_length in El by done. done.
    - apply (f_equal (drop (length b))) in El. rewrite drop_app_le, drop_app_length in El by done. done. }
  rewrite length_app in Hlen.
  destruct (IH (set_buf ((d ++ b) ++ drop (length b) o) (set_sock c a)) (d ++ b) (drop (length b) o) need')
    as (c' & Hc2 & Hrun2).
  - done.
  - rewrite length_drop. lia.
  - rewrite length_drop. lia.
  - rewrite length_app, length_drop. lia.
  - exact Hc'.
  - exists c'. split; [exact Hc2|]. intros B f. cbn [llc_loop]. rewrite bind_assoc, bind_gets.
    unfold request_buf_size. rewrite Hb, length_app, (proj2 (Z.ltb_lt _ _)) by lia.
    replace (Z.of_nat (length d + length o) - Z.of_nat (length d)) with (Z.of_nat (length o)) by lia.
    rewrite bind_assoc, Hrun, (proj2 (Z.leb_gt _ _)) by lia. rewrite bind_assoc, bind_modify.
    cbn [set_sock request_buf]. rewrite Hb, patch_middle by lia.
    rewrite i32_id by lia.
    replace (Z.of_nat (length d) + Z.of_nat (length b)) with (Z.of_nat (length (d ++ b)))
      by (rewrite length_app; lia).
    rewrite Hrun2, app_assoc. done.
Qed.

(** [ocall_llc_test] replaces the buffer by the next bytes of the connection. *)
Lemma ocall_llc_test_ok a need rest warmup :
  length need = length (request_buf a) → request_buf_size a < 2 ^ 31 →
  delivers (newsockfd a) (need ++ rest) →
  ∃ c, delivers c rest ∧
    ∀ B (f : Z → M untrusted B), (ocall_llc_test warmup ≫= f) a = f 0 (set_sock c (set_buf need a)).
Proof.
  intros Hlen Hsz Hc. unfold request_buf_size in Hsz.
  destruct (llc_loop_ok (S (Z.to_nat (request_buf_size a))) a [] (request_buf a) need rest) as (c & Hc' & Hrun);
    [done|done|unfold request_buf_size; lia|simpl; lia|done|].
  exists c. split; [exact Hc'|]. intros B f. unfold ocall_llc_test. rewrite bind_assoc, bind_gets, bind_assoc.
  etransitivity; [apply Hrun|done].
Qed.

(** One turn of the counting thread after the enclave's stores is enough. *)
Lemma counting_idle n a : start a = 0 → sgx_counting_thread n a = Ok (tt, a).
Proof.
  intros Hs. induction n as [|n IH]; [done|]. cbn [sgx_counting_thread].
  rewrite (bind_Ok _ _ _ tt a); [exact IH|]. unfold counting_turn. rewrite bind_gets, Hs. done.
Qed.

Lemma exchange_ok a need rest turns rpc warmup :
  length need = length (request_buf a) → request_buf_size a < 2 ^ 31 →
  delivers (newsockfd a) (need ++ rest) → warmup = 0 ∨ warmup = 1 →
  ∃ a', request_buf a' = need ∧ delivers (newsockfd a') rest ∧ replies a' = replies a ∧
    exchange (sgx_counting_thread (S turns)) rpc warmup a = Ok (0, a').
Proof.
  intros Hlen Hsz Hc Hw. destruct rpc; unfold exchange.
  2: { destruct (ocall_llc_test_ok a need rest warmup Hlen Hsz Hc) as (c & Hc' & Hrun).
    exists (set_sock c (set_buf need a)). split; [done|]. split; [exact Hc'|]. split; [done|].
    rewrite <- bind_ret_r. apply Hrun. }
  set (b := set_start 0 (set_start (1 + warmup) (set_finish 1 a))).
  destruct (ocall_llc_test_ok b need rest warmup Hlen Hsz Hc) as (c & Hc' & Hrun).
  set (b' := set_finish 0 (set_sock c (set_buf need b))).
  exists (set_finish 1 b'). split; [done|]. split; [exact Hc'|]. split; [done|].
  rewrite !bind_modify. cbn [sgx_counting_thread]. rewrite bind_assoc.
  assert (∀ B (f : unit → M untrusted B), (counting_turn ≫= f) (set_start (1 + warmup) (set_finish 1 a)) = f tt b') as Hturn.
  { intros B f. unfold counting_turn. rewrite bind_assoc, bind_gets. cbn [set_start start].
    destruct Hw as [-> | ->];
      [change (1 + 0 =? 1) with true|change (1 + 1 =? 1) with false; change (1 + 1 =? 2) with true];
      cbv iota; rewrite bind_assoc, bind_modify, bind_assoc; apply Hrun. }
  rewrite Hturn. rewrite (bind_Ok _ _ _ tt b') by (by apply counting_idle).
  unfold parameter_server_spin_lock. by rewrite (bind_zoom finish set_finish _ _ _ tt 1) by done.
Qed.

(** ** The counters *)

(** One increment for every key, in order. *)
Fixpoint bump_all (ks : list nat) (vals : list Z) : list Z :=
  match ks with
  | [] => vals
  | k :: ks' => bump_all ks' (alter (λ v, i64 (v + 1)) k vals)
  end.

(** How often [k] was sent. *)
Fixpoint occurrences (k : nat) (ks : list nat) : Z :=
  match ks with
  | [] => 0
  | j :: ks' => (if decide (j = k) then 1 else 0) + occurrences k ks'
  end.

Lemma length_bump_all ks vals : length (bump_all ks vals) = length vals.
Proof. revert vals. induction ks as [|k ks IH]; intros vals; [done|]. cbn. by rewrite IH, length_alter. Qed.

Lemma bump_all_app ks ks' vals : bump_all (ks ++ ks') vals = bump_all ks' (bump_all ks vals).
Proof. revert vals. induction ks as [|k ks IH]; intros vals; [done|]. cbn. apply IH. Qed.

Lemma i64_i64 v : i64 (i64 v) = i64 v.
Proof. pose proof (i64_add_l v 0) as H. by rewrite !Z.add_0_r in H. Qed.

(** Each counter ends at the number of times its key occurred. *)
Lemma bump_all_counts ks vals k v :
  vals !! k = Some v → i64 v = v → bump_all ks vals !! k = Some (i64 (v + occurrences k ks)).
Proof.
  revert vals v. induction ks as [|j ks IH]; intros vals v Hk Hv; cbn [bump_all occurrences].
  { by rewrite Z.add_0_r, Hv. }
  case_decide as E.
  - subst j. erewrite (IH _ (i64 (v + 1))); [|by rewrite list_lookup_alter_eq, Hk|apply i64_i64].
    rewrite i64_add_l. do 2 f_equal. lia.
  - erewrite (IH _ v); [|by rewrite list_lookup_alter_ne|done]. do 2 f_equal.
Qed.

Section loop.
Context {T : Type} {bump : Z → M T unit} {HT : CounterTable bump}.

Lemma request_key_ok a pre k post :
  request_buf a = wire pre ++ wire (k :: post) → Z.of_nat k < 2 ^ 63 →
  request_key (Z.of_nat (length pre)) a = Ok (Z.of_nat k, a).
Proof.
  intros Hb Hk. unfold request_key. rewrite bind_gets. unfold slice, sizeof_long.
  rewrite (bind_Ok _ _ _ (bytes_of_long (Z.of_nat k)) a).
  - rewrite long_bytes, i64_id by lia. done.
  - rewrite Hb, wire_cons, !length_app, !length_wire, length_long.
    rewrite (proj2 (andb_true_iff _ _)) by (split; apply Z.leb_le; lia).
    change (Z.to_nat 8) with 8%nat.
    rewrite (drop_app_length' (wire pre)) by (rewrite length_wire; lia).
    rewrite (take_app_length' (bytes_of_long _)) by (by rewrite length_long). done.
Qed.

Lemma keys_loop_ok pre ks a t vals :
  request_buf a = wire pre ++ wire ks → counts t vals →
  Forall (λ k, (k < length vals)%nat) ks → Z.of_nat (length vals) < 2 ^ 63 →
  ∃ t', counts t' (bump_all ks vals) ∧
    keys_loop bump (length ks) (Z.of_nat (length pre)) (a, t) = Ok (tt, (a, t')).
Proof.
  revert pre t vals. induction ks as [|k ks IH]; intros pre t vals Hb Ht Hks Hn; [by exists t|].
  apply Forall_cons in Hks as [Hk Hks]. destruct (lookup_lt_is_Some_2 vals k Hk) as [v Hv].
  destruct (bump_counts t vals k v Ht Hv) as (t1 & Hrun1 & Ht1).
  destruct (IH (pre ++ [k]) t1 (alter (λ v, i64 (v + 1)) k vals)) as (t2 & Ht2 & Hrun2).
  - by rewrite Hb, wire_app, !wire_cons, app_nil_r, <- app_assoc.
  - replace (alter _ k vals) with (<[k := i64 (v + 1)]> vals); [done|].
    apply list_eq. intros j. destruct (decide (j = k)) as [->|Hne].
    + by rewrite list_lookup_insert_eq, list_lookup_alter_eq, Hv.
    + by rewrite list_lookup_insert_ne, list_lookup_alter_ne.
  - by rewrite length_alter.
  - by rewrite length_alter.
  - exists t2. split; [exact Ht2|]. cbn [keys_loop length]. unfold on_app, on_table.
    rewrite (bind_zoom fst _ _ _ (a, t) (Z.of_nat k) a) by (apply (request_key_ok a pre k ks Hb); lia).
    rewrite (bind_zoom snd _ _ _ _ tt t1) by exact Hrun1. cbn [fst snd].
    rewrite length_app in Hrun2. cbn [length] in Hrun2.
    replace (Z.of_nat (length pre) + 1) with (Z.of_nat (length pre + 1)) by lia. exact Hrun2.
Qed.

(** A turn of the loop: a buffer of keys is taken and counted, and nothing is
    written to the client. *)
Lemma test_loop_turn turns rpc warmup b x a t vals rest :
  counts t vals → Z.of_nat (length vals) < 2 ^ 63 → warmup = 0 ∨ warmup = 1 →
  request_buf_size a = 8 * Z.of_nat (length b) → request_buf_size a < 2 ^ 31 →
  Forall (λ k, (k < length vals)%nat) b → delivers (newsockfd a) (wire b ++ rest) →
  ∃ a' t', counts t' (bump_all b vals) ∧ delivers (newsockfd a') rest ∧ replies a' = replies a ∧
    request_buf_size a' = request_buf_size a ∧
    ∀ n, test_loop bump (sgx_counting_thread (S turns)) (S n) rpc 1 warmup x 0 (a, t) =
      test_loop bump (sgx_counting_thread (S turns)) n rpc 1 warmup (x + 1) 0 (a', t').
Proof.
  intros Ht Hn Hw Hm Hsz Hks Hc. unfold request_buf_size in *.
  destruct (exchange_ok a (wire b) rest turns rpc warmup) as (a1 & Hb1 & Hc1 & Hr1 & Hrun1);
    [rewrite length_wire; lia|exact Hsz|exact Hc|exact Hw|].
  destruct (keys_loop_ok [] b a1 t vals Hb1 Ht Hks Hn) as (t1 & Ht1 & Hrun2).
  exists a1, t1. do 3 (split; [done|]). split; [rewrite Hb1, length_wire; lia|]. intros n.
  cbn [test_loop]. change (1 =? 0) with false. cbv iota. rewrite bind_ret, Z.rem_1_r, Z.eqb_refl. unfold on_app.
  rewrite (bind_zoom fst _ _ _ (a, t) 0 a1) by exact Hrun1. cbn [fst snd].
  rewrite bind_gets. cbn [fst]. unfold request_buf_size. rewrite Hb1, length_wire.
  replace (Z.to_nat (Z.of_nat (8 * length b) / sizeof_long)) with (length b).
  - by rewrite (bind_Ok _ _ _ tt (a1, t1)) by exact Hrun2.
  - unfold sizeof_long. rewrite Nat2Z.inj_mul, Z.mul_comm, Z.div_mul by lia. by rewrite Nat2Z.id.
Qed.

(** The whole loop: a buffer a turn, whatever the way it comes. *)
Lemma test_loop_ok turns rpc warmup m bs x a t vals rest :
  counts t vals → Z.of_nat (length vals) < 2 ^ 63 → warmup = 0 ∨ warmup = 1 →
  request_buf_size a = 8 * Z.of_nat m → request_buf_size a < 2 ^ 31 →
  Forall (λ b, length b = m ∧ Forall (λ k, (k < length vals)%nat) b) bs →
  delivers (newsockfd a) (concat (wire <$> bs) ++ rest) →
  ∃ a' t', counts t' (bump_all (concat bs) vals) ∧ delivers (newsockfd a') rest ∧
    test_loop bump (sgx_counting_thread (S turns)) (length bs) rpc 1 warmup x 0 (a, t) = Ok (0, (a', t')).
Proof.
  intros Ht Hn Hw Hm Hsz Hbs. revert x a t vals Ht Hn Hm Hsz Hbs.
  induction bs as [|b bs IH]; intros x a t vals Ht Hn Hm Hsz Hbs Hc.
  { by exists a, t. }
  apply Forall_cons in Hbs as [[Hb Hks] Hbs]. cbn [fmap list_fmap concat] in Hc. rewrite <- app_assoc in Hc.
  destruct (test_loop_turn turns rpc warmup b x a t vals (concat (wire <$> bs) ++ rest))
    as (a1 & t1 & Ht1 & Hc1 & _ & Hb1 & Hrun); try done; [by rewrite Hb|].
  destruct (IH (x + 1) a1 t1 (bump_all b vals)) as (a2 & t2 & Ht2 & Hc2 & Hrun3); rewrite ?length_bump_all, ?Hb1; try done.
  exists a2, t2. split; [by cbn [concat]; rewrite bump_all_app|]. split; [exact Hc2|].
  cbn [length]. rewrite Hrun. exact Hrun3.
Qed.
End loop.
