(* ===== verification/ParamThms.v ===== *)
(** * The parameter server's client, and theorems about both

    Models [client_parameter_server/client.cpp].  The server counts every key it is sent, with the table in ordinary memory; and
    against the client of the repository it stops after one buffer. *)

From S2P Require Import Prelude SyncUtils FaceServer ParamServer ParamDirect ParamLoop.

(** ** The client

    Models [client_parameter_server/client.cpp]: it sends a buffer of random keys
    and waits for a byte of the server before it sends the next.  Connecting and
    timing are left out; [USE_FILE] is read and never used. *)

(** [rands] is what [rand] will return; [server_rep] what the server has written
    and the client not read. *)
Record pclient := mkPClient {
  rands : list Z;
  server_req : list Z;
  sent : list Z;
  server_rep : list Z
}.

Section client.
Context (req_size cache_arg : Z).

(** [atoi(argv[4])*1024 / (sizeof(long long) * 2)] *)
Definition cache_size : Z := i64 (u64 (i32 (cache_arg * 1024)) / 16).

Fixpoint generate_keys (n : nat) (i : Z) : M pclient unit :=
  match n with
  | O => mret tt
  | S n' =>
      s ← gets (λ s, s);
      match rands s with
      | [] => fail EUndef
      | r :: rs =>
          (if cache_size =? 0 then fail EUndef else mret tt);;
          modify (λ s, mkPClient rs
            (patch (server_req s) (i * sizeof_long) (bytes_of_long (Z.rem r cache_size)))
            (sent s) (server_rep s));;
          generate_keys n' (i + 1)
      end
  end.
Definition new_keys : M pclient unit := generate_keys (Z.to_nat (req_size / sizeof_long)) 0.

(** [send], and the keys of the next buffer. *)
Definition client_send : M pclient unit :=
  modify (λ s, mkPClient (rands s) (server_req s) (sent s ++ take (Z.to_nat req_size) (server_req s))
    (server_rep s));;
  new_keys.

(** [while ((n = recv(sock, server_rep, 1, 0)) <= 0)]: without a byte to come it
    never ends.  Says whether the byte is ['e']. *)
Definition client_wait : M pclient bool :=
  s ← gets (λ s, s);
  match server_rep s with
  | [] => fail ESpin
  | c :: l =>
      modify (λ s, mkPClient (rands s) (server_req s) (sent s) l);;
      mret (c =? 101)
  end.

Fixpoint client_loop (fuel : nat) : M pclient unit :=
  match fuel with
  | O => fail EFuel
  | S fuel' =>
      client_send;;
      e ← client_wait;
      if (e : bool) then mret tt else client_loop fuel'
  end.

(** The connection made: the first keys, and the loop. *)
Definition client_main (fuel : nat) : M pclient unit := new_keys;; client_loop fuel.
End client.

(** ** What it sends *)

Section proofs.
Context (cache_arg : Z) (Hcache : 0 < cache_size cache_arg).

Definition key_of (r : Z) : nat := Z.to_nat (Z.rem r (cache_size cache_arg)).

Lemma generate_keys_ok n i s rs rs' pre o :
  rands s = rs ++ rs' → length rs = n → Forall (λ r, 0 ≤ r) rs →
  server_req s = wire pre ++ o → Z.of_nat (length pre) = i → length o = (8 * n)%nat →
  generate_keys cache_arg n i s = Ok (tt, mkPClient rs' (wire pre ++ wire (key_of <$> rs)) (sent s) (server_rep s)).
Proof.
  revert i s rs pre o. induction n as [|n IH]; intros i s rs pre o Hr Hl Hpos Hb Hi Ho; cbn [generate_keys].
  { destruct rs; [|done]. destruct o; [|simpl in Ho; lia]. rewrite app_nil_r in Hb. rewrite app_nil_r.
    rewrite <- Hb. cbn in Hr. rewrite <- Hr. by destruct s. }
  destruct rs as [|r rs]; [done|]. apply Forall_cons in Hpos as [Hr0 Hpos]. injection Hl as Hl.
  rewrite bind_gets, Hr. cbn [app]. rewrite (proj2 (Z.eqb_neq (cache_size cache_arg) 0)) by lia.
  rewrite bind_ret, bind_modify.
  assert (0 ≤ Z.rem r (cache_size cache_arg)) by (apply Z.rem_nonneg; lia).
  set (s1 := mkPClient (rs ++ rs') _ _ _).
  rewrite (IH (i + 1) s1 rs (pre ++ [key_of r]) (drop 8 o)); try done.
  - rewrite wire_app, wire_cons, app_nil_r, <- app_assoc. cbn [fmap list_fmap]. by rewrite wire_cons.
  - unfold s1. cbn [server_req]. rewrite Hb.
    replace (i * sizeof_long) with (Z.of_nat (length (wire pre)))
      by (rewrite length_wire; unfold sizeof_long; lia).
    rewrite patch_middle by (rewrite length_long; lia). rewrite length_long, wire_app, wire_cons, app_nil_r.
    unfold key_of. rewrite Z2Nat.id by done. done.
  - rewrite length_app. simpl. lia.
  - rewrite length_drop. lia.
Qed.
(** The client up to its wait: a buffer is on its way, the keys of the next are
    ready, and what it has been sent is untouched. *)
Lemma client_reaches_wait req_size m c rs rs1 rs2 :
  req_size = 8 * Z.of_nat m → 0 < req_size < 2 ^ 31 →
  rands c = rs ++ rs1 ++ rs2 → length rs = m → length rs1 = m → Forall (λ r, 0 ≤ r) rs → Forall (λ r, 0 ≤ r) rs1 →
  Z.of_nat (length (server_req c)) = req_size → sent c = [] →
  ∃ c0 c1, new_keys req_size cache_arg c = Ok (tt, c0) ∧ client_send req_size cache_arg c0 = Ok (tt, c1) ∧
    sent c1 = wire (key_of <$> rs) ∧ server_rep c1 = server_rep c.
Proof.
  intros Hreq Hsz Hr Hl Hl1 Hpos Hpos1 Hb Hsent.
  assert (req_size / sizeof_long = Z.of_nat m) as Hdiv.
  { unfold sizeof_long. rewrite Hreq, Z.mul_comm, Z.div_mul; lia. }
  set (ks := key_of <$> rs). exists (mkPClient (rs1 ++ rs2) (wire ks) [] (server_rep c)).
  exists (mkPClient rs2 (wire (key_of <$> rs1)) (wire ks) (server_rep c)).
  assert (length (wire ks) = Z.to_nat req_size) as Hlk by (rewrite length_wire; unfold ks; rewrite length_fmap; lia).
  split; [|split; [|done]].
  - unfold new_keys. rewrite Hdiv, Nat2Z.id.
    rewrite (generate_keys_ok m 0 c rs (rs1 ++ rs2) [] (server_req c) Hr Hl Hpos eq_refl eq_refl) by lia.
    by rewrite Hsent.
  - unfold client_send. rewrite bind_modify. unfold new_keys. rewrite Hdiv, Nat2Z.id. cbn [rands server_req sent server_rep].
    rewrite take_ge by lia.
    by rewrite (generate_keys_ok m 0 (mkPClient (rs1 ++ rs2) (wire ks) ([] ++ wire ks) (server_rep c)) rs1 rs2 []
      (wire ks) eq_refl Hl1 Hpos1 eq_refl eq_refl) by lia.
Qed.
End proofs.

Section counts.
Context {T : Type} {bump : Z → M T unit} {HT : CounterTable bump}.

(** The parameter server counts the keys it is sent, over any table that
    keeps its promise: whatever the pieces the buffers arrive in, and whether
    they are asked for by a call out of the enclave or through the counting
    thread (which needs one turn), the loop returns 0, one buffer has been taken
    from the connection for each of its turns, and the counter of every key has
    grown by the number of times the key occurs in them, modulo 2^64. *)
Theorem parameter_server_counts turns rpc warmup m bs a t vals rest :
  counts t vals → Z.of_nat (length vals) < 2 ^ 63 → warmup = 0 ∨ warmup = 1 →
  request_buf_size a = 8 * Z.of_nat m → request_buf_size a < 2 ^ 31 →
  Forall (λ b, length b = m ∧ Forall (λ k, (k < length vals)%nat) b) bs →
  delivers (newsockfd a) (concat (wire <$> bs) ++ rest) →
  ∃ a' t' vals',
    test_llc_internal bump (sgx_counting_thread (S turns)) rpc 1 (Z.of_nat (length bs)) warmup (a, t)
      = Ok (0, (a', t')) ∧
    counts t' vals' ∧ delivers (newsockfd a') rest ∧ length vals' = length vals ∧
    ∀ k v, vals !! k = Some v → i64 v = v → vals' !! k = Some (i64 (v + occurrences k (concat bs))).
Proof.
  intros Ht Hn Hw Hm Hsz Hbs Hc.
  destruct (test_loop_ok turns rpc warmup m bs 0 a t vals rest Ht Hn Hw Hm Hsz Hbs Hc)
    as (a' & t' & Ht' & Hc' & Hrun).
  exists a', t', (bump_all (concat bs) vals). split.
  { unfold test_llc_internal. by rewrite Nat2Z.id, (bind_Ok _ _ _ _ _ Hrun). }
  split; [exact Ht'|]. split; [exact Hc'|]. split; [apply length_bump_all|]. intros k v. apply bump_all_counts.
Qed.
End counts.

(** ** The table in ordinary memory *)

(** A table of eight slots, as [HashMap()] and [ecall_init_hashmap] leave it. *)
Definition table_8 : HashMap := (λ k, mkItem (Z.of_nat k) 0) <$> seq 0 8.

Lemma init_table_8 : init_hashmap 8 8 0 (HashMap_ctor (replicate 8 77)) = Ok (tt, table_8).
Proof. reflexivity. Qed.

Lemma eight_ok : 0 < 8 ≤ HASHMAPSIZE.
Proof. vm_compute. split; congruence. Qed.

Lemma table_8_counts : counts (CounterTable := direct_table 8 eight_ok) table_8 (replicate 8 0).
Proof.
  split; [|reflexivity]. split; [reflexivity|]. intros k v Hk.
  do 8 (destruct k as [|k]; [injection Hk as <-; reflexivity|]). discriminate.
Qed.

(** Two buffers of two keys each, in three pieces, through the counting
    thread. *)
Lemma parameter_server_counts_witness :
  ∃ a' t' vals',
    test_llc_internal (bump_direct 8) (sgx_counting_thread 1) true 1 2 1
      (mkApp 0 0 (replicate 16 0)
        [take 5 (wire [3; 7]%nat); drop 5 (wire [3; 7]%nat) ++ take 3 (wire [7; 0]%nat);
         drop 3 (wire [7; 0]%nat)] [], table_8) = Ok (0, (a', t')) ∧
    counts (CounterTable := direct_table 8 eight_ok) t' vals' ∧ vals' !! 7%nat = Some 2.
Proof.
  destruct (parameter_server_counts (HT := direct_table 8 eight_ok) 0 true 1 2 [[3; 7]; [7; 0]]%nat
    (mkApp 0 0 (replicate 16 0)
        [take 5 (wire [3; 7]%nat); drop 5 (wire [3; 7]%nat) ++ take 3 (wire [7; 0]%nat);
         drop 3 (wire [7; 0]%nat)] []) table_8 (replicate 8 0) [] table_8_counts)
    as (a' & t' & vals' & H1 & H2 & _ & _ & H3).
  - reflexivity.
  - by right.
  - reflexivity.
  - reflexivity.
  - repeat (constructor || (split; [reflexivity|])); simpl; lia.
  - split; [|reflexivity]. repeat constructor; discriminate.
  - exists a', t', vals'. split; [exact H1|]. split; [exact H2|]. by rewrite (H3 7%nat 0).
Defined.

(** From [HashMap()] to the counters, in the enclave's memory: the keys are
    entered, every buffer is served. *)
Definition direct_server (size : Z) (others : M untrusted unit) (rpc : bool) (times warmup : Z) :
    M (untrusted * HashMap) Z :=
  on_table (init_hashmap size (Z.to_nat size) 0);;
  test_llc_internal (bump_direct size) others rpc 1 times warmup.

(** The server with its table in ordinary memory, from the constructor to the
    counters: the slot of every key ends with the key and the number of times it
    was sent. *)
Theorem direct_server_counts size turns rpc warmup m bs a garbage rest :
  0 < size ≤ HASHMAPSIZE → Z.of_nat (length garbage) = size → warmup = 0 ∨ warmup = 1 →
  request_buf_size a = 8 * Z.of_nat m → request_buf_size a < 2 ^ 31 →
  Forall (λ b, length b = m ∧ Forall (λ k, Z.of_nat k < size) b) bs →
  delivers (newsockfd a) (concat (wire <$> bs) ++ rest) →
  ∃ a' t',
    direct_server size (sgx_counting_thread (S turns)) rpc (Z.of_nat (length bs)) warmup
      (a, HashMap_ctor garbage) = Ok (0, (a', t')) ∧
    delivers (newsockfd a') rest ∧
    ∀ k, Z.of_nat k < size → t' !! k = Some (mkItem (Z.of_nat k) (i64 (occurrences k (concat bs)))).
Proof.
  intros Hsize Hg Hw Hm Hsz Hbs Hc. set (n := Z.to_nat size).
  destruct (init_hashmap_ok size Hsize n 0 (HashMap_ctor garbage)) as (t & Hrun & Hlen & _ & Ht).
  { unfold HashMap_ctor. by rewrite length_fmap. }
  { lia. }
  { unfold n. lia. }
  { intros k Hk. unfold HashMap_ctor. rewrite list_lookup_fmap.
    destruct (lookup_lt_is_Some_2 garbage k) as [v ->]; [lia|]. by exists (mkItem (-1) v). }
  unfold HashMap_ctor in Hlen. rewrite length_fmap in Hlen.
  assert (counts (CounterTable := direct_table size Hsize) t (replicate n 0)) as Hcnt.
  { split; [|rewrite length_replicate; unfold n; lia]. split; [lia|].
    intros k v Hk. apply lookup_replicate in Hk as [-> Hk]. apply Ht. unfold n in Hk. lia. }
  destruct (test_loop_ok (HT := direct_table size Hsize) turns rpc warmup m bs 0 a t (replicate n 0) rest)
    as (a' & t' & [[_ Ht'] _] & Hc' & Hrun'); try done.
  { rewrite length_replicate. unfold n. assert (size ≤ 2 ^ 25) by (change (2 ^ 25) with HASHMAPSIZE; lia). lia. }
  { eapply Forall_impl; [exact Hbs|]. intros b [Hb Hk]. split; [exact Hb|].
    eapply Forall_impl; [exact Hk|]. intros k Hk'. cbv beta in Hk'. rewrite length_replicate. unfold n. lia. }
  exists a', t'. split; [|split; [exact Hc'|]].
  - unfold direct_server, on_table. rewrite (bind_zoom snd _ _ _ _ tt t) by exact Hrun. cbn [fst].
    unfold test_llc_internal. rewrite Nat2Z.id. by rewrite (bind_Ok _ _ _ _ _ Hrun').
  - intros k Hk. apply Ht'. rewrite (bump_all_counts (concat bs) (replicate n 0) k 0); [done| |done].
    apply lookup_replicate. unfold n. lia.
Qed.

Lemma direct_server_counts_witness :
  ∃ a' t',
    direct_server 8 (sgx_counting_thread 1) false 1 0
      (mkApp 0 0 (replicate 16 0) [wire [3; 3]%nat] [], HashMap_ctor (replicate 8 77)) = Ok (0, (a', t')) ∧
    t' !! 3%nat = Some (mkItem 3 2).
Proof.
  destruct (direct_server_counts 8 0 false 0 2 [[3; 3]]%nat (mkApp 0 0 (replicate 16 0) [wire [3; 3]%nat] [])
    (replicate 8 77) [] eight_ok) as (a' & t' & H1 & _ & H2).
  - reflexivity.
  - by left.
  - reflexivity.
  - reflexivity.
  - repeat (constructor || (split; [reflexivity|])).
  - split; [|reflexivity]. repeat constructor; discriminate.
  - exists a', t'. split; [exact H1|]. exact (H2 3%nat eq_refl).
Defined.

(** ** The server and its client *)

Section stall.
Context {T : Type} {bump : Z → M T unit} {HT : CounterTable bump}.

Lemma exchange_blocked a turns rpc warmup :
  newsockfd a = [] → 0 < request_buf_size a → warmup = 0 ∨ warmup = 1 →
  exchange (sgx_counting_thread (S turns)) rpc warmup a = Err ESpin.
Proof.
  intros Hc Hsz Hw.
  assert (∀ b w, newsockfd b = [] → 0 < request_buf_size b → ocall_llc_test w b = Err ESpin) as Hblock.
  { intros b w Hb Hbs. unfold ocall_llc_test. rewrite bind_gets. apply bind_Err. cbn [llc_loop].
    rewrite bind_gets, (proj2 (Z.ltb_lt _ _)) by lia. apply bind_Err. unfold read_sock.
    by rewrite bind_gets, Hb. }
  destruct rpc; unfold exchange; [|by apply Hblock].
  rewrite !bind_modify. apply bind_Err. cbn [sgx_counting_thread]. apply bind_Err.
  unfold counting_turn. rewrite bind_gets. cbn [set_start start].
  destruct Hw as [-> | ->];
    [change (1 + 0 =? 1) with true|change (1 + 1 =? 1) with false; change (1 + 1 =? 2) with true];
    cbv iota; rewrite bind_modify; apply bind_Err; by apply Hblock.
Qed.

(** The client with what has been written to it. *)
Definition receives (l : list Z) (c : pclient) : pclient :=
  mkPClient (rands c) (server_req c) (sent c) (server_rep c ++ l).

End stall.

(** Two keys a buffer, and a table of 64 slots. *)
Definition table_64 : HashMap := (λ k, mkItem (Z.of_nat k) 0) <$> seq 0 64.

Lemma sixty_four_ok : 0 < 64 ≤ HASHMAPSIZE.
Proof. vm_compute. split; congruence. Qed.

Lemma table_64_counts : counts (CounterTable := direct_table 64 sixty_four_ok) table_64 (replicate 64 0).
Proof.
  split; [|reflexivity]. split; [reflexivity|]. intros k v Hk. apply lookup_replicate in Hk as [-> Hk].
  unfold table_64. rewrite list_lookup_fmap, lookup_seq_lt by done. done.
Qed.

