(* ===== verification/ParamSuvm.v ===== *)
(** * The parameter server's table behind the paging layer

    Models [parameter_server_suvm/enclave_samples/trusted]: the table of
    [SimpleHashMap.h], kept in a block of the pool and reached through [Aptr]s,
    and [samples.cpp], which serves the requests from it.  The number of slots
    is an argument; the program's is [HASHMAPSIZE]. *)

From S2P Require Import Prelude Memory Mem5 Suvm SuvmInv Aptr FaceServer ParamServer.

Definition sizeof_item_tl : Z := 16.
Definition HASHMAPSIZE : Z := 512 * 1024 * 1024 / sizeof_item_tl.
Definition AVERAGE_TIMES : Z := 100000.

Record SuvmMap := mkSuvmMap {
  buckets : Z;
  map_aptr : Aptr;            (* m_aptr *)
  aptr_start_offset : Z;
  aptr_start_page : Z
}.

Section table.
Context `{Sgx} (size : Z).

Definition hash_key (k : Z) : Z := u64 k.

(** A field of the item a pointer points to, by its address. *)
Definition load_long (addr : Z) : M suvm Z := l ← load_block addr 8; mret (long_of_bytes l).
Definition store_long (addr v : Z) : M suvm unit := store_block addr (bytes_of_long v).

(** [for (size_t i=0;i<HASHMAPSIZE;i++)] of the constructor, [n] items from [i]
    on. *)
Fixpoint fill_loop (n : nat) (i : Z) (a : Aptr) : M suvm Aptr :=
  match n with
  | O => mret a
  | S n' =>
      r ← star a;
      if 4080 <? offset (m_aptr r.2) then fail EAbort
      else
        store_long r.1 i;;
        store_long (r.1 + sizeof_long) 0;;
        fill_loop n' (u64 (i + 1)) (on_aptr (λ a, MOVE_APTR a sizeof_item_tl) r.2)
  end.

(** [garbage] is the memory the member [m_aptr] is made of. *)
Definition HashMap_ctor (garbage : aptr_t) : M suvm SuvmMap :=
  b ← on_pool (memsys5Malloc (i32 (size * sizeof_item_tl)));
  if b =? 0 then fail EAbort
  else
    tmp ← Aptr_ctor b (size * sizeof_item_tl);
    a ← assign (Aptr_null garbage) (Some tmp);
    _ ← reset tmp;
    let start_offset := offset (m_aptr a) in
    let start_page := page (m_aptr a) in
    a ← fill_loop (Z.to_nat size) 0 (set_hint true a);
    mret (mkSuvmMap b a start_offset start_page).

(** The body of the destructor, and the member's. *)
Definition HashMap_dtor (hm : SuvmMap) : M suvm unit :=
  on_pool (memsys5Free (buckets hm));;
  _ ← reset (map_aptr hm);
  mret tt.

(** [get], which also increments: a pointer of its own for every slot it looks
    at. *)
Fixpoint get_loop (fuel : nat) (hm : SuvmMap) (k loc : Z) : M suvm unit :=
  match fuel with
  | O => fail EFuel
  | S fuel' =>
      tmp ← Aptr_ctor (buckets hm) (size * sizeof_item_tl);
      let tmp := on_aptr (λ a, MOVE_APTR a (u64 (loc * sizeof_item_tl))) (set_hint true tmp) in
      r ← star tmp;
      k' ← load_long r.1;
      if k' =? k then
        v ← load_long (r.1 + sizeof_long);
        store_long (r.1 + sizeof_long) (i64 (v + 1));;
        _ ← reset r.2;
        mret tt
      else
        _ ← reset r.2;
        get_loop fuel' hm k (u64 (loc + 1) mod size)
  end.
Definition get (fuel : nat) (hm : SuvmMap) (k : Z) : M suvm unit := get_loop fuel hm k (hash_key k).

(** [add], which nothing calls: the hint is set after the dereference. *)
Fixpoint add_loop (fuel : nat) (hm : SuvmMap) (k v i : Z) : M suvm unit :=
  match fuel with
  | O => fail EFuel
  | S fuel' =>
      let keyhash := hash_key (i64 (k + i)) in
      old_item ← Aptr_ctor (buckets hm + keyhash * sizeof_item_tl) sizeof_item_tl;
      r ← star old_item;
      k' ← load_long r.1;
      if (k' =? k) || (k' =? -1) then
        let old_item := set_hint true r.2 in
        store_long r.1 k;;
        store_long (r.1 + sizeof_long) v;;
        _ ← reset old_item;
        mret tt
      else
        _ ← reset r.2;
        add_loop fuel' hm k v (i32 (i + 1))
  end.
Definition add (fuel : nat) (hm : SuvmMap) (k v : Z) : M suvm unit := add_loop fuel hm k v 0.
End table.

(** ** The program *)

(** Its untrusted side has copies of the other server's routines. *)
Definition suvm_ocall_llc_test : Z → M untrusted Z := ocall_llc_test.
Definition suvm_counting_thread : nat → M untrusted unit := sgx_counting_thread.

Section program.
Context `{Sgx}.

Definition ecall_init_hashmap (garbage : aptr_t) : M suvm SuvmMap := HashMap_ctor HASHMAPSIZE garbage.

Definition suvm_test (hm : SuvmMap) (others : M untrusted unit) (rpc : bool)
    (ocall_freq times warmup : Z) : M (untrusted * suvm) Z :=
  test_llc_internal (get HASHMAPSIZE (Z.to_nat HASHMAPSIZE) hm) others rpc ocall_freq times warmup.
Definition ecall_test_llc_misses_warmup (hm : SuvmMap) (others : M untrusted unit) (rpc : bool)
    (ocall_freq : Z) : M (untrusted * suvm) Z := suvm_test hm others rpc ocall_freq 100 1.
Definition ecall_test_llc_misses_real (hm : SuvmMap) (others : M untrusted unit) (rpc : bool)
    (ocall_freq : Z) : M (untrusted * suvm) Z := suvm_test hm others rpc ocall_freq AVERAGE_TIMES 0.
End program.
