(* ===== verification/ParamSuvmThms.v ===== *)
(** * The parameter server behind the paging layer

    The table of counters in the pool: what the constructor leaves there, what
    an increment does to it whatever is cached and evicted on the way, and the
    server from the library's initialisation to the counters. *)

From S2P Require Import Prelude Memory SyncUtils Ring Mem5 Mem5Inv Mem5Proofs Mem5Init Mem5Spec.
From S2P Require Import Suvm SuvmInv SuvmProofs SuvmThms Aptr AptrThms LibC LibCThms.
From S2P Require Import FaceServer ParamServer ParamLoop ParamSuvm.

(** ** Several accesses through one dereference

    A pointer dereferenced with the write hint pins its page: loads and stores
    through the address it gave read and write the contents of the page. *)

#[local] Opaque EVICT_FUEL.
#[local] Opaque CACHE_CAPACITY.
#[local] Opaque PAGE_BYTES.

Section pinned.
Context `{HS : Sgx, HB : PoolBase, HL : !SgxLaws}.

(** The page of position [P] is held in slot [i], dirty and tracked. *)
Definition pinned (s : suvm) (C : gmap Z Z) (V : gmap Z (list Z)) (L : list Z) (P i : Z) : Prop :=
  suvm_ok s C V L ∧ C !! (P `div` PAGE_SIZE) = Some i ∧ 0 ≤ i < CACHE_CAPACITY ∧
  epc_arr s !! i = Some (slot_val s i true) ∧ V !! (P `div` PAGE_SIZE) = Some (slot_bytes s i).

(** The address of position [P] in slot [i]. *)
Definition pin_addr (s : suvm) (i P : Z) : Z := slot_addr s i + P `mod` PAGE_SIZE.

Lemma star_pin s C V L p prev P :
  suvm_ok s C V (option_list prev ++ L) → cursor C p prev P → hint_write (m_aptr p) = true →
  room s L (P `div` PAGE_SIZE) →
  ∃ s' C' V' p' i,
    (∀ B (f : Z * Aptr → M suvm B), (star p ≫= f) s = f (pin_addr s' i P, p') s') ∧
    pinned s' C' V' (P `div` PAGE_SIZE :: L) P i ∧ written V V' P [] ∧
    settled C' p' P ∧ hint_write (m_aptr p') = true ∧ same_static s s'.
Proof.
  intros Hok (Hpt & Hb) Hh Hroom.
  destruct (deref_at s C V L _ _ prev P Hok Hpt Hroom)
    as (s' & C' & V' & a' & i & Hrun & Hok' & Hw & Hpt' & Eo & Eh & HC & Hir & Hkeep & Hst & Hd).
  rewrite Hh in Hd, Eh. destruct Hd as [HV Hd].
  exists s', C', V', (on_aptr (λ _, a') p), i. split.
  { intros B f. unfold star. by rewrite bind_assoc, Hrun. }
  split; [by split|]. split; [exact Hw|]. split; [by split|]. by split.
Qed.

Lemma load_pinned s C V L P i o n {B} (f : list Z → M suvm B) :
  pinned s C V L P i → 0 ≤ o → P `mod` PAGE_SIZE + o + Z.of_nat n ≤ PAGE_SIZE →
  ∃ l, (load_block (pin_addr s i P + o) n ≫= f) s = f l s ∧ length l = n ∧ agrees V (P + o) l.
Proof.
  intros (Hok & HC & Hir & _) Ho Hn. destruct (position_split P) as [EP Hm].
  exists (load_bytes (prm s) (slot_addr s i + (P `mod` PAGE_SIZE + o)) n).
  split; [|split; [apply length_load_bytes|]].
  - unfold load_block, pin_addr. rewrite <- Z.add_assoc, bind_assoc, bind_gets. cbn [id].
    by rewrite range_in_slab_ok by lia.
  - pose proof (read_agrees s C V L _ i (P `mod` PAGE_SIZE + o) n Hok HC) as H.
    replace (P `div` PAGE_SIZE * PAGE_SIZE + (P `mod` PAGE_SIZE + o)) with (P + o) in H by lia. apply H; lia.
Qed.

Lemma store_pinned s C V L P i o l :
  pinned s C V L P i → 0 ≤ o → P `mod` PAGE_SIZE + o + Z.of_nat (length l) ≤ PAGE_SIZE →
  ∃ s' V', (∀ B (f : unit → M suvm B), (store_block (pin_addr s i P + o) l ≫= f) s = f tt s') ∧
    pinned s' C V' L P i ∧ pin_addr s' i P = pin_addr s i P ∧ written V V' (P + o) l ∧ same_static s s'.
Proof.
  intros (Hok & HC & Hir & Hd & HV) Ho Hn. destruct (position_split P) as [EP Hm].
  destruct (write_written s C V L _ i (P `mod` PAGE_SIZE + o) l Hok HC) as (V' & Hok' & Hw); [lia|lia|done|done|].
  replace (P `div` PAGE_SIZE * PAGE_SIZE + (P `mod` PAGE_SIZE + o)) with (P + o) in Hw by lia.
  set (s' := set_prm s (store_bytes (prm s) (slot_addr s i + (P `mod` PAGE_SIZE + o)) l)).
  exists s', V'. split.
  { intros B f. unfold store_block, pin_addr. rewrite <- Z.add_assoc, bind_assoc, bind_gets. cbn [id].
    by rewrite range_in_slab_ok by lia. }
  split; [|done]. split; [exact Hok'|]. split; [exact HC|]. split; [exact Hir|]. split; [exact Hd|].
  assert (is_Some (V' !! (P `div` PAGE_SIZE))) as [b Hb].
  { assert (∃ x, byte_at V' P = Some x) as [x Hx].
    - assert (∃ y, byte_at V P = Some y) as [y Hy].
      { unfold byte_at. rewrite HV. simpl. apply lookup_lt_is_Some_2. unfold slot_bytes.
        rewrite length_load_bytes. pose proof page_bytes. lia. }
      destruct l as [|z l].
      + exists y. apply (written_others _ _ _ _ Hw); [simpl; lia|done].
      + destruct (decide (o = 0)) as [->|].
        * exists (u8 z). rewrite <- (written_bytes _ _ _ _ Hw 0%nat z eq_refl). f_equal. lia.
        * exists y. apply (written_others _ _ _ _ Hw); [lia|done].
    - unfold byte_at in Hx. destruct (V' !! (P `div` PAGE_SIZE)); [done|discriminate]. }
  destruct Hok' as [(U & K & D & Hinv) _].
  pose proof (inv_bytes _ _ _ _ _ _ _ _ _ _ Hinv _ _ Hb) as H1. rewrite HC in H1. destruct H1 as [<- _]. exact Hb.
Qed.
End pinned.

#[local] Opaque EVICT_FUEL.
#[local] Opaque CACHE_CAPACITY.
#[local] Opaque PAGE_BYTES.
#[local] Opaque memsys5Malloc.

(** An item as bytes. *)
Definition item_bytes (k v : Z) : list Z := bytes_of_long k ++ bytes_of_long v.

(** The pool holds, from position [P] on, an item for every counter. *)
Definition table (V : gmap Z (list Z)) (P : Z) (vals : list Z) : Prop :=
  ∀ k v, vals !! k = Some v → holds_at V (P + 16 * Z.of_nat k) (item_bytes (Z.of_nat k) v).

Section proofs.
Context `{HS : Sgx, HB : PoolBase, HL : !SgxLaws}.
Context (size : Z) (Hsize : 0 < size ≤ HASHMAPSIZE).

(** The block at position [P] can hold the table. *)
Record block_ok (s : suvm) (P : Z) : Prop := {
  block_range : range_in_pool s P (16 * size);
  block_align : (16 | P);
  block_int : P + 16 * size + PAGE_SIZE < 2 ^ 31
}.

Lemma block_static s s' P : same_static s s' → block_ok s P → block_ok s' P.
Proof. intros Hst [H1 H2 H3]. split; [by eapply range_static|done|done]. Qed.

Lemma size_small : size ≤ 2 ^ 25.
Proof. change (2 ^ 25) with HASHMAPSIZE. lia. Qed.

(** An item lies in one page. *)
Lemma item_in_page P k : (16 | P) → (P + 16 * k) `mod` PAGE_SIZE + 16 ≤ PAGE_SIZE.
Proof.
  intros [q ->]. unfold PAGE_SIZE. replace (q * 16 + 16 * k) with (16 * (q + k)) by lia.
  change 4096 with (16 * 256). rewrite Zmult_mod_distr_l. pose proof (Z.mod_pos_bound (q + k) 256). lia.
Qed.

Lemma item_page s P k : block_ok s P → 0 ≤ k < size → 0 ≤ (P + 16 * k) `div` PAGE_SIZE < npages s.
Proof.
  intros [Hr _ _] Hk. apply (in_range_page s _ 16); [|lia]. eapply range_sub; [exact Hr|lia|lia].
Qed.

Lemma holds_item_written V V' P k j v l o :
  holds_at V (P + 16 * Z.of_nat j) (item_bytes (Z.of_nat j) v) →
  written V V' (P + 16 * Z.of_nat k + o) l → 0 ≤ o → o + Z.of_nat (length l) ≤ 16 → j ≠ k →
  holds_at V' (P + 16 * Z.of_nat j) (item_bytes (Z.of_nat j) v).
Proof.
  intros Hj Hw Ho Hl Hne. eapply holds_written; [exact Hw|exact Hj|].
  unfold item_bytes. rewrite length_app, !length_long. lia.
Qed.

(** A pointer made for the table and moved to item [k]. *)
Lemma item_pointer s C V L P k hm :
  suvm_ok s C V L → block_ok s P → 0 ≤ k < size → buckets hm = g_base_pool_ptr s + P →
  ∃ p, (∀ B (f : Aptr → M suvm B), (Aptr_ctor (buckets hm) (size * sizeof_item_tl) ≫= f) s = f p s) ∧
    ∀ C', cursor C' (on_aptr (λ a, MOVE_APTR a (u64 (k * sizeof_item_tl))) (set_hint true p)) None (P + 16 * k).
Proof.
  intros Hok [[H1 [H2 H3]] Hal Hint] Hk ->. pose proof size_small.
  destruct (made_pointer s P (size * sizeof_item_tl) 16 k) as (p & Hrun & Hb & _ & Hpt); try lia.
  { destruct Hok as [(U & K & D & Hinv) _]. apply Hinv. }
  exists p. split; [exact Hrun|]. intros C'. specialize (Hpt C' true).
  replace (P + k * 16) with (P + 16 * k) in Hpt by lia. unfold plus_eq, move in Hpt.
  rewrite (u64_id k) in Hpt by lia. by split.
Qed.

(** [load_long] and [store_long] through a pinned page. *)
Lemma load_long_ok s C V L P i o v :
  pinned s C V L P i → 0 ≤ o → P `mod` PAGE_SIZE + o + 8 ≤ PAGE_SIZE →
  holds_at V (P + o) (bytes_of_long v) → load_long (pin_addr s i P + o) s = Ok (i64 v, s).
Proof.
  intros Hp Ho Hn Hv. unfold load_long.
  destruct (load_pinned s C V L P i o 8 (λ l, mret (long_of_bytes l)) Hp Ho) as (l & Hrun & Hl & Hag); [lia|].
  rewrite Hrun. rewrite (agrees_eq V (P + o) l (bytes_of_long v) Hag); [|by rewrite length_long|exact Hv].
  by rewrite long_bytes.
Qed.

Lemma store_long_ok s C V L P i o v :
  pinned s C V L P i → 0 ≤ o → P `mod` PAGE_SIZE + o + 8 ≤ PAGE_SIZE →
  ∃ s' V', (∀ B (f : unit → M suvm B), (store_long (pin_addr s i P + o) v ≫= f) s = f tt s') ∧
    pinned s' C V' L P i ∧ pin_addr s' i P = pin_addr s i P ∧ written V V' (P + o) (bytes_of_long v) ∧
    same_static s s'.
Proof. intros Hp Ho Hn. apply store_pinned; [done|done|]. rewrite length_long. lia. Qed.

(** [get] finds a key in its home slot and increments its counter: no other
    counter changes and no page stays held. *)
Lemma bump_suvm_ok fuel hm s C V L P vals k v :
  suvm_ok s C V L → block_ok s P → table V P vals → vals !! k = Some v →
  Z.of_nat (length vals) ≤ size → i64 v = v → room_for 1 s L → buckets hm = g_base_pool_ptr s + P →
  ∃ s' C' V', get size (S fuel) hm (Z.of_nat k) s = Ok (tt, s') ∧ suvm_ok s' C' V' L ∧
    table V' P (<[k := i64 (v + 1)]> vals) ∧ same_static s s'.
Proof.
  intros Hok Hblk Ht Hk Hlen Hv Hroom Hb. pose proof (lookup_lt_Some _ _ _ Hk) as Hlt. pose proof size_small.
  destruct (item_pointer s C V L P (Z.of_nat k) hm Hok Hblk) as (p & Hrun & Hc); [lia|done|].
  set (Q := P + 16 * Z.of_nat k) in *. pose proof (item_in_page P (Z.of_nat k) (block_align _ _ Hblk)) as HQ.
  fold Q in HQ.
  destruct (star_pin s C V L _ None Q Hok (Hc C) eq_refl) as
    (s1 & C1 & V1 & p1 & i & Hrun1 & Hp1 & Hw1 & Hset & Hh1 & Hst1).
  { apply room_for_room; [exact Hroom|]. apply item_page; [done|lia]. }
  assert (holds_at V1 Q (item_bytes (Z.of_nat k) v)) as Hitem.
  { eapply holds_written; [exact Hw1|by apply Ht|]. right. cbn [length]. lia. }
  pose proof Hitem as [Hkey Hval]%holds_app. rewrite length_long in Hval. change (Z.of_nat 8) with 8 in Hval.
  assert (load_long (pin_addr s1 i Q) s1 = Ok (Z.of_nat k, s1)) as Hload1.
  { rewrite <- (Z.add_0_r (pin_addr s1 i Q)), <- (i64_id (Z.of_nat k)) by lia.
    apply (load_long_ok s1 C1 V1 (Q `div` PAGE_SIZE :: L)); [done|lia|lia|by rewrite Z.add_0_r]. }
  assert (load_long (pin_addr s1 i Q + 8) s1 = Ok (v, s1)) as Hload2.
  { rewrite <- Hv at 1. apply (load_long_ok s1 C1 V1 (Q `div` PAGE_SIZE :: L)); [done|lia|lia|done]. }
  destruct (store_long_ok s1 C1 V1 _ Q i 8 (i64 (v + 1)) Hp1) as (s2 & V2 & Hrun2 & Hp2 & Ha2 & Hw2 & Hst2); [lia|lia|].
  destruct (release s2 C1 V2 L p1 (Some _) Q (proj1 Hp2) (cursor_settled _ _ _ Hset)) as (s3 & (p3 & Hrun3) & Hok3 & Hst3).
  exists s3, C1, V2. split; [|split; [exact Hok3|split; [|by do 2 (eapply same_static_trans; [done|])]]].
  - unfold get, hash_key. rewrite u64_id by lia. cbn [get_loop]. rewrite Hrun. cbv zeta. rewrite Hrun1. cbn [fst snd].
    rewrite (bind_Ok _ _ _ _ _ Hload1), Z.eqb_refl. unfold sizeof_long.
    rewrite (bind_Ok _ _ _ _ _ Hload2), Hrun2, Hrun3. done.
  - intros j w Hj. destruct (decide (j = k)) as [->|Hne].
    + rewrite list_lookup_insert_eq in Hj by done. injection Hj as <-. fold Q. apply holds_app. split.
      * eapply holds_written; [exact Hw2|exact Hkey|]. rewrite !length_long. lia.
      * rewrite length_long. change (Z.of_nat 8) with 8. apply (written_holds V1); [exact Hw2|apply u8_bytes_le].
    + rewrite list_lookup_insert_ne in Hj by done.
      apply (holds_item_written V1 V2 P k j w (bytes_of_long (i64 (v + 1))) 8); try done.
      apply (holds_item_written V V1 P k j w [] 0); [by apply Ht|by rewrite Z.add_0_r|done..].
Qed.
End proofs.

Section construction.
Context `{HS : Sgx, HB : PoolBase, HL : !SgxLaws}.
Context (size : Z) (Hsize : 0 < size ≤ HASHMAPSIZE).

(** The items written so far. *)
Definition zeroed (V : gmap Z (list Z)) (P n : Z) : Prop :=
  ∀ k, 0 ≤ k < n → holds_at V (P + 16 * k) (item_bytes k 0).

Lemma zeroed_step V V1 V2 V3 P n :
  zeroed V P n → written V V1 (P + 16 * n) [] → written V1 V2 (P + 16 * n) (bytes_of_long n) →
  written V2 V3 (P + 16 * n + 8) (bytes_of_long 0) → zeroed V3 P (n + 1).
Proof.
  intros Hz Hw1 Hw2 Hw3 k Hk.
  assert (written V V3 (P + 16 * n) (item_bytes n 0)) as Hw.
  { apply (written_app V V2); [by right; left| |by rewrite length_long].
    apply (written_app V V1 V2 _ []); [by left|exact Hw1|]. simpl. by rewrite Z.add_0_r. }
  destruct (decide (k = n)) as [->|Hne].
  - apply (written_holds V); [exact Hw|]. unfold item_bytes, bytes_of_long. by rewrite fmap_app, !u8_bytes_le.
  - eapply holds_written; [exact Hw|apply Hz; lia|]. unfold item_bytes. rewrite !length_app, !length_long. lia.
Qed.

Lemma fill_loop_ok n i s C V L p prev P :
  suvm_ok s C V (option_list prev ++ L) → cursor C p prev (P + 16 * i) → hint_write (m_aptr p) = true →
  block_ok size s P → 0 ≤ i → i + Z.of_nat n = size → room_for 1 s L → zeroed V P i →
  ∃ s' C' V' p' prev', (∀ B (f : Aptr → M suvm B), (fill_loop n i p ≫= f) s = f p' s') ∧
    suvm_ok s' C' V' (option_list prev' ++ L) ∧ zeroed V' P size ∧ same_static s s'.
Proof.
  revert i s C V p prev. induction n as [|n IH]; intros i s C V p prev Hok Hc Hh Hblk Hi Hn Hroom Hz.
  { replace size with i by lia. by exists s, C, V, p, prev. }
  pose proof (size_small size Hsize). pose proof (item_in_page P i (block_align _ _ _ Hblk)) as HQ.
  destruct (star_pin s C V L p prev (P + 16 * i) Hok Hc Hh) as
    (s1 & C1 & V1 & p1 & j & Hrun1 & Hp1 & Hw1 & Hset & Hh1 & Hst1).
  { apply room_for_room; [exact Hroom|]. apply (item_page size); [done|lia]. }
  destruct (store_long_ok s1 C1 V1 _ _ j 0 i Hp1) as (s2 & V2 & Hrun2 & Hp2 & Ha2 & Hw2 & Hst2); [lia|lia|].
  destruct (store_long_ok s2 C1 V2 _ _ j 8 0 Hp2) as (s3 & V3 & Hrun3 & Hp3 & Ha3 & Hw3 & Hst3); [lia|lia|].
  rewrite Z.add_0_r in Hrun2, Hw2. rewrite Ha2 in Hrun3.
  pose proof Hset as (_ & _ & Eo). pose proof (block_int _ _ _ Hblk) as Hint.
  pose proof (proj1 (block_range _ _ _ Hblk)) as HP.
  assert (same_static s s3) as Hst by (by do 2 (eapply same_static_trans; [done|])).
  destruct (IH (i + 1) s3 C1 V3 (move_by 16 p1) (Some ((P + 16 * i) `div` PAGE_SIZE))) as
    (s4 & C4 & V4 & p4 & prev4 & Hrun4 & Hok4 & Hz4 & Hst4).
  - exact (proj1 Hp3).
  - replace (P + 16 * (i + 1)) with (P + 16 * i + 16) by lia.
    unfold PAGE_SIZE in *. apply settled_move; [done|lia|lia|unfold PAGE_SIZE; lia].
  - exact Hh1.
  - by eapply block_static.
  - lia.
  - lia.
  - exact Hroom.
  - by eapply zeroed_step.
  - exists s4, C4, V4, p4, prev4. split; [|split; [exact Hok4|split; [exact Hz4|by eapply same_static_trans]]].
    intros B f. cbn [fill_loop]. rewrite bind_assoc, Hrun1. cbn [fst snd].
    rewrite (proj2 (Z.ltb_ge _ _)) by (rewrite Eo; unfold PAGE_SIZE in *; lia).
    unfold sizeof_long. rewrite bind_assoc, Hrun2, bind_assoc, Hrun3, u64_id by lia. apply Hrun4.
Qed.
End construction.

Section creation.
Context `{HS : Sgx, HL : !SgxLaws}.
Context (size : Z) (Hsize : 0 < size ≤ HASHMAPSIZE).

Lemma malloc_table s :
  pool_ready s → 2 ^ log_size 16 (16 * size) ≤ nBlock (mem5 (pool s)) →
  ∃ P h, (∀ B (f : Z → M suvm B), (on_pool (memsys5Malloc (i32 (size * sizeof_item_tl))) ≫= f) s
      = f (g_base_pool_ptr s + P) (set_pool s h)) ∧
    block_ok size (set_pool s h) P ∧ suvm_ok (HB := h) (set_pool s h) ∅ ∅ [] ∧ g_base_pool_ptr s + P ≠ 0.
Proof.
  intros [Hok Hown [Hatom Hz Hr Hint Hptr]] Hfit. pose proof (size_small size Hsize).
  unfold sizeof_item_tl. rewrite i32_id by lia. replace (size * 16) with (16 * size) by lia.
  destruct (malloc_cases (pool s) ∅ (16 * size) Hown) as [[_ Hno]|(i & h & Hrun & Hown' & Hw & Hgeo & _)]; [lia| |].
  { destruct (Hno 0). rewrite Hatom. split_and!; [lia|by exists 0|lia|]. intros j k'. by rewrite lookup_empty. }
  rewrite Hatom in Hw. destruct Hw as (Hi & _ & Hin & _). unfold addr_of in Hrun. rewrite Hz, Hatom in Hrun.
  assert (16 * size ≤ 16 * 2 ^ log_size 16 (16 * size)) as Hbig.
  { destruct (log_size_spec 4 (16 * size)) as (H0 & _ & Hspec & _); [lia|lia|].
    rewrite Z.pow_add_r in Hspec by lia. exact Hspec. }
  destruct (geo_pool s) as [Hbase _]; [by eapply suvm_geometry|].
  exists (i * 16), h. split; [|split; [|split]].
  - intros B f. unfold on_pool. by rewrite (bind_zoom pool _ _ _ _ _ h Hrun).
  - split.
    + split; [lia|]. change (npages (set_pool s h)) with (npages s).
      change (g_base_pool_ptr (set_pool s h)) with (g_base_pool_ptr s). unfold PAGE_SIZE in *. lia.
    + by exists i.
    + unfold PAGE_SIZE in *. lia.
  - by eapply untouched_pool.
  - lia.
Qed.

(** [HashMap()]: a table of zeros; the last page stays held by the member
    [m_aptr]. *)
Lemma HashMap_ctor_ok s garbage :
  pool_ready s → 2 ^ log_size 16 (16 * size) ≤ nBlock (mem5 (pool s)) →
  ∃ hm P h s' C V prev, HashMap_ctor size garbage s = Ok (hm, s') ∧
    suvm_ok (HB := h) s' C V (option_list prev) ∧
    block_ok size s' P ∧ zeroed V P size ∧ buckets hm = g_base_pool_ptr s' + P.
Proof.
  intros Hready Hfit. destruct (malloc_table s Hready Hfit) as (P & h & Hrun & Hblk & Hok & Hne).
  set (s1 := set_pool s h) in *. pose proof (size_small size Hsize). pose proof (block_int _ _ _ Hblk) as Hint.
  pose proof (proj1 (block_range _ _ _ Hblk)) as HP.
  pose proof (block_range _ _ _ Hblk) as (_ & _ & Haddr). change (g_base_pool_ptr s1) with (g_base_pool_ptr s) in Haddr.
  assert (geometry s1) as Hgeo by (by eapply suvm_geometry).
  destruct (Aptr_ctor_ok s1 P (size * sizeof_item_tl) Hgeo) as (tmp & Hrun1 & Hpt & Hh & Hb & Hpg & Ho);
    [unfold PAGE_SIZE in *; lia|change (g_base_pool_ptr s1) with (g_base_pool_ptr s); lia|].
  destruct (position_split P) as [EP Hm]. assert (0 ≤ m_base_page_index tmp) as Hbase.
  { rewrite Hb. apply Z.div_pos; unfold PAGE_SIZE in *; lia. }
  destruct (reset_ok (HB := h) s1 ∅ ∅ [] tmp None Hok (proj1 (proj1 (Hpt ∅))) Hbase) as (s2 & tmp' & Hrun2 & Hok2 & _ & _ & Hst2).
  assert (cursor ∅ (set_hint true (do_copy tmp)) None P) as Hcur.
  { split; [|exact Hbase]. apply (do_copy_points ∅ ∅ tmp None P (Hpt ∅)); rewrite Ho; unfold PAGE_SIZE in *; lia. }
  destruct (fill_loop_ok (HB := h) size Hsize (Z.to_nat size) 0 s2 ∅ ∅ [] (set_hint true (do_copy tmp)) None P) as
    (s3 & C3 & V3 & a3 & prev3 & Hrun3 & Hok3 & Hz3 & Hst3).
  - exact Hok2.
  - by rewrite Z.mul_0_r, Z.add_0_r.
  - reflexivity.
  - by eapply block_static.
  - lia.
  - lia.
  - split; [intros; simpl; lia|]. rewrite capacity. unfold MAX_NUM_OF_THREADS_OPTIMIZATION. simpl. lia.
  - intros k Hk. lia.
  - assert (same_static s1 s3) as Hst by (by eapply same_static_trans).
    eexists _, P, h, s3, C3, V3, prev3. split.
    { unfold HashMap_ctor. rewrite Hrun, (proj2 (Z.eqb_neq _ _) Hne).
      change (g_base_pool_ptr s) with (g_base_pool_ptr s1) at 1.
      rewrite Hrun1. unfold assign. rewrite bind_assoc, (bind_Ok _ _ _ _ _ (eq_refl : reset (Aptr_null garbage) s1 = Ok (_, s1))).
      rewrite bind_ret, Hrun2. cbv zeta. rewrite Hrun3. reflexivity. }
    rewrite app_nil_r in Hok3. split; [exact Hok3|]. split; [by eapply block_static|].
    split; [exact Hz3|]. cbn [buckets]. destruct Hst as (-> & _). done.
Qed.
End creation.
