(* ===== verification/ParamSuvmServer.v ===== *)
(** * The parameter server in the enclave, from end to end

    The library's initialisation, the table's construction, and the loop, over
    the buddy allocator, the paging layer and the exchange with the untrusted
    side. *)

From S2P Require Import Prelude Memory SyncUtils Ring Mem5 Mem5Inv Mem5Proofs Mem5Init Mem5Spec.
From S2P Require Import Suvm SuvmInv SuvmProofs SuvmThms Aptr AptrThms LibC LibCThms Rpc RpcThms.
From S2P Require Import FaceServer ParamServer ParamLoop ParamSuvmThms ParamSuvm.

#[local] Opaque EVICT_FUEL.
#[local] Opaque CACHE_CAPACITY.
#[local] Opaque PAGE_BYTES.
#[local] Opaque memsys5Malloc.

(** The table behind the paging layer is an implementation of the interface the
    loop uses: the pages that stay held are [L]. *)
#[export] Program Instance suvm_table `{HS : Sgx, HB : PoolBase, HL : !SgxLaws} size fuel hm L P
    (Hsize : 0 < size ≤ HASHMAPSIZE) : CounterTable (get size (S fuel) hm) := {|
  counts s vals := (∃ C V, suvm_ok s C V L ∧ table V P vals) ∧ block_ok size s P ∧
    Z.of_nat (length vals) ≤ size ∧ Forall (λ v, i64 v = v) vals ∧ room_for 1 s L ∧
    buckets hm = g_base_pool_ptr s + P
|}.
Next Obligation.
  intros HS HB HL size fuel hm L P Hsize s vals k v ((C & V & Hok & Ht) & Hblk & Hlen & Hv & Hroom & Hb) Hk.
  destruct (bump_suvm_ok size Hsize fuel hm s C V L P vals k v Hok Hblk Ht Hk Hlen) as
    (s' & C' & V' & Hrun & Hok' & Ht' & Hst); [|done|done|].
  { rewrite Forall_lookup in Hv. by eapply Hv. }
  exists s'. split; [exact Hrun|]. split; [by exists C', V'|]. split; [by eapply block_static|].
  split; [by rewrite length_insert|]. split.
  { apply Forall_insert; [exact Hv|]. apply i64_i64. }
  split; [exact Hroom|]. by destruct Hst as (-> & _).
Qed.

Section server.
Context `{HS : Sgx}.

(** [initialize_aptr], [ecall_init_hashmap] and the loop. *)
Definition suvm_server (ptr_pool pool_size slab_ptr : Z) (garbage : aptr_t) (size : Z)
    (others : M untrusted unit) (rpc : bool) (times warmup : Z) : M (untrusted * suvm) Z :=
  _ ← on_table (initialize_aptr ptr_pool pool_size true true slab_ptr 0);
  hm ← on_table (HashMap_ctor size garbage);
  test_llc_internal (get size (Z.to_nat size) hm) others rpc 1 times warmup.
End server.

(** A table of [size] items fits in the pool. *)
Definition table_fits (ptr_pool pool_size size : Z) : Prop :=
  library_fits ptr_pool pool_size ∧ 2 ^ log_size 16 (16 * size) ≤ pool_blocks pool_size MN_REQ.

(** The program's pool of two gigabytes has room for the program's table. *)
Lemma program_table_fits ptr_pool :
  0 < ptr_pool → ptr_pool + 2 ^ 31 ≤ 2 ^ 63 → table_fits ptr_pool LIB_POOL_SIZE HASHMAPSIZE.
Proof.
  intros H1 H2. split; [by apply lib_library_fits|]. vm_compute. congruence.
Qed.

Section theorems.
Context `{HS : Sgx, HL : !SgxLaws}.

(** C13. The parameter server in the enclave, from end to end: the library is
    initialised on a fresh enclave, the table is allocated in the pool and
    filled through a pointer, and every buffer of the connection is served. The
    run ends and returns 0, one buffer is taken from the connection for each
    turn of the loop, and then the item of every key, wherever its page is, in
    the enclave or encrypted in the pool, holds the key and the number of times
    the key occurs in the buffers, modulo 2^64. *)
Theorem suvm_server_counts s ptr_pool pool_size slab_ptr garbage size turns rpc warmup m bs a rest :
  fresh s → table_fits ptr_pool pool_size size → PAGE_SIZE ≤ slab_ptr < 2 ^ 62 →
  0 < size ≤ HASHMAPSIZE → warmup = 0 ∨ warmup = 1 →
  request_buf_size a = 8 * Z.of_nat m → request_buf_size a < 2 ^ 31 →
  Forall (λ b, length b = m ∧ Forall (λ k, Z.of_nat k < size) b) bs →
  delivers (newsockfd a) (concat (wire <$> bs) ++ rest) →
  ∃ a' s' h C V L P,
    suvm_server ptr_pool pool_size slab_ptr garbage size (sgx_counting_thread (S turns)) rpc
      (Z.of_nat (length bs)) warmup (a, s) = Ok (0, (a', s')) ∧
    delivers (newsockfd a') rest ∧ suvm_ok (HB := h) s' C V L ∧ range_in_pool s' P (16 * size) ∧
    ∀ k, Z.of_nat k < size →
      holds_at V (P + 16 * Z.of_nat k) (item_bytes (Z.of_nat k) (i64 (occurrences k (concat bs)))).
Proof.
  intros Hs Hfit Hslab Hsize Hw Hm Hsz Hbs Hc. set (n := Z.to_nat size).
  assert (size ≤ 2 ^ 25) as Hsmall by (by apply size_small).
  destruct Hfit as [Hfit Hroom].
  destruct (initialize_ready s ptr_pool pool_size slab_ptr Hs Hfit Hslab) as (s1 & Hrun1 & Hready & Hnb).
  rewrite <- Hnb in Hroom.
  destruct (HashMap_ctor_ok size Hsize s1 garbage Hready Hroom) as
    (hm & P & h & s2 & C2 & V2 & prev & Hrun2 & Hok2 & Hblk2 & Hz & Hb).
  destruct n as [|fuel] eqn:En; [unfold n in En; lia|].
  destruct (test_loop_ok (HT := suvm_table (HB := h) size fuel hm (option_list prev) P Hsize) turns rpc warmup m bs 0 a s2
    (replicate n 0) rest) as (a' & s' & ((C & V & Hok & Ht) & Hblk & _) & Hc' & Hrun3).
  - split; [exists C2, V2; split; [exact Hok2|]|].
    { intros k v Hk. apply lookup_replicate in Hk as [-> Hk]. apply Hz. unfold n in Hk. lia. }
    split; [exact Hblk2|]. rewrite length_replicate. split; [unfold n; lia|]. split.
    { apply Forall_replicate. reflexivity. }
    split; [|exact Hb]. destruct prev as [q|]; (split; [intros p; simpl; try case_decide; lia|]);
      rewrite capacity; unfold MAX_NUM_OF_THREADS_OPTIMIZATION; simpl; lia.
  - rewrite length_replicate. unfold n. lia.
  - exact Hw.
  - exact Hm.
  - exact Hsz.
  - eapply Forall_impl; [exact Hbs|]. intros b [Hlen Hk]. split; [exact Hlen|].
    eapply Forall_impl; [exact Hk|]. intros k Hk'. cbv beta in Hk'. rewrite length_replicate. unfold n. lia.
  - exact Hc.
  - exists a', s', h, C, V, (option_list prev), P. split; [|split; [exact Hc'|split; [exact Hok|split; [apply Hblk|]]]].
    + unfold suvm_server, on_table. rewrite (bind_zoom snd _ _ _ _ 0 s1) by exact Hrun1. cbn [fst].
      rewrite (bind_zoom snd _ _ _ _ hm s2) by exact Hrun2. cbn [fst].
      unfold test_llc_internal. fold n. rewrite En, Nat2Z.id. by rewrite (bind_Ok _ _ _ _ _ Hrun3).
    + intros k Hk. apply Ht. rewrite (bump_all_counts (concat bs) (replicate n 0) k 0); [done| |done].
      apply lookup_replicate. unfold n. lia.
Qed.
End theorems.

(** A table of 1024 items, four pages, in a pool of 16 pages. *)
Lemma small_table_fits : table_fits 65536 65536 1024.
Proof.
  split; [|vm_compute; congruence].
  split. { split; [reflexivity|]. split; [vm_compute; congruence|]. split; [vm_compute; congruence|vm_compute; reflexivity]. }
  split; [lia|]. split; [vm_compute; congruence|]. vm_compute. reflexivity.
Qed.

Lemma suvm_server_counts_witness :
  ∃ a' s' h C V L P,
    suvm_server 65536 65536 8200 (mkAptr 0 0 0 false) 1024 (sgx_counting_thread 1) true 2 1
      (mkApp 0 0 (replicate 16 0) [wire [300; 300]%nat; wire [5; 300]%nat] [], blank) = Ok (0, (a', s')) ∧
    suvm_ok (HB := h) s' C V L ∧ holds_at V (P + 4800) (item_bytes 300 3).
Proof.
  destruct (suvm_server_counts blank 65536 65536 8200 (mkAptr 0 0 0 false) 1024 0 true 1 2
    [[300; 300]; [5; 300]]%nat (mkApp 0 0 (replicate 16 0) [wire [300; 300]%nat; wire [5; 300]%nat] []) [])
    as (a' & s' & h & C & V & L & P & H1 & _ & H2 & _ & H3).
  - split; [reflexivity|]. split; reflexivity.
  - exact small_table_fits.
  - unfold PAGE_SIZE. lia.
  - vm_compute. split; congruence.
  - by right.
  - reflexivity.
  - reflexivity.
  - repeat (constructor || (split; [reflexivity|])).
  - split; [|reflexivity]. repeat constructor; discriminate.
  - exists a', s', h, C, V, L, P. split; [exact H1|]. split; [exact H2|]. exact (H3 300%nat eq_refl).
Defined.
