(* ===== verification/Agree.v ===== *)
(** * Routines that agree

    Two routines on related states agree when they end the same way: both in
    the same error, or both returning related values on related states. *)

From S2P Require Import Prelude.

Definition agree {S T A B} (R R' : S → T → Prop) (V : A → B → Prop) (m : M S A) (m' : M T B) : Prop :=
  ∀ s t, R s t →
    match m s, m' t with
    | Ok (a, s'), Ok (b, t') => V a b ∧ R' s' t'
    | Err e, Err e' => e = e'
    | _, _ => False
    end.

(** A value there is or is not, as a routine rather than at a state. *)
Lemma bind_value {S A B} (a : A) (k : A → M S B) : (mret a ≫= k) = k a.
Proof. reflexivity. Qed.
Lemma bind_defined_Some {S A B} (a : A) (k : A → M S B) : (defined (Some a) ≫= k) = k a.
Proof. reflexivity. Qed.
Lemma bind_defined_None {S A B} (k : A → M S B) : (defined None ≫= k) = fail EUndef.
Proof. reflexivity. Qed.

Section agree.
Context {S T : Type}.

Lemma agree_ret {A B} (R : S → T → Prop) (V : A → B → Prop) a b : V a b → agree R R V (mret a) (mret b).
Proof. intros HV s t Hst. done. Qed.

Lemma agree_fail {A B} (R R' : S → T → Prop) (V : A → B → Prop) e : agree R R' V (fail e) (fail e).
Proof. intros s t Hst. done. Qed.

Lemma agree_bind {A B A' B'} (R R1 R2 : S → T → Prop) (V : A → B → Prop) (W : A' → B' → Prop) m m' k k' :
  agree R R1 V m m' → (∀ a b, V a b → agree R1 R2 W (k a) (k' b)) → agree R R2 W (m ≫= k) (m' ≫= k').
Proof.
  intros Hm Hk s t Hst. specialize (Hm s t Hst). unfold mbind, M_bind.
  destruct (m s) as [[a s']|e], (m' t) as [[b t']|e']; try done. destruct Hm as [HV HR]. by apply Hk.
Qed.

Lemma agree_gets {A B} (R : S → T → Prop) (V : A → B → Prop) f g :
  (∀ s t, R s t → V (f s) (g t)) → agree R R V (gets f) (gets g).
Proof. intros H s t Hst. split; [by apply H|done]. Qed.

Lemma agree_modify (R R' : S → T → Prop) f g :
  (∀ s t, R s t → R' (f s) (g t)) → agree R R' eq (modify f) (modify g).
Proof. intros H s t Hst. split; [done|by apply H]. Qed.

Lemma agree_defined {A B} (R : S → T → Prop) (V : A → B → Prop) o o' :
  option_Forall2 V o o' → agree R R V (defined o) (defined o').
Proof. intros [a b HV|]; [by apply agree_ret|apply agree_fail]. Qed.

Lemma agree_weaken {A B} (R R1 R2 R3 : S → T → Prop) (V : A → B → Prop) m m' :
  agree R1 R2 V m m' → (∀ s t, R s t → R1 s t) → (∀ s t, R2 s t → R3 s t) → agree R R3 V m m'.
Proof.
  intros Hm H1 H2 s t Hst. specialize (Hm s t (H1 _ _ Hst)).
  destruct (m s) as [[a s']|e], (m' t) as [[b t']|e']; try done. destruct Hm. auto.
Qed.

(** A step of one side only. *)
Lemma agree_step_l {A A' B} (R R1 R2 : S → T → Prop) (V : A' → B → Prop) (m : M S A) a k (m' : M T B) :
  (∀ s t, R s t → ∃ s', m s = Ok (a, s') ∧ R1 s' t) → agree R1 R2 V (k a) m' → agree R R2 V (m ≫= k) m'.
Proof. intros Hm Hk s t Hst. destruct (Hm s t Hst) as (s' & Hrun & Hst'). rewrite (bind_Ok _ _ _ _ _ Hrun). by apply Hk. Qed.

Lemma agree_step_r {A B B'} (R R1 R2 : S → T → Prop) (V : A → B' → Prop) (m' : M T B) b k (m : M S A) :
  (∀ s t, R s t → ∃ t', m' t = Ok (b, t') ∧ R1 s t') → agree R1 R2 V m (k b) → agree R R2 V m (m' ≫= k).
Proof. intros Hm Hk s t Hst. destruct (Hm s t Hst) as (t' & Hrun & Hst'). rewrite (bind_Ok _ _ _ _ _ Hrun). by apply Hk. Qed.

Lemma agree_assert (R : S → T → Prop) b : agree R R eq (massert b) (massert b).
Proof. intros s t Hst. unfold massert. by destruct b. Qed.

(** A part of each state. *)
Lemma agree_zoom {S0 T0 A B} (R R' : S → T → Prop) (P P' : S0 → T0 → Prop) (V : A → B → Prop)
    (get : S → S0) (put : S0 → S → S) (get' : T → T0) (put' : T0 → T → T) m m' :
  agree P P' V m m' → (∀ s t, R s t → P (get s) (get' t)) →
  (∀ s t a b, R s t → P' a b → R' (put a s) (put' b t)) →
  agree R R' V (zoom get put m) (zoom get' put' m').
Proof.
  intros Hm H1 H2 s t Hst. specialize (Hm _ _ (H1 _ _ Hst)). unfold zoom.
  destruct (m (get s)) as [[a s']|e], (m' (get' t)) as [[b t']|e']; try done. destruct Hm. auto.
Qed.
End agree.

(** How a run ends, the state left aside. *)
Definition outcome {S A} (r : res (A * S)) : res A :=
  match r with Ok (a, _) => Ok a | Err e => Err e end.

Lemma agree_outcome {S T A} (R R' : S → T → Prop) (m : M S A) (m' : M T A) s t :
  agree R R' eq m m' → R s t → outcome (m s) = outcome (m' t).
Proof.
  intros Hm Hst. specialize (Hm s t Hst).
  destruct (m s) as [[a s']|e], (m' t) as [[b t']|e']; simpl in *; try done; [|by rewrite Hm].
  by destruct Hm as [-> _].
Qed.
