(* ===== verification/WinSync.v ===== *)
(** * Spin locks of the Windows port

    Models [src/win/SUVM/suvm_lib/SyncUtils.cpp], where a lock is the SGX SDK's
    and the lock of one byte is passed to it as one of four, and the
    exchange loop of [Face_Verification_App/App_Queue.cpp]. *)

From S2P Require Import Prelude SyncUtils.

(** ** In the enclave *)

(** The SDK's spin lock, on its word. *)
Class SgxSpin := {
  sgx_spin_lock : M Z unit;
  sgx_spin_unlock : M Z unit
}.

(** What is documented of it: a word of 0 is a free lock, which locking sets to
    1; nobody gets past a lock that is not released. *)
Class SgxSpinLaws `{SgxSpin} := {
  sgx_lock_free : sgx_spin_lock 0 = Ok (tt, 1);
  sgx_lock_held w : w ≠ 0 → sgx_spin_lock w = Err ESpin;
  sgx_lock_release w : sgx_spin_unlock w = Ok (tt, 0)
}.

Section sgx.
Context `{SgxSpin}.

Definition spin_lock : M Z unit := sgx_spin_lock.
Definition spin_unlock : M Z unit := sgx_spin_unlock.

(** [sgx_spin_lock((unsigned int volatile* )p)]: the state is the four bytes
    from the lock byte on. *)
Definition spin_lock_uchar : M Z unit := sgx_spin_lock.
Definition spin_unlock_uchar : M Z unit := sgx_spin_unlock.
End sgx.

(** [lock = 0] on the one byte of the member: the three bytes after it, which
    pad the structure, stay. *)
Definition clear_lock_byte (word : Z) : Z := Z.land word 0xFFFFFF00.

(** ** In the application *)

(** [spin_lock] and [spin_unlock] of [App_Queue.cpp], a step at a time: the
    exchange writes 1 whether or not the lock was free. *)
Definition exchange_action (c : pc) (w : Z) : list (pc * Z) :=
  match c with
  | Outside => [(AtCas, w)]
  | AtCas => [(if u8 w =? 0 then Inside else AtWait, 1)]
  | AtWait => if w =? 0 then [(AtCas, w)] else [(AtWait, w)]
  | Inside => [(Outside, 0)]
  end.

Inductive exchange_step : lock_state → lock_state → Prop :=
  | exchange_step_thread t c c' w w' m :
      m !! t = Some c → (c', w') ∈ exchange_action c w →
      exchange_step (mkLock w m) (mkLock w' (<[t := c']> m)).

(** Where the word is 0 or 1 the exchange does what compare-and-swap does. *)
Lemma exchange_is_cas c w : w = 0 ∨ w = 1 → exchange_action c w = lock_action c w.
Proof. by intros [-> | ->]; destruct c. Qed.

Lemma exchange_step_inv s s' : lock_inv s → exchange_step s s' → lock_inv s'.
Proof.
  intros Hinv Hs. apply (lock_step_inv s s' Hinv). destruct Hs as [t c c' w w' m Hc Ha].
  rewrite exchange_is_cas in Ha by apply Hinv. by econstructor.
Qed.

(** Mutual exclusion, with threads that take the lock either way. *)
Lemma exchange_mutex n s :
  rtc exchange_step (mkLock 0 (gset_to_gmap Outside (set_seq 0 n : gset nat))) s →
  ∀ t t', pcs s !! t = Some Inside → pcs s !! t' = Some Inside → t = t'.
Proof.
  intros Hs. apply lock_one. revert Hs.
  apply (rtc_ind_r (λ s, lock_inv s)); [apply lock_inv_init|].
  intros s1 s2 _ Hstep Hinv. by eapply exchange_step_inv.
Qed.

(** ** The locks of one thread *)

Section laws.
Context `{SgxSpinLaws}.

(** On words of 0 and 1 the SDK's lock is the lock of [SyncUtils.cpp]. *)
Lemma sgx_lock_eq w : spin_lock w = SyncUtils.spin_lock w.
Proof.
  unfold spin_lock, SyncUtils.spin_lock. rewrite bind_gets. cbn [id].
  destruct (Z.eqb_spec w 0) as [->|Hw]; [by rewrite sgx_lock_free|by rewrite sgx_lock_held].
Qed.
Lemma sgx_unlock_eq w : spin_unlock w = SyncUtils.spin_unlock w.
Proof. unfold spin_unlock. by rewrite sgx_lock_release. Qed.
Lemma sgx_lock_uchar_eq w : w = 0 ∨ w = 1 → spin_lock_uchar w = SyncUtils.spin_lock_uchar w.
Proof.
  intros [-> | ->]; unfold spin_lock_uchar; [by rewrite sgx_lock_free|by rewrite sgx_lock_held].
Qed.
Lemma sgx_unlock_uchar_eq w : spin_unlock_uchar w = SyncUtils.spin_unlock_uchar w.
Proof. unfold spin_unlock_uchar. by rewrite sgx_lock_release. Qed.
End laws.

(** A lock that is as documented. *)
#[export] Instance toy_spin : SgxSpin := {|
  sgx_spin_lock := SyncUtils.spin_lock;
  sgx_spin_unlock := SyncUtils.spin_unlock
|}.
#[export] Instance toy_spin_laws : SgxSpinLaws.
Proof.
  constructor; [done| |done]. intros w Hw. unfold sgx_spin_lock, toy_spin, SyncUtils.spin_lock.
  rewrite bind_gets. cbn [id]. by rewrite (proj2 (Z.eqb_neq w 0)).
Qed.
