(* ===== verification/WinPageCache.v ===== *)
(** * The page cache of the Windows port

    Models [src/win/SUVM/suvm_lib/PageCache.h], as built for x86-64.  It is the
    page cache of [PageCache] but for three things.  The counters of the ring
    are [unsigned long], of 32 bits on Windows; the lock byte of a bucket is
    locked as a word of four bytes; and the number of cached pages is kept
    under a lock of its own. *)

From S2P Require Import Prelude Ring WinSync.
From S2P Require PageCache.

Definition item_t : Type := PageCache.item_t.

(** The chained items of a bucket and the four bytes from its lock byte on. *)
Record bucket := mkBucket { head : list item_t; lock : Z }.

(** The ring has the fields of [PageCache.UsedPagesQueue]; [front] and [rear]
    have 32 bits. *)
Definition UsedPagesQueue : Type := PageCache.UsedPagesQueue.
Definition UsedPagesQueue_ctor (queue_size garbage : Z) : UsedPagesQueue :=
  PageCache.UsedPagesQueue_ctor queue_size garbage.

Record PageCache := mkCache {
  m_buckets : gmap Z bucket;
  m_hashmap_size : Z;
  m_used_pages : UsedPagesQueue;
  m_ref_count : gmap Z Z;
  m_page_cache_size : Z;
  m_page_cache_size_lock : Z
}.

Definition set_buckets (f : gmap Z bucket → gmap Z bucket) (c : PageCache) : PageCache :=
  mkCache (f (m_buckets c)) (m_hashmap_size c) (m_used_pages c) (m_ref_count c)
    (m_page_cache_size c) (m_page_cache_size_lock c).
Definition set_used (u : UsedPagesQueue) (c : PageCache) : PageCache :=
  mkCache (m_buckets c) (m_hashmap_size c) u (m_ref_count c)
    (m_page_cache_size c) (m_page_cache_size_lock c).
Definition set_refs (f : gmap Z Z → gmap Z Z) (c : PageCache) : PageCache :=
  mkCache (m_buckets c) (m_hashmap_size c) (m_used_pages c) (f (m_ref_count c))
    (m_page_cache_size c) (m_page_cache_size_lock c).
Definition set_size (n : Z) (c : PageCache) : PageCache :=
  mkCache (m_buckets c) (m_hashmap_size c) (m_used_pages c) (m_ref_count c)
    n (m_page_cache_size_lock c).
Definition set_size_lock (w : Z) (c : PageCache) : PageCache :=
  mkCache (m_buckets c) (m_hashmap_size c) (m_used_pages c) (m_ref_count c)
    (m_page_cache_size c) w.

(** [PageCache::init]. [memory] is what the four bytes from the lock byte of
    each bucket held when [new] returned them; the loop clears the byte. *)
Definition cache_init (num_of_buckets backing_store_size page_cache_size garbage : Z)
    (memory : Z → Z) : PageCache :=
  mkCache (list_to_map ((λ i, (i, mkBucket [] (clear_lock_byte (memory i)))) <$> seqZ 0 num_of_buckets))
    num_of_buckets (UsedPagesQueue_ctor (i32 page_cache_size) garbage)
    (array backing_store_size 0) 0 0.

(** [page_index % m_hashmap_size] *)
Definition hash (c : PageCache) (page : Z) : Z := u64 page mod m_hashmap_size c.

Section port.
Context `{SgxSpin}.

(** ** The ring *)

Definition on_lock {A} (m : M Z A) : M UsedPagesQueue A := PageCache.on_lock m.

Definition used_enqueue (elem : Z) : M UsedPagesQueue Z :=
  on_lock spin_lock;;
  s ← gets id;
  let size := u32 (PageCache.m_queue_size s) in
  if u32 (PageCache.rear s - PageCache.front s) =? size then
    on_lock spin_unlock;;
    fail EAbort
  else
    let i := PageCache.rear s mod size in
    _ ← defined (PageCache.q s !! i);
    modify (λ s, PageCache.mkUsed (PageCache.m_queue_size s) (PageCache.front s) (PageCache.rear s)
      (<[i := elem]> (PageCache.q s)) (PageCache._lock s));;
    modify (λ s, PageCache.mkUsed (PageCache.m_queue_size s) (PageCache.front s)
      (u32 (PageCache.rear s + 1)) (PageCache.q s) (PageCache._lock s));;
    on_lock spin_unlock;;
    mret 0.

Definition used_dequeue : M UsedPagesQueue Z :=
  on_lock spin_lock;;
  s ← gets id;
  if PageCache.front s =? PageCache.rear s then
    on_lock spin_unlock;;
    fail EAbort
  else
    result ← defined (PageCache.q s !! (PageCache.front s mod u32 (PageCache.m_queue_size s)));
    modify (λ s, PageCache.mkUsed (PageCache.m_queue_size s) (u32 (PageCache.front s + 1))
      (PageCache.rear s) (PageCache.q s) (PageCache._lock s));;
    on_lock spin_unlock;;
    mret result.

(** ** The table *)

Definition on_used {A} (m : M UsedPagesQueue A) : M PageCache A := zoom m_used_pages set_used m.

Definition get_bucket (page : Z) : M PageCache bucket :=
  b ← gets (λ c, m_buckets c !! hash c page); defined b.
Definition put_bucket (page : Z) (b : bucket) : M PageCache unit :=
  modify (λ c, set_buckets (<[hash c page := b]>) c).
Definition on_bucket_lock {A} (page : Z) (m : M Z A) : M PageCache A :=
  b ← get_bucket page;
  match m (lock b) with
  | Ok (a, w) => put_bucket page (mkBucket (head b) w);; mret a
  | Err e => fail e
  end.

Definition get_ref (page : Z) : M PageCache Z :=
  r ← gets (λ c, m_ref_count c !! page); defined r.

Definition bump_ref_count (d page : Z) : M PageCache unit :=
  on_bucket_lock page spin_lock_uchar;;
  r ← get_ref page;
  modify (set_refs (<[page := u8 (r + d)]>));;
  on_bucket_lock page spin_unlock_uchar.
Definition inc_ref_count (page : Z) : M PageCache unit := bump_ref_count 1 page.
Definition dec_ref_count (page : Z) : M PageCache unit := bump_ref_count (-1) page.

(** [m_page_cache_size++] and [--] under [m_page_cache_size_lock]. *)
Definition on_size_lock {A} (m : M Z A) : M PageCache A :=
  zoom m_page_cache_size_lock set_size_lock m.
Definition add_size (d : Z) : M PageCache unit :=
  on_size_lock spin_lock;;
  modify (λ c, set_size (i32 (m_page_cache_size c + d)) c);;
  on_size_lock spin_unlock.

Definition get_internal (page : Z) : M PageCache (option item_t) :=
  b ← get_bucket page;
  mret (PageCache.find_item page (head b)).

Definition get (page : Z) : M PageCache (option item_t) :=
  on_bucket_lock page spin_lock_uchar;;
  ret ← get_internal page;
  on_bucket_lock page spin_unlock_uchar;;
  mret ret.

Fixpoint get_page_index_to_evict (fuel : nat) : M PageCache item_t :=
  match fuel with
  | O => fail EFuel
  | S fuel' =>
      page ← on_used used_dequeue;
      on_bucket_lock page spin_lock_uchar;;
      r ← get_ref page;
      if 0 <? r then
        on_bucket_lock page spin_unlock_uchar;;
        _ ← on_used (used_enqueue page);
        get_page_index_to_evict fuel'
      else
        ret ← get_internal page;
        match ret with
        | Some it => mret it
        | None => fail EAbort
        end
  end.

Definition try_add (page epc_page : Z) : M PageCache bool :=
  on_bucket_lock page spin_lock_uchar;;
  b ← get_bucket page;
  match PageCache.find_item page (head b) with
  | Some _ =>
      on_bucket_lock page spin_unlock_uchar;;
      mret false
  | None =>
      put_bucket page (mkBucket (head b ++ [PageCache.mkItem page epc_page]) (lock b));;
      add_size 1;;
      _ ← on_used (used_enqueue page);
      on_bucket_lock page spin_unlock_uchar;;
      mret true
  end.

(** The caller holds the lock of the bucket. *)
Definition remove (page : Z) : M PageCache Z :=
  b ← get_bucket page;
  match PageCache.find_item page (head b) with
  | Some _ =>
      add_size (-1);;
      put_bucket page (mkBucket (PageCache.remove_item page (head b)) (lock b));;
      on_bucket_lock page spin_unlock_uchar;;
      mret 0
  | None => fail EAbort
  end.

End port.
