(* ===== verification/WinCacheThms.v ===== *)
(** * The Windows page cache against the original

    Until its ring has taken 2^32 insertions, and if the bytes that pad its
    buckets were 0 when it was made, the cache of [WinPageCache] ends every
    sequence of calls as the cache of [PageCache] does.  What happens when they
    were not. *)

From S2P Require Import Prelude Ring Agree WinSync WinPageCache.
From S2P Require SyncUtils PageCache.

(** ** Related states *)

Definition as_bucket (b : bucket) : PageCache.bucket := PageCache.mkBucket (head b) (lock b).
Definition as_linux (c : PageCache) : PageCache.PageCache :=
  PageCache.mkCache (as_bucket <$> m_buckets c) (m_hashmap_size c) (m_used_pages c)
    (m_ref_count c) (m_page_cache_size c).

(** The ring can take [n] more insertions before its counter wraps. *)
Record ring_left (n : Z) (u : UsedPagesQueue) : Prop := {
  left_size : 0 < PageCache.m_queue_size u < 2 ^ 31;
  left_range : 0 ≤ PageCache.front u ≤ PageCache.rear u;
  left_room : PageCache.rear u + n < 2 ^ 32
}.

Definition ring_rel (n : Z) (u v : UsedPagesQueue) : Prop := v = u ∧ ring_left n u.

Record ported (n : Z) (c : PageCache) (d : PageCache.PageCache) : Prop := {
  ported_eq : d = as_linux c;
  ported_words : ∀ b k, m_buckets c !! b = Some k → lock k = 0 ∨ lock k = 1;
  ported_size_lock : m_page_cache_size_lock c = 0;
  ported_ring : ring_left n (m_used_pages c)
}.

Definition bucket_rel (b : bucket) (b' : PageCache.bucket) : Prop :=
  b' = as_bucket b ∧ (lock b = 0 ∨ lock b = 1).

Lemma ring_left_less n m u : ring_left n u → m ≤ n → ring_left m u.
Proof. intros [H1 H2 H3] Hm. constructor; lia. Qed.

Lemma ported_less n m c d : ported n c d → m ≤ n → ported m c d.
Proof. intros [H1 H2 H3 H4] Hm. constructor; [done..|by eapply ring_left_less]. Qed.

Section port.
Context `{SgxSpinLaws}.

(** ** The ring *)

Lemma ring_lock_agree n :
  agree (ring_rel n) (ring_rel n) eq (on_lock spin_lock) (PageCache.on_lock SyncUtils.spin_lock).
Proof.
  intros u v [-> Hl]. unfold on_lock, PageCache.on_lock, zoom. rewrite sgx_lock_eq.
  destruct (SyncUtils.spin_lock _) as [[[] w]|e]; [|done]. split; [done|]. split; [done|]. by destruct Hl.
Qed.

Lemma ring_unlock_agree n :
  agree (ring_rel n) (ring_rel n) eq (on_lock spin_unlock) (PageCache.on_lock SyncUtils.spin_unlock).
Proof.
  intros u v [-> Hl]. unfold on_lock, PageCache.on_lock, zoom. rewrite sgx_unlock_eq.
  split; [done|]. split; [done|]. by destruct Hl.
Qed.

Lemma used_enqueue_agree n x :
  0 ≤ n → agree (ring_rel (n + 1)) (ring_rel n) eq (used_enqueue x) (PageCache.used_enqueue x).
Proof.
  intros Hn. apply (agree_bind _ (ring_rel (n + 1)) _ eq); [apply ring_lock_agree|]. intros [] [] _.
  intros u v [-> Hl]. pose proof Hl as [Hz Hr Hm]. rewrite !bind_gets. cbv zeta. cbn [id].
  rewrite !(u32_id (PageCache.m_queue_size u)), (u64_id (PageCache.m_queue_size u)) by lia.
  rewrite u32_id, u64_id by lia. destruct (_ =? _).
  { apply (agree_bind (ring_rel (n + 1)) (ring_rel n) (ring_rel n) eq); [|intros; apply agree_fail|by split].
    eapply agree_weaken; [apply (ring_unlock_agree (n + 1))|done|]. intros s t [-> Hs]. split; [done|].
    eapply ring_left_less; [exact Hs|lia]. }
  destruct (PageCache.q u !! _) as [y|]; [|done].
  rewrite (bind_defined _ y), (bind_defined _ y), !bind_modify by done. cbn [PageCache.rear PageCache.front PageCache.q
    PageCache.m_queue_size PageCache._lock]. rewrite (u32_id (_ + 1)), (u64_id (_ + 1)) by lia.
  apply (agree_bind (ring_rel n) (ring_rel n) _ eq); [apply ring_unlock_agree|intros; by apply agree_ret|].
  split; [done|]. constructor; simpl; lia.
Qed.

Lemma used_dequeue_agree n :
  0 ≤ n → agree (ring_rel n) (ring_rel n) eq used_dequeue PageCache.used_dequeue.
Proof.
  intros Hn. apply (agree_bind _ (ring_rel n) _ eq); [apply ring_lock_agree|]. intros [] [] _.
  intros u v [-> Hl]. pose proof Hl as [Hz Hr Hm]. rewrite !bind_gets. cbn [id].
  destruct (Z.eqb_spec (PageCache.front u) (PageCache.rear u)) as [E|Hne].
  { apply (agree_bind (ring_rel n) (ring_rel n) _ eq); [apply ring_unlock_agree|intros; apply agree_fail|done]. }
  rewrite (u32_id (PageCache.m_queue_size u)), (u64_id (PageCache.m_queue_size u)) by lia.
  destruct (PageCache.q u !! _) as [y|]; [|done].
  rewrite (bind_defined _ y), (bind_defined _ y), !bind_modify by done. rewrite (u32_id (_ + 1)), (u64_id (_ + 1)) by lia.
  apply (agree_bind (ring_rel n) (ring_rel n) _ eq); [apply ring_unlock_agree|intros; by apply agree_ret|].
  split; [done|]. constructor; simpl; lia.
Qed.

(** ** Buckets, references, the size *)

Lemma on_used_agree {A} n n' (m : M UsedPagesQueue A) m' :
  agree (ring_rel n) (ring_rel n') eq m m' → agree (ported n) (ported n') eq (on_used m) (PageCache.on_used m').
Proof.
  intros Hm. eapply agree_zoom; [exact Hm| |].
  - intros c d [-> _ _ Hr]. done.
  - intros c d u v [-> Hw Hs _] [-> Hr]. by constructor.
Qed.

Lemma get_bucket_agree n page :
  agree (ported n) (ported n) bucket_rel (get_bucket page) (PageCache.get_bucket page).
Proof.
  intros c d Hcd. unfold get_bucket, PageCache.get_bucket. rewrite !bind_gets.
  pose proof Hcd as [-> Hw _ _]. simpl. change (PageCache.hash (as_linux c) page) with (hash c page).
  rewrite lookup_fmap. destruct (m_buckets c !! hash c page) as [k|] eqn:E; [|done].
  split; [|done]. split; [done|by eapply Hw].
Qed.

Lemma put_bucket_agree n page b b' :
  bucket_rel b b' → agree (ported n) (ported n) eq (put_bucket page b) (PageCache.put_bucket page b').
Proof.
  intros [-> Hb]. apply agree_modify. intros c d [-> Hw Hs Hr]. constructor; [| |done|done].
  - unfold as_linux, PageCache.set_buckets. simpl. by rewrite fmap_insert.
  - intros i k. simpl. rewrite lookup_insert_Some. intros [[_ <-]|[_ Hk]]; [done|by eapply Hw].
Qed.

Lemma on_bucket_lock_agree n page (m m' : M Z unit) :
  (∀ w, w = 0 ∨ w = 1 → m w = m' w) → (∀ w w', m' w = Ok (tt, w') → w' = 0 ∨ w' = 1) →
  agree (ported n) (ported n) eq (on_bucket_lock page m) (PageCache.on_bucket_lock page m').
Proof.
  intros Hm Hw. apply (agree_bind _ (ported n) _ bucket_rel); [apply get_bucket_agree|].
  intros b b' [-> Hb]. simpl. rewrite Hm by done. destruct (m' (lock b)) as [[[] w]|e] eqn:E; [|apply agree_fail].
  apply (agree_bind _ (ported n) _ eq); [|intros; by apply agree_ret].
  apply put_bucket_agree. split; [done|by eapply Hw].
Qed.

Lemma lock_agree n page :
  agree (ported n) (ported n) eq (on_bucket_lock page spin_lock_uchar)
    (PageCache.on_bucket_lock page SyncUtils.spin_lock_uchar).
Proof.
  apply on_bucket_lock_agree; [apply sgx_lock_uchar_eq|]. intros w w'. unfold SyncUtils.spin_lock_uchar.
  rewrite bind_gets. destruct (_ =? 0); [|done]. intros [= <-]. by right.
Qed.

Lemma unlock_agree n page :
  agree (ported n) (ported n) eq (on_bucket_lock page spin_unlock_uchar)
    (PageCache.on_bucket_lock page SyncUtils.spin_unlock_uchar).
Proof.
  apply on_bucket_lock_agree; [intros; apply sgx_unlock_uchar_eq|]. intros w w' [= <-]. by left.
Qed.

Lemma get_ref_agree n page : agree (ported n) (ported n) eq (get_ref page) (PageCache.get_ref page).
Proof.
  intros c d Hcd. pose proof Hcd as [-> _ _ _]. unfold get_ref, PageCache.get_ref. rewrite !bind_gets. simpl.
  by destruct (m_ref_count c !! page).
Qed.

Lemma bump_agree n d page :
  agree (ported n) (ported n) eq (bump_ref_count d page) (PageCache.bump_ref_count d page).
Proof.
  apply (agree_bind _ (ported n) _ eq); [apply lock_agree|]. intros _ _ _.
  apply (agree_bind _ (ported n) _ eq); [apply get_ref_agree|]. intros r _ <-.
  apply (agree_bind _ (ported n) _ eq); [|intros _ _ _; apply unlock_agree].
  apply agree_modify. intros c c' [-> Hw Hs Hr]. by constructor.
Qed.

Lemma add_size_agree n d : agree (ported n) (ported n) eq (add_size d) (modify (PageCache.add_size d)).
Proof.
  intros c c' [-> Hw Hs Hr]. unfold add_size, on_size_lock.
  rewrite (bind_zoom _ _ _ _ _ tt 1) by (rewrite Hs; apply sgx_lock_free). rewrite bind_modify.
  unfold zoom, spin_unlock. rewrite sgx_lock_release. split; [done|]. by constructor.
Qed.

Lemma get_internal_agree n page :
  agree (ported n) (ported n) eq (get_internal page) (PageCache.get_internal page).
Proof.
  apply (agree_bind _ (ported n) _ bucket_rel); [apply get_bucket_agree|]. intros b b' [-> _]. by apply agree_ret.
Qed.

(** ** The calls *)

Lemma get_agree n page : agree (ported n) (ported n) eq (get page) (PageCache.get page).
Proof.
  apply (agree_bind _ (ported n) _ eq); [apply lock_agree|]. intros _ _ _.
  apply (agree_bind _ (ported n) _ eq); [apply get_internal_agree|]. intros r _ <-.
  apply (agree_bind _ (ported n) _ eq); [apply unlock_agree|]. intros _ _ _. by apply agree_ret.
Qed.

Lemma remove_agree n page : agree (ported n) (ported n) eq (remove page) (PageCache.remove page).
Proof.
  apply (agree_bind _ (ported n) _ bucket_rel); [apply get_bucket_agree|]. intros b b' [-> Hb]. simpl.
  destruct (PageCache.find_item page (head b)); [|apply agree_fail].
  apply (agree_bind _ (ported n) _ eq); [apply add_size_agree|]. intros _ _ _.
  apply (agree_bind _ (ported n) _ eq); [by apply put_bucket_agree|]. intros _ _ _.
  apply (agree_bind _ (ported n) _ eq); [apply unlock_agree|]. intros _ _ _. by apply agree_ret.
Qed.

Lemma agree_more {A} n n' n'' (m : M PageCache A) m' :
  agree (ported n) (ported n') eq m m' → n'' ≤ n' → agree (ported n) (ported n'') eq m m'.
Proof. intros Hm Hn. eapply agree_weaken; [exact Hm|done|]. intros s t Hst. by eapply ported_less. Qed.

Lemma try_add_agree n page e :
  0 ≤ n → agree (ported (n + 1)) (ported n) eq (try_add page e) (PageCache.try_add page e).
Proof.
  intros Hn. apply (agree_bind _ (ported (n + 1)) _ eq); [apply lock_agree|]. intros _ _ _.
  apply (agree_bind _ (ported (n + 1)) _ bucket_rel); [apply get_bucket_agree|]. intros b b' [-> Hb]. simpl.
  destruct (PageCache.find_item page (head b)).
  - apply (agree_more _ (n + 1)); [|lia].
    apply (agree_bind _ (ported (n + 1)) _ eq); [apply unlock_agree|]. intros _ _ _. by apply agree_ret.
  - apply (agree_bind _ (ported (n + 1)) _ eq); [by apply put_bucket_agree|]. intros _ _ _.
    apply (agree_bind _ (ported (n + 1)) _ eq); [apply add_size_agree|]. intros _ _ _.
    apply (agree_bind _ (ported n) _ eq); [by apply on_used_agree, used_enqueue_agree|]. intros _ _ _.
    apply (agree_bind _ (ported n) _ eq); [apply unlock_agree|]. intros _ _ _. by apply agree_ret.
Qed.

Lemma evict_agree fuel : ∀ n, 0 ≤ n →
  agree (ported (n + Z.of_nat fuel)) (ported n) eq (get_page_index_to_evict fuel)
    (PageCache.get_page_index_to_evict fuel).
Proof.
  induction fuel as [|fuel IH]; intros n Hn; [apply agree_fail|]. set (k := n + Z.of_nat (S fuel)).
  cbn [get_page_index_to_evict PageCache.get_page_index_to_evict].
  apply (agree_bind _ (ported k) _ eq); [apply on_used_agree, used_dequeue_agree; lia|]. intros page _ <-.
  apply (agree_bind _ (ported k) _ eq); [apply lock_agree|]. intros _ _ _.
  apply (agree_bind _ (ported k) _ eq); [apply get_ref_agree|]. intros r _ <-. destruct (0 <? r).
  - apply (agree_bind _ (ported k) _ eq); [apply unlock_agree|]. intros _ _ _.
    apply (agree_bind _ (ported (n + Z.of_nat fuel)) _ eq); [|intros _ _ _; by apply IH].
    apply on_used_agree. unfold k. replace (n + Z.of_nat (S fuel)) with (n + Z.of_nat fuel + 1) by lia.
    apply used_enqueue_agree. lia.
  - apply (agree_more _ k); [|lia]. apply (agree_bind _ (ported k) _ eq); [apply get_internal_agree|].
    intros o _ <-. destruct o; [by apply agree_ret|apply agree_fail].
Qed.
End port.

(** ** Sequences of calls *)

(** What the paging layer asks of its cache; a removal follows the choice of the
    page. [turns] bounds the search for a page to evict. *)
Inductive cache_call : Type :=
  | IncRef (page : Z)
  | DecRef (page : Z)
  | Get (page : Z)
  | TryAdd (page epc : Z)
  | Evict (turns : nat)
  | Remove (page : Z).

(** What a call returns. *)
Inductive answer : Type :=
  | Done
  | Found (it : option item_t)
  | Added (b : bool)
  | Victim (it : item_t)
  | Removed (r : Z).

(** The insertions into the ring that a call can make. *)
Definition insertions (c : cache_call) : Z :=
  match c with TryAdd _ _ => 1 | Evict turns => Z.of_nat turns | _ => 0 end.
Definition all_insertions (l : list cache_call) : Z := foldr (λ c n, insertions c + n) 0 l.

Section calls.
Context `{SgxSpin}.

Definition port_call (c : cache_call) : M PageCache answer :=
  match c with
  | IncRef p => inc_ref_count p;; mret Done
  | DecRef p => dec_ref_count p;; mret Done
  | Get p => o ← get p; mret (Found o)
  | TryAdd p e => b ← try_add p e; mret (Added b)
  | Evict turns => it ← get_page_index_to_evict turns; mret (Victim it)
  | Remove p => r ← remove p; mret (Removed r)
  end.

Fixpoint port_calls (l : list cache_call) : M PageCache (list answer) :=
  match l with
  | [] => mret []
  | c :: l' => a ← port_call c; r ← port_calls l'; mret (a :: r)
  end.
End calls.

(** The same calls of the original. *)
Definition original_call (c : cache_call) : M PageCache.PageCache answer :=
  match c with
  | IncRef p => PageCache.inc_ref_count p;; mret Done
  | DecRef p => PageCache.dec_ref_count p;; mret Done
  | Get p => o ← PageCache.get p; mret (Found o)
  | TryAdd p e => b ← PageCache.try_add p e; mret (Added b)
  | Evict turns => it ← PageCache.get_page_index_to_evict turns; mret (Victim it)
  | Remove p => r ← PageCache.remove p; mret (Removed r)
  end.

Fixpoint original_calls (l : list cache_call) : M PageCache.PageCache (list answer) :=
  match l with
  | [] => mret []
  | c :: l' => a ← original_call c; r ← original_calls l'; mret (a :: r)
  end.

Lemma insertions_nonneg l : 0 ≤ all_insertions l.
Proof. induction l as [|[| | | | |] l IH]; simpl; lia. Qed.

Section sequences.
Context `{SgxSpinLaws}.

Lemma call_agree n c :
  0 ≤ n → agree (ported (insertions c + n)) (ported n) eq (port_call c) (original_call c).
Proof.
  intros Hn. assert (∀ A R (m : M PageCache A) m' (f : A → answer), agree R (ported n) eq m m' →
    agree R (ported n) eq (a ← m; mret (f a)) (a ← m'; mret (f a))) as Hk.
  { intros A R m m' f Hm. apply (agree_bind _ (ported n) _ eq); [exact Hm|]. intros a _ <-. by apply agree_ret. }
  destruct c as [p|p|p|p e|turns|p]; simpl; rewrite ?Z.add_0_l; apply Hk.
  - apply bump_agree.
  - apply bump_agree.
  - apply get_agree.
  - rewrite Z.add_comm. by apply try_add_agree.
  - rewrite Z.add_comm. by apply evict_agree.
  - apply remove_agree.
Qed.

Lemma calls_agree l : agree (ported (all_insertions l)) (ported 0) eq (port_calls l) (original_calls l).
Proof.
  induction l as [|c l IH]; [by apply agree_ret|]. cbn [port_calls original_calls all_insertions foldr].
  apply (agree_bind _ (ported (all_insertions l)) _ eq); [apply call_agree, insertions_nonneg|]. intros a _ <-.
  apply (agree_bind _ (ported 0) _ eq); [exact IH|]. intros r _ <-. by apply agree_ret.
Qed.

Lemma buckets_init n memory b :
  (list_to_map ((λ i, (i, mkBucket [] (clear_lock_byte (memory i)))) <$> seqZ 0 n) : gmap Z bucket) !! b =
    if decide (0 ≤ b < n) then Some (mkBucket [] (clear_lock_byte (memory b))) else None.
Proof.
  case_decide as Hb.
  - apply elem_of_list_to_map.
    + rewrite <- list_fmap_compose. simpl. rewrite list_fmap_id. apply NoDup_seqZ.
    + apply list_elem_of_fmap. exists b. split; [done|]. apply elem_of_seqZ. lia.
  - apply not_elem_of_list_to_map_1. rewrite <- list_fmap_compose. simpl. rewrite list_fmap_id.
    rewrite elem_of_seqZ. lia.
Qed.

Lemma init_ported n b cap garbage memory k :
  0 < cap < 2 ^ 31 → k < 2 ^ 32 → (∀ i, 0 ≤ i < n → clear_lock_byte (memory i) = 0) →
  ported k (cache_init n b cap garbage memory) (PageCache.cache_init n b cap garbage).
Proof.
  intros Hcap Hk Hm. constructor; [| |done|].
  - unfold as_linux, PageCache.cache_init, cache_init. simpl. f_equal. apply map_eq. intros i.
    rewrite lookup_fmap, buckets_init. case_decide as Hi.
    + rewrite array_lookup by done. simpl. unfold as_bucket. simpl. by rewrite Hm.
    + destruct (array n _ !! i) as [x|] eqn:E; [|done]. apply array_lookup_Some in E as [? _]. lia.
  - intros i x. simpl. rewrite buckets_init. case_decide as Hi; [|done]. intros [= <-]. left. by apply Hm.
  - constructor; simpl; [|lia|lia]. by rewrite i32_id by lia.
Qed.

(** The Windows page cache is the page cache.  Made of memory whose padding
    bytes are 0, it ends every sequence of calls as the original does (the
    same answers, or the same failure), whatever the calls and whatever the
    ring's lock was made of, as long as they cannot insert 2^32 pages into the
    ring. *)
Theorem port_is_original n b cap garbage memory l :
  0 < cap < 2 ^ 31 → (∀ i, 0 ≤ i < n → clear_lock_byte (memory i) = 0) → all_insertions l < 2 ^ 32 →
  outcome (port_calls l (cache_init n b cap garbage memory)) =
    outcome (original_calls l (PageCache.cache_init n b cap garbage)).
Proof. intros Hcap Hm Hl. eapply agree_outcome; [apply calls_agree|]. by apply init_ported. Qed.
End sequences.

(** Two pages in one bucket; the first is referenced, so the second is evicted. *)
Definition some_calls : list cache_call :=
  [TryAdd 1 101; TryAdd 9 109; IncRef 1; Evict 3; Remove 9; Get 9; Get 1].

Lemma port_is_original_witness :
  outcome (port_calls some_calls (cache_init 8 16 3 0 (λ _, 0))) =
    Ok [Added true; Added true; Done; Victim (PageCache.mkItem 9 109); Removed 0; Found None;
        Found (Some (PageCache.mkItem 1 101))].
Proof.
  rewrite (port_is_original 8 16 3 0 (λ _, 0) some_calls) by (lia || done).
  vm_compute. reflexivity.
Defined.

(** ** Buckets whose padding is not 0 *)

Section padding.
Context `{SgxSpinLaws}.

Lemma fresh_lock {A} n b cap (garbage : Z) (memory : Z → Z) p (f : unit → M PageCache A) :
  0 < n → clear_lock_byte (memory (u64 p mod n)) ≠ 0 →
  (on_bucket_lock p spin_lock_uchar ≫= f) (cache_init n b cap garbage memory) = Err ESpin.
Proof.
  intros Hn Hm. apply bind_Err. unfold on_bucket_lock, get_bucket. rewrite bind_assoc, bind_gets. simpl.
  unfold hash. simpl. rewrite buckets_init, decide_True by (by apply Z.mod_pos_bound).
  unfold defined. rewrite bind_ret. simpl. unfold spin_lock_uchar. by rewrite sgx_lock_held.
Qed.

(** One bucket, locked and unlocked. *)
Lemma bucket_lock_run {A} (f : unit → M PageCache A) c p hd :
  m_buckets c !! hash c p = Some (mkBucket hd 0) →
  (on_bucket_lock p spin_lock_uchar ≫= f) c = f tt (set_buckets (<[hash c p := mkBucket hd 1]>) c).
Proof.
  intros Hb. unfold on_bucket_lock, get_bucket. rewrite !bind_assoc, bind_gets, Hb. unfold defined.
  rewrite bind_ret. simpl. unfold spin_lock_uchar. rewrite sgx_lock_free. done.
Qed.

Lemma bucket_unlock_run {A} (f : unit → M PageCache A) c p hd w :
  m_buckets c !! hash c p = Some (mkBucket hd w) →
  (on_bucket_lock p spin_unlock_uchar ≫= f) c = f tt (set_buckets (<[hash c p := mkBucket hd 0]>) c).
Proof.
  intros Hb. unfold on_bucket_lock, get_bucket. rewrite !bind_assoc, bind_gets, Hb. unfold defined.
  rewrite bind_ret. simpl. unfold spin_unlock_uchar. by rewrite sgx_lock_release.
Qed.

Lemma get_bucket_run {A} (f : bucket → M PageCache A) c p k :
  m_buckets c !! hash c p = Some k → (get_bucket p ≫= f) c = f k c.
Proof. intros Hb. unfold get_bucket. rewrite bind_assoc, bind_gets, Hb. done. Qed.

Lemma fresh_bucket n b cap garbage memory p :
  0 < n → clear_lock_byte (memory (u64 p mod n)) = 0 →
  let c := cache_init n b cap garbage memory in m_buckets c !! hash c p = Some (mkBucket [] 0).
Proof.
  intros Hn Hm. simpl. unfold hash. simpl. rewrite buckets_init, decide_True by (by apply Z.mod_pos_bound). by rewrite Hm.
Qed.

Lemma fresh_bump n b cap memory p d :
  0 < n → 0 ≤ p < b → clear_lock_byte (memory (u64 p mod n)) = 0 →
  ∃ c', bump_ref_count d p (cache_init n b cap 0 memory) = Ok (tt, c').
Proof.
  intros Hn Hp Hm. eexists. unfold bump_ref_count, get_ref. rewrite (bucket_lock_run _ _ p []) by by apply fresh_bucket.
  rewrite bind_assoc, bind_gets. simpl. rewrite array_lookup by done. unfold defined. rewrite bind_ret.
  rewrite bind_modify, <- bind_ret_r, (bucket_unlock_run _ _ p [] 1) by apply lookup_insert_eq. reflexivity.
Qed.

Lemma fresh_enqueue cap x :
  0 < cap < 2 ^ 31 → ∃ u, used_enqueue x (UsedPagesQueue_ctor cap 0) = Ok (0, u).
Proof.
  intros Hcap. eexists. unfold used_enqueue, on_lock, PageCache.on_lock.
  rewrite (bind_zoom _ _ _ _ _ tt 1) by apply sgx_lock_free. rewrite bind_gets. cbv zeta.
  cbn [id UsedPagesQueue_ctor PageCache.UsedPagesQueue_ctor PageCache.rear PageCache.front PageCache.m_queue_size PageCache.q].
  rewrite (u32_id cap) by lia. change (u32 (0 - 0)) with 0. rewrite (proj2 (Z.eqb_neq 0 cap)), Z.mod_0_l by lia.
  rewrite array_lookup by lia. unfold defined. rewrite bind_ret, !bind_modify.
  rewrite (bind_zoom _ _ _ _ _ tt 0) by apply sgx_lock_release. reflexivity.
Qed.

Lemma fresh_try_add n b cap memory p e :
  0 < n → 0 < cap < 2 ^ 31 → clear_lock_byte (memory (u64 p mod n)) = 0 →
  ∃ c', try_add p e (cache_init n b cap 0 memory) = Ok (true, c').
Proof.
  intros Hn Hcap Hm. destruct (fresh_enqueue cap p Hcap) as [u Hu]. eexists. unfold try_add.
  rewrite (bucket_lock_run _ _ p []) by by apply fresh_bucket.
  rewrite (get_bucket_run _ _ p (mkBucket [] 1)) by apply lookup_insert_eq. simpl. unfold put_bucket. rewrite bind_modify.
  unfold add_size, on_size_lock. rewrite bind_assoc, (bind_zoom _ _ _ _ _ tt 1) by apply sgx_lock_free.
  rewrite bind_assoc, bind_modify, (bind_zoom _ _ _ _ _ tt 0) by apply sgx_lock_release.
  unfold on_used. rewrite (bind_zoom _ _ _ _ _ 0 u) by (simpl; rewrite i32_id by lia; exact Hu).
  rewrite (bucket_unlock_run _ _ p [PageCache.mkItem p e] 1) by apply lookup_insert_eq. reflexivity.
Qed.

Lemma fresh_get n b cap memory p :
  0 < n → clear_lock_byte (memory (u64 p mod n)) = 0 →
  ∃ c', get p (cache_init n b cap 0 memory) = Ok (None, c').
Proof.
  intros Hn Hm. eexists. unfold get, get_internal. rewrite (bucket_lock_run _ _ p []) by by apply fresh_bucket.
  rewrite bind_assoc, (get_bucket_run _ _ p (mkBucket [] 1)) by apply lookup_insert_eq. rewrite bind_ret. simpl.
  rewrite (bucket_unlock_run _ _ p [] 1) by apply lookup_insert_eq. reflexivity.
Qed.

(** The lock of a bucket is one byte, but it is locked as the four bytes of a
    word, and only the byte is initialised.  Where the three others came dirty
    from the allocator, every first call for a page of the bucket waits for
    ever; where they came clean the page is looked up, counted and inserted. *)
Theorem bucket_lock_padding n b cap memory p e :
  0 < n → 0 ≤ p < b → 0 < cap < 2 ^ 31 →
  let c := cache_init n b cap 0 memory in
  let dirty := clear_lock_byte (memory (u64 p mod n)) in
  (dirty ≠ 0 → get p c = Err ESpin ∧ inc_ref_count p c = Err ESpin ∧ dec_ref_count p c = Err ESpin ∧
    try_add p e c = Err ESpin) ∧
  (dirty = 0 → (∃ c', get p c = Ok (None, c')) ∧ (∃ c', inc_ref_count p c = Ok (tt, c')) ∧
    (∃ c', dec_ref_count p c = Ok (tt, c')) ∧ ∃ c', try_add p e c = Ok (true, c')).
Proof.
  intros Hn Hp Hcap c dirty. split; intros Hd.
  - unfold get, inc_ref_count, dec_ref_count, bump_ref_count, try_add. split_and!; by apply fresh_lock.
  - split; [by apply fresh_get|]. split; [by apply fresh_bump|]. split; [by apply fresh_bump|by apply fresh_try_add].
Qed.
End padding.

(** Bucket 1 came with one of its padding bytes set. *)
Definition dirty_memory (i : Z) : Z := if i =? 1 then 0x00010000 else 0.

Lemma bucket_lock_padding_witness :
  get 9 (cache_init 8 16 3 0 dirty_memory) = Err ESpin ∧
  ∃ c', try_add 2 202 (cache_init 8 16 3 0 dirty_memory) = Ok (true, c').
Proof.
  split.
  - apply (bucket_lock_padding 8 16 3 dirty_memory 9 0); [lia..|]. vm_compute. discriminate.
  - apply (bucket_lock_padding 8 16 3 dirty_memory 2 202); [lia..|]. vm_compute. reflexivity.
Defined.
