(* ===== verification/WinCryptoCache.v ===== *)
(** * The crypto cache of the Windows port

    Models [src/win/SUVM/suvm_lib/CryptoCache.h]: the original's but for the lock
    byte of a bucket, which is locked as a word of four bytes.  Where the bytes
    after it were 0 the two tables cannot be told apart. *)

From S2P Require Import Prelude Ring Agree WinSync.
From S2P Require SyncUtils CryptoCache.

Definition crypto_item_t : Type := CryptoCache.crypto_item_t.

(** The chained items of a bucket and the four bytes from its lock byte on. *)
Record crypto_bucket_t := mkCBucket { head : list crypto_item_t; lock : Z }.
Record CryptoCache := mkCCache { m_buckets : gmap Z crypto_bucket_t; m_hashmap_size : Z }.

(** [CryptoCache::init]; [memory] is what the bytes from each lock byte on held. *)
Definition crypto_init (num_of_buckets : Z) (memory : Z → Z) : CryptoCache :=
  mkCCache (list_to_map ((λ i, (i, mkCBucket [] (clear_lock_byte (memory i)))) <$> seqZ 0 num_of_buckets))
    num_of_buckets.

Definition hash (c : CryptoCache) (page : Z) : Z := u64 page mod m_hashmap_size c.

Section port.
Context `{SgxSpin}.

Definition get_bucket (page : Z) : M CryptoCache crypto_bucket_t :=
  b ← gets (λ c, m_buckets c !! hash c page); defined b.
Definition put_bucket (page : Z) (b : crypto_bucket_t) : M CryptoCache unit :=
  modify (λ c, mkCCache (<[hash c page := b]> (m_buckets c)) (m_hashmap_size c)).
Definition on_bucket_lock {A} (page : Z) (m : M Z A) : M CryptoCache A :=
  b ← get_bucket page;
  match m (lock b) with
  | Ok (a, w) => put_bucket page (mkCBucket (head b) w);; mret a
  | Err e => fail e
  end.

Definition crypto_get (page : Z) : M CryptoCache (option crypto_item_t) :=
  on_bucket_lock page spin_lock_uchar;;
  b ← get_bucket page;
  on_bucket_lock page spin_unlock_uchar;;
  mret (CryptoCache.find_item page (head b)).

Definition crypto_add (page : Z) : M CryptoCache crypto_item_t :=
  on_bucket_lock page spin_lock_uchar;;
  b ← get_bucket page;
  match CryptoCache.find_item page (head b) with
  | Some p => on_bucket_lock page spin_unlock_uchar;; mret p
  | None =>
      let it := CryptoCache.new_item page in
      put_bucket page (mkCBucket (head b ++ [it]) (lock b));;
      on_bucket_lock page spin_unlock_uchar;;
      mret it
  end.

(** Stores through the pointer [crypto_add] returned. *)
Definition crypto_store (page : Z) (n m : list Z) : M CryptoCache unit :=
  b ← get_bucket page;
  put_bucket page (mkCBucket
    (CryptoCache.update_item page (λ p, CryptoCache.mkCrypto (CryptoCache.page_index p) n m) (head b)) (lock b)).
End port.

(** ** Against the original *)

Definition as_cbucket (b : crypto_bucket_t) : CryptoCache.crypto_bucket_t := CryptoCache.mkCBucket (head b) (lock b).

Record cported (c : CryptoCache) (d : CryptoCache.CryptoCache) : Prop := {
  cported_eq : d = CryptoCache.mkCCache (as_cbucket <$> m_buckets c) (m_hashmap_size c);
  cported_words : ∀ i b, m_buckets c !! i = Some b → lock b = 0 ∨ lock b = 1
}.

Definition cbucket_rel (b : crypto_bucket_t) (b' : CryptoCache.crypto_bucket_t) : Prop :=
  b' = as_cbucket b ∧ (lock b = 0 ∨ lock b = 1).

Section agreement.
Context `{SgxSpinLaws}.

Lemma cget_bucket_agree page :
  agree cported cported cbucket_rel (get_bucket page) (CryptoCache.get_bucket page).
Proof.
  intros c d Hcd. pose proof Hcd as [-> Hw]. unfold get_bucket, CryptoCache.get_bucket. rewrite !bind_gets.
  simpl. change (CryptoCache.hash (CryptoCache.mkCCache _ _) page) with (hash c page).
  rewrite lookup_fmap. destruct (m_buckets c !! hash c page) as [k|] eqn:E; [|done].
  split; [|done]. split; [done|by eapply Hw].
Qed.

Lemma cput_bucket_agree page b b' :
  cbucket_rel b b' → agree cported cported eq (put_bucket page b) (CryptoCache.put_bucket page b').
Proof.
  intros [-> Hb]. apply agree_modify. intros c d [-> Hw]. constructor.
  - simpl. by rewrite fmap_insert.
  - intros i k. simpl. rewrite lookup_insert_Some. intros [[_ <-]|[_ Hk]]; [done|by eapply Hw].
Qed.

Lemma cbucket_lock_agree page (m m' : M Z unit) :
  (∀ w, w = 0 ∨ w = 1 → m w = m' w) → (∀ w w', m' w = Ok (tt, w') → w' = 0 ∨ w' = 1) →
  agree cported cported eq (on_bucket_lock page m) (CryptoCache.on_bucket_lock page m').
Proof.
  intros Hm Hw. apply (agree_bind _ cported _ cbucket_rel); [apply cget_bucket_agree|].
  intros b b' [-> Hb]. simpl. rewrite Hm by done. destruct (m' (lock b)) as [[[] w]|e] eqn:E; [|apply agree_fail].
  apply (agree_bind _ cported _ eq); [|intros; by apply agree_ret].
  apply cput_bucket_agree. split; [done|by eapply Hw].
Qed.

Lemma clock_agree page :
  agree cported cported eq (on_bucket_lock page spin_lock_uchar)
    (CryptoCache.on_bucket_lock page SyncUtils.spin_lock_uchar).
Proof.
  apply cbucket_lock_agree; [apply sgx_lock_uchar_eq|]. intros w w'. unfold SyncUtils.spin_lock_uchar.
  rewrite bind_gets. destruct (_ =? 0); [|done]. intros [= <-]. by right.
Qed.
Lemma cunlock_agree page :
  agree cported cported eq (on_bucket_lock page spin_unlock_uchar)
    (CryptoCache.on_bucket_lock page SyncUtils.spin_unlock_uchar).
Proof.
  apply cbucket_lock_agree; [intros; apply sgx_unlock_uchar_eq|]. intros w w' [= <-]. by left.
Qed.

Lemma crypto_get_agree page : agree cported cported eq (crypto_get page) (CryptoCache.crypto_get page).
Proof.
  apply (agree_bind _ cported _ eq); [apply clock_agree|]. intros _ _ _.
  apply (agree_bind _ cported _ cbucket_rel); [apply cget_bucket_agree|]. intros b b' [-> _].
  apply (agree_bind _ cported _ eq); [apply cunlock_agree|]. intros _ _ _. by apply agree_ret.
Qed.

Lemma crypto_add_agree page : agree cported cported eq (crypto_add page) (CryptoCache.crypto_add page).
Proof.
  apply (agree_bind _ cported _ eq); [apply clock_agree|]. intros _ _ _.
  apply (agree_bind _ cported _ cbucket_rel); [apply cget_bucket_agree|]. intros b b' [-> Hb]. simpl.
  destruct (CryptoCache.find_item page (head b)).
  - apply (agree_bind _ cported _ eq); [apply cunlock_agree|]. intros _ _ _. by apply agree_ret.
  - apply (agree_bind _ cported _ eq); [by apply cput_bucket_agree|]. intros _ _ _.
    apply (agree_bind _ cported _ eq); [apply cunlock_agree|]. intros _ _ _. by apply agree_ret.
Qed.

Lemma crypto_store_agree page n m :
  agree cported cported eq (crypto_store page n m) (CryptoCache.crypto_store page n m).
Proof.
  apply (agree_bind _ cported _ cbucket_rel); [apply cget_bucket_agree|]. intros b b' [-> Hb].
  by apply cput_bucket_agree.
Qed.

Lemma crypto_init_ported n memory :
  (∀ i, 0 ≤ i < n → clear_lock_byte (memory i) = 0) → cported (crypto_init n memory) (CryptoCache.crypto_init n).
Proof.
  intros Hm. assert (∀ b, m_buckets (crypto_init n memory) !! b =
    if decide (0 ≤ b < n) then Some (mkCBucket [] (clear_lock_byte (memory b))) else None) as Hlk.
  { intros b. simpl. case_decide as Hb.
    - apply elem_of_list_to_map.
      + rewrite <- list_fmap_compose. simpl. rewrite list_fmap_id. apply NoDup_seqZ.
      + apply list_elem_of_fmap. exists b. split; [done|]. apply elem_of_seqZ. lia.
    - apply not_elem_of_list_to_map_1. rewrite <- list_fmap_compose. simpl. rewrite list_fmap_id, elem_of_seqZ. lia. }
  constructor.
  - unfold CryptoCache.crypto_init. f_equal. apply map_eq. intros b. rewrite lookup_fmap, Hlk. case_decide as Hb.
    + rewrite array_lookup by done. simpl. unfold as_cbucket. simpl. by rewrite Hm.
    + destruct (array n _ !! b) as [x|] eqn:E; [|done]. apply array_lookup_Some in E as [? _]. lia.
  - intros b k. rewrite Hlk. case_decide as Hb; [|done]. intros [= <-]. left. by apply Hm.
Qed.
End agreement.
