(* ===== verification/WinRing.v ===== *)
(** * The ring of the Windows port, counter and all

    The ring of cached pages of [WinPageCache]: a queue until its 32-bit counter
    wraps.  Its 7680 cells do not divide 2^32, so that the cell a number stands
    for jumps at the wrap, onto cells that are still in use. *)

From S2P Require Import Prelude Ring WinSync WinPageCache.
From S2P Require Import PageCache.

#[local] Notation used_enqueue := WinPageCache.used_enqueue.
#[local] Notation used_dequeue := WinPageCache.used_dequeue.
#[local] Notation UsedPagesQueue_ctor := WinPageCache.UsedPagesQueue_ctor.

(** [CACHE_SIZE / PAGE_SIZE] of [DataStructures.h]. *)
Definition CACHE_CAPACITY : Z := 31457280 / 4096.

(** The cell of the [i]-th page of the ring. *)
Definition cell (s : UsedPagesQueue) (i : nat) : Z := u32 (front s + Z.of_nat i) mod m_queue_size s.

(** The pages of the ring are [l]. *)
Record ring_holds (s : UsedPagesQueue) (l : list Z) : Prop := {
  ring_free : _lock s = 0;
  ring_size : 0 < m_queue_size s < 2 ^ 31;
  ring_range : 0 ≤ front s < 2 ^ 32;
  ring_count : rear s = u32 (front s + Z.of_nat (length l)) ∧ Z.of_nat (length l) ≤ m_queue_size s;
  ring_array : ∀ i, 0 ≤ i < m_queue_size s → is_Some (q s !! i);
  ring_cells : ∀ i x, l !! i = Some x → q s !! cell s i = Some x
}.

(** Writing the next page overwrites whatever is in its cell. *)
Definition overwrite (s : UsedPagesQueue) (l : list Z) (x : Z) : list Z :=
  imap (λ i y, if decide (cell s i = cell s (length l)) then x else y) l.

Lemma length_overwrite s l x : length (overwrite s l x) = length l.
Proof. apply length_imap. Qed.

Lemma u32_diff a n : 0 ≤ a < 2 ^ 32 → 0 ≤ n < 2 ^ 32 → u32 (u32 (a + n) - a) = n.
Proof.
  intros Ha Hn. unfold u32. rewrite Zminus_mod_idemp_l. replace (a + n - a) with n by lia. by apply Z.mod_small.
Qed.

Section ring.
Context `{SgxSpinLaws}.

Lemma ring_lock_run {B} (k : unit → M UsedPagesQueue B) s :
  _lock s = 0 → (WinPageCache.on_lock spin_lock ≫= k) s = k tt (mkUsed (m_queue_size s) (front s) (rear s) (q s) 1).
Proof.
  intros Hl. unfold WinPageCache.on_lock, on_lock. rewrite (bind_zoom _lock _ _ _ _ tt 1); [done|].
  rewrite Hl. apply sgx_lock_free.
Qed.

Lemma ring_unlock_run {B} (k : unit → M UsedPagesQueue B) s :
  (WinPageCache.on_lock spin_unlock ≫= k) s = k tt (mkUsed (m_queue_size s) (front s) (rear s) (q s) 0).
Proof.
  unfold WinPageCache.on_lock, on_lock. rewrite (bind_zoom _lock _ _ _ _ tt 0); [done|]. apply sgx_lock_release.
Qed.

(** An insertion, on every state of the counters. *)
Lemma ring_enqueue_ok s l x :
  ring_holds s l → Z.of_nat (length l) < m_queue_size s →
  ∃ s', used_enqueue x s = Ok (0, s') ∧ ring_holds s' (overwrite s l x ++ [x]) ∧
    m_queue_size s' = m_queue_size s ∧ front s' = front s.
Proof.
  intros [Hf Hz Hr [Hc Hc'] Ha Hs] Hroom.
  assert (rear s mod m_queue_size s = cell s (length l)) as Ecell by (by rewrite Hc).
  eexists. split; [|split; [|split]].
  - unfold used_enqueue. rewrite ring_lock_run by done. rewrite bind_gets. cbv zeta.
    cbn [id front rear q m_queue_size]. rewrite (u32_id (m_queue_size s)) by lia.
    rewrite Hc, u32_diff, <- Hc, Ecell by lia. rewrite (proj2 (Z.eqb_neq _ _)) by lia.
    destruct (Ha (cell s (length l))) as [c Hcell]; [apply Z.mod_pos_bound; lia|].
    rewrite (bind_defined _ _ _ _ Hcell), !bind_modify, ring_unlock_run. cbn [front rear q m_queue_size]. reflexivity.
  - constructor; cbn [_lock m_queue_size front rear q]; [done|done|done| | |].
    + rewrite length_app, length_overwrite. simpl. split; [|lia]. rewrite Hc. unfold u32.
      rewrite Zplus_mod_idemp_l. f_equal. lia.
    + intros i Hi. rewrite lookup_insert. case_decide; [done|by apply Ha].
    + intros i y. unfold cell at 1. cbn [front m_queue_size]. fold (cell s i).
      rewrite lookup_app_Some, length_overwrite. unfold overwrite. intros [Hi|[Hge Hi]].
      * rewrite list_lookup_imap in Hi. destruct (l !! i) as [z|] eqn:E; [|done]. simpl in Hi. injection Hi as <-.
        case_decide as Ec; [by rewrite Ec, lookup_insert_eq|]. rewrite lookup_insert_ne by congruence. by apply Hs.
      * apply list_lookup_singleton_Some in Hi as [Hi <-]. assert (i = length l) as -> by lia. apply lookup_insert_eq.
  - done.
  - done.
Qed.

Lemma ring_dequeue_ok s x l :
  ring_holds s (x :: l) →
  ∃ s', used_dequeue s = Ok (x, s') ∧ ring_holds s' l ∧ m_queue_size s' = m_queue_size s ∧
    front s' = u32 (front s + 1) ∧ rear s' = rear s.
Proof.
  intros [Hf Hz Hr [Hc Hc'] Ha Hs]. simpl in Hc, Hc'.
  assert (front s ≠ rear s) as Hne.
  { intros E. pose proof (u32_diff (front s) (Z.of_nat (S (length l))) ltac:(lia) ltac:(lia)) as Hu.
    rewrite <- Hc, E, Z.sub_diag in Hu. change (u32 0) with 0 in Hu. lia. }
  eexists. split; [|split].
  - unfold used_dequeue. rewrite ring_lock_run by done. rewrite bind_gets. cbn [id front rear q m_queue_size].
    rewrite (proj2 (Z.eqb_neq _ _)) by done. rewrite (u32_id (m_queue_size s)) by lia.
    pose proof (Hs 0%nat x eq_refl) as Hx. unfold cell in Hx. rewrite Z.add_0_r, u32_id in Hx by lia.
    rewrite (bind_defined _ _ _ _ Hx), bind_modify, ring_unlock_run. cbn [front rear q m_queue_size]. reflexivity.
  - constructor; cbn [_lock m_queue_size front rear q]; [done|done|apply u32_range| |done|].
    + split; [|lia]. rewrite Hc. unfold u32. rewrite Zplus_mod_idemp_l. f_equal. lia.
    + intros i y Hi. rewrite <- (Hs (S i) y Hi). f_equal. unfold cell. cbn [front m_queue_size]. f_equal.
      unfold u32. rewrite Zplus_mod_idemp_l. f_equal. lia.
  - done.
Qed.

(** ** Before the wrap *)

Lemma overwrite_none s l x :
  (∀ i, (i < length l)%nat → cell s i ≠ cell s (length l)) → overwrite s l x = l.
Proof.
  intros Hc. apply list_eq. intros i. unfold overwrite. rewrite list_lookup_imap.
  destruct (l !! i) as [y|] eqn:E; [|done]. simpl. rewrite decide_False; [done|].
  apply Hc. by eapply lookup_lt_Some.
Qed.

Lemma no_wrap_cells s l x :
  ring_holds s l → Z.of_nat (length l) < m_queue_size s → front s + Z.of_nat (length l) < 2 ^ 32 →
  overwrite s l x = l.
Proof.
  intros [_ Hz Hr _ _ _] Hroom Hw. apply overwrite_none. intros i Hi. unfold cell.
  rewrite !u32_id by lia. apply ring_ne; lia.
Qed.

(** The ring is a queue for as long as its counter does not wrap. *)
Definition ring_queue (s : UsedPagesQueue) (l : list Z) : Prop :=
  ring_holds s l ∧ rear s = front s + Z.of_nat (length l).

#[export] Instance WinRing_Fifo : Fifo UsedPagesQueue Z.
Proof.
  refine {| fifo_enqueue := used_enqueue; fifo_dequeue := used_dequeue; fifo_cap := m_queue_size;
            fifo_left := λ s, 2 ^ 32 - 1 - rear s; fifo_holds := ring_queue |}.
  - intros s l x [Hh Er] Hroom Hleft. destruct (ring_enqueue_ok s l x Hh Hroom) as (s' & Hrun & Hh' & Ez & Ef).
    rewrite (no_wrap_cells s l x Hh Hroom) in Hh' by lia.
    assert (rear s' = rear s + 1) as Er'.
    { rewrite (proj1 (ring_count _ _ Hh')), Ef, length_app. simpl. pose proof (ring_range _ _ Hh). rewrite u32_id; lia. }
    exists s'. split; [exact Hrun|]. split; [split; [exact Hh'|]|lia]. rewrite Er', Ef, length_app. simpl. lia.
  - intros s x l [Hh Er]. destruct (ring_dequeue_ok s x l Hh) as (s' & Hrun & Hh' & Ez & Ef & Er').
    simpl in Er. pose proof (ring_range _ _ Hh). pose proof (ring_count _ _ Hh) as [Hc _]. simpl in Hc.
    pose proof (u32_range (front s + Z.of_nat (S (length l)))).
    exists s'. split; [exact Hrun|]. split; [split; [exact Hh'|]|lia]. rewrite Er', Ef, u32_id by lia. lia.
Defined.

(** ** At the wrap *)

(** A client: [k] pages pass through the empty ring, the pages of [l] are put
    in, and as many pages taken as [n] says. *)
Fixpoint pass (k : nat) (y : Z) : M UsedPagesQueue unit :=
  match k with
  | O => mret tt
  | S k' => _ ← used_enqueue y; _ ← used_dequeue; pass k' y
  end.

Fixpoint fill (l : list Z) : M UsedPagesQueue unit :=
  match l with
  | [] => mret tt
  | x :: l' => _ ← used_enqueue x; fill l'
  end.

Fixpoint drain (n : nat) : M UsedPagesQueue (list Z) :=
  match n with
  | O => mret []
  | S n' => x ← used_dequeue; r ← drain n'; mret (x :: r)
  end.

Lemma pass_ok k y : ∀ s, ring_holds s [] →
  ∃ s', pass k y s = Ok (tt, s') ∧ ring_holds s' [] ∧ m_queue_size s' = m_queue_size s ∧
    front s' = u32 (front s + Z.of_nat k).
Proof.
  induction k as [|k IH]; intros s Hs.
  - exists s. split; [done|]. split; [done|]. split; [done|]. rewrite Z.add_0_r. symmetry. apply u32_id, Hs.
  - destruct (ring_enqueue_ok s [] y Hs) as (s1 & Hrun1 & Hs1 & Ez1 & Ef1); [apply Hs|].
    destruct (ring_dequeue_ok s1 y [] Hs1) as (s2 & Hrun2 & Hs2 & Ez2 & Ef2 & _).
    destruct (IH s2 Hs2) as (s' & Hrun & Hs' & Ez & Ef). exists s'. split.
    { cbn [pass]. by rewrite (bind_Ok _ _ _ _ _ Hrun1), (bind_Ok _ _ _ _ _ Hrun2). }
    split; [done|]. split; [congruence|]. rewrite Ef, Ef2, Ef1. unfold u32. rewrite Zplus_mod_idemp_l. f_equal. lia.
Qed.

Lemma fill_ok l : ∀ s l0, ring_holds s l0 →
  Z.of_nat (length l0 + length l) ≤ m_queue_size s → front s + Z.of_nat (length l0 + length l) ≤ 2 ^ 32 →
  ∃ s', fill l s = Ok (tt, s') ∧ ring_holds s' (l0 ++ l) ∧ m_queue_size s' = m_queue_size s ∧ front s' = front s.
Proof.
  induction l as [|x l IH]; intros s l0 Hs Hz Hw; cbn [length] in *.
  - exists s. by rewrite app_nil_r.
  - destruct (ring_enqueue_ok s l0 x Hs) as (s1 & Hrun1 & Hs1 & Ez1 & Ef1); [lia|].
    rewrite (no_wrap_cells s l0 x Hs) in Hs1 by lia.
    destruct (IH s1 (l0 ++ [x]) Hs1) as (s' & Hrun & Hs' & Ez & Ef); [rewrite length_app; simpl; lia..|].
    exists s'. split; [cbn [fill]; by rewrite (bind_Ok _ _ _ _ _ Hrun1)|]. rewrite <- app_assoc in Hs'. split; [done|].
    split; congruence.
Qed.

Lemma drain_ok l : ∀ s, ring_holds s l → ∃ s', drain (length l) s = Ok (l, s').
Proof.
  induction l as [|x l IH]; intros s Hs; [by exists s|].
  destruct (ring_dequeue_ok s x l Hs) as (s1 & Hrun1 & Hs1 & _). destruct (IH s1 Hs1) as (s' & Hrun).
  exists s'. cbn [drain length]. by rewrite (bind_Ok _ _ _ _ _ Hrun1), (bind_Ok _ _ _ _ _ Hrun).
Qed.

(** The page put in as number 2^32 goes to cell 0, which the page [2^32 mod size]
    places before it has. *)
Lemma wrap_overwrite s l x :
  ring_holds s l → front s + Z.of_nat (length l) = 2 ^ 32 →
  2 ^ 32 mod m_queue_size s < Z.of_nat (length l) < m_queue_size s →
  overwrite s l x = <[(length l - Z.to_nat (2 ^ 32 mod m_queue_size s))%nat := x]> l.
Proof.
  intros [_ Hz Hr _ _ _] Hw Hl. set (size := m_queue_size s) in *. set (r := 2 ^ 32 mod size) in *.
  assert (0 ≤ r < size) as Hrr by (apply Z.mod_pos_bound; lia).
  assert (cell s (length l) = 0) as Ec.
  { unfold cell. rewrite Hw. change (u32 (2 ^ 32)) with 0. fold size. apply Z.mod_0_l. lia. }
  assert (∀ i, (i < length l)%nat → cell s i = 0 ↔ i = (length l - Z.to_nat r)%nat ∧ r ≠ 0) as Hcell.
  { intros i Hi. unfold cell. rewrite u32_id by lia. fold size.
    assert ((front s + Z.of_nat i) mod size = (r - Z.of_nat (length l - i)) mod size) as ->.
    { unfold r. rewrite Zminus_mod_idemp_l. f_equal. lia. }
    split.
    - intros E. apply Z.mod_divide in E as [c E]; [|lia]. assert (c = 0) by nia. lia.
    - intros [-> Hr0]. replace (Z.of_nat (length l - (length l - Z.to_nat r))) with r by lia.
      by rewrite Z.sub_diag, Z.mod_0_l by lia. }
  apply list_eq. intros i. unfold overwrite. rewrite list_lookup_imap, list_lookup_insert, Ec.
  destruct (l !! i) as [y|] eqn:E.
  - pose proof (lookup_lt_Some _ _ _ E) as Hi. simpl. specialize (Hcell i Hi).
    destruct (decide (cell s i = 0)) as [E0|E0].
    + apply Hcell in E0 as [-> _]. by rewrite decide_True.
    + rewrite decide_False; [done|]. intros [Ei _]. apply E0, Hcell. lia.
  - apply lookup_ge_None in E. rewrite decide_False; [done|]. lia.
Qed.

(** C24. The counters of the ring have 32 bits and its size need not divide 2^32.
    The 2^32nd page put into a ring that holds more than [2^32 mod size] pages
    (4096 of the port's 7680) overwrites one that is still there: from then on
    the ring gives the new page twice, and the page it had never again, so that
    page is never evicted. *)
Theorem ring_wrap_overwrites size k y l x :
  0 < size < 2 ^ 31 → Z.of_nat k + Z.of_nat (length l) = 2 ^ 32 →
  2 ^ 32 mod size < Z.of_nat (length l) < size →
  ∃ s, (pass k y;; fill l;; _ ← used_enqueue x; drain (S (length l))) (UsedPagesQueue_ctor size 0) =
    Ok (<[(length l - Z.to_nat (2 ^ 32 mod size))%nat := x]> l ++ [x], s).
Proof.
  intros Hz Hk Hl. pose proof (Z.mod_pos_bound (2 ^ 32) size ltac:(lia)) as Hr.
  assert (ring_holds (UsedPagesQueue_ctor size 0) []) as Hempty.
  { constructor; cbn; [done|done|lia|split; [done|lia]| |].
    - intros i Hi. by rewrite array_lookup.
    - intros i z. by rewrite lookup_nil. }
  destruct (pass_ok k y _ Hempty) as (s1 & Hrun1 & Hs1 & Ez1 & Ef1). cbn in Ez1, Ef1.
  rewrite u32_id in Ef1 by lia.
  destruct (fill_ok l s1 [] Hs1) as (s2 & Hrun2 & Hs2 & Ez2 & Ef2); [cbn [length]; lia..|]. cbn [app] in Hs2.
  destruct (ring_enqueue_ok s2 l x Hs2) as (s3 & Hrun3 & Hs3 & Ez3 & _); [lia|].
  assert (m_queue_size s2 = size) as Es by congruence.
  rewrite (wrap_overwrite s2 l x Hs2), Es in Hs3 by (rewrite ?Es; lia).
  destruct (drain_ok _ s3 Hs3) as (s4 & Hrun4). rewrite length_app, length_insert in Hrun4. simpl in Hrun4.
  rewrite Nat.add_1_r in Hrun4. exists s4.
  by rewrite (bind_Ok _ _ _ _ _ Hrun1), (bind_Ok _ _ _ _ _ Hrun2), (bind_Ok _ _ _ _ _ Hrun3).
Qed.
End ring.

(** The port's ring, with 4097 pages in it when the counter wraps. *)
Lemma ring_wrap_overwrites_witness :
  2 ^ 32 mod CACHE_CAPACITY = 4096 ∧
  ∃ k s, (pass k 3;; fill (replicate 4097 5);; _ ← used_enqueue 9; drain 4098) (UsedPagesQueue_ctor CACHE_CAPACITY 0) =
    Ok (<[1%nat := 9]> (replicate 4097 5) ++ [9], s).
Proof.
  split; [vm_compute; reflexivity|]. exists (Z.to_nat (2 ^ 32 - 4097)).
  destruct (ring_wrap_overwrites CACHE_CAPACITY (Z.to_nat (2 ^ 32 - 4097)) 3 (replicate 4097 5) 9) as [s Hs].
  - vm_compute. split; reflexivity.
  - rewrite length_replicate, Z2Nat.id by lia. vm_compute. reflexivity.
  - rewrite length_replicate. vm_compute. split; reflexivity.
  - exists s. rewrite length_replicate in Hs. exact Hs.
Defined.
