(* ===== verification/WinLib.v ===== *)
(** * The Windows port's allocator and comparisons

    [src/win/SUVM/suvm_lib/mem.cpp] is the original's [mem.cpp], locked with the
    SDK's lock; [Aptr.h] there compares pointers by their pages only. *)

From S2P Require Import Prelude Memory Mem5 WinSync.
From S2P Require Import Suvm SuvmInv Aptr.

(** ** The allocator *)

(** [Mem5Global], whose lock is unsigned here, and the pool. *)
Definition heap : Type := Mem5.heap.

(** What does not take the lock is the original's. *)
Definition memsys5Unlink : Z → Z → M heap unit := Mem5.memsys5Unlink.
Definition memsys5Link : Z → Z → M heap unit := Mem5.memsys5Link.
Definition memsys5Size : Z → M heap Z := Mem5.memsys5Size.
Definition memsys5MallocUnsafe : Z → M heap Z := Mem5.memsys5MallocUnsafe.
Definition memsys5FreeUnsafe : Z → M heap unit := Mem5.memsys5FreeUnsafe.
Definition memsys5Roundup : Z → M heap Z := Mem5.memsys5Roundup.
Definition memsys5Log : Z → M heap Z := Mem5.memsys5Log.
Definition memsys5Init : Z → Z → Z → M heap Z := Mem5.memsys5Init.
Definition memsys5Shutdown : M heap unit := Mem5.memsys5Shutdown.

Section port.
Context `{SgxSpin}.

Definition on_mem_lock {A} (m : M Z A) : M heap A :=
  zoom (mem_lock ∘ mem5) (λ w, set_mem5 (with_lock w)) m.

Definition memsys5Enter : M heap unit := on_mem_lock spin_lock.
Definition memsys5Leave : M heap unit := on_mem_lock spin_unlock.

Definition memsys5Malloc (nBytes : Z) : M heap Z :=
  if 0 <? nBytes then
    memsys5Enter;;
    p ← memsys5MallocUnsafe nBytes;
    memsys5Leave;;
    mret p
  else mret 0.

Definition memsys5Free (pPrior : Z) : M heap unit :=
  massert (negb (pPrior =? 0));;
  memsys5Enter;;
  memsys5FreeUnsafe pPrior;;
  memsys5Leave.

Definition memsys5Realloc (pPrior nBytes : Z) : M heap Z :=
  massert (negb (pPrior =? 0));;
  massert (Z.land nBytes (nBytes - 1) =? 0);;
  massert (0 <=? nBytes);;
  if nBytes =? 0 then mret 0
  else
    nOld ← memsys5Size pPrior;
    if nBytes <=? nOld then mret pPrior
    else
      p ← memsys5Malloc nBytes;
      (if negb (p =? 0) then
         modify (set_ram (λ m, store_bytes m p (load_bytes m pPrior (Z.to_nat nOld))));;
         memsys5Free pPrior
       else mret tt);;
      mret p.
End port.

(** ** The comparisons *)

Definition op_eq (p lhs : Aptr) : bool := m_base_page_index lhs =? m_base_page_index p.
Definition op_ne (p lhs : Aptr) : bool := negb (m_base_page_index lhs =? m_base_page_index p).

(** ** Theorems *)

Section laws.
Context `{SgxSpinLaws}.

Lemma bind_ext {S A B} (m m' : M S A) (k k' : A → M S B) s :
  (∀ s, m s = m' s) → (∀ a s, k a s = k' a s) → (m ≫= k) s = (m' ≫= k') s.
Proof. intros Hm Hk. unfold mbind, M_bind. rewrite Hm. destruct (m' s) as [[a s']|e]; [apply Hk|done]. Qed.

Lemma enter_original s : memsys5Enter s = Mem5.memsys5Enter s.
Proof.
  unfold memsys5Enter, on_mem_lock, Mem5.memsys5Enter, zoom. rewrite sgx_lock_eq.
  unfold SyncUtils.spin_lock. rewrite !bind_gets. cbn [id]. by destruct ((mem_lock ∘ mem5) s =? 0).
Qed.

Lemma leave_original s : memsys5Leave s = Mem5.memsys5Leave s.
Proof. unfold memsys5Leave, on_mem_lock, zoom. by rewrite sgx_unlock_eq. Qed.

Lemma malloc_original n s : memsys5Malloc n s = Mem5.memsys5Malloc n s.
Proof.
  unfold memsys5Malloc, Mem5.memsys5Malloc. destruct (0 <? n); [|done].
  apply bind_ext; [apply enter_original|]. intros _ s1. apply bind_ext; [done|]. intros p s2.
  by apply bind_ext; [apply leave_original|].
Qed.

Lemma free_original p s : memsys5Free p s = Mem5.memsys5Free p s.
Proof.
  apply bind_ext; [done|]. intros _ s1. apply bind_ext; [apply enter_original|]. intros _ s2.
  apply bind_ext; [done|]. intros _ s3. apply leave_original.
Qed.

(** The port's allocator is the original, heap for heap and failure for
    failure: what is proved of the one holds of the other. *)
Theorem port_allocator_original p n s :
  memsys5Malloc n s = Mem5.memsys5Malloc n s ∧ memsys5Free p s = Mem5.memsys5Free p s ∧
  memsys5Realloc p n s = Mem5.memsys5Realloc p n s.
Proof.
  split; [apply malloc_original|]. split; [apply free_original|].
  apply bind_ext; [done|]. intros _ s1. apply bind_ext; [done|]. intros _ s2. apply bind_ext; [done|]. intros _ s3.
  destruct (n =? 0); [done|]. apply bind_ext; [done|]. intros nOld s4. destruct (n <=? nOld); [done|].
  apply bind_ext; [apply malloc_original|]. intros q s5. apply bind_ext; [|done]. intros s6.
  destruct (negb (q =? 0)); [|done]. apply bind_ext; [done|]. intros _ s7. apply free_original.
Qed.
End laws.

(** The comparisons of two pointers just made: they tell the pages apart, and
    nothing within a page. *)
Theorem port_comparison `{Sgx} s P Q size size' :
  geometry s → 0 ≤ P < 2 ^ 31 → 0 ≤ Q < 2 ^ 31 → g_base_pool_ptr s + P < 2 ^ 63 → g_base_pool_ptr s + Q < 2 ^ 63 →
  ∃ p q, Aptr_ctor (g_base_pool_ptr s + P) size s = Ok (p, s) ∧
    Aptr_ctor (g_base_pool_ptr s + Q) size' s = Ok (q, s) ∧
    (op_eq p q = true ↔ P `div` PAGE_SIZE = Q `div` PAGE_SIZE) ∧ op_ne p q = negb (op_eq p q).
Proof.
  intros Hg HP HQ HPb HQb.
  destruct (Aptr_ctor_ok s P size Hg HP HPb) as (p & Hrun & _ & _ & Ep & _).
  destruct (Aptr_ctor_ok s Q size' Hg HQ HQb) as (q & Hrun' & _ & _ & Eq & _).
  exists p, q. split; [rewrite <- bind_ret_r; apply Hrun|]. split; [rewrite <- bind_ret_r; apply Hrun'|].
  split; [|done]. unfold op_eq. rewrite Z.eqb_eq, Ep, Eq. split; congruence.
Qed.
