(* ===== verification/WinSuvm.v ===== *)
(** * The paging layer of the Windows port

    Models [src/win/SUVM/suvm_lib/Aptr.cpp] and the [Aptr.h] there: the paging
    layer over the port's page cache, crypto cache and locks, with a cache of 30
    MB.  Nothing is pinned, no fault is counted, and the counter of dereferences
    for writing has the 32 bits of a Windows [unsigned long]. *)

From S2P Require Import Prelude Memory Mem5 WinSync Suvm Aptr.
From S2P Require PageCache CryptoCache WinPageCache WinCryptoCache WinLib.

(** [#define CACHE_SIZE 31457280] *)
Definition win_build : Build := {| CACHE_SIZE := 31457280 |}.
Definition WIN_CACHE_CAPACITY : Z := 31457280 / PAGE_SIZE.
Definition WIN_EVICT_FUEL : nat := Z.to_nat WIN_CACHE_CAPACITY.
#[global] Arguments WIN_EVICT_FUEL : simpl never.

Record wsuvm := mkWsuvm {
  wl1 : WinPageCache.PageCache;
  wllc : WinCryptoCache.CryptoCache;
  wfree : list Z;                      (* g_free_epc_pages, its back first *)
  wfree_lock : Z;
  wepc_arr : gmap Z Z;
  wprm : memory;
  wpool : heap;
  wbase_pool_ptr : Z;
  wpool_size : Z;
  wslab : Z;
  weviction_key : list Z;
  wdraws : nat;
  wdirty : Z;
  wis_initialized : bool
}.

Section setters.
Context (s : wsuvm).
Definition set_wl1 c := mkWsuvm c (wllc s) (wfree s) (wfree_lock s) (wepc_arr s) (wprm s) (wpool s)
  (wbase_pool_ptr s) (wpool_size s) (wslab s) (weviction_key s) (wdraws s) (wdirty s) (wis_initialized s).
Definition set_wllc c := mkWsuvm (wl1 s) c (wfree s) (wfree_lock s) (wepc_arr s) (wprm s) (wpool s)
  (wbase_pool_ptr s) (wpool_size s) (wslab s) (weviction_key s) (wdraws s) (wdirty s) (wis_initialized s).
Definition set_wfree f l := mkWsuvm (wl1 s) (wllc s) f l (wepc_arr s) (wprm s) (wpool s)
  (wbase_pool_ptr s) (wpool_size s) (wslab s) (weviction_key s) (wdraws s) (wdirty s) (wis_initialized s).
Definition set_wepc a := mkWsuvm (wl1 s) (wllc s) (wfree s) (wfree_lock s) a (wprm s) (wpool s)
  (wbase_pool_ptr s) (wpool_size s) (wslab s) (weviction_key s) (wdraws s) (wdirty s) (wis_initialized s).
Definition set_wprm m := mkWsuvm (wl1 s) (wllc s) (wfree s) (wfree_lock s) (wepc_arr s) m (wpool s)
  (wbase_pool_ptr s) (wpool_size s) (wslab s) (weviction_key s) (wdraws s) (wdirty s) (wis_initialized s).
Definition set_wpool h := mkWsuvm (wl1 s) (wllc s) (wfree s) (wfree_lock s) (wepc_arr s) (wprm s) h
  (wbase_pool_ptr s) (wpool_size s) (wslab s) (weviction_key s) (wdraws s) (wdirty s) (wis_initialized s).
Definition set_wdraws n := mkWsuvm (wl1 s) (wllc s) (wfree s) (wfree_lock s) (wepc_arr s) (wprm s) (wpool s)
  (wbase_pool_ptr s) (wpool_size s) (wslab s) (weviction_key s) n (wdirty s) (wis_initialized s).
(** [g_dirty++] *)
Definition wcount_dirty := mkWsuvm (wl1 s) (wllc s) (wfree s) (wfree_lock s) (wepc_arr s) (wprm s) (wpool s)
  (wbase_pool_ptr s) (wpool_size s) (wslab s) (weviction_key s) (wdraws s) (u32 (wdirty s + 1)) (wis_initialized s).
End setters.

Definition on_wl1 {A} (m : M WinPageCache.PageCache A) : M wsuvm A := zoom wl1 (λ c s, set_wl1 s c) m.
Definition on_wllc {A} (m : M WinCryptoCache.CryptoCache A) : M wsuvm A := zoom wllc (λ c s, set_wllc s c) m.
Definition on_wfree_lock {A} (m : M Z A) : M wsuvm A := zoom wfree_lock (λ w s, set_wfree s (wfree s) w) m.
Definition on_wpool {A} (m : M heap A) : M wsuvm A := zoom wpool (λ h s, set_wpool s h) m.

Definition win_read_slot `{Sgx} (prm_ptr : Z) : M wsuvm Z :=
  if prm_ptr =? DUMMY then mret dummy_word else v ← gets (λ s, wepc_arr s !! prm_ptr); defined v.
Definition win_write_slot (prm_ptr v : Z) : M wsuvm unit :=
  if prm_ptr =? DUMMY then fail EUndef
  else
    o ← gets (λ s, wepc_arr s !! prm_ptr);
    _ ← defined o;
    modify (λ s, set_wepc s (<[prm_ptr := v]> (wepc_arr s))).
Definition win_ram_page_ptr (s : wsuvm) (page_index : Z) : Z :=
  wbase_pool_ptr s + i32 (page_index * PAGE_SIZE).

Section paging.
Context `{SgxSpin, Sgx}.

Definition win_push_free (prm_ptr : Z) : M wsuvm unit :=
  on_wfree_lock spin_lock;;
  modify (λ s, set_wfree s (prm_ptr :: wfree s) (wfree_lock s));;
  on_wfree_lock spin_unlock.

(** The dirty branch of [try_evict_page]. *)
Definition win_write_back (page_index slot v : Z) : M wsuvm unit :=
  let prm_addr := clean v in
  win_write_slot slot prm_addr;;
  _ ← on_wllc (WinCryptoCache.crypto_add page_index);
  n ← gets (λ s, read_rand (wdraws s) (Z.to_nat CryptoCache.NONCE_BYTE_SIZE));
  modify (λ s, set_wdraws s (S (wdraws s)));;
  r ← gets (λ s, gcm_encrypt (weviction_key s) (load_bytes (wprm s) prm_addr PAGE_BYTES) n);
  match r with
  | None => fail EAbort
  | Some (c, mac) =>
      modify (λ s, set_wpool s (set_ram (λ m, store_bytes m (win_ram_page_ptr s page_index) c) (wpool s)));;
      on_wllc (WinCryptoCache.crypto_store page_index n mac)
  end.

Definition win_try_evict_page (pce : PageCache.item_t) : M wsuvm Z :=
  let page_index := PageCache.page_index pce in
  let slot := PageCache.epc pce in
  v ← win_read_slot slot;
  (if Z.land v 1 =? 1 then win_write_back page_index slot v else mret tt);;
  _ ← on_wl1 (WinPageCache.remove page_index);
  win_push_free slot;;
  mret 0.

(** "only up to 10 threads in the system" *)
Definition win_make_room : M wsuvm unit :=
  n ← gets (λ s, WinPageCache.m_page_cache_size (wl1 s));
  if WIN_CACHE_CAPACITY - 10 <=? n then
    page_to_evict ← on_wl1 (WinPageCache.get_page_index_to_evict WIN_EVICT_FUEL);
    _ ← win_try_evict_page page_to_evict;
    mret tt
  else mret tt.

Definition win_pop_free : M wsuvm Z :=
  on_wfree_lock spin_lock;;
  f ← gets wfree;
  match f with
  | [] => fail EAbort
  | slot :: f' =>
      modify (λ s, set_wfree s f' (wfree_lock s));;
      on_wfree_lock spin_unlock;;
      mret slot
  end.

Definition win_page_in (page_index slot : Z) : M wsuvm unit :=
  crypto_item ← on_wllc (WinCryptoCache.crypto_get page_index);
  match crypto_item with
  | None => mret tt
  | Some it =>
      epc_ptr ← win_read_slot slot;
      r ← gets (λ s, gcm_decrypt (weviction_key s)
            (load_bytes (ram (wpool s)) (win_ram_page_ptr s page_index) PAGE_BYTES)
            (CryptoCache.nonce it) (CryptoCache.mac_ptr it));
      match r with
      | None => fail EAbort
      | Some p => modify (λ s, set_wprm s (store_bytes (wprm s) epc_ptr p))
      end
  end.

Definition win_install (page_index slot : Z) : M wsuvm Z :=
  added ← on_wl1 (WinPageCache.try_add page_index slot);
  if (added : bool) then mret slot
  else
    found ← on_wl1 (WinPageCache.get page_index);
    match found with
    | None => fail EAbort
    | Some it => win_push_free slot;; mret (PageCache.epc it)
    end.

Definition win_page_fault (a : aptr_t) (base_page_index : Z) : M wsuvm aptr_t :=
  let tmp_page := Z.shiftr (offset a) PAGE_SIZE_LOG in
  v ← win_read_slot (prm_ptr a);
  (if v =? 0 then mret tt
   else on_wl1 (WinPageCache.dec_ref_count (i32 (base_page_index + page a))));;
  let tmp_offset := Z.land (offset a) PAGE_BITS_MASK in
  let real_page := i32 (page a + tmp_page) in
  let page_index := i32 (base_page_index + real_page) in
  on_wl1 (WinPageCache.inc_ref_count page_index);;
  it ← on_wl1 (WinPageCache.get page_index);
  match it with
  | Some it => mret (mkAptr (PageCache.epc it) real_page tmp_offset (hint_write a))
  | None =>
      win_make_room;;
      slot ← win_pop_free;
      win_page_in page_index slot;;
      slot' ← win_install page_index slot;
      mret (mkAptr slot' real_page tmp_offset (hint_write a))
  end.

Definition win_deref (a : aptr_t) (base_page_index : Z) : M wsuvm (Z * aptr_t) :=
  a ← (if ISVALID (offset a) then mret a else win_page_fault a base_page_index);
  v ← win_read_slot (prm_ptr a);
  (if hint_write a then
     massert (negb (v =? 0));;
     modify wcount_dirty;;
     win_write_slot (prm_ptr a) (dirty v)
   else mret tt);;
  mret (clean v + offset a, a).

(** ** Pointers *)

Definition win_Aptr_ctor (ram_ptr size : Z) : M wsuvm Aptr :=
  base ← gets wbase_pool_ptr;
  let d := i64 (ram_ptr - base) in
  let a := mkAptr DUMMY (-1) (i32 (Z.land d PAGE_BITS_MASK + PAGE_SIZE)) false in
  let base_page_index := i32 (Z.shiftr d PAGE_SIZE_LOG) in
  massert (0 <=? base_page_index);;
  mret (mkAptrC a base_page_index size).

Definition win_reset (p : Aptr) : M wsuvm Aptr :=
  let nulled := mkAptrC (mkAptr DUMMY (page (m_aptr p)) (offset (m_aptr p)) (hint_write (m_aptr p)))
    (-1) (m_size p) in
  if m_base_page_index p <? 0 then mret nulled
  else
    v ← win_read_slot (prm_ptr (m_aptr p));
    (if v =? 0 then mret tt
     else on_wl1 (WinPageCache.dec_ref_count (i32 (m_base_page_index p + page (m_aptr p)))));;
    mret nulled.

Definition win_assign (p : Aptr) (aptr : option Aptr) : M wsuvm Aptr :=
  p ← win_reset p;
  mret (do_copy (default p aptr)).

Definition win_star (p : Aptr) : M wsuvm (Z * Aptr) :=
  r ← win_deref (m_aptr p) (m_base_page_index p);
  mret (r.1, on_aptr (λ _, r.2) p).

Definition win_in_slab (s : wsuvm) (addr : Z) : bool :=
  (wslab s <=? addr) && (addr <? wslab s + WIN_CACHE_CAPACITY * PAGE_SIZE).
Definition win_load_prm (addr : Z) : M wsuvm Z :=
  s ← gets id;
  if win_in_slab s addr then mret (rd8 (wprm s) addr) else fail EUndef.
Definition win_store_prm (addr v : Z) : M wsuvm unit :=
  s ← gets id;
  if win_in_slab s addr then modify (λ s, set_wprm s (wr8 (wprm s) addr v)) else fail EUndef.

(** ** Initialisation *)

Fixpoint win_slab_loop (n : nat) (i : Z) : M wsuvm unit :=
  match n with
  | O => mret tt
  | S n' =>
      p ← gets (λ s, wslab s + i * PAGE_SIZE);
      modify (λ s, set_wepc s (<[i := p]> (wepc_arr s)));;
      massert (negb (p =? 0));;
      modify (λ s, set_wfree s (i :: wfree s) (wfree_lock s));;
      win_slab_loop n' (i + 1)
  end.

(** The swap thread is never made. *)
Definition create_swap_thread : M wsuvm Z := mret 0.

(** [memory] and [cmemory] are what the buckets of the two tables were made
    of. *)
Definition win_initialize_aptr (ptr_pool pool_size : Z) (slab_ptr garbage : Z) (memory cmemory : Z → Z) : M wsuvm Z :=
  s ← gets id;
  massert (negb (wis_initialized s || (ptr_pool =? 0)));;
  modify (λ s, mkWsuvm
    (WinPageCache.cache_init (WIN_CACHE_CAPACITY * 10) (pool_size / PAGE_SIZE) WIN_CACHE_CAPACITY garbage memory)
    (WinCryptoCache.crypto_init LLC_CAPACITY cmemory) (wfree s) (wfree_lock s)
    ∅ (wprm s) (wpool s) ptr_pool pool_size (Z.land slab_ptr (Z.lnot 0xFFF))
    (weviction_key s) (wdraws s) (wdirty s) (wis_initialized s));;
  win_slab_loop (Z.to_nat WIN_CACHE_CAPACITY) 0;;
  rc ← on_wpool (WinLib.memsys5Init ptr_pool pool_size MN_REQ);
  massert (rc =? 0);;
  modify (λ s, mkWsuvm (wl1 s) (wllc s) (wfree s) (wfree_lock s)
    (wepc_arr s) (wprm s) (wpool s) (wbase_pool_ptr s) (wpool_size s) (wslab s)
    (read_rand (wdraws s) 16) (S (wdraws s)) (wdirty s) (wis_initialized s));;
  rc ← create_swap_thread;
  massert (rc =? 0);;
  modify (λ s, mkWsuvm (wl1 s) (wllc s) (wfree s) (wfree_lock s)
    (wepc_arr s) (wprm s) (wpool s) (wbase_pool_ptr s) (wpool_size s) (wslab s)
    (weviction_key s) (wdraws s) (wdirty s) true);;
  mret 0.
End paging.
