(* ===== verification/WinSuvmThms.v ===== *)
(** * The paging layer of the Windows port against the original

    Every operation of the port's paging layer, and every command over pointers,
    agrees with the original's, built with the port's cache of 30 MB: it returns
    the same or fails in the same way, on states that stay related, as long as
    the 32-bit counters of the port's ring have not wrapped. *)

From S2P Require Import Prelude Memory SyncUtils Ring Mem5 Agree Suvm SuvmInv SuvmProofs SuvmThms Aptr AptrThms AptrClient.
From S2P Require PageCache CryptoCache WinSync WinPageCache WinCacheThms WinCryptoCache WinLib.
From S2P Require Import WinSuvm.

#[local] Opaque EVICT_FUEL WIN_EVICT_FUEL CACHE_CAPACITY WIN_CACHE_CAPACITY PAGE_BYTES.

Lemma same_capacity : CACHE_CAPACITY (Bld := win_build) = WIN_CACHE_CAPACITY.
Proof. reflexivity. Qed.
Lemma same_fuel : EVICT_FUEL (Bld := win_build) = WIN_EVICT_FUEL.
Proof. reflexivity. Qed.
Lemma fuel_turns : Z.of_nat WIN_EVICT_FUEL = 7680.
Proof. reflexivity. Qed.

(** Related states: the tables agree, the rest but the counters is the same, and
    the ring can take [n] more insertions. *)
Inductive paging_rel (n : Z) : wsuvm → suvm → Prop :=
  | paging_rel_intro c d k k' f l e m h b z sl key dr wd pc dc i :
      WinCacheThms.ported n c d → WinCryptoCache.cported k k' →
      paging_rel n (mkWsuvm c k f l e m h b z sl key dr wd i) (mkSuvm d k' f l e m h b z sl key dr pc dc i).

Lemma paging_less n n' w s : paging_rel n w s → n' ≤ n → paging_rel n' w s.
Proof. intros [] Hn. constructor; [by eapply WinCacheThms.ported_less|done]. Qed.

(** ** Programs over pointers on the port *)

Section run.
Context `{WinSync.SgxSpin, Sgx}.

Definition win_store : Type := wsuvm * gmap nat Aptr.

Definition on_wsuvm {A} (m : M wsuvm A) : M win_store A := zoom fst (λ s st, (s, st.2)) m.
Definition win_var (x : nat) : M win_store Aptr := o ← gets (λ st, st.2 !! x); defined o.
Definition win_set_var (x : nat) (p : Aptr) : M win_store unit := modify (λ st, (st.1, <[x := p]> st.2)).
Definition win_drop_var (x : nat) : M win_store unit := modify (λ st, (st.1, delete x st.2)).

Definition win_run_cmd (c : cmd) : M win_store (list Z) :=
  match c with
  | New x P sz =>
      p ← on_wsuvm (base ← gets wbase_pool_ptr; win_Aptr_ctor (base + P) sz);
      win_set_var x p;; mret []
  | Copy x y => p ← win_var y; win_set_var x (do_copy p);; mret []
  | Assign x y =>
      p ← win_var x; q ← win_var y;
      r ← on_wsuvm (win_assign p (if decide (x = y) then None else Some q));
      win_set_var x r;; mret []
  | Advance x n => p ← win_var x; win_set_var x (plus_eq 1 n p);; mret []
  | Load x =>
      p ← win_var x;
      r ← on_wsuvm (r ← win_star p; v ← win_load_prm r.1; mret (v, r.2));
      win_set_var x r.2;; mret [r.1]
  | Store x v =>
      p ← win_var x;
      p' ← on_wsuvm (r ← win_star (set_hint true p); win_store_prm r.1 v;; mret r.2);
      win_set_var x p';; mret []
  | Drop x => p ← win_var x; _ ← on_wsuvm (win_reset p); win_drop_var x;; mret []
  end.

End run.

(** The insertions into the ring a command can make: a fault enters a page, and
    may pass the ring once to find one to evict. *)
Definition cmd_insertions (c : cmd) : Z := match c with Load _ | Store _ _ => 7681 | _ => 0 end.

(** The original's globals beside the port's: what they hold before
    initialisation does not matter. *)
Definition beside (w : wsuvm) : suvm :=
  mkSuvm (PageCache.cache_init 0 0 1 0) (CryptoCache.crypto_init 0) (wfree w) (wfree_lock w) (wepc_arr w) (wprm w)
    (wpool w) (wbase_pool_ptr w) (wpool_size w) (wslab w) (weviction_key w) (wdraws w) 0 (wdirty w) (wis_initialized w).

(** One step of two routines of one shape. *)
Ltac agree_step :=
  match goal with
  | |- agree _ _ _ (mret _) (mret _) => by apply agree_ret
  | |- agree _ _ _ (fail _) (fail _) => apply agree_fail
  | |- agree (paging_rel ?n) _ _ (_ ≫= _) (_ ≫= _) =>
      apply (agree_bind _ (paging_rel n) _ eq); [|intros ? ? <-]
  end.
Ltac values := apply agree_gets; by intros ? ? [].
Ltac changes := apply agree_modify; intros ? ? []; by constructor.

Definition stores_rel (n : Z) (w : win_store) (s : store) : Prop := paging_rel n w.1 s.1 ∧ w.2 = s.2.

Ltac cmd_step n := apply (agree_bind _ (stores_rel n) _ eq); [|intros ? ? <-].
Ltac cmd_ret := by apply agree_ret.

Section agreement.
Context `{HL : WinSync.SgxSpinLaws} `{HS : Sgx}.

Lemma paging_more {A} n n' n'' (V : A → A → Prop) (m : M wsuvm A) m' :
  agree (paging_rel n) (paging_rel n') V m m' → n'' ≤ n' → agree (paging_rel n) (paging_rel n'') V m m'.
Proof. intros Hm Hn. eapply agree_weaken; [exact Hm|done|]. intros s t Hst. by eapply paging_less. Qed.

Lemma on_l1_agree {A} n n' (m : M WinPageCache.PageCache A) m' :
  agree (WinCacheThms.ported n) (WinCacheThms.ported n') eq m m' →
  agree (paging_rel n) (paging_rel n') eq (on_wl1 m) (on_l1 m').
Proof.
  intros Hm. eapply agree_zoom; [exact Hm|by intros w s []|]. intros w s c d [] Hcd. by constructor.
Qed.
Lemma on_llc_agree {A} n (m : M WinCryptoCache.CryptoCache A) m' :
  agree WinCryptoCache.cported WinCryptoCache.cported eq m m' →
  agree (paging_rel n) (paging_rel n) eq (on_wllc m) (on_llc m').
Proof.
  intros Hm. eapply agree_zoom; [exact Hm|by intros w s []|]. intros w s c d [] Hcd. by constructor.
Qed.
Lemma free_lock_agree n (m m' : M Z unit) :
  (∀ w, m w = m' w) → agree (paging_rel n) (paging_rel n) eq (on_wfree_lock m) (on_free_lock m').
Proof.
  intros Hm. eapply (agree_zoom _ _ eq eq); [|by intros w s []|intros w s a b [] ->; by constructor].
  intros a b ->. rewrite Hm. by destruct (m' b) as [[]|].
Qed.

Lemma read_slot_agree n i : agree (paging_rel n) (paging_rel n) eq (win_read_slot i) (read_slot i).
Proof.
  unfold win_read_slot, read_slot. destruct (i =? DUMMY); [agree_step|]. agree_step; [values|].
  apply agree_defined. by destruct (_ : option Z); constructor.
Qed.
Lemma write_slot_agree n i v : agree (paging_rel n) (paging_rel n) eq (win_write_slot i v) (write_slot i v).
Proof.
  unfold win_write_slot, write_slot. destruct (i =? DUMMY); [agree_step|]. agree_step; [values|].
  agree_step; [apply agree_defined; by destruct (_ : option Z); constructor|changes].
Qed.
Lemma push_free_agree n i : agree (paging_rel n) (paging_rel n) eq (win_push_free i) (push_free i).
Proof.
  unfold win_push_free, push_free. agree_step; [apply free_lock_agree, WinSync.sgx_lock_eq|].
  agree_step; [changes|]. apply free_lock_agree, WinSync.sgx_unlock_eq.
Qed.

Lemma write_back_agree n p i v : agree (paging_rel n) (paging_rel n) eq (win_write_back p i v) (write_back p i v).
Proof.
  unfold win_write_back, write_back. cbv zeta. agree_step; [apply write_slot_agree|].
  agree_step; [apply on_llc_agree, WinCryptoCache.crypto_add_agree|]. agree_step; [values|]. agree_step; [changes|].
  agree_step; [values|]. case_match; [|agree_step]. case_match. agree_step; [changes|].
  apply on_llc_agree, WinCryptoCache.crypto_store_agree.
Qed.

Lemma try_evict_agree n it : agree (paging_rel n) (paging_rel n) eq (win_try_evict_page it) (try_evict_page it).
Proof.
  unfold win_try_evict_page, try_evict_page. agree_step; [apply read_slot_agree|].
  agree_step; [destruct (_ =? 1); [apply write_back_agree|agree_step]|].
  agree_step; [apply on_l1_agree, WinCacheThms.remove_agree|]. agree_step; [apply push_free_agree|agree_step].
Qed.

Lemma make_room_agree n :
  0 ≤ n → agree (paging_rel (n + 7680)) (paging_rel n) eq win_make_room (make_room (Bld := win_build)).
Proof.
  intros Hn. unfold win_make_room, make_room. rewrite same_capacity, same_fuel.
  change MAX_NUM_OF_THREADS_OPTIMIZATION with 10.
  agree_step; [apply agree_gets; by intros ? ? [? ? ? ? ? ? ? ? ? ? ? ? ? ? ? ? ? ? [-> _ _ _] _]|].
  destruct (_ <=? _); [|apply (paging_more _ (n + 7680)); [agree_step|lia]].
  apply (agree_bind _ (paging_rel n) _ eq).
  - apply on_l1_agree. rewrite <- fuel_turns. by apply WinCacheThms.evict_agree.
  - intros it _ <-. agree_step; [apply try_evict_agree|agree_step].
Qed.

Lemma pop_free_agree n : agree (paging_rel n) (paging_rel n) eq win_pop_free pop_free.
Proof.
  unfold win_pop_free, pop_free. agree_step; [apply free_lock_agree, WinSync.sgx_lock_eq|]. agree_step; [values|].
  case_match; [agree_step|]. agree_step; [changes|]. agree_step; [apply free_lock_agree, WinSync.sgx_unlock_eq|agree_step].
Qed.

Lemma page_in_agree n p i : agree (paging_rel n) (paging_rel n) eq (win_page_in p i) (page_in p i).
Proof.
  unfold win_page_in, page_in. agree_step; [apply on_llc_agree, WinCryptoCache.crypto_get_agree|].
  case_match; [|agree_step]. agree_step; [apply read_slot_agree|]. agree_step; [values|].
  case_match; [changes|agree_step].
Qed.

Lemma install_agree n p i :
  0 ≤ n → agree (paging_rel (n + 1)) (paging_rel n) eq (win_install p i) (install p i).
Proof.
  intros Hn. unfold win_install, install.
  apply (agree_bind _ (paging_rel n) _ eq); [by apply on_l1_agree, WinCacheThms.try_add_agree|intros added _ <-].
  destruct added; [agree_step|]. agree_step; [apply on_l1_agree, WinCacheThms.get_agree|].
  case_match; [|agree_step]. agree_step; [apply push_free_agree|agree_step].
Qed.

Lemma page_fault_agree n a base :
  0 ≤ n → agree (paging_rel (n + 7681)) (paging_rel n) eq (win_page_fault a base) (page_fault (Bld := win_build) a base).
Proof.
  intros Hn. unfold win_page_fault, page_fault. cbv zeta.
  apply (agree_step_r _ (paging_rel (n + 7681)) _ _ _ tt).
  { intros w s []. eexists. split; [reflexivity|]. by constructor. }
  agree_step; [apply read_slot_agree|].
  agree_step; [destruct (_ =? 0); [agree_step|apply on_l1_agree, WinCacheThms.bump_agree]|].
  agree_step; [apply on_l1_agree, WinCacheThms.bump_agree|].
  agree_step; [apply on_l1_agree, WinCacheThms.get_agree|].
  case_match; [apply (paging_more _ (n + 7681)); [agree_step|lia]|].
  apply (agree_bind _ (paging_rel (n + 1)) _ eq).
  { replace (n + 7681) with (n + 1 + 7680) by lia. apply make_room_agree. lia. }
  intros _ _ _. agree_step; [apply pop_free_agree|]. agree_step; [apply page_in_agree|].
  apply (agree_bind _ (paging_rel n) _ eq); [by apply install_agree|intros slot _ <-]. agree_step.
Qed.

Lemma deref_agree n a base :
  0 ≤ n → agree (paging_rel (n + 7681)) (paging_rel n) eq (win_deref a base) (deref (Bld := win_build) a base).
Proof.
  intros Hn. unfold win_deref, deref. apply (agree_bind _ (paging_rel n) _ eq).
  { destruct (ISVALID _); [apply (paging_more _ (n + 7681)); [agree_step|lia]|by apply page_fault_agree]. }
  intros a' _ <-. agree_step; [apply read_slot_agree|]. agree_step; [|agree_step].
  destruct (hint_write a'); [|agree_step]. agree_step; [apply agree_assert|].
  agree_step; [apply agree_modify; intros ? ? []; by constructor|]. apply write_slot_agree.
Qed.

(** ** Pointers *)

Lemma reset_agree n p : agree (paging_rel n) (paging_rel n) eq (win_reset p) (reset p).
Proof.
  unfold win_reset, reset. cbv zeta. destruct (_ <? 0); [agree_step|]. agree_step; [apply read_slot_agree|].
  agree_step; [destruct (_ =? 0); [agree_step|apply on_l1_agree, WinCacheThms.bump_agree]|agree_step].
Qed.

Lemma star_agree n p :
  0 ≤ n → agree (paging_rel (n + 7681)) (paging_rel n) eq (win_star p) (star (Bld := win_build) p).
Proof.
  intros Hn. unfold win_star, star. apply (agree_bind _ (paging_rel n) _ eq); [by apply deref_agree|].
  intros r _ <-. agree_step.
Qed.

Lemma ctor_agree n a size : agree (paging_rel n) (paging_rel n) eq (win_Aptr_ctor a size) (Aptr_ctor a size).
Proof.
  unfold win_Aptr_ctor, Aptr_ctor. agree_step; [values|]. cbv zeta. agree_step; [apply agree_assert|agree_step].
Qed.

Lemma in_slab_same n w s a : paging_rel n w s → win_in_slab w a = in_slab (Bld := win_build) s a.
Proof. intros []. unfold win_in_slab, in_slab. by rewrite same_capacity. Qed.

Lemma load_agree n a : agree (paging_rel n) (paging_rel n) eq (win_load_prm a) (load_prm (Bld := win_build) a).
Proof.
  intros w s Hws. unfold win_load_prm, load_prm. rewrite !bind_gets. cbn [id]. rewrite (in_slab_same n w s a Hws).
  destruct (in_slab s a); [|done]. split; [by destruct Hws|done].
Qed.
Lemma store_agree n a v :
  agree (paging_rel n) (paging_rel n) eq (win_store_prm a v) (store_prm (Bld := win_build) a v).
Proof.
  intros w s Hws. unfold win_store_prm, store_prm. rewrite !bind_gets. cbn [id]. rewrite (in_slab_same n w s a Hws).
  destruct (in_slab s a); [|done]. split; [done|]. destruct Hws. by constructor.
Qed.

(** ** Programs *)

Lemma on_suvm_agree {A} n n' (m : M wsuvm A) m' :
  agree (paging_rel n) (paging_rel n') eq m m' → agree (stores_rel n) (stores_rel n') eq (on_wsuvm m) (on_suvm m').
Proof. intros Hm. eapply agree_zoom; [exact Hm|by intros w s []|]. intros w s a b [_ E] Hab. by split. Qed.

Lemma var_agree n x : agree (stores_rel n) (stores_rel n) eq (win_var x) (var x).
Proof.
  unfold win_var, var. apply (agree_bind _ (stores_rel n) _ eq); [apply agree_gets; by intros w s [_ ->]|intros o _ <-].
  apply agree_defined. by destruct o; constructor.
Qed.
Lemma set_var_agree n x p : agree (stores_rel n) (stores_rel n) eq (win_set_var x p) (set_var x p).
Proof. apply agree_modify. intros w s [Hws E]. split; [done|]. simpl. by rewrite E. Qed.
Lemma drop_var_agree n x : agree (stores_rel n) (stores_rel n) eq (win_drop_var x) (drop_var x).
Proof. apply agree_modify. intros w s [Hws E]. split; [done|]. simpl. by rewrite E. Qed.

Lemma run_cmd_agree n c :
  0 ≤ n → agree (stores_rel (cmd_insertions c + n)) (stores_rel n) eq (win_run_cmd c) (run_cmd (Bld := win_build) c).
Proof.
  intros Hn. destruct c; cbn [cmd_insertions win_run_cmd run_cmd]; rewrite ?Z.add_0_l.
  - cmd_step n; [|cmd_step n; [apply set_var_agree|cmd_ret]].
    apply on_suvm_agree. agree_step; [values|apply ctor_agree].
  - cmd_step n; [apply var_agree|]. cmd_step n; [apply set_var_agree|cmd_ret].
  - cmd_step n; [apply var_agree|]. cmd_step n; [apply var_agree|].
    cmd_step n; [|cmd_step n; [apply set_var_agree|cmd_ret]]. apply on_suvm_agree. unfold win_assign, assign. agree_step; [apply reset_agree|agree_step].
  - cmd_step n; [apply var_agree|]. cmd_step n; [apply set_var_agree|cmd_ret].
  - rewrite Z.add_comm. cmd_step (n + 7681); [apply var_agree|].
    cmd_step n; [|cmd_step n; [apply set_var_agree|cmd_ret]]. apply on_suvm_agree.
    apply (agree_bind _ (paging_rel n) _ eq); [by apply star_agree|intros r _ <-]. agree_step; [apply load_agree|agree_step].
  - rewrite Z.add_comm. cmd_step (n + 7681); [apply var_agree|].
    cmd_step n; [|cmd_step n; [apply set_var_agree|cmd_ret]]. apply on_suvm_agree.
    apply (agree_bind _ (paging_rel n) _ eq); [by apply star_agree|intros r _ <-]. agree_step; [apply store_agree|agree_step].
  - cmd_step n; [apply var_agree|]. cmd_step n; [apply on_suvm_agree, reset_agree|].
    cmd_step n; [apply drop_var_agree|cmd_ret].
Qed.

(** ** Initialisation *)

Lemma slab_loop_agree n k : ∀ i, agree (paging_rel n) (paging_rel n) eq (win_slab_loop k i) (slab_loop k i).
Proof.
  induction k as [|k IH]; intros i; cbn [win_slab_loop slab_loop]; [agree_step|].
  agree_step; [values|]. agree_step; [changes|]. agree_step; [apply agree_assert|]. agree_step; [changes|]. apply IH.
Qed.

Lemma pool_agree {A} n (m : M heap A) : agree (paging_rel n) (paging_rel n) eq (on_wpool m) (on_pool m).
Proof.
  eapply (agree_zoom _ _ eq eq); [|by intros w s []|intros w s a b [] ->; by constructor].
  intros a b ->. by destruct (m b) as [[]|].
Qed.

(** The original is told where to leave the buffer it pins. *)
Lemma initialize_agree n ptr size slab_ptr garbage memory cmemory :
  n < 2 ^ 32 → (∀ i, 0 ≤ i < WIN_CACHE_CAPACITY * 10 → WinSync.clear_lock_byte (memory i) = 0) →
  (∀ i, 0 ≤ i < LLC_CAPACITY → WinSync.clear_lock_byte (cmemory i) = 0) →
  agree (λ w s, s = beside w) (paging_rel n) eq (win_initialize_aptr ptr size slab_ptr garbage memory cmemory)
    (initialize_aptr (Bld := win_build) ptr size true true slab_ptr garbage).
Proof.
  intros Hn Hm Hc. unfold win_initialize_aptr, initialize_aptr. rewrite same_capacity.
  assert (0 < WIN_CACHE_CAPACITY < 2 ^ 31) as Hcap by (split; reflexivity).
  intros w s ->. rewrite !bind_gets. cbn [id]. cbn [negb]. rewrite !orb_false_r. cbn [g_is_initialized beside].
  set (ok := negb _). destruct ok; [|done]. rewrite !bind_assert, !bind_modify by done. cbn [beside].
  set (w1 := mkWsuvm _ _ _ _ _ _ _ _ _ _ _ _ _ _). set (s1 := mkSuvm _ _ _ _ _ _ _ _ _ _ _ _ _ _ _).
  assert (paging_rel n w1 s1) as H1.
  { constructor; [by apply WinCacheThms.init_ported|by apply WinCryptoCache.crypto_init_ported]. }
  clearbody w1 s1.
  apply (agree_bind (paging_rel n) (paging_rel n) (paging_rel n) eq); [apply slab_loop_agree| |exact H1]. intros _ _ _. agree_step; [apply pool_agree|].
  agree_step; [apply agree_assert|]. intros w2 s2 []. split; [done|]. by constructor.
Qed.

End agreement.
