(* ===== verification/WinLibC.v ===== *)
(** * The C-style routines of the Windows port

    Models the routines at the end of [src/win/SUVM/suvm_lib/Aptr.cpp], which go
    through the port's paging layer, and shows that a program that calls them
    runs as with the original's routines, built with the port's cache. *)

From S2P Require Import Prelude Memory Ring Mem5 Agree Suvm Aptr AptrClient LibC.
From S2P Require PageCache CryptoCache SuvmThms WinSync WinPageCache WinCacheThms WinCryptoCache.
From S2P Require Import WinSuvm WinSuvmThms.

Section port.
Context `{WinSync.SgxSpin, Sgx}.

Definition win_range_in_slab (s : wsuvm) (addr n : Z) : bool :=
  (wslab s <=? addr) && (addr + n <=? wslab s + WIN_CACHE_CAPACITY * PAGE_SIZE).
Definition win_load_block (addr : Z) (n : nat) : M wsuvm (list Z) :=
  s ← gets id;
  if win_range_in_slab s addr (Z.of_nat n) then mret (load_bytes (wprm s) addr n) else fail EUndef.
Definition win_store_block (addr : Z) (l : list Z) : M wsuvm unit :=
  s ← gets id;
  if win_range_in_slab s addr (Z.of_nat (length l))
  then modify (λ s, set_wprm s (store_bytes (wprm s) addr l)) else fail EUndef.

Fixpoint win_memset_loop (n : nat) (c : Z) (aptr : Aptr) : M wsuvm Aptr :=
  match n with
  | O => mret aptr
  | S n' =>
      r ← win_star aptr;
      win_store_prm r.1 (u8 c);;
      win_memset_loop n' c (move_by 1 r.2)
  end.

Definition win_memset_aptr (dst c n : Z) : M wsuvm Z :=
  if n =? 0 then mret dst
  else
    aptr ← win_Aptr_ctor dst n;
    aptr ← win_memset_loop (Z.to_nat n) c (set_hint true aptr);
    _ ← win_reset aptr;
    mret dst.

Fixpoint win_memcpy_loop (n : nat) (dst src : Aptr) : M wsuvm (Aptr * Aptr) :=
  match n with
  | O => mret (dst, src)
  | S n' =>
      rs ← win_star src;
      v ← win_load_prm rs.1;
      rd ← win_star dst;
      win_store_prm rd.1 v;;
      win_memcpy_loop n' (move_by 1 rd.2) (move_by 1 rs.2)
  end.

Definition win_memcpy_aptr (dst0 src0 length : Z) : M wsuvm Z :=
  if (length =? 0) || (dst0 =? src0) then mret dst0
  else
    dst ← win_Aptr_ctor dst0 length;
    src ← win_Aptr_ctor src0 length;
    r ← win_memcpy_loop (Z.to_nat length) (set_hint true dst) src;
    _ ← win_reset r.2;
    _ ← win_reset r.1;
    mret dst0.

Fixpoint win_memcmp_loop (n : nat) (s1 s2 : Aptr) : M wsuvm (Z * Aptr * Aptr) :=
  match n with
  | O => mret (0, s1, s2)
  | S n' =>
      r1 ← win_star s1;
      u1 ← win_load_prm r1.1;
      r2 ← win_star s2;
      u2 ← win_load_prm r2.1;
      if negb (u1 =? u2) then mret (u1 - u2, r1.2, r2.2)
      else win_memcmp_loop n' (move_by 1 r1.2) (move_by 1 r2.2)
  end.

Definition win_memcmp_aptr_aptr (s1 s2 n : Z) : M wsuvm Z :=
  aptr_s1 ← win_Aptr_ctor s1 n;
  aptr_s2 ← win_Aptr_ctor s2 n;
  r ← win_memcmp_loop (Z.to_nat n) aptr_s1 aptr_s2;
  _ ← win_reset r.2;
  _ ← win_reset r.1.2;
  mret r.1.1.

Fixpoint win_memcmp_reg_loop (n : nat) (b : list Z) (i : nat) (s2 : Aptr) : M wsuvm (Z * Aptr) :=
  match n with
  | O => mret (0, s2)
  | S n' =>
      u1 ← reg_read b i;
      r2 ← win_star s2;
      u2 ← win_load_prm r2.1;
      if negb (u8 u1 =? u2) then mret (u8 u1 - u2, r2.2)
      else win_memcmp_reg_loop n' b (S i) (move_by 1 r2.2)
  end.

Definition win_memcmp_reg_aptr (s1 : list Z) (s2 n : Z) : M wsuvm Z :=
  aptr_s2 ← win_Aptr_ctor s2 n;
  r ← win_memcmp_reg_loop (Z.to_nat n) s1 0 aptr_s2;
  _ ← win_reset r.2;
  mret r.1.

Fixpoint win_strncmp_loop (n : nat) (b : list Z) (i : nat) (aptr : Aptr) : M wsuvm (Z * Aptr) :=
  match n with
  | O => mret (0, aptr)
  | S n' =>
      r ← win_star aptr;
      val ← win_load_prm r.1;
      c ← reg_read b i;
      if negb (val =? i8 c) then mret (if val <? u8 c then -1 else 1, r.2)
      else if val =? 0 then mret (0, r.2)
      else win_strncmp_loop n' b (S i) (move_by 1 r.2)
  end.

Definition win_strncmp_aptr (s1 : Z) (s2 : list Z) (n : Z) : M wsuvm Z :=
  aptr ← win_Aptr_ctor s1 n;
  r ← win_strncmp_loop (Z.to_nat n) s2 0 aptr;
  _ ← win_reset r.2;
  mret r.1.

Fixpoint win_memmove_reg_loop (fuel : nat) (length ctr : Z) (dst0 : list Z) (src : Aptr)
    : M wsuvm (list Z * Aptr) :=
  match fuel with
  | O => fail EFuel
  | S fuel' =>
      if 0 <? ctr then
        r ← win_star src;
        let left := SUB_PAGE_SIZE - offset (m_aptr r.2) in
        let at_ := Z.to_nat (u64 (length - ctr)) in
        if left <? ctr then
          l ← win_load_block r.1 (Z.to_nat left);
          dst0 ← reg_write dst0 at_ l;
          win_memmove_reg_loop fuel' length (ctr - left) dst0 (move_by left r.2)
        else
          l ← win_load_block r.1 (Z.to_nat ctr);
          dst0 ← reg_write dst0 at_ l;
          win_memmove_reg_loop fuel' length (ctr - ctr) dst0 r.2
      else mret (dst0, src)
  end.

Definition win_memmove_reg_aptr (dst0 : list Z) (src : Aptr) (length : Z) : M wsuvm (list Z * Aptr) :=
  let ctr := i32 length in
  win_memmove_reg_loop (S (Z.to_nat ctr)) length ctr dst0 src.

Fixpoint win_memmove_aptr_loop (fuel : nat) (length ctr : Z) (src0 : list Z) (dst : Aptr) : M wsuvm Aptr :=
  match fuel with
  | O => fail EFuel
  | S fuel' =>
      if 0 <? ctr then
        r ← win_star dst;
        let left := SUB_PAGE_SIZE - offset (m_aptr r.2) in
        let at_ := Z.to_nat (u64 (length - ctr)) in
        if left <? ctr then
          l ← reg_take src0 at_ (Z.to_nat left);
          win_store_block r.1 l;;
          win_memmove_aptr_loop fuel' length (ctr - left) src0 (move_by left r.2)
        else
          l ← reg_take src0 at_ (Z.to_nat ctr);
          win_store_block r.1 l;;
          win_memmove_aptr_loop fuel' length (ctr - ctr) src0 r.2
      else mret dst
  end.

Definition win_memmove_aptr_reg (dst0 : Aptr) (src0 : list Z) (length : Z) : M wsuvm unit :=
  let dst := set_hint true (do_copy dst0) in
  let ctr := i32 length in
  dst ← win_memmove_aptr_loop (S (Z.to_nat ctr)) length ctr src0 dst;
  _ ← win_reset dst;
  mret tt.

Definition win_memcpy_reg_aptr (dst0 : list Z) (src0 : Aptr) (length : Z) : M wsuvm (list Z * Aptr) :=
  win_memmove_reg_aptr dst0 src0 length.
Definition win_memcpy_aptr_reg (dst0 : Aptr) (src0 : list Z) (length : Z) : M wsuvm unit :=
  win_memmove_aptr_reg dst0 src0 length.
End port.

(** ** Programs over pointers and routines *)

(** A command over the pointers of a program, or a call of a routine: on
    positions of the pool, on bytes of ordinary memory, on pointers. *)
Inductive call :=
  | Pointer (c : cmd)
  | Memset (P c n : Z)
  | Memcpy (P Q n : Z)
  | Memcmp (P Q n : Z)
  | MemcmpReg (b : list Z) (P n : Z)
  | Strncmp (P : Z) (b : list Z) (n : Z)
  | ReadOut (b : list Z) (x : nat) (n : Z)
  | WriteIn (x : nat) (b : list Z) (n : Z).

Section run.
Context `{WinSync.SgxSpin, Sgx}.

Definition run_call `{Bld : Build} (c : call) : M store (list Z) :=
  base ← gets (λ st, g_base_pool_ptr st.1);
  match c with
  | Pointer c => run_cmd c
  | Memset P c n => _ ← on_suvm (memset_aptr (base + P) c n); mret []
  | Memcpy P Q n => _ ← on_suvm (memcpy_aptr (base + P) (base + Q) n); mret []
  | Memcmp P Q n => v ← on_suvm (memcmp_aptr_aptr (base + P) (base + Q) n); mret [v]
  | MemcmpReg b P n => v ← on_suvm (memcmp_reg_aptr b (base + P) n); mret [v]
  | Strncmp P b n => v ← on_suvm (strncmp_aptr (base + P) b n); mret [v]
  | ReadOut b x n => p ← var x; r ← on_suvm (memcpy_reg_aptr b p n); set_var x r.2;; mret r.1
  | WriteIn x b n => p ← var x; on_suvm (memcpy_aptr_reg p b n);; mret []
  end.

Definition win_run_call (c : call) : M win_store (list Z) :=
  base ← gets (λ st, wbase_pool_ptr st.1);
  match c with
  | Pointer c => win_run_cmd c
  | Memset P c n => _ ← on_wsuvm (win_memset_aptr (base + P) c n); mret []
  | Memcpy P Q n => _ ← on_wsuvm (win_memcpy_aptr (base + P) (base + Q) n); mret []
  | Memcmp P Q n => v ← on_wsuvm (win_memcmp_aptr_aptr (base + P) (base + Q) n); mret [v]
  | MemcmpReg b P n => v ← on_wsuvm (win_memcmp_reg_aptr b (base + P) n); mret [v]
  | Strncmp P b n => v ← on_wsuvm (win_strncmp_aptr (base + P) b n); mret [v]
  | ReadOut b x n => p ← win_var x; r ← on_wsuvm (win_memcpy_reg_aptr b p n); win_set_var x r.2;; mret r.1
  | WriteIn x b n => p ← win_var x; on_wsuvm (win_memcpy_aptr_reg p b n);; mret []
  end.

Fixpoint run_calls `{Bld : Build} (l : list call) : M store (list Z) :=
  match l with
  | [] => mret []
  | c :: l' => o ← run_call c; o' ← run_calls l'; mret (o ++ o')
  end.
Fixpoint win_run_calls (l : list call) : M win_store (list Z) :=
  match l with
  | [] => mret []
  | c :: l' => o ← win_run_call c; o' ← win_run_calls l'; mret (o ++ o')
  end.
End run.

(** The dereferences a call can make at most, each of which may insert 7681
    pages into the ring. *)
Definition call_derefs (c : call) : nat :=
  match c with
  | Pointer (Load _) | Pointer (Store _ _) => 1
  | Pointer _ => 0
  | Memset _ _ n | MemcmpReg _ _ n | Strncmp _ _ n => Z.to_nat n
  | Memcpy _ _ n | Memcmp _ _ n => 2 * Z.to_nat n
  | ReadOut _ _ n | WriteIn _ _ n => S (Z.to_nat (i32 n))
  end.
Definition derefs (l : list call) : nat := foldr (λ c n, (call_derefs c + n)%nat) 0%nat l.

Section agreement.
Context `{HL : WinSync.SgxSpinLaws} `{HS : Sgx}.

(** The state leaves room for [k] dereferences, and [j] more after them. *)
Context (j : nat).
Notation room k := (paging_rel (Z.of_nat (k + j) * 7681)).

Lemma room_star k p :
  agree (room (S k)) (room k) eq (win_star p) (star (Bld := win_build) p).
Proof.
  replace (Z.of_nat (S k + j) * 7681) with (Z.of_nat (k + j) * 7681 + 7681) by lia. apply star_agree. lia.
Qed.

Ltac star_step k := apply (agree_bind _ (room k) _ eq); [apply room_star|intros ? ? <-].

Lemma loop_end {A} k (m : M wsuvm A) m' : agree (room k) (room k) eq m m' → agree (room k) (room 0) eq m m'.
Proof. intros Hm. eapply paging_more; [exact Hm|lia]. Qed.
Ltac loop_end := apply loop_end; agree_step.
Ltac then_end := apply (agree_bind _ (room 0) _ eq); [|intros ? ? <-].
Ltac call_step :=
  match goal with |- agree (stores_rel ?n) _ _ _ _ => apply (agree_bind _ (stores_rel n) _ eq); [|intros ? ? <-] end.
Ltac last_call := apply (agree_bind _ (stores_rel (Z.of_nat j * 7681)) _ eq); [|intros ? ? <-; cmd_ret].

Lemma memset_loop_agree c n : ∀ p,
  agree (room n) (room 0) eq (win_memset_loop n c p) (memset_loop (Bld := win_build) n c p).
Proof.
  induction n as [|n IH]; intros p; cbn [win_memset_loop memset_loop]; [agree_step|].
  star_step n. agree_step; [apply store_agree|apply IH].
Qed.

Lemma memcpy_loop_agree n : ∀ p q,
  agree (room (2 * n)) (room 0) eq (win_memcpy_loop n p q) (memcpy_loop (Bld := win_build) n p q).
Proof.
  induction n as [|n IH]; intros p q; cbn [win_memcpy_loop memcpy_loop]; [agree_step|].
  replace (2 * S n)%nat with (S (S (2 * n))) by lia.
  star_step (S (2 * n)). agree_step; [apply load_agree|]. star_step (2 * n)%nat.
  agree_step; [apply store_agree|apply IH].
Qed.

Lemma memcmp_loop_agree n : ∀ p q,
  agree (room (2 * n)) (room 0) eq (win_memcmp_loop n p q) (memcmp_loop (Bld := win_build) n p q).
Proof.
  induction n as [|n IH]; intros p q; cbn [win_memcmp_loop memcmp_loop]; [agree_step|].
  replace (2 * S n)%nat with (S (S (2 * n))) by lia.
  star_step (S (2 * n)). agree_step; [apply load_agree|]. star_step (2 * n)%nat.
  agree_step; [apply load_agree|]. destruct (negb _); [loop_end|apply IH].
Qed.

Lemma reg_read_agree k b i : agree (room k) (room k) eq (reg_read b i) (reg_read b i).
Proof. apply agree_defined. by destruct (b !! i); constructor. Qed.
Lemma reg_write_agree k b i l : agree (room k) (room k) eq (reg_write b i l) (reg_write b i l).
Proof. unfold reg_write. destruct (decide _); agree_step. Qed.
Lemma reg_take_agree k b i n : agree (room k) (room k) eq (reg_take b i n) (reg_take b i n).
Proof. unfold reg_take. destruct (decide _); agree_step. Qed.

Lemma memcmp_reg_loop_agree n b : ∀ i q,
  agree (room n) (room 0) eq (win_memcmp_reg_loop n b i q) (memcmp_reg_loop (Bld := win_build) n b i q).
Proof.
  induction n as [|n IH]; intros i q; cbn [win_memcmp_reg_loop memcmp_reg_loop]; [agree_step|].
  agree_step; [apply reg_read_agree|]. star_step n. agree_step; [apply load_agree|].
  destruct (negb _); [loop_end|apply IH].
Qed.

Lemma strncmp_loop_agree n b : ∀ i q,
  agree (room n) (room 0) eq (win_strncmp_loop n b i q) (strncmp_loop (Bld := win_build) n b i q).
Proof.
  induction n as [|n IH]; intros i q; cbn [win_strncmp_loop strncmp_loop]; [agree_step|].
  star_step n. agree_step; [apply load_agree|]. agree_step; [apply reg_read_agree|].
  destruct (negb _); [loop_end|]. destruct (_ =? 0); [loop_end|apply IH].
Qed.

Lemma range_same n w s a k :
  paging_rel n w s → win_range_in_slab w a k = range_in_slab (Bld := win_build) s a k.
Proof. intros []. reflexivity. Qed.
Lemma load_block_agree n a k :
  agree (paging_rel n) (paging_rel n) eq (win_load_block a k) (load_block (Bld := win_build) a k).
Proof.
  intros w s Hws. unfold win_load_block, load_block. rewrite !bind_gets. cbn [id]. rewrite (range_same n w s _ _ Hws).
  destruct (range_in_slab _ _ _); [|done]. split; [by destruct Hws|done].
Qed.
Lemma store_block_agree n a l :
  agree (paging_rel n) (paging_rel n) eq (win_store_block a l) (store_block (Bld := win_build) a l).
Proof.
  intros w s Hws. unfold win_store_block, store_block. rewrite !bind_gets. cbn [id]. rewrite (range_same n w s _ _ Hws).
  destruct (range_in_slab _ _ _); [|done]. split; [done|]. destruct Hws. by constructor.
Qed.

Lemma memmove_reg_loop_agree N fuel : ∀ ctr b p,
  agree (room fuel) (room 0) eq (win_memmove_reg_loop fuel N ctr b p) (memmove_reg_loop (Bld := win_build) fuel N ctr b p).
Proof.
  induction fuel as [|k IH]; intros ctr b p; cbn [win_memmove_reg_loop memmove_reg_loop]; [agree_step|].
  destruct (0 <? ctr); [|loop_end]. star_step k. cbv zeta.
  destruct (_ <? ctr); (agree_step; [apply load_block_agree|agree_step; [apply reg_write_agree|apply IH]]).
Qed.

Lemma memmove_aptr_loop_agree N b fuel : ∀ ctr p,
  agree (room fuel) (room 0) eq (win_memmove_aptr_loop fuel N ctr b p) (memmove_aptr_loop (Bld := win_build) fuel N ctr b p).
Proof.
  induction fuel as [|k IH]; intros ctr p; cbn [win_memmove_aptr_loop memmove_aptr_loop]; [agree_step|].
  destruct (0 <? ctr); [|loop_end]. star_step k. cbv zeta.
  destruct (_ <? ctr); (agree_step; [apply reg_take_agree|agree_step; [apply store_block_agree|apply IH]]).
Qed.

(** ** The routines *)

Lemma memset_agree a c n :
  agree (room (Z.to_nat n)) (room 0) eq (win_memset_aptr a c n) (memset_aptr (Bld := win_build) a c n).
Proof.
  unfold win_memset_aptr, memset_aptr. destruct (n =? 0); [loop_end|]. agree_step; [apply ctor_agree|].
  then_end; [apply memset_loop_agree|]. agree_step; [apply reset_agree|agree_step].
Qed.

Lemma memcpy_agree a b n :
  agree (room (2 * Z.to_nat n)) (room 0) eq (win_memcpy_aptr a b n) (memcpy_aptr (Bld := win_build) a b n).
Proof.
  unfold win_memcpy_aptr, memcpy_aptr. destruct (_ || _); [loop_end|]. agree_step; [apply ctor_agree|].
  agree_step; [apply ctor_agree|]. then_end; [apply memcpy_loop_agree|].
  agree_step; [apply reset_agree|]. agree_step; [apply reset_agree|agree_step].
Qed.

Lemma memcmp_agree a b n :
  agree (room (2 * Z.to_nat n)) (room 0) eq (win_memcmp_aptr_aptr a b n) (memcmp_aptr_aptr (Bld := win_build) a b n).
Proof.
  unfold win_memcmp_aptr_aptr, memcmp_aptr_aptr. agree_step; [apply ctor_agree|].
  agree_step; [apply ctor_agree|]. then_end; [apply memcmp_loop_agree|].
  agree_step; [apply reset_agree|]. agree_step; [apply reset_agree|agree_step].
Qed.

Lemma memcmp_reg_agree b a n :
  agree (room (Z.to_nat n)) (room 0) eq (win_memcmp_reg_aptr b a n) (memcmp_reg_aptr (Bld := win_build) b a n).
Proof.
  unfold win_memcmp_reg_aptr, memcmp_reg_aptr. agree_step; [apply ctor_agree|].
  then_end; [apply memcmp_reg_loop_agree|]. agree_step; [apply reset_agree|agree_step].
Qed.

Lemma strncmp_agree a b n :
  agree (room (Z.to_nat n)) (room 0) eq (win_strncmp_aptr a b n) (strncmp_aptr (Bld := win_build) a b n).
Proof.
  unfold win_strncmp_aptr, strncmp_aptr. agree_step; [apply ctor_agree|].
  then_end; [apply strncmp_loop_agree|]. agree_step; [apply reset_agree|agree_step].
Qed.

Lemma memmove_aptr_agree p b n :
  agree (room (S (Z.to_nat (i32 n)))) (room 0) eq (win_memmove_aptr_reg p b n) (memmove_aptr_reg (Bld := win_build) p b n).
Proof.
  unfold win_memmove_aptr_reg, memmove_aptr_reg. cbv zeta. then_end; [apply memmove_aptr_loop_agree|].
  agree_step; [apply reset_agree|agree_step].
Qed.

Lemma run_call_agree c :
  agree (stores_rel (Z.of_nat (call_derefs c + j) * 7681)) (stores_rel (Z.of_nat j * 7681)) eq
    (win_run_call c) (run_call (Bld := win_build) c).
Proof.
  unfold win_run_call, run_call. call_step; [apply agree_gets; by intros w s [[] _]|].
  destruct c as [c| | | | | | |]; [|cbn [call_derefs]..].
  1: { replace (Z.of_nat (call_derefs (Pointer c) + j) * 7681) with (cmd_insertions c + Z.of_nat j * 7681)
         by (destruct c; simpl; lia).
       apply run_cmd_agree. lia. }
  1-5: last_call; apply on_suvm_agree;
    first [apply memset_agree|apply memcpy_agree|apply memcmp_agree|apply memcmp_reg_agree|apply strncmp_agree].
  - call_step; [apply var_agree|].
    apply (agree_bind _ (stores_rel (Z.of_nat j * 7681)) _ eq); [apply on_suvm_agree, memmove_reg_loop_agree|].
    intros r _ <-. call_step; [apply set_var_agree|cmd_ret].
  - call_step; [apply var_agree|]. last_call. apply on_suvm_agree, memmove_aptr_agree.
Qed.
End agreement.

Lemma run_calls_agree `{WinSync.SgxSpinLaws, Sgx} l :
  agree (stores_rel (Z.of_nat (derefs l) * 7681)) (stores_rel 0) eq (win_run_calls l) (run_calls (Bld := win_build) l).
Proof.
  induction l as [|c l IH]; cbn [win_run_calls run_calls derefs foldr]; [cmd_ret|].
  cmd_step (Z.of_nat (derefs l) * 7681); [apply run_call_agree|]. cmd_step 0; [exact IH|cmd_ret].
Qed.

(** C23. The Windows port's library is the original built with a cache of 30 MB.
    Initialised on memory whose padding bytes are 0, it runs every program over
    pointers and the C-style routines (making, copying, assigning, moving
    pointers, loading and storing through them, filling, copying and comparing
    blocks, moving bytes between the pool and ordinary memory) to the same bytes
    or the same failure as the original does with the same memory, random numbers
    and pool, as long as the program cannot insert 2^32 pages into the ring: 7681
    are allowed for every dereference. Nothing is said of a program that is
    undefined on the original. *)
Theorem port_programs_original `{WinSync.SgxSpinLaws, Sgx} w ptr size slab_ptr garbage memory cmemory l :
  (∀ i, 0 ≤ i < WIN_CACHE_CAPACITY * 10 → WinSync.clear_lock_byte (memory i) = 0) →
  (∀ i, 0 ≤ i < LLC_CAPACITY → WinSync.clear_lock_byte (cmemory i) = 0) → Z.of_nat (derefs l) * 7681 < 2 ^ 32 →
  let original := outcome ((rc ← on_suvm (initialize_aptr (Bld := win_build) ptr size true true slab_ptr garbage);
    o ← run_calls (Bld := win_build) l; mret (rc, o)) (beside w, ∅)) in
  original = Err EUndef ∨
  outcome ((rc ← on_wsuvm (win_initialize_aptr ptr size slab_ptr garbage memory cmemory);
            o ← win_run_calls l; mret (rc, o)) (w, ∅)) = original.
Proof.
  intros Hm Hc Hl original. right. unfold original. apply (agree_outcome (λ v t, t.1 = beside v.1 ∧ v.2 = t.2) (stores_rel 0)); [|done].
  apply (agree_bind _ (stores_rel (Z.of_nat (derefs l) * 7681)) _ eq).
  - eapply agree_zoom; [by apply initialize_agree|by intros v t []|]. intros v t a b [_ E] Hab. by split.
  - intros rc _ <-. cmd_step 0; [apply run_calls_agree|cmd_ret].
Qed.

Definition win_blank : wsuvm := mkWsuvm
  (WinPageCache.cache_init 0 0 1 0 (λ _, 0)) (WinCryptoCache.crypto_init 0 (λ _, 0)) [] 0 ∅ ∅ (mkHeap mem5_zero ∅)
  0 0 0 [] 0 0 false.

#[local] Existing Instances WinSync.toy_spin WinSync.toy_spin_laws SuvmThms.toy_sgx.

(** Loads and stores with aliasing, over the end of a page, and the page filled,
    copied, compared and read out between them. *)
Definition call_program : list call :=
  (Pointer <$> alias_program) ++
  [Memset 4096 7 200; Memcpy 8192 4096 200; Memcmp 8192 4096 100; Strncmp 8192 [7; 7; 0] 3;
   Pointer (New 5 8100 300); WriteIn 5 [1; 2; 3] 3; ReadOut [0; 0; 0] 5 3].

Lemma port_programs_original_witness :
  derefs call_program = 816%nat ∧
  let original := outcome ((rc ← on_suvm (initialize_aptr (Bld := win_build) 65536 65536 true true 8200 0);
    o ← run_calls (Bld := win_build) call_program; mret (rc, o)) (beside win_blank, ∅)) in
  original = Err EUndef ∨
  outcome ((rc ← on_wsuvm (win_initialize_aptr 65536 65536 8200 0 (λ _, 0) (λ _, 0));
            o ← win_run_calls call_program; mret (rc, o)) (win_blank, ∅)) = original.
Proof.
  split; [reflexivity|].
  apply (port_programs_original win_blank 65536 65536 8200 0 (λ _, 0) (λ _, 0) call_program);
    [intros i _; reflexivity|intros i _; reflexivity|reflexivity].
Defined.
