(* ===== verification/WinFace.v ===== *)
(** * The face verification server of the Windows port

    Models [src/win/SUVM/Face_Verification_Enclave] and the calls out of it in
    [Face_Verification_App/App.cpp].  The database and the histograms are those
    of [FaceHash] and [Lbp]; what differs is how the directory is read: entry by
    entry through calls the application answers, an interface here. *)

From Stdlib Require Import SpecFloat.
From S2P Require Import Prelude CString FaceHash Lbp FaceServer.
From S2P Require Queue FaceApp.

(** ** The enclave's calls out *)

(** What the application gives the enclave ([Face_Verification_Enclave.edl]).
    A null pointer is [None]. *)
Class Ocalls (F : Type) := {
  ocall_FindFirstFile : M F Z;
  ocall_FindNextFile : M F Z;
  ocall_GetKey : M F (option (list Z));
  ocall_readfile : Z → M F (list Z)
}.

(** ** The database and the histograms, as in [face_verification.cpp] *)

Section database.
Context `{ValueStore T}.

Definition my_malloc : Z → M native Z := FaceHash.my_malloc.
Definition my_realloc : Z → Z → Z → M native Z := FaceHash.my_realloc.
Definition hash_function : list Z → Z → option Z := FaceHash.hash_function.
Definition hash_init : Z → M (db T) unit := FaceHash.hash_init.
Definition hash_destroy : M (db T) unit := FaceHash.hash_destroy.
Definition hash_put : nat → list Z → list Z → bool → M (db T) unit := FaceHash.hash_put.
Definition hash_get : hash_t → list Z → M (db T) Z := FaceHash.hash_get.
Definition get_pattern : list Z → Z → Z → option Z := Lbp.get_pattern.
Definition is_pattern_uniform : Z → bool := Lbp.is_pattern_uniform.
Definition rotate : Z → Z → Z := Lbp.rotate.
Definition create_pattern2bin : list Z := Lbp.create_pattern2bin.
Definition histogram_distance : list Z → list Z → spec_float := Lbp.histogram_distance.
Definition calc_histogram : list Z → list Z → option (list Z) := Lbp.calc_histogram.
Definition do_one : list Z → list Z → M (db T) spec_float := FaceServer.do_one.

(** ** Filling the database *)

Section populate.
Context `{Ocalls F}.

Definition on_db {A} (m : M (db T) A) : M (db T * F) A := zoom fst (λ d s, (d, s.2)) m.
Definition on_os {A} (m : M F A) : M (db T * F) A := zoom snd (λ f s, (s.1, f)) m.

(** One turn of the loop up to the next [ocall_FindNextFile]; [atoi] of a null
    pointer is undefined.  [added] is the array [already_added], and
    [realloc_ok] says whether there is memory to double it. *)
Definition populate_entry (realloc_ok : bool) (p2b added : list Z) : M (db T * F) (list Z) :=
  k ← on_os ocall_GetKey;
  k ← defined k;
  n ← defined (atoi k);
  let key_int := u32 n in
  _ ← defined (hash_function k 1024);
  added ← (if Z.of_nat (length added) <=? key_int
           then massert realloc_ok;; mret (added ++ replicate (length added) 0)
           else mret added);
  seen ← defined (added !! Z.to_nat key_int);
  if negb (seen =? 0) then mret added
  else
    let added := <[Z.to_nat key_int := 1]> added in
    img ← on_os (ocall_readfile IMG_BYTES);
    histogram ← defined (calc_histogram img p2b);
    on_db (dup_loop (Z.to_nat DUP_NUM) 0 k histogram);;
    mret added.

(** [do ... while (retVal != 0)] *)
Fixpoint populate_loop (fuel : nat) (realloc_ok : bool) (p2b added : list Z) : M (db T * F) (list Z) :=
  match fuel with
  | O => fail EFuel
  | S fuel' =>
      added ← populate_entry realloc_ok p2b added;
      retVal ← on_os ocall_FindNextFile;
      if retVal =? 0 then mret added else populate_loop fuel' realloc_ok p2b added
  end.

Definition populate_database (fuel : nat) (img_ptr added_ptr : Z) (realloc_ok : bool) (p2b : list Z)
    : M (db T * F) Z :=
  massert (negb (img_ptr =? 0));;
  retVal ← on_os ocall_FindFirstFile;
  massert (negb (retVal =? -1));;
  massert (negb (added_ptr =? 0));;
  _ ← populate_loop fuel realloc_ok p2b (replicate (Z.to_nat (1024 * DUP_NUM)) 0);
  mret 0.

Definition ecall_train_server (fuel : nat) (index_ptr img_ptr added_ptr : Z) (realloc_ok : bool)
    : M (db T * F) Z :=
  on_db (hash_init index_ptr);;
  _ ← populate_database fuel img_ptr added_ptr realloc_ok create_pattern2bin;
  mret 0.
End populate.

(** A turn of the worker: here the enclave ends where a request does not
    decrypt. *)
Definition ecall_open_server `{AesCtr} : M (server T) bool := workload_turn true.
End database.

(** ** The application's answers *)

(** An entry of the directory, as [FindFirstFile] and [FindNextFile] report it:
    whether it is a directory, and what a file that opens holds. *)
Record find_data := mkFind { is_directory : bool; contents : option (list Z) }.

(** [ffd] and the entries the handle [hFind] has still to report; [listing] is
    what the directory holds, where it opens. *)
Record finder := mkFinder { listing : option (list find_data); ffd : find_data; rest : list find_data }.

Definition App_FindFirstFile : M finder Z :=
  s ← gets (λ s, s);
  match listing s with
  | None | Some [] => mret (-1)
  | Some (e :: l) =>
      modify (λ s, mkFinder (listing s) e l);;
      if is_directory e then mret 0 else mret (-1)
  end.

(** Past the last entry [ffd] stays. *)
Definition App_FindNextFile : M finder Z :=
  s ← gets (λ s, s);
  match rest s with
  | [] => mret 0
  | e :: l => modify (λ s, mkFinder (listing s) e l);; mret 1
  end.

Definition App_GetKey : M finder (option (list Z)) := mret None.

(** [exit(-1)] where the file does not open or has another length. *)
Definition App_readfile (nbytes : Z) : M finder (list Z) :=
  s ← gets (λ s, s);
  match contents (ffd s) with
  | None => fail EAbort
  | Some b => if Z.of_nat (length b) =? nbytes then mret b else fail EAbort
  end.

#[export] Instance App_ocalls : Ocalls finder := {|
  ocall_FindFirstFile := App_FindFirstFile;
  ocall_FindNextFile := App_FindNextFile;
  ocall_GetKey := App_GetKey;
  ocall_readfile := App_readfile
|}.

(** [App.cpp] and [Server.cpp] have [do_trusted_logic], [send_answer] and the
    callbacks of [FaceApp]. *)
Section server.
Context {T : Type}.
Definition do_trusted_logic : Z → Z → M (FaceApp.server_app T) Z := FaceApp.do_trusted_logic.
Definition send_answer : M (FaceApp.server_app T) (option (Z * Z)) := FaceApp.send_answer.
Definition echo_read_cb : Z → Z → list Z → M (FaceApp.server_app T) unit := FaceApp.echo_read_cb.
Definition echo_event_cb : Z → Z → Z → M (FaceApp.server_app T) unit := FaceApp.echo_event_cb.
Definition accept_conn_cb : M (FaceApp.server_app T) Z := FaceApp.accept_conn_cb.
Definition cb_func : nat → M (FaceApp.server_app T) unit := FaceApp.cb_func.
End server.

(** The queues of requests: [Queue.cpp] of the enclave and [App_Queue.cpp] of the
    application, which lock them each in its own way ([WinSync]). *)
Definition Queue_ctor : Z → Queue.Queue := Queue.Queue_ctor.
Definition enqueue : Z → M Queue.Queue Z := Queue.enqueue.
Definition dequeue : M Queue.Queue Z := Queue.dequeue.
Definition App_Queue_ctor : Z → Queue.Queue := Queue.Queue_ctor.
Definition App_enqueue : Z → M Queue.Queue Z := Queue.enqueue.
Definition App_dequeue : M Queue.Queue Z := Queue.dequeue.
