(* ===== verification/WinFaceThms.v ===== *)
(** * The Windows port's database, filled and not

    With an application that answers for the names of the files, the port's
    enclave fills its database as the original does.  With the port's own
    application it never does. *)

From S2P Require Import Prelude Agree CString.
From S2P Require Import WinFace FaceHash Lbp FaceServer.

#[local] Opaque IMG_BYTES Nat.mul.

(** ** An application that answers for the names *)

(** Its state is the entries from the current one on. *)
#[local] Instance naming_ocalls : WinFace.Ocalls (list dirent) := {|
  WinFace.ocall_FindFirstFile := l ← gets (λ l, l); mret (match l with [] => -1 | _ => 0 end);
  WinFace.ocall_FindNextFile :=
    l ← gets (λ l, l);
    match l with
    | _ :: _ :: _ => modify tail;; mret 1
    | _ => mret 0
    end;
  WinFace.ocall_GetKey :=
    l ← gets (λ l, l);
    match l with
    | [] => fail EUndef
    | d :: _ => mret (strtok 95 (d_name d))
    end;
  WinFace.ocall_readfile := λ _,
    l ← gets (λ l, l);
    match l with
    | [] => fail EUndef
    | d :: _ => match reads d with None => fail EAbort | Some c => read_image c [] end
    end
|}.

Lemma hash_loop_defined k h s : cstr k = Some s → is_Some (hash_loop k h).
Proof.
  revert h s. induction k as [|c k IH]; intros h s; simpl; [done|]. destruct (c =? 0); [done|].
  destruct (cstr k) as [s'|]; [|done]. intros _. by eapply IH.
Qed.

Lemma atoi_hash k n : atoi k = Some n → is_Some (WinFace.hash_function k 1024).
Proof.
  unfold atoi. destruct (cstr k) as [s|] eqn:E; [|done]. intros _.
  destruct (hash_loop_defined k 5381 s E) as [h Hh]. unfold WinFace.hash_function, hash_function. by rewrite Hh.
Qed.

Lemma atoi_range k n : atoi k = Some n → n < 2 ^ 31.
Proof.
  unfold atoi. destruct (cstr k); [|done]. simpl. case_decide as E; [|done]. intros [= <-].
  rewrite <- E. apply i32_range.
Qed.

(** Files whose names do not start with a negative number. *)
Definition plain_file (d : dirent) : Prop :=
  is_dir d = false ∧ ∀ k n, strtok 95 (d_name d) = Some k → atoi k = Some n → 0 ≤ n.

Section filling.
Context `{ValueStore T}.

(** The two enclaves have the same database, and the application is at [l]. *)
Definition at_entry (l : list dirent) (s : db T * list dirent) (d : db T) : Prop := s = (d, l).

(** A call out that leaves the application where it is. *)
Lemma os_step {A B C} l (m : M (list dirent) A) a (k : A → M (db T * list dirent) B) (m' : M (db T) C) R V :
  m l = Ok (a, l) → agree (at_entry l) R V (k a) m' → agree (at_entry l) R V (WinFace.on_os m ≫= k) m'.
Proof.
  intros Hm Hk. eapply agree_step_l; [|exact Hk]. intros s d ->. exists (d, l). split; [|done].
  unfold WinFace.on_os, zoom. simpl. by rewrite Hm.
Qed.

Lemma read_image_agree l chunks img :
  agree (at_entry l) (at_entry l) eq (WinFace.on_os (read_image chunks img)) (read_image chunks img).
Proof.
  revert img. induction chunks as [|chunk chunks IH]; intros img s d ->; simpl.
  - unfold WinFace.on_os, zoom. simpl. by destruct (_ <=? _).
  - unfold WinFace.on_os, zoom. simpl. destruct (_ <=? _); [done|]. destruct chunk; [done|].
    destruct (_ <=? _); [|done]. exact (IH _ (d, l) d eq_refl).
Qed.

Lemma readfile_agree d l n c :
  reads d = Some c →
  agree (at_entry (d :: l)) (at_entry (d :: l)) eq (WinFace.on_os (WinFace.ocall_readfile n)) (read_image c []).
Proof.
  intros Hc s t ->. pose proof (read_image_agree (d :: l) c [] (t, d :: l) t eq_refl) as Hr.
  unfold WinFace.on_os, zoom in *. cbn [WinFace.ocall_readfile naming_ocalls snd fst] in *.
  rewrite bind_gets, Hc. exact Hr.
Qed.

Lemma on_db_agree {A} l (m : M (db T) A) : agree (at_entry l) (at_entry l) eq (WinFace.on_db m) m.
Proof. intros s d ->. unfold WinFace.on_db, zoom. simpl. by destruct (m d) as [[a d']|e]. Qed.

Lemma entry_agree realloc_ok p2b d l added :
  plain_file d →
  agree (at_entry (d :: l)) (at_entry (d :: l)) eq (WinFace.populate_entry realloc_ok p2b added)
    (populate_entry realloc_ok p2b d added).
Proof.
  intros [Hd Hk]. unfold WinFace.populate_entry, populate_entry. rewrite Hd. set (R := at_entry (d :: l)).
  apply (os_step _ _ (strtok 95 (d_name d))); [done|].
  destruct (strtok 95 (d_name d)) as [k|] eqn:Ek; [|apply agree_fail].
  rewrite !bind_defined_Some.
  destruct (atoi k) as [n|] eqn:En; [|apply agree_fail].
  destruct (atoi_hash k n En) as [h Hh]. rewrite Hh, !bind_defined_Some.
  assert (0 ≤ n < 2 ^ 31) as Hn by (split; [by eapply Hk|by eapply atoi_range]).
  rewrite (u32_id n), (u64_id n) by lia. cbv zeta.
  apply (agree_bind R R R eq).
  { destruct (_ <=? _); [|by apply agree_ret]. apply (agree_bind R R R eq); [|intros; by apply agree_ret].
    intros s t Hst. by destruct realloc_ok. }
  intros added' _ <-. rewrite (proj2 (Z.ltb_ge n 0)) by lia.
  apply (agree_bind R R R eq); [destruct (added' !! _); [by apply agree_ret|apply agree_fail]|].
  intros seen _ <-. destruct (negb _); [by apply agree_ret|].
  destruct (reads d) as [c|] eqn:Ec.
  - rewrite bind_value. apply (agree_bind R R R eq); [by apply readfile_agree|]. intros img _ <-.
    apply (agree_bind R R R eq); [|intros histogram _ <-].
    + unfold WinFace.calc_histogram. destruct (calc_histogram img p2b); [by apply agree_ret|apply agree_fail].
    + apply (agree_bind R R R eq); [apply on_db_agree|]. intros _ _ _. by apply agree_ret.
  - intros s t ->. rewrite (bind_Err _ _ _ EAbort); [done|].
    unfold WinFace.on_os, zoom. cbn [WinFace.ocall_readfile naming_ocalls snd]. by rewrite bind_gets, Ec.
Qed.

(** The databases are the same, wherever the application is. *)
Definition same_db (s : db T * list dirent) (d : db T) : Prop := s.1 = d.

Lemma loop_agree realloc_ok p2b l : ∀ d fuel added, Forall plain_file (d :: l) → (length l < fuel)%nat →
  agree (at_entry (d :: l)) same_db eq (WinFace.populate_loop fuel realloc_ok p2b added)
    (populate_loop realloc_ok p2b (d :: l) added).
Proof.
  induction l as [|d' l IH]; intros d fuel added [Hd Hl]%Forall_cons Hf;
    (destruct fuel as [|fuel]; [simpl in Hf; lia|]); cbn [WinFace.populate_loop populate_loop];
    (eapply agree_bind; [by apply entry_agree|]); intros added' _ <-.
  - apply (os_step _ _ 0); [done|]. intros s t ->. done.
  - eapply (agree_step_l _ (at_entry (d' :: l)) _ _ _ 1).
    + intros s t ->. exists (t, d' :: l). done.
    + change (1 =? 0) with false. apply (IH d' fuel added' Hl). simpl in Hf. lia.
Qed.

Lemma database_agree fuel img_ptr added_ptr realloc_ok p2b dir :
  dir ≠ [] → Forall plain_file dir → (length dir ≤ fuel)%nat →
  agree (at_entry dir) same_db eq (WinFace.populate_database fuel img_ptr added_ptr realloc_ok p2b)
    (populate_database img_ptr added_ptr realloc_ok (Some dir) p2b).
Proof.
  intros Hne Hl Hf. destruct dir as [|d l]; [done|]. set (R := at_entry (d :: l)).
  assert (∀ b, agree R R eq (massert b) (massert b)) as Hassert by (intros b s t Hst; by destruct b).
  apply (agree_bind R R _ eq); [apply Hassert|]. intros _ _ _.
  apply (os_step _ _ 0); [done|]. change (massert (negb (0 =? -1))) with (mret (M := M (db T * list dirent)) tt).
  rewrite !bind_value.
  apply (agree_bind R R _ eq); [apply Hassert|]. intros _ _ _.
  apply (agree_bind R same_db _ eq); [by apply loop_agree|]. intros _ _ _. by apply agree_ret.
Qed.
End filling.

(** ** Theorems *)

(** The end of a run, what the application keeps left aside. *)
Definition forget_os {A D F} (r : res (A * (D * F))) : res (A * D) :=
  match r with Ok (a, s) => Ok (a, s.1) | Err e => Err e end.

Section theorems.
Context `{ValueStore T}.

(** The port's enclave, under an application that answers with the names of the
    files, fills the database as the original does on the same files, and fails
    where it does. *)
Theorem port_fills_database fuel img_ptr added_ptr realloc_ok p2b dir d :
  dir ≠ [] → Forall plain_file dir → (length dir ≤ fuel)%nat →
  forget_os (WinFace.populate_database fuel img_ptr added_ptr realloc_ok p2b (d, dir)) =
    populate_database img_ptr added_ptr realloc_ok (Some dir) p2b d.
Proof.
  intros Hne Hl Hf.
  pose proof (database_agree fuel img_ptr added_ptr realloc_ok p2b dir Hne Hl Hf (d, dir) d eq_refl) as Ha.
  destruct (WinFace.populate_database _ _ _ _ _ _) as [[a s]|e], (populate_database _ _ _ _ _ _) as [[b d']|e'];
    try done; simpl.
  - destruct Ha as [-> <-]. done.
  - by rewrite Ha.
Qed.

(** Under the port's own application it never is: [ocall_GetKey] answers NULL
    for every file.  Where the directory opens, the enclave takes [atoi] of it;
    where it does not, or there is no memory, it aborts. *)
Theorem port_never_fills_database fuel img_ptr added_ptr realloc_ok p2b (d : db T) (os : WinFace.finder) :
  (0 < fuel)%nat →
  WinFace.populate_database fuel img_ptr added_ptr realloc_ok p2b (d, os) = Err EAbort ∨
  WinFace.populate_database fuel img_ptr added_ptr realloc_ok p2b (d, os) = Err EUndef.
Proof.
  intros Hf. destruct fuel as [|fuel]; [lia|]. unfold WinFace.populate_database.
  destruct (negb (img_ptr =? 0)); [rewrite bind_assert by done|by left].
  assert (∃ r os', WinFace.App_FindFirstFile os = Ok (r, os')) as (r & os' & Hrun).
  { unfold WinFace.App_FindFirstFile. rewrite bind_gets.
    destruct (WinFace.listing os) as [[|e l]|]; [by eexists _, _| |by eexists _, _]. rewrite bind_modify.
    destruct (WinFace.is_directory e); by eexists _, _. }
  rewrite (bind_Ok _ _ _ r (d, os')) by (unfold WinFace.on_os, zoom; simpl; by rewrite Hrun).
  destruct (negb (r =? -1)); [rewrite bind_assert by done|by left].
  destruct (negb (added_ptr =? 0)); [rewrite bind_assert by done|by left]. right. reflexivity.
Qed.
End theorems.
