(* ===== verification/WinLaunch.v ===== *)
(** * Starting an enclave on Windows

    [initialize_enclave], [print_error_message] and [query_sgx_status] of
    [src/win/SUVM/Face_Verification_App/App.cpp] and [App_Test/App_Test.cpp], as
    compiled for Windows: the token's file is opened once, for reading and
    writing, and the new token is written over the old one. *)

From Stdlib Require Import String Ascii.
From S2P Require Import Prelude CString Rpc Launch LaunchThms.

(** [MAX_PATH] of the Windows headers. *)
Definition WIN_MAX_PATH : nat := 260.
#[global] Arguments WIN_MAX_PATH : simpl never.

(** [sgx_enable_device] and what it tells of the device. *)
Class SgxDevice := {
  sgx_enable_device : Z * Z;
  SGX_ENABLED : Z;
  SGX_DISABLED_REBOOT_REQUIRED : Z;
  SGX_DISABLED_LEGACY_OS : Z;
  SGX_DISABLED : Z;
  SGX_DISABLED_SCI_AVAILABLE : Z;
  SGX_DISABLED_MANUAL_ENABLE : Z;
  SGX_DISABLED_HYPERV_ENABLED : Z;
  SGX_DISABLED_UNSUPPORTED_CPU : Z
}.

Section port.
Context `{SgxErrors, Host}.

Definition win_errlist : list errlist_entry :=
  sgx_errlist ++ [mkEntry SGX_ERROR_NDEBUG_ENCLAVE
    "The enclave is signed as product enclave, and can not be created as debuggable enclave." None].

Definition win_print_error_message (status : Z) : M world unit :=
  print_error_in win_errlist (λ _, chars "Error: Unexpected error occurred." ++ newline) status.

(** [strncpy_s] and [strncat_s] with the buffer's size: a string that does not
    fit ends the program. *)
Definition fits (s : list Z) : M world (list Z) :=
  if decide (length s < WIN_MAX_PATH)%nat then mret s else fail EAbort.

(** A path with a drive is whole; any other is from the directory the process is
    in. *)
Definition win_resolve (cwd path : list Z) : list Z :=
  match path with
  | _ :: 58 :: _ => path
  | _ => cwd ++ chars "\" ++ path
  end.

Section program.
Context (cwd : list Z) (ENCLAVE_FILENAME TOKEN_FILENAME : string).

Definition win_path : M world (list Z) :=
  match local_appdata with
  | None => fits (chars TOKEN_FILENAME)
  | Some token_path => fits (token_path ++ chars "\" ++ chars TOKEN_FILENAME)
  end.

(** [CreateFileA(.., GENERIC_READ | GENERIC_WRITE, .., OPEN_ALWAYS, ..)]: the
    handle, and the file where there was none. *)
Definition create_file (path : list Z) : M world bool :=
  if may_read path && may_write path then
    modify (λ w, match files w !! path with Some _ => w | None => set_file path [] w end);;
    mret true
  else mret false.

Definition read_file (path : list Z) (n : nat) : M world (list Z) :=
  f ← gets (λ w, files w !! path); mret (take n (default [] f)).

(** [SetFilePointer(.., 0, .., FILE_BEGIN)] and [WriteFile]: what follows the
    bytes written stays. *)
Definition write_file (path bytes : list Z) : M world nat :=
  let done := take (room path) bytes in
  modify (λ w, set_file path (done ++ drop (length done) (default [] (files w !! path))) w);;
  mret (length done).

Definition win_read_token (path : list Z) (token_handler : bool) : M world (list Z) :=
  let token := replicate sizeof_token 0 in
  if token_handler then
    read ← read_file (win_resolve cwd path) sizeof_token;
    let read_num := length read in
    let token := read ++ drop read_num token in
    if negb (read_num =? 0)%nat && negb (read_num =? sizeof_token)%nat then
      warn "Warning: Invalid launch token read from " path;;
      mret (replicate sizeof_token 0)
    else mret token
  else
    warn "Warning: Failed to create/open the launch token file " path;;
    mret token.

Definition win_save_token (path token : list Z) : M world unit :=
  write_num ← write_file (win_resolve cwd path) token;
  if (write_num =? sizeof_token)%nat then mret tt
  else warn "Warning: Failed to save launch token to " path.

Definition win_initialize_enclave : M world Z :=
  path ← win_path;
  token_handler ← create_file (win_resolve cwd path);
  token ← win_read_token path token_handler;
  r ← load (win_resolve cwd (chars ENCLAVE_FILENAME)) token;
  if negb (ret r =? SGX_SUCCESS) then
    win_print_error_message (ret r);;
    mret (-1)
  else if (updated r =? 0) || negb token_handler then mret 0
  else win_save_token path (token_out r);; mret 0.
End program.

Definition app_initialize_enclave (cwd : list Z) : M world Z :=
  win_initialize_enclave cwd "Face_Verification_Enclave.signed.dll" "Face_Verification_Enclave.token".

(** The same sources compiled elsewhere take the other branch of each [#ifdef]. *)
Definition app_gnuc_initialize_enclave (cwd : list Z) : M world Z :=
  initialize_enclave cwd "enclave.signed.so" "enclave.token" win_print_error_message.

Definition test_errlist : list errlist_entry := win_errlist.
Definition test_print_error_message : Z → M world unit := win_print_error_message.
Definition test_initialize_enclave (cwd : list Z) : M world Z :=
  win_initialize_enclave cwd "Enclave_Test.signed.dll" "Enclave_Test.token".

Definition test_gnuc_initialize_enclave (cwd : list Z) : M world Z :=
  initialize_enclave cwd "enclave.signed.so" "enclave.token" test_print_error_message.

(** ** Is there a device? *)

Context `{SgxDevice}.

Definition say (s : string) : M world Z := printf (chars s ++ newline);; mret (-1).

Definition query_sgx_status : M world Z :=
  let '(sgx_ret, status) := sgx_enable_device in
  if negb (sgx_ret =? SGX_SUCCESS) then say "Failed to get SGX device status."
  else if status =? SGX_ENABLED then mret 0
  else if status =? SGX_DISABLED_REBOOT_REQUIRED then
    say "SGX device has been enabled. Please reboot your machine."
  else if status =? SGX_DISABLED_LEGACY_OS then
    say "SGX device can't be enabled on an OS that doesn't support EFI interface."
  else if status =? SGX_DISABLED then
    say "SGX is not enabled on this platform. More details are unavailable."
  else if status =? SGX_DISABLED_SCI_AVAILABLE then
    say "SGX device can be enabled by a Software Control Interface."
  else if status =? SGX_DISABLED_MANUAL_ENABLE then
    say "SGX device can be enabled manually in the BIOS setup."
  else if status =? SGX_DISABLED_HYPERV_ENABLED then
    say "Detected an unsupported version of Windows* 10 with Hyper-V enabled."
  else if status =? SGX_DISABLED_UNSUPPORTED_CPU then
    say "SGX is not supported by this CPU."
  else say "Unexpected error.".

Definition test_query_sgx_status : M world Z := query_sgx_status.
End port.

(** ** Theorems *)

Lemma fits_ok {A} s (k : list Z → M world A) w :
  (length s < WIN_MAX_PATH)%nat → (fits s ≫= k) w = k s w.
Proof. intros. unfold fits. by rewrite decide_True. Qed.

Section laws.
Context `{HostLaws} `{!SgxErrors}.
Context (cwd : list Z) (ENCLAVE TOKEN : string).

(** The path of the file of the token, where its name fits the buffer. *)
Definition win_token_file : list Z :=
  match local_appdata with Some d => d ++ chars "\" ++ chars TOKEN | None => chars TOKEN end.
Definition name_fits : Prop := (length win_token_file < WIN_MAX_PATH)%nat.

Lemma win_path_ok {A} (k : list Z → M world A) w : name_fits → (win_path TOKEN ≫= k) w = k win_token_file w.
Proof.
  unfold name_fits, win_path, win_token_file. intros Hl. destruct local_appdata; by rewrite fits_ok.
Qed.

(** A path too long for the buffer ends the program before anything is done. *)
Lemma win_path_long w : ¬ name_fits → win_initialize_enclave cwd ENCLAVE TOKEN w = Err EAbort.
Proof.
  unfold name_fits, win_token_file, win_initialize_enclave, win_path. intros Hl. apply bind_Err. unfold fits.
  destruct local_appdata; by rewrite decide_False.
Qed.

(** The bytes of a file that can be opened, and the token a start finds there. *)
Definition opens (path : list Z) : bool := may_read path && may_write path.
Definition old_bytes (w : world) (path : list Z) : list Z := default [] (files w !! path).
Definition win_saved (w : world) (path : list Z) : list Z :=
  if opens path then held (old_bytes w path) else replicate sizeof_token 0.
Definition win_answer (w : world) (path : list Z) : created :=
  sgx_create_enclave (calls w) (win_resolve cwd (chars ENCLAVE)) (win_saved w path).

Lemma win_saved_length w path : length (win_saved w path) = sizeof_token.
Proof.
  unfold win_saved, held. destruct (opens _); [|apply length_replicate]. case_decide; [|apply length_replicate].
  rewrite length_take. lia.
Qed.

(** The file after a start whose token is saved. *)
Definition overwritten (w : world) (path token : list Z) : list Z :=
  take (room path) token ++ drop (length (take (room path) token)) (old_bytes w path).

Lemma win_read_ok w name :
  let path := win_resolve cwd name in
  ∃ F msgs, (b ← create_file path; t ← win_read_token cwd name b; mret (b, t)) w =
    Ok ((opens path, win_saved w path), mkWorld F (out w ++ msgs) (global_eid w) (calls w)) ∧
    (opens path = true → default [] (F !! path) = old_bytes w path).
Proof.
  cbv zeta. unfold create_file, win_read_token, win_saved, opens, read_file. set (path := win_resolve cwd name).
  destruct (may_read path && may_write path) eqn:Eo.
  - set (w1 := match files w !! path with Some _ => w | None => set_file path [] w end).
    assert (out w1 = out w ∧ global_eid w1 = global_eid w ∧ calls w1 = calls w ∧
      default [] (files w1 !! path) = old_bytes w path) as (E1 & E2 & E3 & E4).
    { unfold w1, old_bytes. destruct (files w !! path) as [b|] eqn:E; [by rewrite E|]. simpl. by rewrite lookup_insert_eq. }
    rewrite bind_assoc, bind_modify, bind_ret, !bind_assoc, bind_gets. fold w1. cbv beta. rewrite E4. cbn [from_option id].
    set (b := old_bytes w path) in *. unfold held. rewrite bind_ret, length_take.
    assert (∀ msgs, mkWorld (files w1) (out w1 ++ msgs) (global_eid w1) (calls w1) =
      mkWorld (files w1) (out w ++ msgs) (global_eid w) (calls w)) as Hw by (intros; by rewrite E1, E2, E3).
    destruct (decide (sizeof_token ≤ length b)%nat) as [Hl|Hl].
    + rewrite Nat.min_l, Nat.eqb_refl, andb_false_r, bind_ret, drop_replicate, Nat.sub_diag, app_nil_r by done.
      exists (files w1), []. rewrite <- Hw, app_nil_r. by destruct w1.
    + rewrite Nat.min_r, (proj2 (Nat.eqb_neq (length b) sizeof_token)), andb_true_r by lia.
      destruct (Nat.eqb_spec (length b) 0) as [E|E]; cbn [negb].
      * apply nil_length_inv in E. rewrite E, firstn_nil. cbn [length drop app]. rewrite bind_ret.
        exists (files w1), []. rewrite <- Hw, app_nil_r. split; [by destruct w1|congruence].
      * exists (files w1), (warning "Warning: Invalid launch token read from " name). rewrite <- Hw. done.
  - exists (files w), (warning "Warning: Failed to create/open the launch token file " name). done.
Qed.

Lemma bind_pair {A B C} (m : M world A) (f : A → M world B) (k : A → B → M world C) w a b w' :
  (x ← m; y ← f x; mret (x, y)) w = Ok ((a, b), w') → (x ← m; y ← f x; k x y) w = k a b w'.
Proof.
  unfold mbind, M_bind. destruct (m w) as [[x w1]|]; [|done]. destruct (f x w1) as [[y w2]|]; [|done].
  by intros [= -> -> ->].
Qed.

(** What a start does: the call of the loader, and the file it leaves. *)
Lemma win_start_ok w :
  name_fits →
  let path := win_resolve cwd win_token_file in let c := win_answer w path in
  ∃ w', win_initialize_enclave cwd ENCLAVE TOKEN w = Ok (if ret c =? SGX_SUCCESS then 0 else -1, w') ∧
    calls w' = calls w ++ [(win_resolve cwd (chars ENCLAVE), win_saved w path)] ∧
    (opens path = true → old_bytes w' path =
      if (ret c =? SGX_SUCCESS) && negb (updated c =? 0) then overwritten w path (token_out c) else old_bytes w path).
Proof.
  intros Hfit path c. destruct (win_read_ok w win_token_file) as (F & msgs & Hrun & HF).
  fold path in Hrun, HF. unfold win_initialize_enclave. rewrite win_path_ok by done. fold path.
  rewrite (bind_pair _ _ _ _ _ _ _ Hrun). unfold load. rewrite bind_assoc, bind_gets, bind_assoc, bind_modify, bind_ret.
  cbn [calls files out global_eid]. change (sgx_create_enclave _ _ _) with c.
  destruct (ret c =? SGX_SUCCESS); cbn [negb andb].
  - destruct (updated c =? 0); cbn [negb orb]; [eexists; split; [reflexivity|]; split; [done|exact HF]|].
    destruct (opens path); cbn [negb]; [|by eexists]. specialize (HF eq_refl).
    unfold win_save_token. fold path. unfold write_file. rewrite !bind_assoc, bind_modify, bind_ret. unfold set_file.
    cbn [files out global_eid calls]. rewrite HF.
    destruct (_ =? sizeof_token)%nat; eexists; (split; [reflexivity|]); (split; [reflexivity|]); intros _;
      unfold old_bytes at 1; simpl; by rewrite lookup_insert_eq.
  - unfold win_print_error_message. rewrite (bind_Ok _ _ _ tt _ (print_error_in_ok _ _ _ _)).
    eexists. split; [reflexivity|]. split; [reflexivity|exact HF].
Qed.

(** A whole token in the file, and a new one saved over it as far as the disk
    has room: the next start gives the loader the new one where there is room
    for it, and otherwise one that begins with the bytes of the new one and ends
    with those of the old. *)
Theorem win_token_saved w :
  let file := win_resolve cwd win_token_file in
  name_fits → opens file = true → (sizeof_token ≤ length (old_bytes w file))%nat →
  let c := win_answer w file in
  ret c = SGX_SUCCESS → updated c ≠ 0 →
  ∃ w1 r w2, win_initialize_enclave cwd ENCLAVE TOKEN w = Ok (0, w1) ∧ win_initialize_enclave cwd ENCLAVE TOKEN w1 = Ok (r, w2) ∧
    snd <$> calls w2 = (snd <$> calls w) ++ [win_saved w file;
      take (room file) (token_out c) ++ drop (room file) (win_saved w file)].
Proof.
  intros file Hfit Ho Hl c Hret Hup. destruct (win_start_ok w Hfit) as (w1 & R1 & C1 & F1).
  destruct (win_start_ok w1 Hfit) as (w2 & R2 & C2 & _). fold file in R1, C1, F1, R2, C2. fold c in R1, F1.
  rewrite Hret, Z.eqb_refl in R1, F1. rewrite (proj2 (Z.eqb_neq _ 0) Hup) in F1. cbn [andb negb] in F1.
  eexists w1, _, w2. split; [exact R1|]. split; [exact R2|]. rewrite C2, C1, !fmap_app, <- app_assoc. f_equal. cbn [fmap list_fmap app snd].
  do 2 f_equal. specialize (F1 Ho). unfold win_saved at 1. rewrite Ho, F1. unfold overwritten.
  assert (length (token_out c) = sizeof_token) as Htl by (unfold c, win_answer; rewrite token_length; apply win_saved_length).
  unfold win_saved. rewrite Ho. unfold held. set (b := old_bytes w file) in *. set (n := room file).
  rewrite length_take, Htl. rewrite (decide_True (P := (sizeof_token ≤ length b)%nat)) by done.
  rewrite decide_True by (rewrite length_app, length_take, length_drop; lia).
  destruct (decide (n ≤ sizeof_token)%nat) as [Hn|Hn].
  - rewrite Nat.min_l by done. rewrite take_app, firstn_firstn, Nat.min_r by lia. f_equal.
    rewrite length_take, Htl, Nat.min_l by lia. by rewrite skipn_firstn_comm.
  - rewrite (firstn_all2 (token_out c)) by lia. rewrite Nat.min_r by lia.
    rewrite take_app_length' by lia. rewrite (drop_ge (take _ b)) by (rewrite length_take; lia). by rewrite app_nil_r.
Qed.
End laws.

(** A loader whose tokens are all ones, then all twos. *)
Definition ones_host (n : nat) : Host := {|
  sgx_create_enclave cs _ token := mkCreated 0 1 (replicate (length token) (1 + Z.of_nat (length cs))) 7;
  pw_dir := None;
  local_appdata := Some (chars "C:");
  may_read _ := true;
  may_write _ := true;
  room _ := n
|}.
#[export] Instance ones_host_laws n : @HostLaws (ones_host n).
Proof. constructor. intros. apply length_replicate. Qed.

(** A disk with room for 3 bytes: the second start is given a mixture. *)
Lemma win_token_saved_witness :
  ∃ w1 r w2, let w := mkWorld {[chars "C:\Enclave_Test.token" := replicate 1024 9]} [] 0 [] in
    @win_initialize_enclave toy_errors (ones_host 3) (chars "D:") "Enclave_Test.signed.dll" "Enclave_Test.token" w = Ok (0, w1) ∧
    @win_initialize_enclave toy_errors (ones_host 3) (chars "D:") "Enclave_Test.signed.dll" "Enclave_Test.token" w1 = Ok (r, w2) ∧
    snd <$> calls w2 = [replicate 1024 9; [1; 1; 1] ++ replicate 1021 9].
Proof.
  destruct (@win_token_saved (ones_host 3) _ toy_errors (chars "D:") "Enclave_Test.signed.dll" "Enclave_Test.token"
    (mkWorld {[chars "C:\Enclave_Test.token" := replicate 1024 9]} [] 0 [])) as (w1 & r & w2 & H1 & H2 & H3).
  - vm_compute. lia.
  - reflexivity.
  - vm_compute. lia.
  - reflexivity.
  - discriminate.
  - exists w1, r, w2. split; [exact H1|]. split; [exact H2|]. rewrite H3. vm_compute. reflexivity.
Defined.
